(* ===== verification/_CoqProject ===== *)
-Q . S2P
Prelude.v
Api.v
Mailbox.v
Store.v
StoreFacts.v
StoreProps.v
Watchers.v
WatcherFacts.v
WatcherProps.v
Hub.v
HubProps.v
Queue.v
QueueFacts.v
QueueProps.v
Config.v
ConfigProps.v
Kube.v
Topology.v
TopologyFacts.v
TopologyProps.v
Evidence.v
EvidenceProps.v
Grpc.v
GrpcProps.v
Delivery.v
DeliveryFacts.v
DeliveryProps.v
Work.v
WorkProps.v
Admission.v
AdmissionProps.v
Settings.v
SettingsProps.v
Observer.v
ObserverFacts.v
Collection.v
CollectionProps.v
Events.v
EventsFacts.v
EventsProps.v
Connection.v
ConnectionProps.v
Cache.v
CacheProps.v
Watch.v
WatchProps.v
Requests.v
Probing.v
ProbingProps.v
Observe.v
ObserveProps.v
Informers.v
System.v
SystemFacts.v
SystemNotices.v
SystemProps.v
Whole.v
WholeFacts.v
WholeProps.v
Status.v
StatusProps.v
Lifecycle.v
LifecycleProps.v
Plugin.v
Metrics.v
Credentials.v
CredentialsProps.v
Command.v
CommandProps.v
Http.v
HttpProps.v
Frontend.v
FrontendProps.v
Runtime.v
RuntimeProps.v
Process.v
ProcessProps.v
Streams.v
Samples.v
SamplesProps.v
