(* ===== verification/Prelude.v ===== *)
(** * Verification of cnpg-connect-plugin

    cnpg-connect-plugin observes CloudNativePG clusters and tells database
    clients, over gRPC, which instance is the primary and which standbys may be
    used.  The program must never route a client to an instance it cannot vouch
    for: every snapshot expires, every observation is checked against the
    metadata that is current when it is published, and every failure closes the
    route.  This library models the program's Go code as executable Rocq
    functions and proves that it does so.

    ** The parts and the files

    - [Prelude]: machine integers and time, maps and counting, the state monad in
      which a section of a Go mutex is written, sorting, tactics and hint bases.
    - [Api]: src/api/v1/types.go, the snapshot and its parts.
    - [Mailbox], [Store], [Watchers]: src/internal/discovery/publication.go and
      store.go.  The store keeps one record per cluster with its commit order and
      revision, the watchers of each cluster and the demand leases of unary
      clients.  Each critical section of [Store.mu] is one function of [State
      Store]; what the code does after unlocking (deliveries, the demand handler)
      is returned.  [Watchers] adds the subscribers' mailboxes and the deliveries
      in flight and steps them in any order.  [StoreFacts] and [WatcherFacts] hold
      the invariants; [StoreProps] and [WatcherProps] the theorems.
    - [Hub]: the exported operations of store.go with their deliveries (Put, Delete,
      Get, Expire, Subscribe and the cancel function), and the contract of topics
      they implement; [HubProps].
    - [Queue]: src/internal/observer/queue.go, the two-lane work queue shared by
      the observation workers; [QueueFacts], [QueueProps].
    - [Config]: src/internal/config/cluster.go, the plugin parameters;
      [ConfigProps].
    - [Kube]: Kubernetes objects as the observer reads them: Pods as records,
      Clusters through the accessor interface [Unstructured].
    - [Topology]: src/internal/observer/topology.go and the data of status.go:
      from Pods and instance reports to a snapshot; [TopologyFacts],
      [TopologyProps].
    - [Evidence]: src/internal/observer/primary_evidence.go, the memory of
      conflicting primaries; [EvidenceProps].
    - [Grpc]: src/internal/discovery/grpc.go and the messages of
      src/api/connect/v1/topology.pb.go: authorisation, validation, conversion and
      the two handlers; [GrpcProps].
    - [Delivery]: the loop of WatchTopology (grpc.go) as a stream that runs beside the
      store, its deliveries and other streams of [Watchers]; [DeliveryFacts],
      [DeliveryProps].
    - [Work]: src/internal/observer/work.go, reservation of probe slots;
      [WorkProps].
    - [Admission]: src/internal/server/admission.go, limits and admission of
      discovery requests; [AdmissionProps].
    - [Settings]: validation of the command line (src/cmd/cnpg-connect-plugin),
      the option checks of observer.New and the time budgets derived from them;
      [SettingsProps].
    - [Observer]: the state that the observer's lock protects and the informer
      caches (observer.go), the route comparisons (events.go, connection.go),
      enqueueing with its cooldown, cancelling observations and committing
      publications (publication.go); [ObserverFacts] holds the frame lemmas.
    - [Collection]: src/internal/observer/collection.go: what is published from a
      finished collection; [CollectionProps].
    - [Events]: src/internal/observer/events.go and secretEvent: the handlers of
      Cluster, Pod and Secret changes; [EventsFacts], [EventsProps].
    - [Connection]: src/internal/observer/connection.go: the cache of server CAs and
      its workers; [ConnectionProps].
    - [Cache]: src/internal/observer/cache.go: the projections of Clusters and Pods
      that the informer caches keep; [CacheProps].
    - [Watch]: src/internal/observer/watch.go: the health of overlapping watches and
      the observer's readiness; [WatchProps].
    - [Requests]: the LIST and WATCH requests of watch.go.
    - [Probing]: probeInstances of collection.go, its loop and goroutines as steps on
      the semaphores of [Work], which other observations use too; [ProbingProps].
    - [Observe]: observe (collection.go), which composes [Collection], [Connection]
      and [Probing], and the workers of work.go, which run it for the keys of
      [Queue]; [ObserveProps].
    - [Informers]: initializeInformers of watch.go: which handler runs for which
      notification.
    - [System]: the observer as a whole: clients of the store, the demand handler
      that observer.New installs, hooks, timers of the work queue, informers with
      their notifications, CA workers and observation workers, each action one
      critical section with the notifications it hands to deliver; [SystemFacts] and [SystemNotices] hold what a section and a
      notification preserve, [SystemProps] the theorems.
    - [Whole]: the observer of [System] and the streams of [Delivery] around one store,
      as run of main.go puts them together: what a section hands to deliver comes into
      flight for the streams; [WholeFacts] shows that every section hands over the
      notifications of the calls it makes, [WholeProps] holds the theorem.
    - [Lifecycle]: Observer.Run, startWorkers and startCAWorkers: from the start of
      the informers to the last deferred call; [LifecycleProps].
    - [Status]: src/internal/observer/status.go: the cached status clients and the
      reading of a status document; [StatusProps].
    - [Plugin]: src/internal/plugin/plugin.go: the operator's hooks, against the
      interface [Notifier] that the observer implements.
    - [Metrics]: src/internal/discovery/metrics.go: the counts of the store.
    - [Samples]: the three metrics.go files: what a scrape reports; [SamplesProps].
    - [Credentials]: src/internal/server/tls.go and token.go; [CredentialsProps].
    - [Command]: src/cmd/cnpg-connect-plugin/main.go: flags and run up to
      server.Run; [CommandProps].
    - [Http]: src/internal/server/discovery_http.go, metrics_connections.go and TagRPC
      of admission.go: rejections, write deadlines, connections; [HttpProps].
    - [Frontend]: the HTTP handler with admission in front of the methods of the gRPC
      service, from a request to its release, over [Delivery]; [FrontendProps].
    - [Runtime]: src/internal/server/run.go: startup, supervision and shutdown of the
      services; [RuntimeProps].
    - [Process]: main: the command, the start of server.Run and its goroutines, to the
      exit status; [ProcessProps].
    - [Streams]: grpcOptions of run.go: the options of the operator interface and its
      stream interceptor.

    The command ([Command], [Settings], [Credentials]) starts the runtime
    ([Runtime], together [Process]), which serves the operator ([Plugin]),
    discovery ([Http], [Admission], [Grpc], composed in [Frontend]) and health,
    and runs the observer.  The observer ([Observer], [Events], [Connection],
    [Observe], composed in [System], started and stopped in [Lifecycle]) reads
    Kubernetes metadata ([Kube], [Requests]) through its caches ([Cache], [Watch],
    [Informers]), asks the instances ([Probing], [Status]), builds a snapshot
    ([Topology], [Evidence]) and commits it to the store ([Collection], [Store]);
    the store notifies watchers ([Watchers], [Mailbox]), whose streams the gRPC
    service serves ([Delivery], with the observer in [Whole]); demand for a
    cluster feeds the queue ([Queue]), whose workers share the probe slots
    ([Work]).

    ** What the theorems show

    - Store and watchers (C1, C2, C7, C8, C25): the store invariant holds in every
      reachable state; reads are fresh or closed; the store implements a contract of
      topics with one pending item per subscriber, and a snapshot is read back as it
      was put; under every interleaving a watcher never goes back.
    - Streams (C9-C11, C33, C35, C36): a stream sends committed
      publications of its Cluster in order, routes only while they are valid, catches
      up by itself and then shows the record of the store, which is the observer's:
      every commit of the observer is handed over to be delivered, and nothing else
      is sent; behind the front end streams and topologies belong to authorised requests and
      subscribers are bounded; exact authorisation, and unary responses on every branch.
    - Observation (C3, C5, C6, C12-C14, C26): an observation renews a route only
      from current metadata, the current CA, unchanged Pods and an unambiguous
      primary, whatever the process does meanwhile; availability and readiness hold
      exactly when the collected evidence verifies them; split-brain evidence is kept
      until it is resolved; a status is one whole document from a verified server;
      the published results are those of the observation's own probes; probing waits
      only for slots that others hold, terminates with a result for every Pod and
      gives every slot back.
    - The observer as a whole (C4, C19, C20, C39): under every interleaving of its parts
      a Cluster that clients wait for is always on the way to a worker; Run comes to
      its end once its context is done, leaves nothing behind and has closed every
      transport; it panics exactly for an accepted validity below four nanoseconds.
    - Events (C15-C17, C40): a change of a Cluster, Pod or CA withdraws the routes it
      invalidates, cancels the observation in progress and touches nothing else; but
      a Pod event publishes a Cluster that is disabled or being deleted again.
    - Caches (C27, C28, C30): discovery over the cached projections is discovery
      over the objects; readiness means that the current watches are healthy; only a
      CA of the Secret that is current is installed.
    - Queue (C18, C37, C38): refinement of the abstract work queue, no lost wakeup,
      bounded waiting for background keys.
    - Process (C21-C24, C29, C31, C32, C34): shutdown is bounded and honest, and
      the exit status says why the process ended; what is served is as secure as the
      flags say; write deadlines are fenced; probe, RPC and watch slots are bounded,
      and the metrics report what is held.

    Theorems without a number support these or describe further operations: expiry
    sweeps, leases, deletions, revisions and drained deliveries of the store,
    watchers that end with the latest state, single streams, lossless messages,
    kept work of the queue, returned slots, matched results, accepted settings and
    parameters, paced refreshes, rescheduling by a worker, one worker per Cluster,
    hooks that only notify, public certificates, tokens, comparisons of cached
    objects, watches that continue their lists, streams that follow the shutdown,
    the periodic sweep of connections, transports closed exactly once, the line
    that is logged, handshakes after a rotation of credentials, flags read back,
    rejections, connection counts and store metrics.

    ** Conventions

    Machine integers are [Z] with their wrap-around written out where it can occur
    ([wrap_u64], [wrap_s64]).  The commit counter of the store is an unsigned
    64-bit number; theorems that compare commit orders assume [headroom], that
    fewer than 2^64 commits have been made.  Every reading of the clock is an
    argument of the operation that makes it, so theorems hold for any clock.  A
    run-time panic (an index out of range) is [None]; the panic of time.NewTicker in
    Run, whose deferred calls still run, is a state of [Lifecycle].  The informer caches are
    read once per section of the observer's lock: client-go may update them at any
    time, and each section takes the caches it finds.  In [System] time does not
    run backwards and a delayed call of the work queue may fire at any time after
    it was made.  Loops are structural recursions on the data they range over,
    with two exceptions: the PEM loop takes as fuel one more than the length of
    its text, and trimming white space the length of its text, and both are shown
    to be enough.  Goroutines and callbacks are step functions whose schedules are
    arbitrary lists of actions; a step that is not enabled is [None], and
    termination is shown by a measure that every step decreases together with a
    step that stays enabled.  Map iteration is an argument or is shown not to
    matter.

    Code that is not part of the repository is an interface: [RoutingDigest] (the
    hash of the JSON encoding, compared for equality only), [TextLibrary] (JSON
    decoding, Unicode lower case, IP parsing), [MapRange] (map order),
    [Unstructured] (object accessors, with their documented behaviour in
    [UnstructuredLaws]), [ServiceLibrary] (token hash, name validation, protobuf
    timestamps), [Float64] and [FlagLibrary] (numbers and durations in flags),
    [KeyRange] (set order), [PEM], [CertLibrary] and [StatusLibrary] (PEM, X.509,
    certificate pools, the status decoder) and [HookLibrary] (the reference in a
    Cluster definition).  Each has a concrete instance in the examples, at which the
    theorems are evaluated.

    ** What is not modelled

    Kubernetes clients and informers (client-go), the HTTP, TLS and gRPC servers
    themselves and the metrics library with its histograms and text format are
    library code: what they do is when an action happens.  [Frontend] relies on gRPC
    to call the method that the path names once, within the HTTP handler.  Signal
    handling is the end of the context; the text of errors and of log lines other
    than that of a publication is left out.  The back-off of the rate limiting
    queues is client-go's: a delayed call has no fixed delay.  Generated protobuf
    code is represented by its message types.  The JSON texts behind [TextLibrary]
    and [StatusLibrary] stay abstract. *)

From stdpp Require Export base option list gmap sets strings pretty sorting.
From Stdlib Require Export ZArith Lia.

#[export] Set Warnings "-clear-no-such-hyp,-register-all".

(** ** Scope and hint databases *)

Declare Scope go_scope.
Delimit Scope go_scope with go.
Open Scope go_scope.
Open Scope Z_scope.

Create HintDb connect.
Create Rewrite HintDb connect.
Create Rewrite HintDb wrap.

(** ** Machine integers *)

(** [uint64] counters are kept in [Z]; [wrap_u64] writes out Go's wrap-around. *)
Definition u64_modulus : Z := 2 ^ 64.
Definition wrap_u64 (z : Z) : Z := z mod u64_modulus.

(** [int64] arithmetic (also [time.Duration] and [int] on 64-bit targets). *)
Definition s64_min : Z := - 2 ^ 63.
Definition s64_max : Z := 2 ^ 63 - 1.
Definition wrap_s64 (z : Z) : Z := (z - s64_min) mod u64_modulus + s64_min.
Definition in_s64 (z : Z) : Prop := s64_min ≤ z ≤ s64_max.

Lemma wrap_u64_small z : 0 ≤ z < u64_modulus → wrap_u64 z = z.
Proof. apply Z.mod_small. Qed.

Lemma wrap_u64_range z : 0 ≤ wrap_u64 z < u64_modulus.
Proof. apply Z.mod_pos_bound. reflexivity. Qed.

Lemma wrap_s64_small z : in_s64 z → wrap_s64 z = z.
Proof.
  unfold in_s64, wrap_s64, s64_min, s64_max, u64_modulus. intros H.
  rewrite Z.mod_small; lia.
Qed.

#[export] Hint Rewrite wrap_u64_small wrap_s64_small using (unfold in_s64 in *; lia) : wrap.

(** ** Time

    [time.Time] is the number of nanoseconds since Go's zero time (1 January of
    year 1), so that [time.Time{}] is [0]; [time.Duration] is a signed number of
    nanoseconds.  Each reading of [time.Now()] is an argument of the operation
    that performs it. *)
Abbreviation time := Z.
Abbreviation duration := Z.

Definition time_zero : time := 0.
Definition nanosecond : duration := 1.
Definition millisecond : duration := 1000000 * nanosecond.
Definition second : duration := 1000 * millisecond.
Definition minute : duration := 60 * second.

(** [t.Before u] and [t.IsZero()]. *)
Definition Before (t u : time) : bool := t <? u.
Definition IsZero (t : time) : bool := t =? time_zero.

Lemma Before_spec t u : Before t u = true ↔ t < u.
Proof. apply Z.ltb_lt. Qed.

Lemma Before_false t u : Before t u = false ↔ u ≤ t.
Proof. apply Z.ltb_ge. Qed.

(** ** Slices *)

(** [slices.Contains]. *)
Definition Contains `{EqDecision A} (l : list A) (x : A) : bool := bool_decide (x ∈ l).

Lemma Contains_spec `{EqDecision A} (l : list A) x : Contains l x = true ↔ x ∈ l.
Proof. apply bool_decide_eq_true. Qed.

(** A partial injective image of a duplicate-free list is duplicate free. *)
Lemma NoDup_omap {A B} (f : A → option B) (l : list A) :
  (∀ x y z, f x = Some z → f y = Some z → x = y) → NoDup l → NoDup (omap f l).
Proof.
  intros Hinj. induction 1 as [|x l Hx _ IH]; cbn; [constructor|].
  destruct (f x) as [z|] eqn:Hz; [|done]. constructor; [|done].
  intros (y & Hy & Hyz)%list_elem_of_omap. by rewrite (Hinj x y z) in Hx.
Qed.

Lemma option_Forall2_is_Some {A B} (P : A → B → Prop) mx my :
  option_Forall2 P mx my → is_Some mx → is_Some my.
Proof. intros [] [? ?]; [by eexists|done]. Qed.

(** ** Counting map entries *)

(** The number of values of [m] that satisfy [f]. *)
Definition count `{Countable K} {A} (f : A → bool) (m : gmap K A) : Z :=
  Z.of_nat (size (filter (λ kv, f kv.2 = true) m)).

Lemma count_empty `{Countable K} {A} (f : A → bool) : count f (∅ : gmap K A) = 0.
Proof. unfold count. by rewrite map_filter_empty, map_size_empty. Qed.

Lemma count_nonneg `{Countable K} {A} (f : A → bool) (m : gmap K A) : 0 ≤ count f m.
Proof. unfold count. lia. Qed.

Lemma count_delete `{Countable K} {A} (f : A → bool) (m : gmap K A) k x :
  m !! k = Some x → count f m = count f (delete k m) + (if f x then 1 else 0).
Proof.
  intros Hk. unfold count. rewrite map_filter_delete.
  destruct (f x) eqn:Hx.
  - assert (filter (λ kv, f kv.2 = true) m !! k = Some x) as Hf by (by apply map_lookup_filter_Some).
    rewrite map_size_delete_Some by eauto.
    assert (size (filter (λ kv, f kv.2 = true) m) ≠ 0%nat) by (apply map_size_ne_0_lookup; eauto). lia.
  - rewrite delete_id; [lia|]. apply map_lookup_filter_None. right. intros y Hy. cbn. congruence.
Qed.

(** Replacing the value of a key moves the count by the two memberships. *)
Lemma count_insert `{Countable K} {A} (f : A → bool) (m : gmap K A) k y :
  count f (<[k := y]> m)
  = count f m - (match m !! k with Some x => if f x then 1 else 0 | None => 0 end) + (if f y then 1 else 0).
Proof.
  rewrite (count_delete f _ k y) by by rewrite lookup_insert_eq.
  rewrite delete_insert_eq. destruct (m !! k) as [x|] eqn:Hk.
  - rewrite (count_delete f m k x) by done. lia.
  - rewrite delete_id by done. lia.
Qed.

Lemma count_pos `{Countable K} {A} (f : A → bool) (m : gmap K A) k x :
  m !! k = Some x → f x = true → 1 ≤ count f m.
Proof.
  intros Hk Hx. rewrite (count_delete f m k x) by done. rewrite Hx.
  pose proof (count_nonneg f (delete k m)). lia.
Qed.

Lemma count_none `{Countable K} {A} (f : A → bool) (m : gmap K A) :
  (∀ k x, m !! k = Some x → f x = false) → count f m = 0.
Proof.
  intros Hf. unfold count. rewrite map_empty_filter_2, map_size_empty; [done|].
  intros k x Hk. cbn. by rewrite (Hf k x Hk).
Qed.

(** ** State-passing computations

    An operation that runs inside one critical section of a Go mutex is a
    function of the protected state: [State S A] returns the result and the new
    state.  stdpp's monad notations apply. *)
Definition State (S A : Type) : Type := S → A * S.

#[export] Instance State_ret {S} : MRet (State S) := λ A x s, (x, s).
#[export] Instance State_bind {S} : MBind (State S) :=
  λ A B f m s, let '(x, s') := m s in f x s'.

Definition get_state {S} : State S S := λ s, (s, s).
Definition modify {S} (f : S → S) : State S () := λ s, ((), f s).

Lemma State_bind_run {S A B} (m : State S A) (f : A → State S B) s :
  (m ≫= f) s = f (m s).1 (m s).2.
Proof. unfold mbind, State_bind. by destruct (m s). Qed.

(** Iterating a state-passing body over a list, as a Go [for range] does. *)
Fixpoint for_each {S A} (body : A → State S ()) (l : list A) : State S () :=
  match l with
  | [] => mret ()
  | x :: l => body x ;; for_each body l
  end.

(** An invariant of the body is an invariant of the loop. *)
Lemma for_each_inv {S A} (P : S → Prop) (body : A → State S ()) l s :
  (∀ x s, x ∈ l → P s → P (body x s).2) → P s → P (for_each body l s).2.
Proof.
  revert s. induction l as [|x l IH]; intros s Hbody Hs; [done|].
  cbn. rewrite State_bind_run. apply IH.
  - intros y s' Hy. apply Hbody. by right.
  - apply Hbody; [by left|done].
Qed.

(** ** Strings and sorting *)

(** Go's [<] on strings is the bytewise lexicographic order. *)
Definition string_lt (a b : string) : bool := String.ltb a b.

Lemma string_lt_false a b : string_lt a b = false ↔ String.le b a.
Proof.
  unfold string_lt, String.ltb, String.le, String.leb. rewrite String.compare_antisym.
  destruct (String.compare b a); cbn; naive_solver.
Qed.

(** [sort.Slice l less].  Go does not specify the order of elements that [less]
    does not separate; [sort_Slice_unique] shows that there is one result when
    it separates all of them, which is how the callers use it. *)
Definition not_after {A} (less : A → A → bool) : relation A := λ a b, less b a = false.

#[export] Instance not_after_dec {A} (less : A → A → bool) : RelDecision (not_after less).
Proof. intros a b. apply bool_eq_dec. Defined.

Definition sort_Slice {A} (less : A → A → bool) (l : list A) : list A :=
  merge_sort (not_after less) l.

(** The comparison of two-part keys: first parts, then second parts. *)
Definition pair_less (a b : string * string) : bool :=
  if bool_decide (a.1 = b.1) then string_lt a.2 b.2 else string_lt a.1 b.1.

Lemma pair_less_false a b :
  pair_less b a = false ↔ (a.1 ≠ b.1 ∧ String.le a.1 b.1) ∨ (a.1 = b.1 ∧ String.le a.2 b.2).
Proof. unfold pair_less. case_bool_decide; rewrite string_lt_false; naive_solver. Qed.

#[export] Instance pair_le_total : Total (not_after pair_less).
Proof.
  intros [a1 a2] [b1 b2]. unfold not_after. rewrite !pair_less_false. cbn.
  destruct (decide (a1 = b1)) as [->|Hne].
  - destruct (total String.le a2 b2); naive_solver.
  - destruct (total String.le a1 b1); naive_solver.
Qed.

#[export] Instance pair_le_trans : Transitive (not_after pair_less).
Proof.
  intros [a1 a2] [b1 b2] [c1 c2]. unfold not_after. rewrite !pair_less_false. cbn.
  intros [[Hab Hle]|[-> Hle]] [[Hbc Hle']|[-> Hle']]; [|naive_solver..|].
  - left. split; [|by etrans]. intros ->.
    apply Hab. by apply (anti_symm String.le).
  - right. split; [done|by etrans].
Qed.

#[export] Instance pair_le_antisymm : AntiSymm (=) (not_after pair_less).
Proof.
  intros [a1 a2] [b1 b2]. unfold not_after. rewrite !pair_less_false. cbn.
  intros [[Hab ?]|[-> ?]] [[Hba ?]|[? ?]]; [|naive_solver..|].
  - by destruct Hab; apply (anti_symm String.le).
  - f_equal. by apply (anti_symm String.le).
Qed.

Section sort.
Context {A : Type} (key : A → string * string).
Let less (a b : A) : bool := pair_less (key a) (key b).

Lemma sort_Slice_perm l : sort_Slice less l ≡ₚ l.
Proof. apply merge_sort_Permutation. Qed.

Lemma sort_Slice_sorted l : StronglySorted (not_after less) (sort_Slice less l).
Proof.
  apply StronglySorted_merge_sort.
  - intros a b c. apply pair_le_trans.
  - intros a b. apply pair_le_total.
Qed.

(** Any two sorted arrangements of elements with distinct keys are equal. *)
Lemma sort_Slice_unique l k :
  NoDup (key <$> l) → k ≡ₚ l → StronglySorted (not_after less) k → k = sort_Slice less l.
Proof.
  intros Hdup Hperm Hk.
  apply (StronglySorted_unique_strong (not_after less));
    [|done|apply sort_Slice_sorted|by rewrite sort_Slice_perm].
  intros x1 x2 Hx1 Hx2 H12 H21. rewrite Hperm in Hx1. rewrite sort_Slice_perm in Hx2.
  assert (key x1 = key x2) as Heq by by apply pair_le_antisymm.
  apply list_elem_of_lookup in Hx1 as [i Hi]. apply list_elem_of_lookup in Hx2 as [j Hj].
  assert (i = j) as ->; [|congruence].
  eapply (NoDup_lookup (key <$> l)); [done| |]; rewrite list_lookup_fmap, ?Hi, ?Hj; cbn; [done|congruence].
Qed.
End sort.

(** Sorting commutes with a map that keeps the comparisons. *)
Section sort_fmap.
Context {A B : Type} (less : A → A → bool) (less' : B → B → bool) (g : A → B).
Context (Hless : ∀ x y, less' (g x) (g y) = less x y).

Lemma list_merge_fmap l1 l2 :
  list_merge (not_after less') (g <$> l1) (g <$> l2) = g <$> list_merge (not_after less) l1 l2.
Proof.
  revert l2. induction l1 as [|x l1 IH1]; intros l2; [by destruct l2|].
  induction l2 as [|y l2 IH2]; [done|]. rewrite !fmap_cons, !list_merge_cons.
  rewrite (decide_ext (not_after less' (g x) (g y)) (not_after less x y)) by (unfold not_after; by rewrite Hless).
  destruct (decide _); rewrite fmap_cons; f_equal; [apply (IH1 (y :: l2))|exact IH2].
Qed.

Let on_stack : list (option (list A)) → list (option (list B)) := fmap (M:=list) (fmap (M:=option) (fmap (M:=list) g)).

Lemma merge_list_to_stack_fmap st (l : list A) :
  merge_list_to_stack (not_after less') (on_stack st) (g <$> l) = on_stack (merge_list_to_stack (not_after less) st l).
Proof.
  revert l. induction st as [|[l'|] st IH]; intros l; [done| |done]. cbn. f_equal.
  rewrite <-(IH (list_merge _ l' l)). f_equal. apply list_merge_fmap.
Qed.

Lemma sort_Slice_fmap l : sort_Slice less' (g <$> l) = g <$> sort_Slice less l.
Proof.
  unfold sort_Slice, merge_sort. change (@nil (option (list B))) with (on_stack []).
  generalize (@nil (option (list A))) as st. induction l as [|x l IH]; intros st; cbn.
  - induction st as [|[l'|] st IHst]; [done| |exact IHst]. cbn. rewrite <-list_merge_fmap. f_equal. exact IHst.
  - rewrite <-IH. f_equal. apply (merge_list_to_stack_fmap st [x]).
Qed.
End sort_fmap.

(** ** Tactics *)

(** Run the monadic skeleton of a state-passing operation. *)
Ltac run_state :=
  unfold mbind, State_bind, mret, State_ret, modify, get_state; cbn.
Tactic Notation "run_state" "in" hyp(H) :=
  unfold mbind, State_bind, mret, State_ret, modify, get_state in H; cbn in H.

(** Case analysis on the scrutinee of a [match] or [if] of the goal. *)
Ltac case_goal :=
  match goal with
  | |- context [match ?x with _ => _ end] => destruct x eqn:?
  end.

(** Turn boolean comparisons of hypotheses and goal into propositions. *)
Ltac boolify :=
  repeat match goal with
  | H : Before _ _ = true |- _ => apply Before_spec in H
  | H : Before _ _ = false |- _ => apply Before_false in H
  | H : negb _ = true |- _ => apply negb_true_iff in H
  | H : negb _ = false |- _ => apply negb_false_iff in H
  | H : andb _ _ = true |- _ => apply andb_true_iff in H as [? ?]
  | H : orb _ _ = false |- _ => apply orb_false_iff in H as [? ?]
  | H : bool_decide _ = true |- _ => apply bool_decide_eq_true in H
  | H : bool_decide _ = false |- _ => apply bool_decide_eq_false in H
  end.
