(* ===== verification/Api.v ===== *)
(** * The application discovery protocol (src/api/v1/types.go)

    The data every component exchanges: cluster references, endpoints, members,
    connection parameters and snapshots, with decidable equality.  Strings and
    byte slices are both byte sequences, modelled by [string]. *)

From S2P Require Import Prelude.

Definition APIVersion : string := "connect.cnpg.io/v1alpha1".

Record ClusterRef := {
  cluster_Namespace : string;
  cluster_Name : string;
  cluster_UID : string;
}.

Record Endpoint := {
  endpoint_Host : string;
  endpoint_Port : Z; (* uint16 *)
  endpoint_ServerName : string;
}.

Record Member := {
  member_ID : string;
  member_Name : string;
  member_Role : string;
  member_SyncState : string;
  member_Ready : bool;
  member_Reason : string;
  member_Endpoints : gmap string Endpoint;
  member_Node : string;
  member_Zone : string;
  member_Region : string;
  member_Timeline : Z; (* int *)
  member_ReplayLSN : string;
}.

Record ConnectionParameters := {
  connection_Database : string;
  connection_ServerCAPEM : string; (* []byte *)
}.

Record Snapshot := {
  snapshot_APIVersion : string;
  snapshot_Cluster : ClusterRef;
  snapshot_Revision : string;
  snapshot_ObservedAt : time;
  snapshot_ValidUntil : time;
  snapshot_Available : bool;
  snapshot_Reason : string;
  snapshot_PrimaryID : string;
  snapshot_Transitioning : bool;
  snapshot_Members : list Member;
  snapshot_Connection : ConnectionParameters;
}.

(** The key of the store, the queue and the observer's maps: [clusterKey] of
    discovery/store.go and observer/observer.go. *)
Record clusterKey := ClusterKey { key_namespace : string; key_name : string }.

(** [clusterKey.String()]. *)
Definition clusterKey_String (k : clusterKey) : string := key_namespace k +:+ "/" +:+ key_name k.

(** The key of the cluster a snapshot describes. *)
Definition ref_key (r : ClusterRef) : clusterKey :=
  ClusterKey (cluster_Namespace r) (cluster_Name r).

#[export] Instance clusterKey_eq_dec : EqDecision clusterKey.
Proof. solve_decision. Defined.
#[export] Instance clusterKey_countable : Countable clusterKey.
Proof.
  apply (inj_countable' (λ k, (key_namespace k, key_name k)) (λ p, ClusterKey p.1 p.2)).
  by intros [].
Defined.

#[export] Instance ClusterRef_eq_dec : EqDecision ClusterRef.
Proof. solve_decision. Defined.
#[export] Instance Endpoint_eq_dec : EqDecision Endpoint.
Proof. solve_decision. Defined.
#[export] Instance Member_eq_dec : EqDecision Member.
Proof. solve_decision. Defined.
#[export] Instance ConnectionParameters_eq_dec : EqDecision ConnectionParameters.
Proof. solve_decision. Defined.
#[export] Instance Snapshot_eq_dec : EqDecision Snapshot.
Proof. solve_decision. Defined.

(** No client may route with such a snapshot. *)
Definition fail_closed (s : Snapshot) : Prop :=
  snapshot_Available s = false ∧ snapshot_PrimaryID s = "" ∧
  Forall (λ m, member_Ready m = false) (snapshot_Members s).
