(* ===== verification/Mailbox.v ===== *)
(** * Publications and subscriber mailboxes (src/internal/discovery/publication.go)

    A publication is one immutable observation with its commit order.  A
    subscription is a mailbox with room for one pending item: a Go channel of
    capacity one, of owned snapshots for local subscribers and of shared
    publications for the gRPC server.  A mailbox refuses publications that are
    not newer than the last one it accepted, so deliveries that run outside the
    store lock, in any order, never rewind a subscriber. *)

From S2P Require Import Prelude Api.

(** A commit order and the snapshot it published. [wireOnce]/[wire] memoise
    [toProto snapshot], a function of the immutable snapshot. *)
Record publication := Publication {
  publication_snapshot : Snapshot;
  publication_order : Z; (* uint64 *)
}.

#[export] Instance publication_eq_dec : EqDecision publication.
Proof. solve_decision. Defined.

(** [clone] copies the CA bytes, the member slice and every endpoint map. *)
Definition clone_member (m : Member) : Member := {|
  member_ID := member_ID m; member_Name := member_Name m;
  member_Role := member_Role m; member_SyncState := member_SyncState m;
  member_Ready := member_Ready m; member_Reason := member_Reason m;
  member_Endpoints := map_fold (λ network endpoint copy, <[network:=endpoint]> copy)
                        ∅ (member_Endpoints m);
  member_Node := member_Node m; member_Zone := member_Zone m;
  member_Region := member_Region m; member_Timeline := member_Timeline m;
  member_ReplayLSN := member_ReplayLSN m;
|}.

Definition clone (s : Snapshot) : Snapshot := {|
  snapshot_APIVersion := snapshot_APIVersion s;
  snapshot_Cluster := snapshot_Cluster s;
  snapshot_Revision := snapshot_Revision s;
  snapshot_ObservedAt := snapshot_ObservedAt s;
  snapshot_ValidUntil := snapshot_ValidUntil s;
  snapshot_Available := snapshot_Available s;
  snapshot_Reason := snapshot_Reason s;
  snapshot_PrimaryID := snapshot_PrimaryID s;
  snapshot_Transitioning := snapshot_Transitioning s;
  snapshot_Members := clone_member <$> snapshot_Members s;
  snapshot_Connection := {|
    connection_Database := connection_Database (snapshot_Connection s);
    connection_ServerCAPEM := "" +:+ connection_ServerCAPEM (snapshot_Connection s);
  |};
|}.

(** The two channel kinds of a subscription; exactly one is non-nil. The
    argument is the content of the one-place buffer. *)
Inductive mailbox :=
  | Snapshots (slot : option Snapshot)
  | Publications (slot : option publication).

Record subscription := Subscription {
  subscription_order : Z; (* uint64 *)
  subscription_closed : bool;
  subscription_mailbox : mailbox;
}.

(** [replacePending updates latest]: drain the slot, then send. The second
    component reports whether a pending item was replaced. *)
Definition replacePending {T} (slot : option T) (latest : T) : option T * bool :=
  (Some latest, match slot with Some _ => true | None => false end).

(** [subscription.deliver]; the boolean is the increment of the store's
    [coalesced] counter. *)
Definition subscription_deliver (s : subscription) (published : publication) : subscription * bool :=
  if subscription_closed s || (publication_order published <=? subscription_order s)
  then (s, false)
  else
    match subscription_mailbox s with
    | Publications slot =>
        let '(slot, replaced) := replacePending slot published in
        (Subscription (publication_order published) false (Publications slot), replaced)
    | Snapshots slot =>
        let '(slot, replaced) := replacePending slot (clone (publication_snapshot published)) in
        (Subscription (publication_order published) false (Snapshots slot), replaced)
    end.

(** [subscription.close]. Closing a channel keeps its buffered item readable. *)
Definition subscription_close (s : subscription) : subscription :=
  Subscription (subscription_order s) true (subscription_mailbox s).

(** Receiving from the channel: an item, end of stream, or the receiver waits. *)
Inductive received :=
  | ReceivedSnapshot (s : Snapshot)
  | ReceivedPublication (p : publication)
  | ReceivedClosed
  | ReceiveBlocks.

Definition subscription_receive (s : subscription) : received * subscription :=
  match subscription_mailbox s with
  | Snapshots (Some x) =>
      (ReceivedSnapshot x, Subscription (subscription_order s) (subscription_closed s) (Snapshots None))
  | Publications (Some p) =>
      (ReceivedPublication p, Subscription (subscription_order s) (subscription_closed s) (Publications None))
  | _ => (if subscription_closed s then ReceivedClosed else ReceiveBlocks, s)
  end.

(** ** Lemmas *)

(** Endpoint maps are copied entry by entry; the copy has the same entries. *)
Lemma clone_endpoints (m : gmap string Endpoint) :
  map_fold (λ network endpoint copy, <[network:=endpoint]> copy) ∅ m = m.
Proof.
  apply (map_fold_weak_ind (λ r m, r = m)); [done|].
  by intros i x m' r _ ->.
Qed.

Lemma clone_member_id m : clone_member m = m.
Proof. destruct m. unfold clone_member. cbn. by rewrite clone_endpoints. Qed.

(** A clone is equal to its original as a value. *)
Lemma clone_id s : clone s = s.
Proof.
  destruct s as [?????????? [??]]. unfold clone. cbn. f_equal.
  erewrite list_fmap_ext; [apply list_fmap_id|].
  intros. apply clone_member_id.
Qed.

#[export] Hint Rewrite clone_id : connect.

(** What a mailbox holds, as a snapshot. *)
Definition pending_snapshot (s : subscription) : option Snapshot :=
  match subscription_mailbox s with
  | Snapshots slot => slot
  | Publications slot => publication_snapshot <$> slot
  end.

Lemma subscription_deliver_stale s p :
  publication_order p ≤ subscription_order s → subscription_deliver s p = (s, false).
Proof.
  intros H. unfold subscription_deliver.
  rewrite (proj2 (Z.leb_le _ _) H). by rewrite orb_true_r.
Qed.

Lemma subscription_deliver_closed s p :
  subscription_closed s = true → subscription_deliver s p = (s, false).
Proof. intros H. unfold subscription_deliver. by rewrite H. Qed.

Lemma subscription_deliver_fresh s p :
  subscription_closed s = false → subscription_order s < publication_order p →
  pending_snapshot (subscription_deliver s p).1 = Some (publication_snapshot p)
  ∧ subscription_order (subscription_deliver s p).1 = publication_order p
  ∧ subscription_closed (subscription_deliver s p).1 = false
  ∧ (subscription_deliver s p).2 = bool_decide (is_Some (pending_snapshot s)).
Proof.
  intros Hc Ho. unfold subscription_deliver, pending_snapshot.
  rewrite Hc, (proj2 (Z.leb_gt _ _) Ho). cbn.
  destruct (subscription_mailbox s) as [[]|[]]; cbn; rewrite ?clone_id;
    repeat split; by apply (bool_decide_eq_true_2 _) || apply (bool_decide_eq_false_2 _) || done.
Qed.

Lemma subscription_deliver_order_mono s p :
  subscription_order s ≤ subscription_order (subscription_deliver s p).1.
Proof.
  unfold subscription_deliver.
  destruct (subscription_closed s || _) eqn:E; [done|].
  apply orb_false_iff in E as [_ E%Z.leb_gt].
  destruct (subscription_mailbox s); cbn; lia.
Qed.
