(* ===== verification/Store.v ===== *)
(** * The snapshot store (src/internal/discovery/store.go)

    The store keeps one record per cluster, the watchers of each cluster and the
    unary demand leases.  Every definition below is one critical section of
    [Store.mu], in the state-passing form of [Prelude.State]; what the code does
    after releasing the lock (mailbox delivery, the demand handler) is returned
    as data and performed by the steps of [Watchers]. *)

From S2P Require Import Prelude Api Mailbox.

(** A watcher is identified by the address of its subscription. *)
Abbreviation sid := positive.

(** [sha256.Sum256] applied to [json.Marshal] of the routing view. *)
Class RoutingDigest := {
  digest : Type;
  digest_eq_dec :: EqDecision digest;
  routing_sum : Snapshot → digest;
}.

Record notification := Notification {
  notification_publication : option publication;
  notification_watchers : list sid;
}.

Definition no_notification : notification := Notification None [].

(** [invalidate]: an expired snapshot keeps its shape and loses its routes. *)
Definition invalidate_member (m : Member) : Member := {|
  member_ID := member_ID m; member_Name := member_Name m;
  member_Role := member_Role m; member_SyncState := member_SyncState m;
  member_Ready := false; member_Reason := "expired";
  member_Endpoints := member_Endpoints m;
  member_Node := member_Node m; member_Zone := member_Zone m;
  member_Region := member_Region m; member_Timeline := member_Timeline m;
  member_ReplayLSN := member_ReplayLSN m;
|}.

Definition invalidate (s : Snapshot) : Snapshot := {|
  snapshot_APIVersion := snapshot_APIVersion s;
  snapshot_Cluster := snapshot_Cluster s;
  snapshot_Revision := snapshot_Revision s;
  snapshot_ObservedAt := snapshot_ObservedAt s;
  snapshot_ValidUntil := snapshot_ValidUntil s;
  snapshot_Available := false;
  snapshot_Reason := "expired";
  snapshot_PrimaryID := "";
  snapshot_Transitioning := snapshot_Transitioning s;
  snapshot_Members := invalidate_member <$> snapshot_Members s;
  snapshot_Connection := snapshot_Connection s;
|}.

Definition set_APIVersion (v : string) (s : Snapshot) : Snapshot := {|
  snapshot_APIVersion := v;
  snapshot_Cluster := snapshot_Cluster s;
  snapshot_Revision := snapshot_Revision s;
  snapshot_ObservedAt := snapshot_ObservedAt s;
  snapshot_ValidUntil := snapshot_ValidUntil s;
  snapshot_Available := snapshot_Available s;
  snapshot_Reason := snapshot_Reason s;
  snapshot_PrimaryID := snapshot_PrimaryID s;
  snapshot_Transitioning := snapshot_Transitioning s;
  snapshot_Members := snapshot_Members s;
  snapshot_Connection := snapshot_Connection s;
|}.

Definition set_Revision (v : string) (s : Snapshot) : Snapshot := {|
  snapshot_APIVersion := snapshot_APIVersion s;
  snapshot_Cluster := snapshot_Cluster s;
  snapshot_Revision := v;
  snapshot_ObservedAt := snapshot_ObservedAt s;
  snapshot_ValidUntil := snapshot_ValidUntil s;
  snapshot_Available := snapshot_Available s;
  snapshot_Reason := snapshot_Reason s;
  snapshot_PrimaryID := snapshot_PrimaryID s;
  snapshot_Transitioning := snapshot_Transitioning s;
  snapshot_Members := snapshot_Members s;
  snapshot_Connection := snapshot_Connection s;
|}.

(** The tombstone [DeleteDeferred] publishes. *)
Definition tombstone (revision : string) (s : Snapshot) : Snapshot := {|
  snapshot_APIVersion := snapshot_APIVersion s;
  snapshot_Cluster := snapshot_Cluster s;
  snapshot_Revision := revision;
  snapshot_ObservedAt := snapshot_ObservedAt s;
  snapshot_ValidUntil := snapshot_ValidUntil s;
  snapshot_Available := false;
  snapshot_Reason := "deleted";
  snapshot_PrimaryID := "";
  snapshot_Transitioning := false;
  snapshot_Members := [];
  snapshot_Connection := snapshot_Connection s;
|}.

Definition clear_ReplayLSN (m : Member) : Member := {|
  member_ID := member_ID m; member_Name := member_Name m;
  member_Role := member_Role m; member_SyncState := member_SyncState m;
  member_Ready := member_Ready m; member_Reason := member_Reason m;
  member_Endpoints := member_Endpoints m;
  member_Node := member_Node m; member_Zone := member_Zone m;
  member_Region := member_Region m; member_Timeline := member_Timeline m;
  member_ReplayLSN := "";
|}.

Definition member_key (m : Member) : string * string := (member_ID m, member_Name m).
Definition member_less (a b : Member) : bool := pair_less (member_key a) (member_key b).

(** The part of a snapshot that [routingDigest] hashes. *)
Definition routing_view (s : Snapshot) : Snapshot := {|
  snapshot_APIVersion := snapshot_APIVersion s;
  snapshot_Cluster := snapshot_Cluster s;
  snapshot_Revision := "";
  snapshot_ObservedAt := time_zero;
  snapshot_ValidUntil := time_zero;
  snapshot_Available := snapshot_Available s;
  snapshot_Reason := snapshot_Reason s;
  snapshot_PrimaryID := snapshot_PrimaryID s;
  snapshot_Transitioning := snapshot_Transitioning s;
  snapshot_Members := sort_Slice member_less (clear_ReplayLSN <$> snapshot_Members s);
  snapshot_Connection := snapshot_Connection s;
|}.

Section store.
Context `{RoutingDigest}.

Definition routingDigest (s : Snapshot) : digest := routing_sum (routing_view s).

Record record := Record_ {
  record_publication : publication;
  record_routing : digest;
  record_expired : bool;
}.

Definition record_snapshot (r : record) : Snapshot := publication_snapshot (record_publication r).

(** [onDemand] is [Some tt] when a handler is installed; its calls are outputs. *)
Record Store := {
  expirations : Z; (* uint64 *)
  records : gmap clusterKey record;
  subscribers : gmap clusterKey (gset sid);
  unaryDemand : gmap clusterKey time;
  onDemand : bool;
  unaryLease : duration;
  processID : string;
  sequence : Z; (* uint64 *)
  publicationOrder : Z; (* uint64 *)
}.

Definition NewStore (id : string) : Store := {|
  expirations := 0; records := ∅; subscribers := ∅; unaryDemand := ∅;
  onDemand := false; unaryLease := 0; processID := id;
  sequence := 0; publicationOrder := 0;
|}.

Definition set_records (f : gmap clusterKey record → gmap clusterKey record) (s : Store) : Store := {|
  expirations := expirations s; records := f (records s); subscribers := subscribers s;
  unaryDemand := unaryDemand s; onDemand := onDemand s; unaryLease := unaryLease s;
  processID := processID s; sequence := sequence s; publicationOrder := publicationOrder s;
|}.

Definition set_subscribers (f : gmap clusterKey (gset sid) → gmap clusterKey (gset sid)) (s : Store) : Store := {|
  expirations := expirations s; records := records s; subscribers := f (subscribers s);
  unaryDemand := unaryDemand s; onDemand := onDemand s; unaryLease := unaryLease s;
  processID := processID s; sequence := sequence s; publicationOrder := publicationOrder s;
|}.

Definition set_unaryDemand (f : gmap clusterKey time → gmap clusterKey time) (s : Store) : Store := {|
  expirations := expirations s; records := records s; subscribers := subscribers s;
  unaryDemand := f (unaryDemand s); onDemand := onDemand s; unaryLease := unaryLease s;
  processID := processID s; sequence := sequence s; publicationOrder := publicationOrder s;
|}.

Definition bump_sequence (s : Store) : Store := {|
  expirations := expirations s; records := records s; subscribers := subscribers s;
  unaryDemand := unaryDemand s; onDemand := onDemand s; unaryLease := unaryLease s;
  processID := processID s; sequence := wrap_u64 (sequence s + 1);
  publicationOrder := publicationOrder s;
|}.

Definition bump_order (s : Store) : Store := {|
  expirations := expirations s; records := records s; subscribers := subscribers s;
  unaryDemand := unaryDemand s; onDemand := onDemand s; unaryLease := unaryLease s;
  processID := processID s; sequence := sequence s;
  publicationOrder := wrap_u64 (publicationOrder s + 1);
|}.

Definition bump_expirations (s : Store) : Store := {|
  expirations := wrap_u64 (expirations s + 1); records := records s;
  subscribers := subscribers s; unaryDemand := unaryDemand s; onDemand := onDemand s;
  unaryLease := unaryLease s; processID := processID s; sequence := sequence s;
  publicationOrder := publicationOrder s;
|}.

Definition SetDemandHandler (lease : duration) (s : Store) : Store := {|
  expirations := expirations s; records := records s; subscribers := subscribers s;
  unaryDemand := unaryDemand s; onDemand := true; unaryLease := lease;
  processID := processID s; sequence := sequence s; publicationOrder := publicationOrder s;
|}.

(** ** Helpers that require the lock *)

(** [fmt.Sprintf "%s:%d" processID sequence]. *)
Definition revision_of (id : string) (n : Z) : string := id +:+ ":" +:+ pretty n.

Definition nextRevision : State Store string :=
  modify bump_sequence ;;
  s ← get_state;
  mret (revision_of (processID s) (sequence s)).

Definition newPublication (snapshot : Snapshot) : State Store publication :=
  modify bump_order ;;
  s ← get_state;
  mret (Publication snapshot (publicationOrder s)).

Definition watchers_of (s : Store) (key : clusterKey) : gset sid :=
  default ∅ (subscribers s !! key).

Definition notification_for (key : clusterKey) (published : publication) : State Store notification :=
  s ← get_state;
  mret (Notification (Some published) (elements (watchers_of s key))).

Definition hasDemand (key : clusterKey) (now : time) : State Store bool :=
  s ← get_state;
  let deadline := default time_zero (unaryDemand s !! key) in
  let unary := Before now deadline in
  (if unary then mret () else modify (set_unaryDemand (delete key))) ;;
  s ← get_state;
  mret (bool_decide (watchers_of s key ≠ ∅) || unary).

Definition expireRecord (key : clusterKey) (current : record) (now : time) : State Store notification :=
  if record_expired current || Before now (snapshot_ValidUntil (record_snapshot current))
  then mret no_notification
  else
    let expired := invalidate (record_snapshot current) in
    revision ← nextRevision;
    let expired := set_Revision revision expired in
    published ← newPublication expired;
    modify (set_records (<[key := Record_ published (routingDigest expired) true]>)) ;;
    modify bump_expirations ;;
    notification_for key published.

(** ** Operations *)

(** [RequestRefresh]: whether the cluster is known, and the handler call. *)
Definition RequestRefresh (key : clusterKey) (now : time) : State Store (bool * option clusterKey) :=
  s ← get_state;
  match records s !! key with
  | None => mret (false, None)
  | Some _ =>
      active ← hasDemand key now;
      s ← get_state;
      (if 0 <? unaryLease s
       then modify (set_unaryDemand (<[key := now + unaryLease s]>))
       else mret ()) ;;
      mret (true, if negb active && onDemand s then Some key else None)
  end.

Definition HasDemand (key : clusterKey) (now : time) : State Store bool := hasDemand key now.

Definition cluster_less (a b : ClusterRef) : bool :=
  pair_less (cluster_Namespace a, cluster_Name a) (cluster_Namespace b, cluster_Name b).

Definition ActiveClusters (now : time) : State Store (list ClusterRef) :=
  s ← get_state;
  let leased := filter (λ kd, Before now kd.2 = true) (unaryDemand s) in
  let active := dom (subscribers s) ∪ dom leased in
  modify (set_unaryDemand (λ _, leased)) ;;
  mret (sort_Slice cluster_less
          (omap (λ key, snapshot_Cluster ∘ record_snapshot <$> records s !! key) (elements active))).

(** [PutDeferred]: [now1] is read before taking the lock, [now2] under it. *)
Definition PutDeferred (snapshot : Snapshot) (now1 now2 : time) : State Store (bool * notification) :=
  let snapshot := set_APIVersion APIVersion (clone snapshot) in
  let key := ref_key (snapshot_Cluster snapshot) in
  let expired := negb (Before now1 (snapshot_ValidUntil snapshot)) in
  let snapshot := if expired then invalidate snapshot else snapshot in
  let late := negb expired && negb (Before now2 (snapshot_ValidUntil snapshot)) in
  let expired := expired || late in
  let snapshot := if late then invalidate snapshot else snapshot in
  let routing := routingDigest snapshot in
  s ← get_state;
  let previous := records s !! key in
  let changed := match previous with
                 | None => true
                 | Some p => negb (bool_decide (record_routing p = routing))
                 end in
  revision ← match previous with
             | Some p => if changed then nextRevision
                         else mret (snapshot_Revision (record_snapshot p))
             | None => nextRevision
             end;
  published ← newPublication (set_Revision revision snapshot);
  modify (set_records (<[key := Record_ published routing expired]>)) ;;
  notification ← notification_for key published;
  mret (changed, notification).

Definition DeleteDeferred (key : clusterKey) : State Store notification :=
  modify (set_unaryDemand (delete key)) ;;
  s ← get_state;
  match records s !! key with
  | None => mret no_notification
  | Some previous =>
      revision ← nextRevision;
      modify (set_records (delete key)) ;;
      published ← newPublication (tombstone revision (record_snapshot previous));
      notification_for key published
  end.

Definition ClusterIdentity (key : clusterKey) (s : Store) : option ClusterRef :=
  snapshot_Cluster ∘ record_snapshot <$> records s !! key.

Definition readPublication (key : clusterKey) (now : time) : State Store (option publication * notification) :=
  s ← get_state;
  match records s !! key with
  | None => mret (None, no_notification)
  | Some current =>
      n ← expireRecord key current now;
      s ← get_state;
      mret (record_publication <$> records s !! key, n)
  end.

(** [GetDeferred] returns an owned copy of the snapshot read. *)
Definition GetDeferred (key : clusterKey) (now : time) : State Store (option Snapshot * notification) :=
  r ← readPublication key now;
  mret (clone ∘ publication_snapshot <$> r.1, r.2).

(** The critical section of [register]: the result says whether the watcher was
    registered, its initial publication, the expiry to deliver first and the
    handler call. [now1] and [now2] are the two clock readings. *)
Record registration := Registration {
  registration_exists : bool;
  registration_initial : option publication;
  registration_expired : notification;
  registration_demand : option clusterKey;
}.

Definition register (key : clusterKey) (requireExisting : bool) (watcher : sid) (now1 now2 : time) :
    State Store registration :=
  s ← get_state;
  if bool_decide (records s !! key = None) && requireExisting
  then mret (Registration false None no_notification None)
  else
    r ← readPublication key now1;
    active ← hasDemand key now2;
    modify (set_subscribers (λ m, <[key := {[watcher]} ∪ default ∅ (m !! key)]> m)) ;;
    s ← get_state;
    mret (Registration true r.1 r.2 (if negb active && onDemand s then Some key else None)).

(** The critical section of a subscription's [cancel]. *)
Definition unregister (key : clusterKey) (watcher : sid) : State Store () :=
  modify (set_subscribers (λ m,
    let rest := default ∅ (m !! key) ∖ {[watcher]} in
    if bool_decide (rest = ∅) then delete key m else <[key := rest]> m)).

(** [Expire]: the loop over the records visits them in the order [ks], which
    Go's map iteration chooses. *)
Definition expire_one (now : time) (key : clusterKey) : State Store notification :=
  s ← get_state;
  match records s !! key with
  | None => mret no_notification
  | Some current => expireRecord key current now
  end.

Fixpoint expire_all (now : time) (ks : list clusterKey) : State Store (list notification) :=
  match ks with
  | [] => mret []
  | key :: ks =>
      n ← expire_one now key;
      ns ← expire_all now ks;
      mret (match notification_publication n with Some _ => n :: ns | None => ns end)
  end.

Definition Expire (ks : list clusterKey) (now : time) : State Store (list notification) :=
  ns ← expire_all now ks;
  modify (set_unaryDemand (filter (λ kd, Before now kd.2 = true))) ;;
  mret ns.
End store.
