(* ===== verification/StoreFacts.v ===== *)
(** * Correctness of the snapshot store

    The invariant of [Store] (records are filed under their own key, carry the
    digest of what they publish, distinct revisions and distinct commit orders,
    and are closed for routing once expired) is preserved by every critical
    section, and the operations behave as store.go documents them. *)

From S2P Require Import Prelude Api Mailbox Store.

Lemma invalidate_fail_closed s : fail_closed (invalidate s).
Proof.
  repeat split. apply Forall_fmap, Forall_forall. by intros.
Qed.

Lemma tombstone_fail_closed r s : fail_closed (tombstone r s).
Proof. by repeat split. Qed.

Lemma revision_of_inj id : Inj (=) (=) (revision_of id).
Proof.
  intros a b Heq. unfold revision_of in Heq.
  assert (∀ x s t, x +:+ s = x +:+ t → s = t) as Happ.
  { intros x s t. induction x; cbn; [done|]. naive_solver. }
  apply Happ in Heq. apply (Happ ":") in Heq. by apply (inj pretty).
Qed.

#[export] Hint Resolve invalidate_fail_closed tombstone_fail_closed : connect.

Section facts.
Context `{RoutingDigest}.

(** ** The invariant *)

Record record_wf (pid : string) (seq ord : Z) (k : clusterKey) (r : record) : Prop := {
  record_wf_key : ref_key (snapshot_Cluster (record_snapshot r)) = k;
  record_wf_version : snapshot_APIVersion (record_snapshot r) = APIVersion;
  record_wf_routing : record_routing r = routingDigest (record_snapshot r);
  record_wf_order : 0 < publication_order (record_publication r) ≤ ord;
  record_wf_revision : ∃ n, 0 < n ≤ seq ∧ snapshot_Revision (record_snapshot r) = revision_of pid n;
  record_wf_expired : record_expired r = true → fail_closed (record_snapshot r);
}.

Record records_wf (rs : gmap clusterKey record) (pid : string) (seq ord : Z) : Prop := {
  records_wf_each : map_Forall (record_wf pid seq ord) rs;
  records_wf_revisions : ∀ k1 k2 r1 r2, rs !! k1 = Some r1 → rs !! k2 = Some r2 →
    snapshot_Revision (record_snapshot r1) = snapshot_Revision (record_snapshot r2) → k1 = k2;
  records_wf_orders : ∀ k1 k2 r1 r2, rs !! k1 = Some r1 → rs !! k2 = Some r2 →
    publication_order (record_publication r1) = publication_order (record_publication r2) → k1 = k2;
  records_wf_counters : 0 ≤ seq ≤ ord ∧ ord < u64_modulus;
}.

Definition store_wf (s : Store) : Prop :=
  records_wf (records s) (processID s) (sequence s) (publicationOrder s) ∧
  map_Forall (λ _ ws, ws ≠ ∅) (subscribers s).

(** There is room for [n] more publications before the counters wrap. *)
Definition headroom (s : Store) (n : Z) : Prop := publicationOrder s + n < u64_modulus.

Lemma record_wf_mono pid seq ord seq' ord' k r :
  seq ≤ seq' → ord ≤ ord' → record_wf pid seq ord k r → record_wf pid seq' ord' k r.
Proof.
  intros Hs Ho [Hk Hv Hr Hord (n & Hn & Hrev) He].
  split; [done..|lia|exists n; split; [lia|done]|done].
Qed.

(** Every record insertion of the store: a new commit order, and a revision that
    is either new or the one the same key already has. *)
Lemma records_wf_insert rs pid seq ord seq' k snap routing expired :
  records_wf rs pid seq ord → ord + 1 < u64_modulus → seq ≤ seq' ≤ seq + 1 →
  ref_key (snapshot_Cluster snap) = k → snapshot_APIVersion snap = APIVersion →
  routing = routingDigest snap →
  (expired = true → fail_closed snap) →
  (seq' = seq + 1 ∧ snapshot_Revision snap = revision_of pid seq' ∨
   ∃ r, rs !! k = Some r ∧ snapshot_Revision snap = snapshot_Revision (record_snapshot r)) →
  records_wf (<[k := Record_ (Publication snap (ord + 1)) routing expired]> rs)
    pid seq' (ord + 1).
Proof.
  intros [Heach Hrevs Hords Hc] Hroom Hseq Hk Hv Hrt He Hrev.
  assert (∀ k' r', k' ≠ k → rs !! k' = Some r' →
    snapshot_Revision (record_snapshot r') ≠ snapshot_Revision snap) as Hfresh.
  { intros k' r' Hne Hr' Heq. destruct Hrev as [[-> Hrev]|(r & Hr & Hrev)].
    - destruct (record_wf_revision _ _ _ _ _ (Heach _ _ Hr')) as (n & Hn & Hrn).
      rewrite Hrn, Hrev in Heq. apply revision_of_inj in Heq. lia.
    - apply Hne. eapply Hrevs; eauto; congruence. }
  split; [|intros k1 k2 r1 r2 H1 H2 Heq..|lia].
  - apply map_Forall_insert_2.
    + split; cbn; auto; [lia|].
      destruct Hrev as [[-> ->]|(r & Hr & ->)]; [exists (seq + 1); split; [lia|done]|].
      destruct (record_wf_revision _ _ _ _ _ (Heach _ _ Hr)) as (n & ? & ?). exists n. split; [lia|done].
    + eapply map_Forall_impl; [exact Heach|]. intros k' r' Hr'.
      eapply record_wf_mono; [| |exact Hr']; lia.
  - apply lookup_insert_Some in H1 as [[<- <-]|[Hne1 H1]];
      apply lookup_insert_Some in H2 as [[<- <-]|[Hne2 H2]]; cbn in *; [done|..|by eauto].
    + destruct (Hfresh k2 r2); auto.
    + destruct (Hfresh k1 r1); auto.
  - apply lookup_insert_Some in H1 as [[<- <-]|[Hne1 H1]];
      apply lookup_insert_Some in H2 as [[<- <-]|[Hne2 H2]]; cbn in *; [done|..|by eauto].
    + destruct (record_wf_order _ _ _ _ _ (Heach _ _ H2)). lia.
    + destruct (record_wf_order _ _ _ _ _ (Heach _ _ H1)). lia.
Qed.

Lemma records_wf_delete rs pid seq ord k :
  records_wf rs pid seq ord → ord + 1 < u64_modulus →
  records_wf (delete k rs) pid (seq + 1) (ord + 1).
Proof.
  intros [Heach Hrevs Hords Hc] Hroom.
  split; [|intros k1 k2 r1 r2 [_ H1]%lookup_delete_Some [_ H2]%lookup_delete_Some; by eauto..|lia].
  intros k' r' [_ Hr']%lookup_delete_Some. eapply record_wf_mono; [| |by apply Heach]; lia.
Qed.

(** ** The effect of a critical section on records and watchers *)

(** Section [s] to [s'] committed publication [p] for [k]. *)
Record published (s : Store) (k : clusterKey) (p : publication) (s' : Store) : Prop := {
  published_order : publication_order p = publicationOrder s';
  published_succ : publicationOrder s' = wrap_u64 (publicationOrder s + 1);
  published_key : ref_key (snapshot_Cluster (publication_snapshot p)) = k;
  published_watchers : subscribers s' = subscribers s;
  published_records :
    (∃ r, record_publication r = p ∧ records s' = <[k := r]> (records s)) ∨
    (records s' = delete k (records s) ∧ fail_closed (publication_snapshot p) ∧
     snapshot_Reason (publication_snapshot p) = "deleted");
}.

(** Section [s] to [s'] published nothing and changed no route. *)
Definition quiet (s s' : Store) : Prop :=
  records s' = records s ∧ subscribers s' = subscribers s ∧
  publicationOrder s' = publicationOrder s.

(** One section for key [k] with the notification [n] it returns. *)
Definition effect (s : Store) (k : clusterKey) (n : notification) (s' : Store) : Prop :=
  (n = no_notification ∧ quiet s s') ∨
  (∃ p, n = Notification (Some p) (elements (watchers_of s k)) ∧ published s k p s').

(** [store_wf] is about records, watchers and counters only. *)
Lemma store_wf_frame s s' :
  store_wf s → records s' = records s → subscribers s' = subscribers s →
  processID s' = processID s → sequence s' = sequence s →
  publicationOrder s' = publicationOrder s → store_wf s'.
Proof. unfold store_wf. intros ? -> -> -> -> ->. done. Qed.

Lemma headroom_wrap s :
  store_wf s → headroom s 1 →
  wrap_u64 (publicationOrder s + 1) = publicationOrder s + 1 ∧
  wrap_u64 (sequence s + 1) = sequence s + 1.
Proof.
  intros [Hr _] Hroom. destruct (records_wf_counters _ _ _ _ Hr).
  unfold headroom in Hroom. split; apply wrap_u64_small; lia.
Qed.

(** *** [hasDemand] *)

Lemma hasDemand_value k now s :
  (hasDemand k now s).1 =
  bool_decide (watchers_of s k ≠ ∅) || Before now (default time_zero (unaryDemand s !! k)).
Proof. unfold hasDemand. run_state. by destruct (Before now _). Qed.

Lemma hasDemand_state k now s :
  (hasDemand k now s).2 =
  if Before now (default time_zero (unaryDemand s !! k)) then s
  else set_unaryDemand (delete k) s.
Proof. unfold hasDemand. run_state. by destruct (Before now _). Qed.

Lemma hasDemand_quiet k now s : quiet s (hasDemand k now s).2.
Proof. rewrite hasDemand_state. by destruct (Before now _). Qed.

Lemma hasDemand_wf k now s : store_wf s → store_wf (hasDemand k now s).2.
Proof. rewrite hasDemand_state. by destruct (Before now _). Qed.

(** *** [expireRecord] *)

Lemma expireRecord_skip k r now s :
  record_expired r = true ∨ now < snapshot_ValidUntil (record_snapshot r) →
  expireRecord k r now s = (no_notification, s).
Proof.
  intros Hor. unfold expireRecord.
  destruct (record_expired r) eqn:He; [done|].
  destruct Hor as [|Hlt%Before_spec]; [done|]. by rewrite Hlt.
Qed.

(** The record an expiry writes. *)
Definition expired_record (s : Store) (r : record) : record :=
  let snap := set_Revision (revision_of (processID s) (wrap_u64 (sequence s + 1)))
                (invalidate (record_snapshot r)) in
  Record_ (Publication snap (wrap_u64 (publicationOrder s + 1))) (routingDigest snap) true.

Lemma expireRecord_fire k r now s :
  record_expired r = false → snapshot_ValidUntil (record_snapshot r) ≤ now →
  expireRecord k r now s =
  (Notification (Some (record_publication (expired_record s r))) (elements (watchers_of s k)),
   bump_expirations (set_records (<[k := expired_record s r]>) (bump_order (bump_sequence s)))).
Proof.
  intros He Hle%Before_false. unfold expireRecord. by rewrite He, Hle.
Qed.

Lemma expireRecord_cases (r : record) now :
  (record_expired r = true ∨ now < snapshot_ValidUntil (record_snapshot r)) ∨
  (record_expired r = false ∧ snapshot_ValidUntil (record_snapshot r) ≤ now).
Proof. destruct (record_expired r); [tauto|]. lia. Qed.

Lemma expireRecord_effect k r now s :
  ref_key (snapshot_Cluster (record_snapshot r)) = k →
  effect s k (expireRecord k r now s).1 (expireRecord k r now s).2.
Proof.
  intros Hk. destruct (expireRecord_cases r now) as [Hskip|[He Hle]].
  - rewrite expireRecord_skip by done. by left.
  - rewrite expireRecord_fire by done. right. eexists. split; [done|].
    split; cbn; auto. left. eexists. split; [|reflexivity]. done.
Qed.

Lemma expireRecord_wf k r now s :
  store_wf s → headroom s 1 → records s !! k = Some r → store_wf (expireRecord k r now s).2.
Proof.
  intros Hwf Hroom Hr. destruct (expireRecord_cases r now) as [Hskip|[He Hle]].
  { by rewrite expireRecord_skip. }
  rewrite expireRecord_fire by done. unfold store_wf; cbn. unfold expired_record; cbn.
  destruct (headroom_wrap s) as [-> ->]; [done..|]. destruct Hwf as [Hrs Hws].
  split; [|done]. pose proof (records_wf_each _ _ _ _ Hrs _ _ Hr) as Hr'.
  eapply records_wf_insert; cbn; eauto using record_wf_key, record_wf_version.
  - lia.
  - intros _. apply invalidate_fail_closed.
Qed.

(** *** [PutDeferred] *)

(** Whether the observation has expired when it is committed, and what is
    then stored. *)
Definition put_expired (snap : Snapshot) (now1 now2 : time) : bool :=
  bool_decide (snapshot_ValidUntil snap ≤ now1 ∨ snapshot_ValidUntil snap ≤ now2).

Definition put_view (snap : Snapshot) (now1 now2 : time) : Snapshot :=
  let snap' := set_APIVersion APIVersion snap in
  if put_expired snap now1 now2 then invalidate snap' else snap'.

Definition put_changed (s : Store) (view : Snapshot) : bool :=
  match records s !! ref_key (snapshot_Cluster view) with
  | None => true
  | Some p => negb (bool_decide (record_routing p = routingDigest view))
  end.

Definition put_record (s : Store) (view : Snapshot) (expired : bool) : record :=
  let revision :=
    match records s !! ref_key (snapshot_Cluster view) with
    | Some p => if put_changed s view then revision_of (processID s) (wrap_u64 (sequence s + 1))
                else snapshot_Revision (record_snapshot p)
    | None => revision_of (processID s) (wrap_u64 (sequence s + 1))
    end in
  let snap := set_Revision revision view in
  Record_ (Publication snap (wrap_u64 (publicationOrder s + 1))) (routingDigest view) expired.

Definition put_state (s : Store) (view : Snapshot) (expired : bool) : Store :=
  set_records (<[ref_key (snapshot_Cluster view) := put_record s view expired]>)
    (bump_order (if put_changed s view then bump_sequence s else s)).

Lemma put_view_Cluster snap now1 now2 :
  snapshot_Cluster (put_view snap now1 now2) = snapshot_Cluster snap.
Proof. unfold put_view. by destruct (put_expired _ _ _). Qed.

Lemma put_view_ValidUntil snap now1 now2 :
  snapshot_ValidUntil (put_view snap now1 now2) = snapshot_ValidUntil snap.
Proof. unfold put_view. by destruct (put_expired _ _ _). Qed.

Lemma put_view_APIVersion snap now1 now2 :
  snapshot_APIVersion (put_view snap now1 now2) = APIVersion.
Proof. unfold put_view. by destruct (put_expired _ _ _). Qed.

Lemma put_view_expired snap now1 now2 :
  put_expired snap now1 now2 = true → fail_closed (put_view snap now1 now2).
Proof. unfold put_view. intros ->. apply invalidate_fail_closed. Qed.

Lemma PutDeferred_run snap now1 now2 s :
  let view := put_view snap now1 now2 in
  let expired := put_expired snap now1 now2 in
  PutDeferred snap now1 now2 s =
  ((put_changed s view,
    Notification (Some (record_publication (put_record s view expired)))
      (elements (watchers_of s (ref_key (snapshot_Cluster snap))))),
   put_state s view expired).
Proof.
  cbn. unfold PutDeferred. rewrite clone_id.
  assert (∀ (e1 e2 : bool), e1 = negb (Before now1 (snapshot_ValidUntil snap)) →
    e2 = negb (Before now2 (snapshot_ValidUntil snap)) →
    put_expired snap now1 now2 = e1 || negb e1 && e2) as Hexp.
  { intros e1 e2 -> ->. unfold put_expired, Before.
    destruct (Z.ltb_spec now1 (snapshot_ValidUntil snap)), (Z.ltb_spec now2 (snapshot_ValidUntil snap));
      cbn; (apply bool_decide_eq_true_2 || apply bool_decide_eq_false_2); lia. }
  unfold put_state, put_record, put_changed, put_view. run_state.
  destruct (Before now1 _) eqn:E1, (Before now2 _) eqn:E2;
    rewrite (Hexp _ _ (eq_sym eq_refl) (eq_sym eq_refl)); cbn;
    rewrite ?E1, ?E2; cbn; destruct (records s !! _) as [r|] eqn:Hr; cbn; try done;
    by destruct (bool_decide _).
Qed.
Lemma PutDeferred_effect snap now1 now2 s :
  effect s (ref_key (snapshot_Cluster snap)) (PutDeferred snap now1 now2 s).1.2
    (PutDeferred snap now1 now2 s).2.
Proof.
  rewrite PutDeferred_run. right. eexists. split; [done|].
  split; cbn; rewrite ?put_view_Cluster; try (done || by destruct (put_changed _ _)).
  left. exists (put_record s (put_view snap now1 now2) (put_expired snap now1 now2)).
  split; [cbn; by rewrite put_view_Cluster|by destruct (put_changed _ _)].
Qed.

Lemma PutDeferred_wf snap now1 now2 s :
  store_wf s → headroom s 1 → store_wf (PutDeferred snap now1 now2 s).2.
Proof.
  intros Hwf Hroom. rewrite PutDeferred_run. unfold put_state, put_record, store_wf; cbn.
  destruct (headroom_wrap s) as [Hord Hseq]; [done..|]. destruct Hwf as [Hrs Hws].
  pose proof (records_wf_counters _ _ _ _ Hrs).
  assert (∀ e : bool, e = true → e = put_expired snap now1 now2 →
    fail_closed (put_view snap now1 now2)) as Hclosed
    by (intros e -> He; by apply put_view_expired).
  set (view := put_view snap now1 now2) in *. set (k := ref_key (snapshot_Cluster view)).
  unfold put_changed; fold k.
  destruct (records s !! k) as [r|] eqn:Hr; [destruct (bool_decide _) eqn:Hsame|]; cbn; rewrite ?Hseq, Hord;
    (split; [|done]); (eapply records_wf_insert;
      [done|done|lia|done|apply put_view_APIVersion|done|by intros; eapply Hclosed|]); cbn; eauto.
Qed.

(** *** [DeleteDeferred] *)

Definition deleted_publication (s : Store) (r : record) : publication :=
  Publication (tombstone (revision_of (processID s) (wrap_u64 (sequence s + 1))) (record_snapshot r))
    (wrap_u64 (publicationOrder s + 1)).

Lemma DeleteDeferred_run k s :
  DeleteDeferred k s =
  let s0 := set_unaryDemand (delete k) s in
  match records s !! k with
  | None => (no_notification, s0)
  | Some r => (Notification (Some (deleted_publication s r)) (elements (watchers_of s k)),
               bump_order (set_records (delete k) (bump_sequence s0)))
  end.
Proof. unfold DeleteDeferred. run_state. by destruct (records s !! k). Qed.

Lemma DeleteDeferred_effect k s :
  store_wf s → effect s k (DeleteDeferred k s).1 (DeleteDeferred k s).2.
Proof.
  intros [Hrs _]. rewrite DeleteDeferred_run. destruct (records s !! k) as [r|] eqn:Hr; [|by left].
  right. eexists. split; [done|]. split; cbn; auto.
  - by eapply record_wf_key, records_wf_each.
  - right. split_and!; [done|apply tombstone_fail_closed|done].
Qed.

Lemma DeleteDeferred_wf k s :
  store_wf s → headroom s 1 → store_wf (DeleteDeferred k s).2.
Proof.
  intros Hwf Hroom. rewrite DeleteDeferred_run. destruct (records s !! k) as [r|] eqn:Hr; [|done].
  unfold store_wf; cbn. destruct (headroom_wrap s) as [-> ->]; [done..|].
  destruct Hwf as [Hrs Hws]. split; [|done]. by apply records_wf_delete.
Qed.

(** *** [readPublication] *)

Lemma readPublication_unknown k now s :
  records s !! k = None → readPublication k now s = ((None, no_notification), s).
Proof. intros Hr. unfold readPublication. run_state. by rewrite Hr. Qed.

Lemma readPublication_live k r now s :
  records s !! k = Some r →
  record_expired r = true ∨ now < snapshot_ValidUntil (record_snapshot r) →
  readPublication k now s = ((Some (record_publication r), no_notification), s).
Proof.
  intros Hr Hor. unfold readPublication. run_state. rewrite Hr.
  rewrite expireRecord_skip by done. by rewrite Hr.
Qed.

Lemma readPublication_expire k r now s :
  records s !! k = Some r →
  record_expired r = false → snapshot_ValidUntil (record_snapshot r) ≤ now →
  readPublication k now s =
  ((Some (record_publication (expired_record s r)), (expireRecord k r now s).1),
   (expireRecord k r now s).2).
Proof.
  intros Hr He Hle. unfold readPublication. run_state. rewrite Hr.
  rewrite expireRecord_fire by done. cbn. by rewrite lookup_insert_eq.
Qed.

(** A read either leaves the store alone or is the expiry of the record read. *)
Lemma readPublication_state k now s :
  (readPublication k now s).2 = s ∧ (readPublication k now s).1.2 = no_notification ∨
  ∃ r, records s !! k = Some r ∧ (readPublication k now s).2 = (expireRecord k r now s).2 ∧
       (readPublication k now s).1.2 = (expireRecord k r now s).1.
Proof.
  destruct (records s !! k) as [r|] eqn:Hr.
  - right. exists r. split; [done|]. destruct (expireRecord_cases r now) as [Hskip|[He Hle]].
    + by rewrite (readPublication_live k r), expireRecord_skip.
    + by rewrite (readPublication_expire k r).
  - left. by rewrite readPublication_unknown.
Qed.

Lemma readPublication_effect k now s :
  store_wf s → effect s k (readPublication k now s).1.2 (readPublication k now s).2.
Proof.
  intros [Hrs _]. destruct (readPublication_state k now s) as [[-> ->]|(r & Hr & -> & ->)]; [by left|].
  apply expireRecord_effect. by eapply record_wf_key, records_wf_each.
Qed.

Lemma readPublication_wf k now s :
  store_wf s → headroom s 1 → store_wf (readPublication k now s).2.
Proof.
  intros Hwf Hroom. destruct (readPublication_state k now s) as [[-> _]|(r & Hr & -> & _)]; [done|].
  by apply expireRecord_wf.
Qed.

(** The publication a read returns is the one the store now holds. *)
Lemma readPublication_current k now s :
  (readPublication k now s).1.1 = record_publication <$> records (readPublication k now s).2 !! k.
Proof.
  destruct (records s !! k) as [r|] eqn:Hr.
  - destruct (expireRecord_cases r now) as [Hskip|[He Hle]].
    + rewrite (readPublication_live k r) by done. cbn. by rewrite Hr.
    + rewrite (readPublication_expire k r) by done. rewrite expireRecord_fire by done. cbn.
      by rewrite lookup_insert_eq.
  - rewrite readPublication_unknown by done. cbn. by rewrite Hr.
Qed.

Lemma readPublication_none k now s : (readPublication k now s).1.1 = None → records s !! k = None.
Proof.
  destruct (records s !! k) as [r|] eqn:Hr; [|done].
  destruct (expireRecord_cases r now) as [Hskip|[He Hle]];
    [by rewrite (readPublication_live k r)|by rewrite (readPublication_expire k r)].
Qed.

(** What is read is fresh or closed for routing. *)
Lemma readPublication_fail_closed k now s p :
  store_wf s → (readPublication k now s).1.1 = Some p →
  now < snapshot_ValidUntil (publication_snapshot p) ∨ fail_closed (publication_snapshot p).
Proof.
  intros [Hrs _] Hp. destruct (records s !! k) as [r|] eqn:Hr.
  - destruct (expireRecord_cases r now) as [Hskip|[He Hle]].
    + rewrite (readPublication_live k r) in Hp by done. simplify_eq/=.
      destruct Hskip as [He|]; [right|by left].
      by eapply record_wf_expired; [eapply records_wf_each|].
    + rewrite (readPublication_expire k r) in Hp by done. simplify_eq/=. right.
      apply (invalidate_fail_closed (record_snapshot r)).
  - by rewrite readPublication_unknown in Hp.
Qed.

(** *** Sequences of commits *)

(** Sections that keep the watchers, with the notifications they return. *)
Inductive effects : Store → list notification → Store → Prop :=
  | effects_quiet s s' : quiet s s' → effects s [] s'
  | effects_publish s k p s1 ns s2 :
      published s k p s1 → effects s1 ns s2 →
      effects s (Notification (Some p) (elements (watchers_of s k)) :: ns) s2.

Lemma quiet_trans s1 s2 s3 : quiet s1 s2 → quiet s2 s3 → quiet s1 s3.
Proof. intros (? & ? & ?) (? & ? & ?). split_and!; congruence. Qed.

Lemma published_quiet_l s0 s k p s' : quiet s0 s → published s k p s' → published s0 k p s'.
Proof. intros (Hr & Hw & Ho) []. split; rewrite <- ?Hr; congruence. Qed.

Lemma effects_quiet_l s0 s ns s' : quiet s0 s → effects s ns s' → effects s0 ns s'.
Proof.
  intros Hq He. revert Hq.
  destruct He as [s s' Hq'|s k p s1 ns' s2 Hp He]; intros Hq; [constructor; by eapply quiet_trans|].
  replace (watchers_of _ k) with (watchers_of s0 k).
  - econstructor; [by eapply published_quiet_l|done].
  - unfold watchers_of. destruct Hq as (_ & -> & _). done.
Qed.

Lemma effects_quiet_r s ns s1 s2 : effects s ns s1 → quiet s1 s2 → effects s ns s2.
Proof.
  induction 1 as [s s1 Hq|]; intros Hq'; [constructor; by eapply quiet_trans|].
  econstructor; eauto.
Qed.

(** The list form of one section's notification. *)
Definition notifications (n : notification) : list notification :=
  match notification_publication n with Some _ => [n] | None => [] end.

Lemma effect_effects s k n s' : effect s k n s' → effects s (notifications n) s'.
Proof.
  intros [[-> Hq]|(p & -> & Hp)]; [by constructor|].
  cbn. econstructor; [done|]. by constructor.
Qed.

Lemma effects_app s ns1 s1 ns2 s2 : effects s ns1 s1 → effects s1 ns2 s2 → effects s (ns1 ++ ns2) s2.
Proof.
  induction 1 as [s s1 Hq|]; intros He; [by eapply effects_quiet_l|].
  cbn. econstructor; eauto.
Qed.

(** *** [Expire] *)

Lemma expire_one_read k now s :
  expire_one now k s = ((readPublication k now s).1.2, (readPublication k now s).2).
Proof.
  unfold expire_one, readPublication. run_state. destruct (records s !! k); [|done].
  by destruct (expireRecord _ _ _ _).
Qed.

Lemma expire_all_cons k ks now s :
  expire_all now (k :: ks) s =
  (notifications (expire_one now k s).1 ++ (expire_all now ks (expire_one now k s).2).1,
   (expire_all now ks (expire_one now k s).2).2).
Proof.
  cbn. run_state. destruct (expire_one now k s) as [n s1]. cbn.
  destruct (expire_all now ks s1). cbn. unfold notifications.
  by destruct (notification_publication n).
Qed.

Lemma notifications_length n : (length (notifications n) ≤ 1)%nat.
Proof. unfold notifications. destruct (notification_publication n); cbn; lia. Qed.

Lemma expire_all_length now ks s : (length (expire_all now ks s).1 ≤ length ks)%nat.
Proof.
  revert s. induction ks as [|k ks IH]; intros s; [done|]. rewrite expire_all_cons. cbn [fst].
  rewrite length_app. pose proof (notifications_length (expire_one now k s).1).
  specialize (IH (expire_one now k s).2). cbn [length]. lia.
Qed.

Lemma effect_headroom s k n s' : store_wf s → headroom s 1 → effect s k n s' →
  publicationOrder s' ≤ publicationOrder s + 1.
Proof.
  intros Hwf Hroom [[_ (_ & _ & ->)]|(p & _ & Hp)]; [lia|].
  rewrite (published_succ _ _ _ _ Hp). by destruct (headroom_wrap s) as [-> _].
Qed.

Lemma expire_all_spec now (ks : list clusterKey) s :
  store_wf s → headroom s (Z.of_nat (length ks)) →
  store_wf (expire_all now ks s).2 ∧ effects s (expire_all now ks s).1 (expire_all now ks s).2.
Proof.
  revert s. induction ks as [|k ks IH]; intros s Hwf Hroom; [by split; [|constructor]|].
  rewrite expire_all_cons. cbn [fst snd].
  unfold headroom in Hroom. cbn [length] in Hroom.
  assert (headroom s 1) as H1 by (unfold headroom; lia).
  pose proof (readPublication_effect k now s Hwf) as Heff.
  pose proof (effect_headroom _ _ _ _ Hwf H1 Heff) as Hord.
  rewrite expire_one_read. cbn [fst snd].
  destruct (IH (readPublication k now s).2) as [Hwf' Heff'].
  - by apply readPublication_wf.
  - unfold headroom. lia.
  - split; [done|]. eapply effects_app; [by eapply effect_effects|done].
Qed.

Lemma Expire_state ks now s :
  (Expire ks now s).2 =
  set_unaryDemand (filter (λ kd, Before now kd.2 = true)) (expire_all now ks s).2.
Proof. unfold Expire. run_state. by destruct (expire_all now ks s). Qed.

Lemma Expire_notifications ks now s : (Expire ks now s).1 = (expire_all now ks s).1.
Proof. unfold Expire. run_state. by destruct (expire_all now ks s). Qed.

Lemma Expire_wf (ks : list clusterKey) now s :
  store_wf s → headroom s (Z.of_nat (length ks)) → store_wf (Expire ks now s).2.
Proof. intros Hwf Hroom. rewrite Expire_state. by destruct (expire_all_spec now ks s Hwf Hroom). Qed.

Lemma Expire_effects (ks : list clusterKey) now s :
  store_wf s → headroom s (Z.of_nat (length ks)) → effects s (Expire ks now s).1 (Expire ks now s).2.
Proof.
  intros Hwf Hroom. rewrite Expire_state, Expire_notifications.
  destruct (expire_all_spec now ks s Hwf Hroom) as [_ He]. by eapply effects_quiet_r.
Qed.

(** A record no sweep at [now] has to touch. *)
Definition settled (now : time) (r : record) : Prop :=
  record_expired r = true ∨ now < snapshot_ValidUntil (record_snapshot r).

Lemma readPublication_settles k now s k' r' :
  records (readPublication k now s).2 !! k' = Some r' →
  (k' = k ∧ settled now r') ∨ (k' ≠ k ∧ records s !! k' = Some r').
Proof.
  destruct (decide (k' = k)) as [->|Hne]; intros Hr'.
  - left. split; [done|]. destruct (records s !! k) as [r|] eqn:Hr.
    + destruct (expireRecord_cases r now) as [Hskip|[He Hle]].
      * rewrite (readPublication_live k r) in Hr' by done. cbn in Hr'. by simplify_eq.
      * rewrite (readPublication_expire k r), expireRecord_fire in Hr' by done. cbn in Hr'.
        rewrite lookup_insert_eq in Hr'. simplify_eq. by left.
    + rewrite readPublication_unknown in Hr' by done. cbn in Hr'. congruence.
  - right. split; [done|].
    destruct (readPublication_state k now s) as [[Hs _]|(r & Hr & Hs & _)]; rewrite Hs in Hr'; [done|].
    destruct (expireRecord_cases r now) as [Hskip|[He Hle]].
    + by rewrite expireRecord_skip in Hr'.
    + rewrite expireRecord_fire in Hr' by done. cbn in Hr'. by rewrite lookup_insert_ne in Hr'.
Qed.

Lemma expire_all_settles now ks s k r :
  records (expire_all now ks s).2 !! k = Some r →
  (k ∈ ks ∨ (∀ r0, records s !! k = Some r0 → settled now r0)) → settled now r.
Proof.
  revert s. induction ks as [|k0 ks IH]; intros s Hr Hor.
  { cbn in Hr. destruct Hor as [Hin|Hset]; [by apply not_elem_of_nil in Hin|by eauto]. }
  rewrite expire_all_cons, expire_one_read in Hr. cbn [fst snd] in Hr.
  eapply IH; [exact Hr|]. destruct (decide (k ∈ ks)); [by left|right].
  intros r0 [[-> Hset]|[Hne Hr0]]%readPublication_settles; [done|].
  destruct Hor as [[->|Hin]%elem_of_cons|Hset]; naive_solver.
Qed.
End facts.
