(* ===== verification/StoreProps.v ===== *)
(** * Theorems about the snapshot store

    Reachable stores, and what each operation of store.go promises on them. *)

From S2P Require Import Prelude Api Mailbox Store StoreFacts.

Section props.
Context `{RoutingDigest}.

(** ** Reachable stores *)

(** One call into the store, with the clock readings and choices it makes. *)
Inductive store_call :=
  | CallPut (snap : Snapshot) (now1 now2 : time)
  | CallDelete (k : clusterKey)
  | CallRead (k : clusterKey) (now : time)
  | CallExpire (ks : list clusterKey) (now : time)
  | CallRegister (k : clusterKey) (requireExisting : bool) (w : sid) (now1 now2 : time)
  | CallUnregister (k : clusterKey) (w : sid)
  | CallRequestRefresh (k : clusterKey) (now : time)
  | CallHasDemand (k : clusterKey) (now : time)
  | CallActiveClusters (now : time)
  | CallSetDemandHandler (lease : duration).

Definition store_run (c : store_call) (s : Store) : Store :=
  match c with
  | CallPut snap now1 now2 => (PutDeferred snap now1 now2 s).2
  | CallDelete k => (DeleteDeferred k s).2
  | CallRead k now => (readPublication k now s).2
  | CallExpire ks now => (Expire ks now s).2
  | CallRegister k req w now1 now2 => (register k req w now1 now2 s).2
  | CallUnregister k w => (unregister k w s).2
  | CallRequestRefresh k now => (RequestRefresh k now s).2
  | CallHasDemand k now => (HasDemand k now s).2
  | CallActiveClusters now => (ActiveClusters now s).2
  | CallSetDemandHandler lease => SetDemandHandler lease s
  end.

(** The most publications one call can commit. *)
Definition store_cost (c : store_call) : Z :=
  match c with
  | CallExpire ks _ => Z.of_nat (length ks)
  | _ => 1
  end.

(** Stores of a process that started as [id] and has not exhausted its 64-bit
    publication counter. *)
Inductive reachable (id : string) : Store → Prop :=
  | reachable_new : reachable id (NewStore id)
  | reachable_call s c : reachable id s → headroom s (store_cost c) → reachable id (store_run c s).

(** ** Demand bookkeeping *)

Lemma RequestRefresh_unknown k now s :
  records s !! k = None → RequestRefresh k now s = ((false, None), s).
Proof. intros Hr. unfold RequestRefresh. run_state. by rewrite Hr. Qed.

Lemma RequestRefresh_known k r now s :
  records s !! k = Some r →
  RequestRefresh k now s =
  let '(active, s1) := hasDemand k now s in
  ((true, if negb active && onDemand s then Some k else None),
   if 0 <? unaryLease s then set_unaryDemand (<[k := now + unaryLease s]>) s1 else s1).
Proof.
  intros Hr. unfold RequestRefresh. run_state. rewrite Hr.
  destruct (hasDemand k now s) as [active s1] eqn:E.
  assert (s1 = (hasDemand k now s).2) as Hs by by rewrite E.
  rewrite hasDemand_state in Hs. subst s1.
  by destruct (Before now _); cbn; destruct (0 <? unaryLease s).
Qed.

Lemma RequestRefresh_wf k now s : store_wf s → store_wf (RequestRefresh k now s).2.
Proof.
  intros Hwf. destruct (records s !! k) as [r|] eqn:Hr.
  - rewrite (RequestRefresh_known k r) by done.
    destruct (hasDemand k now s) as [active s1] eqn:E.
    assert (store_wf s1) by (change s1 with (active, s1).2; rewrite <- E; by apply hasDemand_wf).
    cbn. by destruct (0 <? unaryLease s).
  - by rewrite RequestRefresh_unknown.
Qed.

Lemma request_refresh_quiet k now s : quiet s (RequestRefresh k now s).2.
Proof.
  destruct (records s !! k) as [r|] eqn:Hr.
  - rewrite (RequestRefresh_known k r) by done. pose proof (hasDemand_quiet k now s).
    destruct (hasDemand k now s). cbn. by destruct (0 <? unaryLease s).
  - by rewrite RequestRefresh_unknown.
Qed.

(** ** Registration *)

Lemma register_refused k w now1 now2 s :
  records s !! k = None →
  register k true w now1 now2 s = (Registration false None no_notification None, s).
Proof. intros Hr. unfold register. run_state. by rewrite Hr. Qed.

Lemma register_run k req w now1 now2 s :
  (is_Some (records s !! k) ∨ req = false) →
  register k req w now1 now2 s =
  let '(r, s1) := readPublication k now1 s in
  let '(active, s2) := hasDemand k now2 s1 in
  (Registration true r.1 r.2 (if negb active && onDemand s2 then Some k else None),
   set_subscribers (λ m, <[k := {[w]} ∪ default ∅ (m !! k)]> m) s2).
Proof.
  intros Hor. unfold register. run_state.
  assert (bool_decide (records s !! k = None) && req = false) as ->.
  { destruct Hor as [[r Hr]| ->]; [by rewrite Hr|by rewrite andb_false_r]. }
  destruct (readPublication k now1 s) as [r' s1]; cbn. by destruct (hasDemand k now2 s1).
Qed.

Lemma watchers_insert_wf (m : gmap clusterKey (gset sid)) k w ws :
  map_Forall (λ _ ws, ws ≠ ∅) m → map_Forall (λ _ ws, ws ≠ ∅) (<[k := {[w]} ∪ ws]> m).
Proof. intros Hm. apply map_Forall_insert_2; [set_solver|done]. Qed.

Lemma register_wf k req w now1 now2 s :
  store_wf s → headroom s 1 → store_wf (register k req w now1 now2 s).2.
Proof.
  intros Hwf Hroom.
  destruct (records s !! k) as [r|] eqn:Hr, req; try (by rewrite register_refused); rewrite register_run by eauto;
    pose proof (readPublication_wf k now1 s Hwf Hroom) as Hwf1;
    destruct (readPublication k now1 s) as [? s1]; cbn in Hwf1;
    pose proof (hasDemand_wf k now2 s1 Hwf1) as [Hr2 Hw2];
    destruct (hasDemand k now2 s1) as [? s2]; cbn in Hr2, Hw2 |- *;
    (split; [done|]); by apply watchers_insert_wf.
Qed.

Lemma unregister_wf k w s : store_wf s → store_wf (unregister k w s).2.
Proof.
  intros [Hr Hw]. split; [done|]. cbn. case_bool_decide as He.
  - by apply map_Forall_delete.
  - by apply map_Forall_insert_2.
Qed.

(** ** The invariant holds in every reachable store *)

Lemma store_run_wf c s : store_wf s → headroom s (store_cost c) → store_wf (store_run c s).
Proof.
  intros Hwf Hroom. destruct c; cbn in Hroom |- *.
  - by apply PutDeferred_wf.
  - by apply DeleteDeferred_wf.
  - by apply readPublication_wf.
  - by apply Expire_wf.
  - by apply register_wf.
  - by apply unregister_wf.
  - by apply RequestRefresh_wf.
  - by apply hasDemand_wf.
  - done.
  - done.
Qed.

Lemma reachable_wf id s : reachable id s → store_wf s.
Proof.
  induction 1 as [|s c _ IH Hroom]; [|by apply store_run_wf].
  split; [|by apply map_Forall_empty].
  split; [apply map_Forall_empty|intros ????; cbn; by rewrite lookup_empty..|cbn; unfold u64_modulus; lia].
Qed.

(** ** Routing equality *)

(** Two observations that route alike: equal up to freshness timestamps,
    revision, replay positions and the order of the members. *)
Record same_routing (a b : Snapshot) : Prop := {
  same_Cluster : snapshot_Cluster a = snapshot_Cluster b;
  same_Available : snapshot_Available a = snapshot_Available b;
  same_Reason : snapshot_Reason a = snapshot_Reason b;
  same_PrimaryID : snapshot_PrimaryID a = snapshot_PrimaryID b;
  same_Transitioning : snapshot_Transitioning a = snapshot_Transitioning b;
  same_Members : clear_ReplayLSN <$> snapshot_Members a ≡ₚ clear_ReplayLSN <$> snapshot_Members b;
  same_Connection : snapshot_Connection a = snapshot_Connection b;
}.

Lemma member_keys_clear (l : list Member) : member_key <$> (clear_ReplayLSN <$> l) = member_key <$> l.
Proof. rewrite <- list_fmap_compose. by apply list_fmap_ext. Qed.

Lemma routing_view_same a b :
  same_routing a b → NoDup (member_key <$> snapshot_Members a) →
  routing_view (set_APIVersion APIVersion a) = routing_view (set_APIVersion APIVersion b).
Proof.
  intros [] Hdup. unfold routing_view; cbn. f_equal; try done. symmetry.
  apply (sort_Slice_unique member_key); rewrite ?member_keys_clear; [done| |].
  - etrans; [apply (sort_Slice_perm member_key)|by symmetry].
  - apply (sort_Slice_sorted member_key).
Qed.

Lemma put_state_lookup s view e :
  records (put_state s view e) !! ref_key (snapshot_Cluster view) = Some (put_record s view e).
Proof. cbn. by rewrite lookup_insert_eq. Qed.

Lemma put_record_revision s view e p :
  records s !! ref_key (snapshot_Cluster view) = Some p → put_changed s view = false →
  snapshot_Revision (record_snapshot (put_record s view e)) = snapshot_Revision (record_snapshot p).
Proof. intros Hp Hc. unfold put_record. rewrite Hp, Hc. done. Qed.

Lemma put_record_fresh s view e :
  put_changed s view = true →
  snapshot_Revision (record_snapshot (put_record s view e)) =
  revision_of (processID s) (wrap_u64 (sequence s + 1)).
Proof.
  intros Hc. unfold put_record. rewrite Hc. by destruct (records s !! _).
Qed.

Lemma put_view_fresh snap now1 now2 :
  now1 < snapshot_ValidUntil snap → now2 < snapshot_ValidUntil snap →
  put_view snap now1 now2 = set_APIVersion APIVersion snap.
Proof.
  intros H1 H2. unfold put_view, put_expired. rewrite bool_decide_eq_false_2; [done|]. lia.
Qed.

Lemma put_again_unchanged s a b e now1 now2 :
  same_routing a b → NoDup (member_key <$> snapshot_Members a) →
  now1 < snapshot_ValidUntil b → now2 < snapshot_ValidUntil b →
  put_changed (put_state s (set_APIVersion APIVersion a) e) (put_view b now1 now2) = false.
Proof.
  intros Hsame Hdup H1 H2. rewrite put_view_fresh by done.
  unfold put_changed. cbn [snapshot_Cluster set_APIVersion].
  rewrite <- (same_Cluster _ _ Hsame).
  change (snapshot_Cluster a) with (snapshot_Cluster (set_APIVersion APIVersion a)) at 1.
  rewrite put_state_lookup. apply negb_false_iff, bool_decide_eq_true_2. cbn.
  unfold routingDigest. by rewrite (routing_view_same a b).
Qed.

(** ** What an expiry sweep keeps *)

(** [r'] is [r], or the expiry of [r] with its observation timestamps. *)
Definition kept (now : time) (r r' : record) : Prop :=
  r' = r ∨
  (snapshot_ValidUntil (record_snapshot r) ≤ now ∧ record_expired r = false ∧
   snapshot_Cluster (record_snapshot r') = snapshot_Cluster (record_snapshot r) ∧
   snapshot_ObservedAt (record_snapshot r') = snapshot_ObservedAt (record_snapshot r) ∧
   snapshot_ValidUntil (record_snapshot r') = snapshot_ValidUntil (record_snapshot r) ∧
   snapshot_Reason (record_snapshot r') = "expired" ∧ record_expired r' = true).

Lemma kept_trans now r1 r2 r3 : kept now r1 r2 → kept now r2 r3 → kept now r1 r3.
Proof.
  intros [->|(H1 & H2 & H3 & H4 & H5 & H6 & H7)]; [done|].
  intros [->|(? & ? & ? & ? & ? & ? & ?)]; [right; by split_and!|congruence].
Qed.

Lemma readPublication_kept k now s k' :
  option_Forall2 (kept now) (records s !! k') (records (readPublication k now s).2 !! k').
Proof.
  assert (∀ o : option record, option_Forall2 (kept now) o o) as Hrefl
    by (intros []; constructor; by left).
  destruct (readPublication_state k now s) as [[-> _]|(r & Hr & -> & _)]; [apply Hrefl|].
  destruct (expireRecord_cases r now) as [Hskip|[He Hle]].
  { by rewrite expireRecord_skip. }
  rewrite expireRecord_fire by done. cbn.
  destruct (decide (k = k')) as [<-|Hne].
  - rewrite lookup_insert_eq, Hr. constructor. right. by split_and!.
  - by rewrite lookup_insert_ne.
Qed.

Lemma expire_all_kept now ks s k :
  option_Forall2 (kept now) (records s !! k) (records (expire_all now ks s).2 !! k).
Proof.
  revert s. induction ks as [|k0 ks IH]; intros s.
  { cbn. destruct (records s !! k); constructor. by left. }
  rewrite expire_all_cons, expire_one_read. cbn [fst snd].
  pose proof (readPublication_kept k0 now s k) as Hk.
  specialize (IH (readPublication k0 now s).2).
  destruct Hk as [r1 r2 Hk|]; inversion IH; subst; constructor. by eapply kept_trans.
Qed.

(** ** Consumer interest *)

Lemma watchers_dom s k : store_wf s → k ∈ dom (subscribers s) ↔ watchers_of s k ≠ ∅.
Proof.
  intros [_ Hw]. rewrite elem_of_dom. unfold watchers_of. split.
  - intros [ws Hws]. rewrite Hws. by eapply (Hw k).
  - destruct (subscribers s !! k); naive_solver.
Qed.

Lemma leased_dom s k now : 0 ≤ now →
  k ∈ dom (filter (λ kd, Before now kd.2 = true) (unaryDemand s)) ↔
  Before now (default time_zero (unaryDemand s !! k)) = true.
Proof.
  intros Hnow. rewrite elem_of_dom. unfold is_Some. setoid_rewrite map_lookup_filter_Some. cbn.
  destruct (unaryDemand s !! k) as [d|]; cbn; [naive_solver|].
  split; [naive_solver|]. intros Hb%Before_spec. unfold time_zero in Hb. lia.
Qed.

(** ** Theorems *)

(** C1: every store a process can reach is well formed: records are filed under
    the cluster they describe, hold the digest of what they publish, have
    pairwise distinct revisions and commit orders, and are closed for routing
    once expired; no cluster has an empty watcher set. *)
Theorem reachable_store_wf id s : reachable id s → store_wf s.
Proof. apply reachable_wf. Qed.

(** C2: [Get] fails closed: whatever the expiry task has done, a snapshot read at
    [now] is of the cluster asked for, and either still valid at [now] or
    unavailable, without primary and without ready members. *)
Theorem get_fails_closed id s k now snap n s' :
  reachable id s → headroom s 1 → GetDeferred k now s = ((Some snap, n), s') →
  ref_key (snapshot_Cluster snap) = k ∧
  (now < snapshot_ValidUntil snap ∨ fail_closed snap).
Proof.
  intros Hs Hroom Hget. apply reachable_wf in Hs as Hwf.
  pose proof (readPublication_current k now s) as Hcur.
  pose proof (readPublication_wf k now s Hwf Hroom) as [Hrs _].
  unfold GetDeferred in Hget. run_state in Hget.
  destruct (readPublication k now s) as [[[p|] n0] s0] eqn:E; cbn in *; simplify_eq.
  rewrite clone_id. split.
  - destruct (records s' !! k) as [r|] eqn:Hr; simplify_eq/=.
    by eapply record_wf_key, records_wf_each.
  - eapply (readPublication_fail_closed k now s); [done|]. by rewrite E.
Qed.

(** [Put] assigns revisions as the API documents: the revision is kept exactly
    when the routing digest is unchanged; otherwise it differs from every
    revision the store holds.  The commit order exceeds every earlier one, and
    records of other clusters are untouched. *)
Theorem put_assigns_revision id s snap now1 now2 changed n s' :
  reachable id s → headroom s 1 → PutDeferred snap now1 now2 s = ((changed, n), s') →
  let k := ref_key (snapshot_Cluster snap) in
  ∃ r', records s' !! k = Some r' ∧
    (changed = false ↔ ∃ r, records s !! k = Some r ∧ record_routing r = record_routing r') ∧
    (changed = false → ∀ r, records s !! k = Some r →
       snapshot_Revision (record_snapshot r') = snapshot_Revision (record_snapshot r)) ∧
    (changed = true → ∀ k0 r, records s !! k0 = Some r →
       snapshot_Revision (record_snapshot r') ≠ snapshot_Revision (record_snapshot r)) ∧
    (∀ k0 r, records s !! k0 = Some r →
       publication_order (record_publication r) < publication_order (record_publication r')) ∧
    (∀ k0, k0 ≠ k → records s' !! k0 = records s !! k0).
Proof.
  intros Hs Hroom Hput k. apply reachable_wf in Hs as Hwf.
  destruct (headroom_wrap s Hwf Hroom) as [Hord Hseq]. destruct Hwf as [Hrs _].
  rewrite PutDeferred_run in Hput. simplify_eq.
  set (view := put_view snap now1 now2). set (e := put_expired snap now1 now2).
  assert (ref_key (snapshot_Cluster view) = k) as Hk by (unfold view; by rewrite put_view_Cluster).
  exists (put_record s view e). split_and!.
  - rewrite <- Hk. apply put_state_lookup.
  - unfold put_changed. rewrite Hk. destruct (records s !! k) as [r|] eqn:Hr.
    + rewrite negb_false_iff, bool_decide_eq_true. naive_solver.
    + naive_solver.
  - intros Hc r Hr. rewrite <- Hk in Hr. by apply put_record_revision.
  - intros Hc k0 r Hr. rewrite put_record_fresh, Hseq by done. intros Heq.
    destruct (record_wf_revision _ _ _ _ _ (records_wf_each _ _ _ _ Hrs _ _ Hr)) as (m & Hm & Hrev).
    rewrite Hrev in Heq. apply revision_of_inj in Heq. lia.
  - intros k0 r Hr. cbn. rewrite Hord.
    pose proof (record_wf_order _ _ _ _ _ (records_wf_each _ _ _ _ Hrs _ _ Hr)). lia.
  - intros k0 Hne. cbn. rewrite Hk, lookup_insert_ne by done. by destruct (put_changed _ _).
Qed.

(** Refreshing an observation keeps its revision: after publishing [a], an
    unexpired observation [b] that routes alike (members in any order, new
    timestamps and replay positions) reports no change, keeps the revision and
    stores the freshness of [b]. *)
Theorem refresh_keeps_revision s a b now1 now2 now3 now4 c1 n1 s1 c2 n2 s2 :
  same_routing a b → NoDup (member_key <$> snapshot_Members a) →
  now1 < snapshot_ValidUntil a → now2 < snapshot_ValidUntil a →
  now3 < snapshot_ValidUntil b → now4 < snapshot_ValidUntil b →
  PutDeferred a now1 now2 s = ((c1, n1), s1) → PutDeferred b now3 now4 s1 = ((c2, n2), s2) →
  let k := ref_key (snapshot_Cluster a) in
  c2 = false ∧ ∃ r1 r2, records s1 !! k = Some r1 ∧ records s2 !! k = Some r2 ∧
    snapshot_Revision (record_snapshot r2) = snapshot_Revision (record_snapshot r1) ∧
    snapshot_ObservedAt (record_snapshot r2) = snapshot_ObservedAt b ∧
    snapshot_ValidUntil (record_snapshot r2) = snapshot_ValidUntil b.
Proof.
  intros Hsame Hdup Ha1 Ha2 Hb1 Hb2 Hput1 Hput2 k.
  rewrite PutDeferred_run in Hput1, Hput2. rewrite put_view_fresh in Hput1 by done. simplify_eq.
  set (e1 := put_expired a now1 now2). set (e2 := put_expired b now3 now4).
  set (s1 := put_state s (set_APIVersion APIVersion a) e1).
  pose proof (put_again_unchanged s a b e1 now3 now4 Hsame Hdup Hb1 Hb2) as Hc. fold s1 in Hc.
  split; [done|].
  assert (records s1 !! k = Some (put_record s (set_APIVersion APIVersion a) e1)) as Hr1
    by apply (put_state_lookup s (set_APIVersion APIVersion a)).
  assert (ref_key (snapshot_Cluster (put_view b now3 now4)) = k) as Hk
    by (rewrite put_view_Cluster; unfold k; by rewrite (same_Cluster _ _ Hsame)).
  eexists _, (put_record s1 (put_view b now3 now4) e2). split_and!.
  - exact Hr1.
  - rewrite <- Hk. apply put_state_lookup.
  - apply put_record_revision; [by rewrite Hk|done].
  - cbn. by rewrite put_view_fresh.
  - cbn. by rewrite put_view_fresh.
Qed.

(** A sweep of [Expire] over all records, in whatever order the map iteration
    visits them, leaves every record either valid at [now] or closed for routing;
    valid records are untouched, and no expiry advances the observation time or
    the validity of a record. *)
Theorem expire_sweep id s ks now k :
  reachable id s → headroom s (Z.of_nat (length ks)) →
  (∀ k0, is_Some (records s !! k0) → k0 ∈ ks) →
  let s' := (Expire ks now s).2 in
  option_Forall2 (λ r r',
    (now < snapshot_ValidUntil (record_snapshot r') ∨ fail_closed (record_snapshot r')) ∧
    (now < snapshot_ValidUntil (record_snapshot r) → r' = r) ∧
    snapshot_ObservedAt (record_snapshot r') = snapshot_ObservedAt (record_snapshot r) ∧
    snapshot_ValidUntil (record_snapshot r') = snapshot_ValidUntil (record_snapshot r))
    (records s !! k) (records s' !! k).
Proof.
  intros Hs Hroom Hks s'. apply reachable_wf in Hs as Hwf.
  pose proof (Expire_wf ks now s Hwf Hroom) as [Hrs' _]. fold s' in Hrs'.
  assert (records s' = records (expire_all now ks s).2) as Hs'
    by (unfold s'; by rewrite Expire_state).
  pose proof (expire_all_kept now ks s k) as Hk. rewrite <- Hs' in Hk.
  destruct (records s !! k) as [r|] eqn:Hr, (records s' !! k) as [r'|] eqn:Hr';
    inversion Hk as [? ? Hkept|]; subst; constructor.
  assert (settled now r') as Hset.
  { rewrite Hs' in Hr'. eapply expire_all_settles; [exact Hr'|]. left. by apply Hks. }
  split_and!.
  - destruct Hset as [He|]; [right|by left].
    by eapply record_wf_expired; [eapply records_wf_each|].
  - intros Hlt. destruct Hkept as [|(? & _)]; [done|lia].
  - destruct Hkept as [->|(_ & _ & _ & ? & _)]; done.
  - destruct Hkept as [->|(_ & _ & _ & _ & ? & _)]; done.
Qed.

(** [ActiveClusters] lists exactly the known clusters for which [HasDemand]
    answers yes, once each, ordered by namespace and name, whatever the
    iteration order of the maps. *)
Theorem active_clusters_exact id s now :
  reachable id s → 0 ≤ now →
  let l := (ActiveClusters now s).1 in
  (∀ c, c ∈ l ↔ ∃ k r, records s !! k = Some r ∧ c = snapshot_Cluster (record_snapshot r) ∧
                       (HasDemand k now s).1 = true) ∧
  NoDup l ∧ StronglySorted (λ a b, cluster_less b a = false) l.
Proof.
  intros Hs Hnow l. apply reachable_wf in Hs as Hwf.
  set (active := dom (subscribers s) ∪
         dom (filter (λ kd, Before now kd.2 = true) (unaryDemand s))).
  set (items := omap (λ key, snapshot_Cluster ∘ record_snapshot <$> records s !! key) (elements active)).
  assert (l ≡ₚ items) as Hperm
    by apply (sort_Slice_perm (λ c, (cluster_Namespace c, cluster_Name c))).
  split_and!.
  - intros c. rewrite Hperm. unfold items. rewrite list_elem_of_omap.
    setoid_rewrite elem_of_elements. unfold HasDemand. setoid_rewrite hasDemand_value.
    setoid_rewrite orb_true_iff. setoid_rewrite bool_decide_eq_true.
    setoid_rewrite fmap_Some.
    split.
    + intros (k & Hk & r & Hr & ->). exists k, r. split_and!; [done..|].
      unfold active in Hk. rewrite elem_of_union, watchers_dom, leased_dom in Hk by done. done.
    + intros (k & r & Hr & -> & Hk). exists k. split; [|by eauto].
      unfold active. rewrite elem_of_union, watchers_dom, leased_dom by done. done.
  - rewrite Hperm. unfold items. apply NoDup_omap; [|apply NoDup_elements].
    intros k1 k2 c H1 H2. destruct Hwf as [Hrs _].
    apply fmap_Some in H1 as (r1 & Hr1 & ->), H2 as (r2 & Hr2 & Heq). cbn in Heq.
    rewrite <- (record_wf_key _ _ _ _ _ (records_wf_each _ _ _ _ Hrs _ _ Hr1)),
            <- (record_wf_key _ _ _ _ _ (records_wf_each _ _ _ _ Hrs _ _ Hr2)).
    congruence.
  - apply (sort_Slice_sorted (λ c, (cluster_Namespace c, cluster_Name c))).
Qed.

(** [RequestRefresh] of an unknown name allocates nothing; for a known cluster
    it calls the handler exactly when there was no demand before, keeps demand
    alive for the whole unary lease, and never changes routes or watchers. *)
Theorem request_refresh_lease s k now known call s' :
  RequestRefresh k now s = ((known, call), s') →
  quiet s s' ∧
  (known = true ↔ is_Some (records s !! k)) ∧
  (known = false → s' = s ∧ call = None) ∧
  (known = true →
     (call = Some k ↔ (HasDemand k now s).1 = false ∧ onDemand s = true) ∧
     ∀ t, t < now + unaryLease s → 0 < unaryLease s → (HasDemand k t s').1 = true).
Proof.
  intros Hreq. destruct (records s !! k) as [r|] eqn:Hr.
  - rewrite (RequestRefresh_known k r) in Hreq by done. unfold HasDemand.
    pose proof (hasDemand_quiet k now s) as Hq.
    destruct (hasDemand k now s) as [active s1] eqn:E. cbn in Hq |- *.
    injection Hreq as <- <- <-. split_and!.
    + by destruct (0 <? unaryLease s).
    + split; eauto.
    + done.
    + intros _. split; [destruct active, (onDemand s); cbn; naive_solver|].
      intros t Ht Hlease. rewrite (proj2 (Z.ltb_lt _ _) Hlease), hasDemand_value. cbn.
      rewrite lookup_insert_eq. cbn. apply orb_true_intro. right. by apply Before_spec.
  - rewrite RequestRefresh_unknown in Hreq by done. simplify_eq. by split_and!.
Qed.

(** [Delete] removes the record at once and hands its watchers one tombstone:
    a later publication than any other, closed for routing, with reason
    [deleted] and no members, under a new revision; the watchers stay
    registered and the unary lease is gone. *)
Theorem delete_publishes_tombstone id s k r n s' :
  reachable id s → headroom s 1 → records s !! k = Some r → DeleteDeferred k s = (n, s') →
  ∃ p, n = Notification (Some p) (elements (watchers_of s k)) ∧
    records s' = delete k (records s) ∧ subscribers s' = subscribers s ∧
    unaryDemand s' !! k = None ∧
    fail_closed (publication_snapshot p) ∧
    snapshot_Reason (publication_snapshot p) = "deleted" ∧
    snapshot_Members (publication_snapshot p) = [] ∧
    snapshot_Cluster (publication_snapshot p) = snapshot_Cluster (record_snapshot r) ∧
    (∀ k0 r0, records s !! k0 = Some r0 →
       publication_order (record_publication r0) < publication_order p ∧
       snapshot_Revision (record_snapshot r0) ≠ snapshot_Revision (publication_snapshot p)).
Proof.
  intros Hs Hroom Hr Hdel. apply reachable_wf in Hs as Hwf.
  destruct (headroom_wrap s Hwf Hroom) as [Hord Hseq]. destruct Hwf as [Hrs _].
  rewrite DeleteDeferred_run, Hr in Hdel. injection Hdel as <- <-.
  exists (deleted_publication s r). split_and!; try done.
  - apply lookup_delete_eq.
  - intros k0 r0 Hr0. pose proof (records_wf_each _ _ _ _ Hrs _ _ Hr0) as Hr0'.
    cbn. rewrite Hord, Hseq. pose proof (record_wf_order _ _ _ _ _ Hr0').
    destruct (record_wf_revision _ _ _ _ _ Hr0') as (m & Hm & ->). split; [lia|].
    intros Heq. apply revision_of_inj in Heq. lia.
Qed.
End props.

(** ** A concrete store *)

(** The digest that distinguishes all routing views. *)
Definition identity_digest : RoutingDigest := {| digest := Snapshot; routing_sum := id |}.

Definition example_key : clusterKey := ClusterKey "databases" "app-db".

Definition example_member : Member := {|
  member_ID := "uid-1"; member_Name := "app-db-1"; member_Role := "primary";
  member_SyncState := "unknown"; member_Ready := true; member_Reason := "";
  member_Endpoints := {[ "internal" := Build_Endpoint "10.0.0.1" 5432 "app-db-rw.databases.svc" ]};
  member_Node := "node"; member_Zone := "zone"; member_Region := "region";
  member_Timeline := 1; member_ReplayLSN := "0/1";
|}.

Definition example_snapshot (at_ : time) : Snapshot := {|
  snapshot_APIVersion := ""; snapshot_Cluster := Build_ClusterRef "databases" "app-db" "uid";
  snapshot_Revision := ""; snapshot_ObservedAt := at_; snapshot_ValidUntil := at_ + 15 * second;
  snapshot_Available := true; snapshot_Reason := ""; snapshot_PrimaryID := "uid-1";
  snapshot_Transitioning := false; snapshot_Members := [example_member];
  snapshot_Connection := Build_ConnectionParameters "app" "PEM";
|}.

Definition example_calls : list (@store_call) :=
  [CallSetDemandHandler (15 * second); CallPut (example_snapshot second) second second;
   CallRegister example_key true 1%positive second second].

Definition example_store : @Store identity_digest :=
  foldl (λ s c, store_run c s) (NewStore "process") example_calls.

Lemma example_reachable : reachable "process" example_store.
Proof.
  repeat (apply (@reachable_call identity_digest) || apply (@reachable_new identity_digest));
    vm_compute; reflexivity.
Qed.

Lemma reachable_store_wf_witness : store_wf example_store.
Proof. apply (reachable_store_wf "process"). exact example_reachable. Defined.

Lemma get_fails_closed_witness :
  match GetDeferred example_key (20 * second) example_store with
  | ((Some snap, _), _) => 20 * second < snapshot_ValidUntil snap ∨ fail_closed snap
  | _ => False
  end.
Proof.
  assert (bool_decide (is_Some (GetDeferred example_key (20 * second) example_store).1.1) = true) as Hsome
    by (vm_compute; reflexivity).
  destruct (GetDeferred example_key (20 * second) example_store) as [[[snap|] n] s'] eqn:E; [|done].
  exact (proj2 (get_fails_closed "process" _ _ _ _ _ _ example_reachable eq_refl E)).
Defined.

Lemma put_assigns_revision_witness :
  let '(_, s') := PutDeferred (example_snapshot (2 * second)) (2 * second) (2 * second) example_store in
  is_Some (records s' !! example_key).
Proof.
  destruct (PutDeferred (example_snapshot (2 * second)) (2 * second) (2 * second) example_store)
    as [[changed n] s'] eqn:E.
  destruct (put_assigns_revision "process" _ _ _ _ _ _ _ example_reachable eq_refl E) as (r' & Hr' & _).
  exists r'. exact Hr'.
Defined.

Lemma refresh_keeps_revision_witness :
  (PutDeferred (example_snapshot (2 * second)) (2 * second) (2 * second)
     (PutDeferred (example_snapshot second) second second example_store).2).1.1 = false.
Proof.
  destruct (PutDeferred (example_snapshot second) second second example_store) as [[c1 n1] s1] eqn:E1.
  cbn [snd]. destruct (PutDeferred (example_snapshot (2 * second)) (2 * second) (2 * second) s1)
    as [[c2 n2] s2] eqn:E2.
  refine (proj1 (refresh_keeps_revision _ _ _ _ _ _ _ _ _ _ _ _ _ _ _ _ _ _ _ E1 E2));
    [by split|apply NoDup_singleton|reflexivity..].
Defined.

Lemma expire_sweep_witness :
  is_Some (records (Expire [example_key] (20 * second) example_store).2 !! example_key).
Proof.
  eapply option_Forall2_is_Some.
  - apply (expire_sweep "process" example_store [example_key] (20 * second) example_key
      example_reachable eq_refl).
    intros k0 Hk0. apply elem_of_dom in Hk0.
    assert (dom (records example_store) = {[example_key]}) as Hdom
      by (apply (bool_decide_eq_true_1 _); vm_compute; reflexivity).
    rewrite Hdom in Hk0. apply elem_of_singleton in Hk0 as ->. by left.
  - apply (bool_decide_eq_true_1 _). vm_compute; reflexivity.
Defined.

Lemma active_clusters_exact_witness :
  NoDup (ActiveClusters second example_store).1 ∧
  length (ActiveClusters second example_store).1 = 1%nat.
Proof.
  split; [|vm_compute; reflexivity].
  apply (active_clusters_exact "process" example_store second example_reachable). done.
Defined.

Lemma request_refresh_lease_witness :
  (HasDemand example_key (16 * second) (RequestRefresh example_key (2 * second) example_store).2).1 = true.
Proof.
  destruct (RequestRefresh example_key (2 * second) example_store) as [[known call] s'] eqn:E.
  destruct (request_refresh_lease _ _ _ _ _ _ E) as (_ & Hknown & _ & Hlease).
  cbn [snd]. apply Hlease; [|vm_compute; reflexivity..].
  apply Hknown, (bool_decide_eq_true_1 _). vm_compute; reflexivity.
Defined.

Lemma delete_publishes_tombstone_witness :
  records (DeleteDeferred example_key example_store).2 = delete example_key (records example_store).
Proof.
  destruct (DeleteDeferred example_key example_store) as [n s'] eqn:E.
  assert (bool_decide (is_Some (records example_store !! example_key)) = true) as Hsome
    by (vm_compute; reflexivity).
  apply bool_decide_eq_true in Hsome as [r Hr].
  destruct (delete_publishes_tombstone "process" _ _ _ _ _ example_reachable eq_refl Hr E)
    as (p & _ & Hrec & _). exact Hrec.
Defined.
