(* ===== verification/Watchers.v ===== *)
(** * Watchers and out-of-order delivery

    The store commits under its lock and delivers after releasing it, so the
    deliveries of concurrent commits, registrations and cancellations interleave
    freely.  [World] is the store together with the heap of subscriptions and the
    deliveries still in flight; [step] is one critical section: of the store, of
    one mailbox, or of a receiver.  Deliveries are performed in any order. *)

From S2P Require Import Prelude Api Mailbox Store StoreFacts StoreProps.

#[export] Instance headroom_dec `{RoutingDigest} s n : Decision (headroom s n).
Proof. apply Z_lt_dec. Defined.

#[export] Instance watcher_unset_dec {A} (o : option A) : Decision (o = None).
Proof. destruct o; [by right|by left]. Defined.

Section watchers.
Context `{RoutingDigest}.

(** One subscription with the key and the [sync.Once] of its [cancel] closure.
    The last three fields are history variables: the store's commit counter at
    registration, the publications the mailbox accepted and those its consumer
    received, newest first. *)
Record watcher := Watcher {
  watcher_key : clusterKey;
  watcher_sub : subscription;
  watcher_cancelled : bool;
  watcher_born : Z;
  watcher_accepted : list publication;
  watcher_taken : list publication;
}.

(** [world_history] and [world_latest] are history variables: every committed
    publication by order, and the last one of each cluster. *)
Record World := {
  world_store : Store;
  world_watchers : gmap sid watcher;
  world_flight : list (publication * sid);
  world_coalesced : Z; (* uint64 *)
  world_history : gmap Z publication;
  world_latest : gmap clusterKey publication;
}.

Definition NewWorld (id : string) : World := {|
  world_store := NewStore id; world_watchers := ∅; world_flight := [];
  world_coalesced := 0; world_history := ∅; world_latest := ∅;
|}.

(** ** Commits *)

(** The deliveries of one notification. *)
Definition spread (n : notification) : list (publication * sid) :=
  match notification_publication n with
  | Some p => (λ w, (p, w)) <$> notification_watchers n
  | None => []
  end.

Definition log_commit (p : publication) (W : World) : World := {|
  world_store := world_store W; world_watchers := world_watchers W;
  world_flight := world_flight W; world_coalesced := world_coalesced W;
  world_history := <[publication_order p := p]> (world_history W);
  world_latest := <[ref_key (snapshot_Cluster (publication_snapshot p)) := p]> (world_latest W);
|}.

Definition post_notification (n : notification) (W : World) : World :=
  let W := match notification_publication n with Some p => log_commit p W | None => W end in
  {| world_store := world_store W; world_watchers := world_watchers W;
     world_flight := world_flight W ++ spread n; world_coalesced := world_coalesced W;
     world_history := world_history W; world_latest := world_latest W |}.

Definition set_store (s : Store) (W : World) : World := {|
  world_store := s; world_watchers := world_watchers W; world_flight := world_flight W;
  world_coalesced := world_coalesced W; world_history := world_history W;
  world_latest := world_latest W;
|}.

Definition set_watcher (w : sid) (x : watcher) (W : World) : World := {|
  world_store := world_store W; world_watchers := <[w := x]> (world_watchers W);
  world_flight := world_flight W; world_coalesced := world_coalesced W;
  world_history := world_history W; world_latest := world_latest W;
|}.

Definition add_flight (l : list (publication * sid)) (W : World) : World := {|
  world_store := world_store W; world_watchers := world_watchers W;
  world_flight := world_flight W ++ l; world_coalesced := world_coalesced W;
  world_history := world_history W; world_latest := world_latest W;
|}.

(** A section that commits the notifications [ns] and moves the store to [s]. *)
Definition commit (ns : list notification) (s : Store) (W : World) : World :=
  set_store s (foldl (λ W n, post_notification n W) W ns).

(** The notifications of a call that keeps the watcher sets. *)
Definition store_notes (c : store_call) (s : Store) : option (list notification) :=
  match c with
  | CallPut snap now1 now2 => Some (notifications (PutDeferred snap now1 now2 s).1.2)
  | CallDelete k => Some (notifications (DeleteDeferred k s).1)
  | CallRead k now => Some (notifications (readPublication k now s).1.2)
  | CallExpire ks now => Some (Expire ks now s).1
  | CallRegister _ _ _ _ _ | CallUnregister _ _ => None
  | CallRequestRefresh _ _ | CallHasDemand _ _ | CallActiveClusters _ | CallSetDemandHandler _ => Some []
  end.

(** ** Mailbox steps *)

(** [watcher.deliver published]. *)
Definition watcher_deliver (p : publication) (x : watcher) : watcher * bool :=
  let '(sub, replaced) := subscription_deliver (watcher_sub x) p in
  (Watcher (watcher_key x) sub (watcher_cancelled x) (watcher_born x)
     (if subscription_closed (watcher_sub x) || (publication_order p <=? subscription_order (watcher_sub x))
      then watcher_accepted x else p :: watcher_accepted x)
     (watcher_taken x), replaced).

(** The consumer receives: an item moves to [watcher_taken]. *)
Definition watcher_receive (x : watcher) : watcher :=
  Watcher (watcher_key x) (subscription_receive (watcher_sub x)).2 (watcher_cancelled x)
    (watcher_born x) (watcher_accepted x)
    (match pending_snapshot (watcher_sub x), watcher_accepted x with
     | Some _, p :: _ => p :: watcher_taken x
     | _, _ => watcher_taken x
     end).

Definition watcher_close (x : watcher) : watcher :=
  Watcher (watcher_key x) (subscription_close (watcher_sub x)) (watcher_cancelled x)
    (watcher_born x) (watcher_accepted x) (watcher_taken x).

Definition watcher_cancel (x : watcher) : watcher :=
  Watcher (watcher_key x) (watcher_sub x) true (watcher_born x) (watcher_accepted x) (watcher_taken x).

(** [subscribe] and [subscribeShared] allocate an empty mailbox. *)
Definition new_watcher (k : clusterKey) (shared : bool) (born : Z) : watcher :=
  Watcher k (Subscription 0 false (if shared then Publications None else Snapshots None))
    false born [] [].

Definition initial_delivery (o : option publication) (w : sid) : list (publication * sid) :=
  match o with Some p => [(p, w)] | None => [] end.

Definition perform_delivery (p : publication) (w : sid) (x : watcher)
    (flight : list (publication * sid)) (W : World) : World :=
  let '(x', replaced) := watcher_deliver p x in
  {| world_store := world_store W; world_watchers := <[w := x']> (world_watchers W);
     world_flight := flight;
     world_coalesced := if replaced then wrap_u64 (world_coalesced W + 1) else world_coalesced W;
     world_history := world_history W; world_latest := world_latest W |}.

(** ** Steps *)

Inductive step (W : World) : World → Prop :=
  | step_call c ns :
      store_notes c (world_store W) = Some ns → headroom (world_store W) (Z.of_nat (length ns)) →
      step W (commit ns (store_run c (world_store W)) W)
  | step_subscribe k req shared w now1 now2 reg s' :
      world_watchers W !! w = None → headroom (world_store W) 1 →
      register k req w now1 now2 (world_store W) = (reg, s') → registration_exists reg = true →
      step W (add_flight (initial_delivery (registration_initial reg) w)
                (set_watcher w (new_watcher k shared (publicationOrder s'))
                   (commit (notifications (registration_expired reg)) s' W)))
  | step_deliver p w x flight1 flight2 :
      world_flight W = flight1 ++ (p, w) :: flight2 → world_watchers W !! w = Some x →
      step W (perform_delivery p w x (flight1 ++ flight2) W)
  | step_receive w x :
      world_watchers W !! w = Some x → step W (set_watcher w (watcher_receive x) W)
  | step_cancel w x :
      world_watchers W !! w = Some x → watcher_cancelled x = false →
      step W (set_watcher w (watcher_cancel x)
                (set_store (unregister (watcher_key x) w (world_store W)).2 W))
  | step_close w x :
      world_watchers W !! w = Some x → watcher_cancelled x = true →
      subscription_closed (watcher_sub x) = false →
      step W (set_watcher w (watcher_close x) W).

(** ** Executable steps *)

(** A scheduler's choice of the next step; [ActDeliver i] performs the [i]-th
    outstanding delivery. *)
Inductive action :=
  | ActCall (c : store_call)
  | ActSubscribe (k : clusterKey) (req shared : bool) (w : sid) (now1 now2 : time)
  | ActDeliver (i : nat)
  | ActReceive (w : sid)
  | ActCancel (w : sid)
  | ActClose (w : sid).

Definition world_do (a : action) (W : World) : option World :=
  match a with
  | ActCall c =>
      ns ← store_notes c (world_store W);
      guard (headroom (world_store W) (Z.of_nat (length ns))) ;;
      Some (commit ns (store_run c (world_store W)) W)
  | ActSubscribe k req shared w now1 now2 =>
      guard (world_watchers W !! w = None) ;;
      guard (headroom (world_store W) 1) ;;
      let '(reg, s') := register k req w now1 now2 (world_store W) in
      guard (registration_exists reg = true) ;;
      Some (add_flight (initial_delivery (registration_initial reg) w)
              (set_watcher w (new_watcher k shared (publicationOrder s'))
                 (commit (notifications (registration_expired reg)) s' W)))
  | ActDeliver i =>
      pw ← world_flight W !! i;
      x ← world_watchers W !! pw.2;
      Some (perform_delivery pw.1 pw.2 x (take i (world_flight W) ++ drop (S i) (world_flight W)) W)
  | ActReceive w =>
      x ← world_watchers W !! w;
      Some (set_watcher w (watcher_receive x) W)
  | ActCancel w =>
      x ← world_watchers W !! w;
      guard (watcher_cancelled x = false) ;;
      Some (set_watcher w (watcher_cancel x)
              (set_store (unregister (watcher_key x) w (world_store W)).2 W))
  | ActClose w =>
      x ← world_watchers W !! w;
      guard (watcher_cancelled x = true ∧ subscription_closed (watcher_sub x) = false) ;;
      Some (set_watcher w (watcher_close x) W)
  end.

Definition world_run (l : list action) (W : World) : option World :=
  foldl (λ o a, o ≫= world_do a) (Some W) l.

Inductive world_reachable (id : string) : World → Prop :=
  | world_new : world_reachable id (NewWorld id)
  | world_step W W' : world_reachable id W → step W W' → world_reachable id W'.
End watchers.
