(* ===== verification/WatcherFacts.v ===== *)
(** * Invariant and convergence of watchers

    The invariant of [Watchers.World] under every interleaving of commits,
    deliveries, receptions and cancellations, by induction on [step]. *)

From S2P Require Import Prelude Api Mailbox Store StoreFacts StoreProps Watchers.

Abbreviation pub_key p := (ref_key (snapshot_Cluster (publication_snapshot p))).

(** [a] was committed after [b]. *)
Definition newer (a b : publication) : Prop := publication_order b < publication_order a.

Section facts.
Context `{RoutingDigest}.

(** ** The invariant *)

Record watcher_wf (hist : gmap Z publication) (x : watcher) : Prop := {
  watcher_wf_accepted : Forall (λ p, hist !! publication_order p = Some p ∧ pub_key p = watcher_key x)
                          (watcher_accepted x);
  watcher_wf_sorted : StronglySorted newer (watcher_accepted x);
  watcher_wf_order : subscription_order (watcher_sub x) =
                     from_option publication_order 0 (head (watcher_accepted x));
  watcher_wf_slot :
    match pending_snapshot (watcher_sub x) with
    | Some y => ∃ p rest, watcher_accepted x = p :: rest ∧ y = publication_snapshot p ∧
                          watcher_taken x `sublist_of` rest
    | None => head (watcher_taken x) = head (watcher_accepted x) ∧
              watcher_taken x `sublist_of` watcher_accepted x
    end;
  watcher_wf_closed : subscription_closed (watcher_sub x) = true → watcher_cancelled x = true;
}.

Record world_inv (W : World) : Prop := {
  inv_counter : 0 ≤ publicationOrder (world_store W) < u64_modulus;
  inv_history : ∀ n p, world_history W !! n = Some p →
    publication_order p = n ∧ 0 < n ≤ publicationOrder (world_store W);
  inv_latest_history : ∀ k p, world_latest W !! k = Some p →
    world_history W !! publication_order p = Some p ∧ pub_key p = k;
  inv_history_latest : ∀ n q, world_history W !! n = Some q →
    ∃ p, world_latest W !! pub_key q = Some p ∧ publication_order q ≤ publication_order p;
  inv_records : ∀ k r, records (world_store W) !! k = Some r →
    world_latest W !! k = Some (record_publication r);
  inv_latest_records : ∀ k p, world_latest W !! k = Some p →
    (∃ r, records (world_store W) !! k = Some r ∧ record_publication r = p) ∨
    (records (world_store W) !! k = None ∧ fail_closed (publication_snapshot p) ∧
     snapshot_Reason (publication_snapshot p) = "deleted");
  inv_flight : ∀ p w, (p, w) ∈ world_flight W →
    world_history W !! publication_order p = Some p ∧
    ∃ x, world_watchers W !! w = Some x ∧ watcher_key x = pub_key p;
  inv_watchers : ∀ w x, world_watchers W !! w = Some x →
    watcher_wf (world_history W) x ∧ watcher_born x ≤ publicationOrder (world_store W);
  inv_registered : ∀ k w, w ∈ watchers_of (world_store W) k ↔
    ∃ x, world_watchers W !! w = Some x ∧ watcher_key x = k ∧ watcher_cancelled x = false;
  inv_convergence : ∀ w x p, world_watchers W !! w = Some x → watcher_cancelled x = false →
    world_latest W !! watcher_key x = Some p →
    publication_order p ≤ subscription_order (watcher_sub x) ∨ (p, w) ∈ world_flight W ∨
    (publication_order p ≤ watcher_born x ∧ records (world_store W) !! watcher_key x = None);
}.

Lemma watcher_wf_mono hist hist' x : hist ⊆ hist' → watcher_wf hist x → watcher_wf hist' x.
Proof.
  intros Hsub []. split; try done.
  eapply Forall_impl; [done|]. cbn. intros p [Hp ?]. split; [by eapply lookup_weaken|done].
Qed.

Lemma new_watcher_wf hist k shared born : watcher_wf hist (new_watcher k shared born).
Proof.
  split; cbn; [constructor|constructor|done| |done].
  destruct shared; cbn; (split; [done|apply sublist_nil_l]).
Qed.

Lemma NewWorld_inv id : world_inv (NewWorld id).
Proof.
  split; cbn; try (intros *; by rewrite lookup_empty).
  - unfold u64_modulus. lia.
  - intros ?? []%not_elem_of_nil.
  - intros k w. unfold watchers_of. cbn. rewrite lookup_empty. cbn. split; [set_solver|].
    intros (x & Hx & _). by rewrite lookup_empty in Hx.
Qed.

(** ** Store sections *)

Lemma watchers_of_subscribers s s' k : subscribers s' = subscribers s → watchers_of s' k = watchers_of s k.
Proof. unfold watchers_of. by intros ->. Qed.

Lemma quiet_inv W s' : world_inv W → quiet (world_store W) s' → world_inv (set_store s' W).
Proof.
  intros [] (Hr & Hs & Ho). split; cbn; rewrite ?Hr, ?Ho; try done.
  intros k w. rewrite (watchers_of_subscribers (world_store W)) by done. done.
Qed.

Lemma spread_elem p (ws : list sid) q w :
  (q, w) ∈ spread (Notification (Some p) ws) ↔ q = p ∧ w ∈ ws.
Proof. unfold spread. cbn. rewrite list_elem_of_fmap. naive_solver. Qed.

(** What a publication does to the records: another Cluster keeps its own, and the
    Cluster has the record of the publication, or none after a deletion. *)
Lemma published_other s k p s' k' : published s k p s' → k' ≠ k → records s' !! k' = records s !! k'.
Proof.
  intros [_ _ _ _ Hrecs] Hne. destruct Hrecs as [(r & _ & ->)|[-> _]]; [by rewrite lookup_insert_ne|by rewrite lookup_delete_ne].
Qed.

Lemma published_here s k p s' :
  published s k p s' →
  (∃ r, records s' !! k = Some r ∧ record_publication r = p) ∨
  (records s' !! k = None ∧ fail_closed (publication_snapshot p) ∧ snapshot_Reason (publication_snapshot p) = "deleted").
Proof.
  intros [_ _ _ _ Hrecs]. destruct Hrecs as [(r & <- & ->)|(-> & ? & ?)]; [left|right].
  - exists r. by rewrite lookup_insert_eq.
  - by rewrite lookup_delete_eq.
Qed.

(** A publication of the highest order is the latest of its Cluster. *)
Lemma latest_newest p (history : gmap Z publication) (latest : gmap clusterKey publication) :
  (∀ n q, history !! n = Some q →
    publication_order q < publication_order p ∧
    ∃ p', latest !! pub_key q = Some p' ∧ publication_order q ≤ publication_order p') →
  ∀ n q, <[publication_order p := p]> history !! n = Some q →
    ∃ p', <[pub_key p := p]> latest !! pub_key q = Some p' ∧ publication_order q ≤ publication_order p'.
Proof.
  intros Hold n q [[<- <-]|[_ Hq]]%lookup_insert_Some; [exists p; by rewrite lookup_insert_eq|].
  destruct (Hold n q Hq) as [Hlt Hex]. destruct (decide (pub_key p = pub_key q)) as [Heq|Hne].
  - exists p. rewrite Heq, lookup_insert_eq. split; [done|lia].
  - by rewrite lookup_insert_ne.
Qed.

Lemma published_inv W k p s' :
  world_inv W → headroom (world_store W) 1 → published (world_store W) k p s' →
  world_inv (set_store s'
    (post_notification (Notification (Some p) (elements (watchers_of (world_store W) k))) W)).
Proof.
  intros [Hc Hh Hlh Hhl Hrec Hlr Hfl Hw Hreg Hconv] Hroom Hpub. pose proof Hpub as [Hpo Hsucc Hkey Hsub _].
  rewrite wrap_u64_small in Hsucc by (unfold headroom in Hroom; lia).
  unfold headroom in Hroom.
  assert (world_history W !! publication_order p = None) as Hnew.
  { destruct (_ !! publication_order p) eqn:E; [|done]. apply Hh in E. lia. }
  assert (world_history W ⊆ <[publication_order p := p]> (world_history W)) as Hmono
    by by apply insert_subseteq.
  assert (∀ q, world_history W !! publication_order q = Some q →
    <[publication_order p := p]> (world_history W) !! publication_order q = Some q) as Hweak
    by (intros; by eapply lookup_weaken).
  pose proof (λ k', published_other _ _ _ _ k' Hpub) as Hother.
  split; cbn -[elements spread]; rewrite ?Hsucc.
  - lia.
  - intros n q [[<- <-]|[_ Hq]]%lookup_insert_Some; [lia|]. apply Hh in Hq. lia.
  - intros k' q [[<- <-]|[_ Hq]]%lookup_insert_Some; [by rewrite lookup_insert_eq|].
    apply Hlh in Hq as [? ?]. auto.
  - apply latest_newest. intros n q Hq. pose proof (Hh _ _ Hq). split; [lia|by eapply Hhl].
  - intros k' r Hr. rewrite Hkey. destruct (decide (k = k')) as [<-|Hne].
    + destruct (published_here _ _ _ _ Hpub) as [(r' & ? & <-)|[? _]]; simplify_eq. by rewrite lookup_insert_eq.
    + rewrite lookup_insert_ne by done. apply Hrec. by rewrite <- Hother.
  - intros k' q [[<- <-]|[Hne Hq]]%lookup_insert_Some; rewrite Hkey in *; [by apply published_here in Hpub|].
    rewrite Hother by done. by apply Hlr.
  - intros q w [Hq|[-> Hq]%spread_elem]%elem_of_app.
    + apply Hfl in Hq as [? ?]. auto.
    + rewrite lookup_insert_eq. split; [done|].
      apply elem_of_elements, Hreg in Hq as (x & ? & ? & _). exists x. split; [done|congruence].
  - intros w x Hx. apply Hw in Hx as [? ?]. split; [by eapply watcher_wf_mono|lia].
  - intros k' w. rewrite (watchers_of_subscribers (world_store W)) by done. done.
  - intros w x q Hx Hcan. rewrite Hkey. destruct (decide (k = watcher_key x)) as [Heq|Hne].
    + rewrite <- Heq, lookup_insert_eq. intros [= <-]. right; left.
      apply elem_of_app. right. apply spread_elem. split; [done|].
      rewrite elem_of_elements, Hreg. eauto.
    + rewrite lookup_insert_ne by done. intros Hq.
      destruct (Hconv w x q Hx Hcan Hq) as [?|[?|[? ?]]]; [by left|right; left|right; right].
      * apply elem_of_app. by left.
      * by rewrite Hother by done.
Qed.

Lemma commit_set_store ns s1 s2 W : commit ns s2 (set_store s1 W) = commit ns s2 W.
Proof.
  unfold commit. revert W. induction ns as [|n ns IH]; intros W; [done|]. cbn.
  rewrite <- (IH (post_notification n W)). do 2 f_equal.
  unfold post_notification. by destruct (notification_publication n).
Qed.

Lemma effects_inv s ns s' W :
  effects s ns s' → world_store W = s → world_inv W → headroom s (Z.of_nat (length ns)) →
  world_inv (commit ns s' W).
Proof.
  intros He. revert W. induction He as [s s' Hq|s k p s1 ns s2 Hp He IH]; intros W <- HW Hroom.
  - by apply quiet_inv.
  - unfold headroom in Hroom. cbn [length] in Hroom.
    set (n := Notification _ _).
    change (commit (n :: ns) s2 W) with (commit ns s2 (post_notification n W)).
    rewrite <- (commit_set_store ns s1). pose proof (inv_counter _ HW).
    apply IH; [done| |].
    + apply published_inv; [done|unfold headroom; lia|done].
    + unfold headroom. rewrite (published_succ _ _ _ _ Hp), wrap_u64_small; lia.
Qed.

(** One read needs room in the counter only when it publishes. *)
Lemma readPublication_room k now s :
  store_wf s → headroom s (Z.of_nat (length (notifications (readPublication k now s).1.2))) → store_wf (readPublication k now s).2.
Proof.
  intros Hwf Hroom. destruct (notification_publication (readPublication k now s).1.2) eqn:E.
  - apply readPublication_wf; [done|]. unfold notifications in Hroom. by rewrite E in Hroom.
  - destruct (readPublication_state k now s) as [[-> _]|(r & Hr & -> & Hn)]; [done|]. rewrite Hn in E.
    destruct (expireRecord_cases r now) as [Hskip|[He Hle]]; [by rewrite expireRecord_skip|]. by rewrite expireRecord_fire in E.
Qed.

Lemma effects_order s ns s' :
  effects s ns s' → 0 ≤ publicationOrder s → headroom s (Z.of_nat (length ns)) →
  publicationOrder s' = publicationOrder s + Z.of_nat (length ns).
Proof.
  induction 1 as [s s' (_ & _ & ->)|s k p s1 ns s2 Hp _ IH]; intros Hpos Hroom; [cbn; lia|].
  unfold headroom in *. cbn [length] in *. pose proof (published_succ _ _ _ _ Hp) as Ho.
  rewrite wrap_u64_small in Ho by lia. specialize (IH ltac:(lia) ltac:(lia)). lia.
Qed.

Lemma store_wf_order s : store_wf s → 0 ≤ publicationOrder s.
Proof. intros [Hrs _]. pose proof (records_wf_counters _ _ _ _ Hrs). lia. Qed.

Lemma expire_all_room now (ks : list clusterKey) s :
  store_wf s → headroom s (Z.of_nat (length (expire_all now ks s).1)) →
  store_wf (expire_all now ks s).2 ∧ effects s (expire_all now ks s).1 (expire_all now ks s).2.
Proof.
  revert s. induction ks as [|k ks IH]; intros s Hwf Hroom; [by split; [|constructor]|].
  rewrite expire_all_cons, expire_one_read in *. cbn [fst snd] in *. unfold headroom in *. rewrite length_app in Hroom.
  pose proof (effect_effects _ _ _ _ (readPublication_effect k now s Hwf)) as He.
  pose proof (effects_order _ _ _ He (store_wf_order s Hwf) ltac:(unfold headroom; lia)) as Ho.
  destruct (IH (readPublication k now s).2) as [Hwf' He']; [apply readPublication_room; [done|unfold headroom; lia]|lia|].
  split; [done|]. by eapply effects_app.
Qed.

(** A call publishes its notifications and keeps the store well-formed, if the counter
    has room for them. *)
Lemma store_notes_effects c s ns :
  store_wf s → headroom s (Z.of_nat (length ns)) → store_notes c s = Some ns →
  store_wf (store_run c s) ∧ effects s ns (store_run c s).
Proof.
  intros Hwf Hroom. destruct c; cbn [store_notes store_run]; intros [= <-].
  - split; [|eapply effect_effects, PutDeferred_effect]. apply PutDeferred_wf; [done|]. rewrite PutDeferred_run in Hroom. exact Hroom.
  - split; [|by eapply effect_effects, DeleteDeferred_effect]. destruct (records s !! k) eqn:Hr.
    + apply DeleteDeferred_wf; [done|]. rewrite DeleteDeferred_run, Hr in Hroom. exact Hroom.
    + by rewrite DeleteDeferred_run, Hr.
  - split; [by apply readPublication_room|by eapply effect_effects, readPublication_effect].
  - rewrite Expire_state, Expire_notifications in *. destruct (expire_all_room now ks s Hwf Hroom) as [? He]. split; [done|].
    by eapply effects_quiet_r.
  - split; [by apply RequestRefresh_wf|]. constructor. apply request_refresh_quiet.
  - split; [by apply hasDemand_wf|]. constructor. apply hasDemand_quiet.
  - by split; [|constructor].
  - by split; [|constructor].
Qed.

Lemma call_inv W c ns :
  world_inv W → store_wf (world_store W) → store_notes c (world_store W) = Some ns →
  headroom (world_store W) (Z.of_nat (length ns)) → world_inv (commit ns (store_run c (world_store W)) W).
Proof. intros HW Hwf Hns Hroom. eapply effects_inv; [by apply store_notes_effects|done..]. Qed.

(** ** Registration and cancellation *)

Lemma subscribe_inv W k shared w s' :
  world_inv W → world_watchers W !! w = None →
  records s' = records (world_store W) → publicationOrder s' = publicationOrder (world_store W) →
  subscribers s' = <[k := {[w]} ∪ default ∅ (subscribers (world_store W) !! k)]>
                     (subscribers (world_store W)) →
  world_inv (add_flight (initial_delivery (record_publication <$> records s' !! k) w)
    (set_watcher w (new_watcher k shared (publicationOrder s')) (set_store s' W))).
Proof.
  intros [Hc Hh Hlh Hhl Hrec Hlr Hfl Hw Hreg Hconv] Hfresh Hr Ho Hs.
  assert (∀ w' x, world_watchers W !! w' = Some x → w' ≠ w) as Hne by (intros; congruence).
  split; cbn -[elements]; rewrite ?Hr, ?Ho; try done.
  - intros q w' [Hq|Hq]%elem_of_app.
    + apply Hfl in Hq as (? & x & Hx & ?). split; [done|]. exists x.
      rewrite lookup_insert_ne by naive_solver. done.
    + destruct (records (world_store W) !! k) as [r|] eqn:Hrk; cbn in Hq; [|by apply elem_of_nil in Hq].
      apply list_elem_of_singleton in Hq as [= -> ->]. apply Hrec in Hrk. apply Hlh in Hrk as [? ?].
      split; [done|]. exists (new_watcher k shared (publicationOrder (world_store W))).
      by rewrite lookup_insert_eq.
  - intros w' x [[<- <-]|[_ Hx]]%lookup_insert_Some; [|by apply (Hw w' x)].
    split; [apply new_watcher_wf|cbn; lia].
  - intros k' w'. unfold watchers_of. rewrite Hs.
    destruct (decide (k = k')) as [<-|Hk].
    + rewrite lookup_insert_eq. cbn. rewrite elem_of_union, elem_of_singleton. fold (watchers_of (world_store W) k).
      rewrite Hreg. split.
      * intros [->|(x & Hx & ?)]; [eexists; rewrite lookup_insert_eq; by eauto|].
        exists x. rewrite lookup_insert_ne by naive_solver. done.
      * intros (x & [[<- <-]|[_ Hx]]%lookup_insert_Some & ?); [by left|right; by eauto].
    + rewrite lookup_insert_ne by done. fold (watchers_of (world_store W) k'). rewrite Hreg. split.
      * intros (x & Hx & ?). exists x. rewrite lookup_insert_ne by naive_solver. done.
      * intros (x & [[<- <-]|[_ Hx]]%lookup_insert_Some & ? & ?); [done|by eauto].
  - intros w' x q [[<- <-]|[_ Hx]]%lookup_insert_Some Hcan Hq.
    + cbn in Hq |- *. destruct (records (world_store W) !! k) as [r|] eqn:Hrk; cbn.
      * right; left. apply elem_of_app. right. apply Hrec in Hrk. simplify_eq. by left.
      * right; right. split; [|done]. apply Hlh in Hq as [Hq _]. apply Hh in Hq. lia.
    + destruct (Hconv w' x q Hx Hcan Hq) as [?|[?|?]]; [by left|right; left|by right; right].
      apply elem_of_app. by left.
Qed.

Lemma watchers_of_unregister k w s k' :
  watchers_of (unregister k w s).2 k' =
  if decide (k = k') then watchers_of s k ∖ {[w]} else watchers_of s k'.
Proof.
  unfold watchers_of. cbn. case_bool_decide as He; case_decide as Hk; subst.
  - by rewrite lookup_delete_eq, He.
  - by rewrite lookup_delete_ne.
  - by rewrite lookup_insert_eq.
  - by rewrite lookup_insert_ne.
Qed.

(** A step that changes one watcher in place and neither its key nor its
    position in the store. *)
Lemma update_watcher_inv W w x x' :
  world_inv W → world_watchers W !! w = Some x →
  watcher_key x' = watcher_key x → watcher_cancelled x' = watcher_cancelled x →
  watcher_born x' = watcher_born x →
  subscription_order (watcher_sub x') = subscription_order (watcher_sub x) →
  watcher_wf (world_history W) x' → world_inv (set_watcher w x' W).
Proof.
  intros [Hc Hh Hlh Hhl Hrec Hlr Hfl Hw Hreg Hconv] Hx Hk Hcan Hb Ho Hwf.
  assert (∀ w0 x0, world_watchers W !! w0 = Some x0 → ∃ x1,
    <[w := x']> (world_watchers W) !! w0 = Some x1 ∧ watcher_key x1 = watcher_key x0 ∧
    watcher_cancelled x1 = watcher_cancelled x0) as Hfwd.
  { intros w0 x0 Hx0. destruct (decide (w = w0)) as [<-|Hne].
    - exists x'. rewrite lookup_insert_eq. simplify_eq. done.
    - exists x0. by rewrite lookup_insert_ne. }
  split; cbn; try done.
  - intros p w' Hp. apply Hfl in Hp as (? & x0 & Hx0 & Hkey). split; [done|].
    destruct (Hfwd _ _ Hx0) as (x1 & ? & ? & _). exists x1. split; [done|congruence].
  - intros w' x0 [[<- <-]|[_ Hx0]]%lookup_insert_Some; [|by apply (Hw w')].
    split; [done|]. rewrite Hb. by apply (Hw w).
  - intros k w'. rewrite Hreg. split.
    + intros (x0 & Hx0 & ? & ?). destruct (Hfwd _ _ Hx0) as (x1 & ? & ? & ?).
      exists x1. split_and!; congruence.
    + intros (x0 & [[<- <-]|[_ Hx0]]%lookup_insert_Some & ? & ?); [|by eauto].
      exists x. split_and!; congruence.
  - intros w' x0 p [[<- <-]|[_ Hx0]]%lookup_insert_Some Hc0 Hp; [|by apply Hconv].
    rewrite Hk, Ho, Hb in *. rewrite Hcan in Hc0. by apply Hconv.
Qed.

(** ** Mailbox steps *)

Lemma accepted_below hist x q :
  watcher_wf hist x → q ∈ watcher_accepted x →
  publication_order q ≤ subscription_order (watcher_sub x).
Proof.
  intros [_ Hsorted Hord _ _] Hq. rewrite Hord. destruct (watcher_accepted x) as [|p l]; cbn.
  - by apply elem_of_nil in Hq.
  - apply StronglySorted_inv in Hsorted as [_ Hall]. apply elem_of_cons in Hq as [->|Hq]; [done|].
    rewrite Forall_forall in Hall. specialize (Hall q Hq). unfold newer in Hall. lia.
Qed.

Lemma taken_accepted hist x : watcher_wf hist x → watcher_taken x `sublist_of` watcher_accepted x.
Proof.
  intros [_ _ _ Hslot _]. destruct (pending_snapshot (watcher_sub x)).
  - destruct Hslot as (p & rest & -> & _ & Hsub). by apply sublist_cons.
  - by destruct Hslot.
Qed.

Lemma watcher_deliver_fields p x :
  watcher_key (watcher_deliver p x).1 = watcher_key x ∧
  watcher_cancelled (watcher_deliver p x).1 = watcher_cancelled x ∧
  watcher_born (watcher_deliver p x).1 = watcher_born x ∧
  watcher_sub (watcher_deliver p x).1 = (subscription_deliver (watcher_sub x) p).1.
Proof. unfold watcher_deliver. by destruct (subscription_deliver (watcher_sub x) p). Qed.

Lemma watcher_deliver_wf hist p x :
  watcher_wf hist x → hist !! publication_order p = Some p → pub_key p = watcher_key x →
  watcher_wf hist (watcher_deliver p x).1.
Proof.
  intros Hwf Hp Hk. destruct (watcher_deliver_fields p x) as (Ek & Ec & _ & Es).
  pose proof (taken_accepted hist x Hwf) as Htaken.
  destruct (subscription_closed (watcher_sub x)) eqn:Hcl.
  { rewrite subscription_deliver_closed in Es by done. unfold watcher_deliver.
    rewrite subscription_deliver_closed, Hcl by done. cbn. by destruct Hwf. }
  destruct (Z.le_gt_cases (publication_order p) (subscription_order (watcher_sub x))) as [Hle|Hgt].
  { unfold watcher_deliver. rewrite subscription_deliver_stale, (proj2 (Z.leb_le _ _) Hle), orb_true_r by done.
    by destruct Hwf. }
  destruct (subscription_deliver_fresh (watcher_sub x) p Hcl Hgt) as (Hpend & Hord & Hclosed & _).
  assert (watcher_accepted (watcher_deliver p x).1 = p :: watcher_accepted x ∧
          watcher_taken (watcher_deliver p x).1 = watcher_taken x) as [Ea Et].
  { unfold watcher_deliver. rewrite Hcl, (proj2 (Z.leb_gt _ _) Hgt).
    by destruct (subscription_deliver (watcher_sub x) p). }
  split; rewrite ?Ek, ?Ec, ?Es, ?Ea, ?Et, ?Hpend, ?Hord, ?Hclosed; [| |done|by eauto|done].
  - constructor; [done|]. by apply watcher_wf_accepted.
  - constructor; [by eapply watcher_wf_sorted|]. apply Forall_forall. intros q Hq.
    pose proof (accepted_below _ _ _ Hwf Hq). unfold newer. lia.
Qed.

Lemma watcher_receive_wf hist x : watcher_wf hist x → watcher_wf hist (watcher_receive x).
Proof.
  intros [Hacc Hsorted Hord Hslot Hclosed].
  assert (subscription_order (subscription_receive (watcher_sub x)).2 = subscription_order (watcher_sub x) ∧
    subscription_closed (subscription_receive (watcher_sub x)).2 = subscription_closed (watcher_sub x) ∧
    pending_snapshot (subscription_receive (watcher_sub x)).2 = None) as (Eo & Ec & Ep).
  { unfold subscription_receive, pending_snapshot.
    destruct (subscription_mailbox (watcher_sub x)) as [[]|[]] eqn:E; cbn; rewrite ?E; done. }
  split; cbn; rewrite ?Eo, ?Ec, ?Ep; try done.
  destruct (pending_snapshot (watcher_sub x)) as [y|].
  - destruct Hslot as (p & rest & -> & _ & Hsub). split; [done|]. by constructor.
  - by destruct (watcher_accepted x).
Qed.

Lemma watcher_close_wf hist x :
  watcher_wf hist x → watcher_cancelled x = true → watcher_wf hist (watcher_close x).
Proof. intros [] ?. by split. Qed.

Lemma deliver_inv W p w x flight1 flight2 :
  world_inv W → world_flight W = flight1 ++ (p, w) :: flight2 → world_watchers W !! w = Some x →
  world_inv (perform_delivery p w x (flight1 ++ flight2) W).
Proof.
  intros [Hc Hh Hlh Hhl Hrec Hlr Hfl Hw Hreg Hconv] Hflight Hx.
  assert (∀ q w', (q, w') ∈ flight1 ++ flight2 → (q, w') ∈ world_flight W) as Hrest
    by (rewrite Hflight; set_solver).
  destruct (Hfl p w) as (Hhist & x0 & Hx0 & Hk); [rewrite Hflight; set_solver|]. simplify_eq.
  destruct (Hw w x Hx) as [Hwf Hborn].
  pose proof (watcher_deliver_wf _ p x Hwf Hhist (eq_sym Hk)) as Hwf'.
  destruct (watcher_deliver_fields p x) as (Ek & Ec & Eb & Es).
  unfold perform_delivery. destruct (watcher_deliver p x) as [x' replaced]. cbn in *.
  assert (∀ w0 y, world_watchers W !! w0 = Some y → ∃ y',
    <[w := x']> (world_watchers W) !! w0 = Some y' ∧ watcher_key y' = watcher_key y ∧
    watcher_cancelled y' = watcher_cancelled y) as Hfwd.
  { intros w0 y Hy. destruct (decide (w = w0)) as [<-|Hne].
    - exists x'. rewrite lookup_insert_eq. simplify_eq. done.
    - exists y. by rewrite lookup_insert_ne. }
  split; cbn; try done.
  - intros q w' Hq. destruct (Hfl q w' (Hrest _ _ Hq)) as (? & y & Hy & ?).
    destruct (Hfwd _ _ Hy) as (y' & ? & ? & _). split; [done|]. exists y'. split; [done|congruence].
  - intros w' y [[<- <-]|[_ Hy]]%lookup_insert_Some; [|by apply (Hw w')].
    split; [done|]. by rewrite Eb.
  - intros k w'. rewrite Hreg. split.
    + intros (y & Hy & ? & ?). destruct (Hfwd _ _ Hy) as (y' & ? & ? & ?).
      exists y'. split_and!; congruence.
    + intros (y & [[<- <-]|[_ Hy]]%lookup_insert_Some & ? & ?); [|by eauto].
      exists x. split_and!; congruence.
  - intros w' y q [[<- <-]|[Hne Hy]]%lookup_insert_Some Hcan Hq.
    + rewrite Ek in Hq |- *. rewrite Ec in Hcan. rewrite Eb, Es.
      pose proof (subscription_deliver_order_mono (watcher_sub x) p) as Hmono.
      destruct (Hconv w x q Hx Hcan Hq) as [?|[Hin|?]]; [left; lia| |by right; right].
      rewrite Hflight in Hin. apply elem_of_app in Hin as [Hin|[[= ->]|Hin]%elem_of_cons];
        [right; left; apply elem_of_app; by left| |right; left; apply elem_of_app; by right].
      left. destruct (subscription_closed (watcher_sub x)) eqn:Hcl.
      { apply (watcher_wf_closed _ _ Hwf) in Hcl. congruence. }
      destruct (Z.le_gt_cases (publication_order p) (subscription_order (watcher_sub x))) as [|Hgt]; [lia|].
      destruct (subscription_deliver_fresh (watcher_sub x) p Hcl Hgt) as (_ & -> & _). done.
    + destruct (Hconv w' y q Hy Hcan Hq) as [?|[Hin|?]]; [by left| |by right; right].
      right; left. rewrite Hflight in Hin. set_solver.
Qed.

Lemma cancel_inv W w x :
  world_inv W → world_watchers W !! w = Some x →
  world_inv (set_watcher w (watcher_cancel x)
    (set_store (unregister (watcher_key x) w (world_store W)).2 W)).
Proof.
  intros [Hc Hh Hlh Hhl Hrec Hlr Hfl Hw Hreg Hconv] Hx.
  split; cbn -[watchers_of unregister]; try done.
  - intros p w' Hp. apply Hfl in Hp as (? & y & Hy & ?). split; [done|].
    destruct (decide (w = w')) as [<-|Hne].
    + exists (watcher_cancel x). rewrite lookup_insert_eq. split; [done|]. cbn. congruence.
    + exists y. by rewrite lookup_insert_ne.
  - intros w' y [[<- <-]|[_ Hy]]%lookup_insert_Some; [|by apply (Hw w')].
    destruct (Hw w x Hx) as [[] ?]. by split.
  - intros k w'. rewrite watchers_of_unregister. split.
    + intros Hin. assert (w' ∈ watchers_of (world_store W) k ∧ ¬ (k = watcher_key x ∧ w' = w)) as [Hin' Hne].
      { case_decide; set_solver. }
      apply Hreg in Hin' as (y & Hy & Hky & Hcy). exists y.
      rewrite lookup_insert_ne; [done|]. intros <-. simplify_eq. by apply Hne.
    + intros (y & [[<- <-]|[Hne Hy]]%lookup_insert_Some & Hk & Hcan); [done|].
      assert (w' ∈ watchers_of (world_store W) k) by (apply Hreg; eauto).
      case_decide; set_solver.
  - intros w' y p [[<- <-]|[_ Hy]]%lookup_insert_Some Hcan Hp; [done|by apply Hconv].
Qed.

(** ** Reachable worlds *)

Lemma post_watchers ns W : world_watchers (foldl (λ W n, post_notification n W) W ns) = world_watchers W.
Proof.
  revert W. induction ns as [|n ns IH]; intros W; [done|]. cbn. rewrite IH.
  unfold post_notification. by destruct (notification_publication n).
Qed.

Lemma commit_watchers ns s W : world_watchers (commit ns s W) = world_watchers W.
Proof. apply post_watchers. Qed.

(** A registration that succeeds: the Cluster's record may expire, then the watcher
    joins the subscribers of the store that results. *)
Lemma register_effects k req w now1 now2 s reg s' :
  store_wf s → register k req w now1 now2 s = (reg, s') → registration_exists reg = true →
  ∃ s1, effects s (notifications (registration_expired reg)) s1
    ∧ (length (notifications (registration_expired reg)) ≤ 1)%nat
    ∧ registration_initial reg = record_publication <$> records s1 !! k
    ∧ records s' = records s1 ∧ publicationOrder s' = publicationOrder s1
    ∧ subscribers s' = <[k := {[w]} ∪ default ∅ (subscribers s1 !! k)]> (subscribers s1)
    ∧ (req = true → is_Some (records s1 !! k)).
Proof.
  intros Hwf Hreg Hex. destruct (decide (records s !! k = None ∧ req = true)) as [[Hn ->]|Hor].
  { rewrite register_refused in Hreg by done. by simplify_eq. }
  rewrite register_run in Hreg.
  2:{ destruct (records s !! k), req; [left; by eexists|by right|naive_solver|by right]. }
  pose proof (readPublication_effect k now1 _ Hwf) as Heff%effect_effects.
  pose proof (readPublication_current k now1 s) as Hcur. pose proof (readPublication_none k now1 s) as Hnone.
  pose proof (notifications_length (readPublication k now1 s).1.2) as Hlen.
  destruct (readPublication k now1 s) as [[o n] s1]. cbn in Heff, Hcur, Hlen, Hnone.
  pose proof (hasDemand_quiet k now2 s1) as (Hr2 & Hs2 & Ho2).
  destruct (hasDemand k now2 s1) as [active s2]. cbn in Hr2, Hs2, Ho2. injection Hreg as <- <-.
  exists s1. cbn. rewrite Hr2, Ho2, Hs2. split_and!; try done.
  intros ->. destruct (records s1 !! k); [by eexists|]. exfalso. apply Hor. auto.
Qed.

Lemma step_inv W W' :
  world_inv W → store_wf (world_store W) → step W W' →
  world_inv W' ∧ store_wf (world_store W').
Proof.
  intros HW Hwf [c ns Hns Hroom|k req shared w now1 now2 reg s' Hfresh Hroom Hreg Hex
    |p w x f1 f2 Hf Hx|w x Hx|w x Hx Hcan|w x Hx Hcan Hcl].
  - split; [by apply call_inv|by eapply store_notes_effects].
  - pose proof (register_wf k req w now1 now2 _ Hwf Hroom) as Hwf'. rewrite Hreg in Hwf'. split; [|done].
    destruct (register_effects _ _ _ _ _ _ _ _ Hwf Hreg Hex) as (s1 & Heff & Hlen & Hini & Hr & Ho & Hs & _).
    assert (world_inv (commit (notifications (registration_expired reg)) s1 W)) as HW1.
    { eapply effects_inv; [done..|]. unfold headroom in *. lia. }
    rewrite Hini, <-Hr. by apply (subscribe_inv _ k shared w s' HW1); [by rewrite commit_watchers|..].
  - split; [by apply deliver_inv|].
    unfold perform_delivery. by destruct (watcher_deliver p x).
  - split; [|done]. eapply update_watcher_inv; [done..|cbn|].
    + unfold subscription_receive. by destruct (subscription_mailbox (watcher_sub x)) as [[]|[]].
    + apply watcher_receive_wf. by apply (inv_watchers _ HW w).
  - split; [by apply cancel_inv|by apply unregister_wf].
  - split; [|done]. eapply update_watcher_inv; [done..|].
    apply watcher_close_wf; [by apply (inv_watchers _ HW w)|done].
Qed.

Lemma world_reachable_inv id W :
  world_reachable id W → world_inv W ∧ store_wf (world_store W).
Proof.
  induction 1 as [|W W' _ [HW Hwf] Hstep].
  - split; [apply NewWorld_inv|]. apply (reachable_wf id), reachable_new.
  - by eapply step_inv.
Qed.

(** ** Executable steps are steps *)

Lemma world_do_step a W W' : world_do a W = Some W' → step W W'.
Proof.
  destruct a as [c|k req shared w now1 now2|i|w|w|w]; cbn; intros Hdo.
  - apply bind_Some in Hdo as (ns & Hns & Hdo). case_guard; simplify_eq/=. by constructor.
  - do 2 (case_guard; simplify_eq/=).
    destruct (register k req w now1 now2 (world_store W)) as [reg s'] eqn:E.
    case_guard; simplify_eq/=. by eapply step_subscribe.
  - apply bind_Some in Hdo as ([p w] & Hi & Hdo). apply bind_Some in Hdo as (x & Hx & [= <-]).
    apply step_deliver; [|done]. by apply take_drop_middle in Hi.
  - apply bind_Some in Hdo as (x & Hx & [= <-]). by apply step_receive.
  - apply bind_Some in Hdo as (x & Hx & Hdo). case_guard; simplify_eq/=. by apply step_cancel.
  - apply bind_Some in Hdo as (x & Hx & Hdo). case_guard as Hg; simplify_eq/=.
    destruct Hg. by apply step_close.
Qed.

Lemma world_run_reachable id l W W' :
  world_reachable id W → world_run l W = Some W' → world_reachable id W'.
Proof.
  unfold world_run. revert W. induction l as [|a l IH]; intros W HW; cbn; [naive_solver|].
  destruct (world_do a W) as [W1|] eqn:E; cbn.
  - apply IH. eapply world_step; [done|]. by eapply world_do_step.
  - clear IH. intros Hrun. exfalso. induction l as [|b l IHl]; cbn in Hrun; [done|]. by apply IHl.
Qed.
End facts.
