(* ===== verification/WatcherProps.v ===== *)
(** * Theorems about watchers

    What a subscriber of the store can rely on, under every interleaving of
    commits, deliveries, receptions and cancellations. *)

From S2P Require Import Prelude Api Mailbox Store StoreFacts StoreProps Watchers WatcherFacts.

Lemma StronglySorted_sublist {A} (R : relation A) l k :
  k `sublist_of` l → StronglySorted R l → StronglySorted R k.
Proof.
  induction 1 as [|x k l Hsub IH|x k l Hsub IH]; intros Hl; [done| |];
    apply StronglySorted_inv in Hl as [Hl Hall]; [|by auto].
  constructor; [by auto|]. rewrite Forall_forall in Hall |- *.
  intros y Hy. apply Hall. by eapply elem_of_sublist.
Qed.

Section props.
Context `{RoutingDigest}.

(** No delivery to [w] is outstanding. *)
Definition settled_watcher (W : World) (w : sid) : Prop :=
  ∀ p, (p, w) ∉ world_flight W.

(** The newest publication of a watcher's cluster has reached its mailbox. *)
Lemma settled_head W w x p :
  world_inv W → world_watchers W !! w = Some x → watcher_cancelled x = false →
  settled_watcher W w → world_latest W !! watcher_key x = Some p →
  is_Some (records (world_store W) !! watcher_key x) ∨ watcher_born x < publication_order p →
  head (watcher_accepted x) = Some p.
Proof.
  intros HW Hx Hcan Hset Hp Hor. destruct (inv_watchers _ HW w x Hx) as [Hwf _].
  destruct (inv_latest_history _ HW _ _ Hp) as [Hhist Hk].
  destruct (inv_history _ HW _ _ Hhist) as [_ Hpos].
  assert (publication_order p ≤ subscription_order (watcher_sub x)) as Hle.
  { destruct (inv_convergence _ HW w x p Hx Hcan Hp) as [?|[Hin|[? Hnone]]]; [done|by apply Hset in Hin|].
    destruct Hor as [[r Hr]|]; [congruence|lia]. }
  rewrite (watcher_wf_order _ _ Hwf) in Hle.
  pose proof (watcher_wf_accepted _ _ Hwf) as Hacc.
  destruct (watcher_accepted x) as [|q l]; cbn in *; [lia|].
  apply Forall_cons in Hacc as [[Hq Hqk] _].
  destruct (inv_history_latest _ HW _ _ Hq) as (p' & Hp' & Hle').
  rewrite Hqk in Hp'. simplify_eq.
  assert (publication_order q = publication_order p) as Heq by lia.
  rewrite Heq in Hq. congruence.
Qed.

(** The head of the accepted publications is pending or was received last. *)
Lemma head_visible hist x p :
  watcher_wf hist x → head (watcher_accepted x) = Some p →
  pending_snapshot (watcher_sub x) = Some (publication_snapshot p) ∨
  (pending_snapshot (watcher_sub x) = None ∧ head (watcher_taken x) = Some p).
Proof.
  intros Hwf Hp. pose proof (watcher_wf_slot _ _ Hwf) as Hslot.
  destruct (pending_snapshot (watcher_sub x)).
  - destruct Hslot as (q & rest & Heq & -> & _). rewrite Heq in Hp. naive_solver.
  - right. destruct Hslot as [-> _]. done.
Qed.

(** A delivery performed by the goroutine that committed or registered. *)
Definition delivers (W W' : World) : Prop :=
  ∃ p w x flight1 flight2,
    world_flight W = flight1 ++ (p, w) :: flight2 ∧ world_watchers W !! w = Some x ∧
    W' = perform_delivery p w x (flight1 ++ flight2) W.

Lemma delivers_step W W' : delivers W W' → step W W'.
Proof. intros (p & w & x & f1 & f2 & Hf & Hx & ->). by eapply step_deliver. Qed.

Lemma drain_flight n id W :
  length (world_flight W) = n → world_reachable id W →
  ∃ W', nsteps delivers n W W' ∧ world_reachable id W' ∧ world_flight W' = [] ∧
        world_store W' = world_store W.
Proof.
  revert W. induction n as [|n IH]; intros W Hlen HW.
  { exists W. destruct (world_flight W); [|done]. split_and!; [constructor|done..]. }
  destruct (world_flight W) as [|[p w] rest] eqn:Hf; [done|].
  destruct (world_reachable_inv _ _ HW) as [Hinv _].
  destruct (inv_flight _ Hinv p w) as (_ & x & Hx & _); [rewrite Hf; by left|].
  assert (delivers W (perform_delivery p w x ([] ++ rest) W)) as Hdel
    by (by exists p, w, x, [], rest).
  assert (world_flight (perform_delivery p w x ([] ++ rest) W) = rest ∧
          world_store (perform_delivery p w x ([] ++ rest) W) = world_store W) as [Hf' Hs']
    by (unfold perform_delivery; by destruct (watcher_deliver p x)).
  destruct (IH (perform_delivery p w x ([] ++ rest) W)) as (W' & Hrtc & HW' & Hdone & Hs).
  - rewrite Hf'. cbn in Hlen. lia.
  - eapply world_step; [done|]. by apply delivers_step.
  - exists W'. split_and!; [by econstructor|done..|congruence].
Qed.

(** ** Theorems *)

(** C7: out-of-order deliveries cannot rewind a subscriber: the publications a
    consumer receives are of the cluster it watches, in strictly increasing
    commit order, whatever the interleaving. *)
Theorem watcher_never_rewinds id W w x :
  world_reachable id W → world_watchers W !! w = Some x →
  StronglySorted newer (watcher_taken x) ∧
  Forall (λ p, ref_key (snapshot_Cluster (publication_snapshot p)) = watcher_key x) (watcher_taken x).
Proof.
  intros [HW _]%world_reachable_inv Hx. destruct (inv_watchers _ HW w x Hx) as [Hwf _].
  pose proof (taken_accepted _ _ Hwf) as Hsub. split.
  - eapply StronglySorted_sublist; [done|]. by eapply watcher_wf_sorted.
  - pose proof (watcher_wf_accepted _ _ Hwf) as Hacc. rewrite Forall_forall in Hacc |- *.
    intros p Hp. apply Hacc. by eapply elem_of_sublist.
Qed.

(** Slow consumers receive the latest complete state: once its deliveries
    have run, a live subscriber of a known cluster has the store's current
    publication in its mailbox, or has already received exactly that one last. *)
Theorem watcher_converges id W w x r :
  world_reachable id W → world_watchers W !! w = Some x → watcher_cancelled x = false →
  settled_watcher W w → records (world_store W) !! watcher_key x = Some r →
  pending_snapshot (watcher_sub x) = Some (record_snapshot r) ∨
  (pending_snapshot (watcher_sub x) = None ∧ head (watcher_taken x) = Some (record_publication r)).
Proof.
  intros [HW _]%world_reachable_inv Hx Hcan Hset Hr.
  destruct (inv_watchers _ HW w x Hx) as [Hwf _].
  eapply head_visible; [done|]. eapply settled_head; [done..| |left; by eexists].
  by apply (inv_records _ HW).
Qed.

(** Deletion is observable: a live subscriber that was registered before the
    last publication of a cluster which the store no longer knows ends with the
    tombstone of that cluster, closed for routing. *)
Theorem watcher_observes_deletion id W w x p :
  world_reachable id W → world_watchers W !! w = Some x → watcher_cancelled x = false →
  settled_watcher W w → records (world_store W) !! watcher_key x = None →
  world_latest W !! watcher_key x = Some p → watcher_born x < publication_order p →
  fail_closed (publication_snapshot p) ∧ snapshot_Reason (publication_snapshot p) = "deleted" ∧
  (pending_snapshot (watcher_sub x) = Some (publication_snapshot p) ∨
   (pending_snapshot (watcher_sub x) = None ∧ head (watcher_taken x) = Some p)).
Proof.
  intros [HW _]%world_reachable_inv Hx Hcan Hset Hr Hp Hborn.
  destruct (inv_watchers _ HW w x Hx) as [Hwf _].
  destruct (inv_latest_records _ HW _ _ Hp) as [(r & ? & _)|(_ & ? & ?)]; [congruence|].
  split_and!; [done..|]. eapply head_visible; [done|].
  eapply settled_head; [done..|by right].
Qed.

(** Deliveries never wait for a consumer: from every reachable state, as many
    delivery steps as there are outstanding deliveries, and no step of any other
    kind, empty the flight without touching the store. *)
Theorem deliveries_drain id W :
  world_reachable id W →
  ∃ W', nsteps delivers (length (world_flight W)) W W' ∧ world_reachable id W' ∧
        world_flight W' = [] ∧ world_store W' = world_store W.
Proof. by apply drain_flight. Qed.
End props.

(** ** A concrete run

    A publication, a subscriber whose initial delivery is overtaken by a refresh,
    a reception, and a deletion. *)

#[local] Existing Instance identity_digest.

Definition example_run : list action :=
  [ActCall (CallPut (example_snapshot second) second second);
   ActSubscribe example_key true true 7%positive second second;
   ActCall (CallPut (example_snapshot (2 * second)) (2 * second) (2 * second));
   ActDeliver 1; ActDeliver 0; ActReceive 7%positive].

Definition example_world : World :=
  default (NewWorld "process") (world_run example_run (NewWorld "process")).

Definition example_deleted : World :=
  default (NewWorld "process") (world_run [ActCall (CallDelete example_key); ActDeliver 0] example_world).

Lemma run_default_reachable `{RoutingDigest} id l W :
  world_reachable id W → bool_decide (is_Some (world_run l W)) = true →
  world_reachable id (default (NewWorld "process") (world_run l W)).
Proof.
  intros HW [W' HW']%bool_decide_eq_true. rewrite HW'. by eapply world_run_reachable.
Qed.

Lemma example_world_reachable : world_reachable "process" example_world.
Proof. apply run_default_reachable; [constructor|vm_compute; reflexivity]. Qed.

Lemma example_deleted_reachable : world_reachable "process" example_deleted.
Proof. apply run_default_reachable; [apply example_world_reachable|vm_compute; reflexivity]. Qed.

(** The subscriber of a run; the properties below are evaluated on it. *)
Definition example_watcher (W : World) : watcher :=
  default (new_watcher example_key true 0) (world_watchers W !! 7%positive).

Lemma lookup_default_eq {A} (m : gmap sid A) w d :
  bool_decide (is_Some (m !! w)) = true → m !! w = Some (default d (m !! w)).
Proof. by intros [x ->]%bool_decide_eq_true. Qed.

Lemma watcher_never_rewinds_witness :
  StronglySorted newer (watcher_taken (example_watcher example_deleted)) ∧
  length (watcher_taken (example_watcher example_deleted)) = 1%nat.
Proof.
  split; [|vm_compute; reflexivity].
  apply (watcher_never_rewinds "process" example_deleted 7%positive _ example_deleted_reachable).
  apply lookup_default_eq. vm_compute; reflexivity.
Defined.

Lemma watcher_converges_witness :
  head (watcher_taken (example_watcher example_world)) =
  record_publication <$> records (world_store example_world) !! example_key.
Proof.
  assert (bool_decide (is_Some (records (world_store example_world) !! example_key)) = true) as Hsome
    by (vm_compute; reflexivity).
  apply bool_decide_eq_true in Hsome as [r Hr].
  destruct (watcher_converges "process" example_world 7%positive (example_watcher example_world) r)
    as [Hpend|[_ Htaken]].
  - exact example_world_reachable.
  - apply lookup_default_eq. vm_compute; reflexivity.
  - vm_compute; reflexivity.
  - assert (world_flight example_world = []) as Hf by (vm_compute; reflexivity).
    intros p. rewrite Hf. apply not_elem_of_nil.
  - exact Hr.
  - exfalso. assert (pending_snapshot (watcher_sub (example_watcher example_world)) = None) as Hnone
      by (vm_compute; reflexivity). congruence.
  - rewrite Htaken, Hr. reflexivity.
Defined.

Lemma watcher_observes_deletion_witness :
  (snapshot_Reason <$> pending_snapshot (watcher_sub (example_watcher example_deleted))) = Some "deleted".
Proof.
  assert (bool_decide (is_Some (world_latest example_deleted !! example_key)) = true) as Hsome
    by (vm_compute; reflexivity).
  apply bool_decide_eq_true in Hsome as [p Hp].
  destruct (watcher_observes_deletion "process" example_deleted 7%positive
    (example_watcher example_deleted) p) as (_ & Hreason & [Hpend|[Hnone _]]).
  - exact example_deleted_reachable.
  - apply lookup_default_eq. vm_compute; reflexivity.
  - vm_compute; reflexivity.
  - assert (world_flight example_deleted = []) as Hf by (vm_compute; reflexivity).
    intros q. rewrite Hf. apply not_elem_of_nil.
  - apply (bool_decide_eq_true_1 _). vm_compute; reflexivity.
  - exact Hp.
  - assert (publication_order <$> world_latest example_deleted !! example_key = Some 3) as Ho
      by (vm_compute; reflexivity).
    rewrite Hp in Ho. injection Ho as ->. vm_compute; reflexivity.
  - rewrite Hpend. cbn. by rewrite Hreason.
  - exfalso. assert (bool_decide (is_Some
      (pending_snapshot (watcher_sub (example_watcher example_deleted)))) = true) as [? ?]%bool_decide_eq_true
      by (vm_compute; reflexivity). congruence.
Defined.

Lemma deliveries_drain_witness :
  ∃ W', nsteps delivers (length (world_flight example_deleted)) example_deleted W' ∧
        world_flight W' = [].
Proof.
  destruct (deliveries_drain "process" example_deleted example_deleted_reachable)
    as (W' & Hsteps & _ & Hf & _).
  exists W'. split; [exact Hsteps|exact Hf].
Defined.
