(* ===== verification/Hub.v ===== *)
(** * The store's public operations (src/internal/discovery/store.go)

    A call on the store is a critical section followed, once the lock is released,
    by the deliveries it returned.  [Store] has the sections and [Watchers] their
    interleavings; here are the calls as one goroutine makes them: [hub] is the
    store with the mailboxes of its subscribers, and every call runs to its end. *)

From S2P Require Import Prelude Api Mailbox Store.

Section hub.
Context `{RoutingDigest}.

(** The key is the one that the [cancel] closure of the subscription captures. *)
Record hub := {
  hub_store : Store;
  hub_subs : gmap sid (clusterKey * subscription);
  hub_coalesced : Z; (* uint64 *)
}.

Definition set_hub_store (s : Store) (h : hub) : hub :=
  {| hub_store := s; hub_subs := hub_subs h; hub_coalesced := hub_coalesced h |}.

Definition set_hub_sub (w : sid) (x : clusterKey * subscription) (h : hub) : hub :=
  {| hub_store := hub_store h; hub_subs := <[w := x]> (hub_subs h); hub_coalesced := hub_coalesced h |}.

(** [watcher.deliver(published)]. *)
Definition deliver_to (p : publication) (h : hub) (w : sid) : hub :=
  match hub_subs h !! w with
  | None => h
  | Some (key, sub) =>
      let '(sub, replaced) := subscription_deliver sub p in
      {| hub_store := hub_store h; hub_subs := <[w := (key, sub)]> (hub_subs h);
         hub_coalesced := if replaced then wrap_u64 (hub_coalesced h + 1) else hub_coalesced h |}
  end.

(** [notification.deliver]. *)
Definition notification_deliver (n : notification) (h : hub) : hub :=
  match notification_publication n with
  | None => h
  | Some p => foldl (deliver_to p) h (notification_watchers n)
  end.

(** A critical section of the store lock. *)
Definition locked {A} (m : State Store A) : State hub A :=
  λ h, let '(x, s) := m (hub_store h) in (x, set_hub_store s h).

Definition Put (snapshot : Snapshot) (now1 now2 : time) : State hub bool :=
  r ← locked (PutDeferred snapshot now1 now2);
  modify (notification_deliver r.2) ;;
  mret r.1.

Definition Delete (key : clusterKey) : State hub () :=
  n ← locked (DeleteDeferred key);
  modify (notification_deliver n).

Definition Get (key : clusterKey) (now : time) : State hub (option Snapshot) :=
  r ← locked (GetDeferred key now);
  modify (notification_deliver r.2) ;;
  mret r.1.

Definition getPublication (key : clusterKey) (now : time) : State hub (option publication) :=
  r ← locked (readPublication key now);
  modify (notification_deliver r.2) ;;
  mret r.1.

Definition ExpireAll (ks : list clusterKey) (now : time) : State hub () :=
  ns ← locked (Expire ks now);
  modify (λ h, foldl (λ h n, notification_deliver n h) h ns).

(** [register] for the subscription [w], whose mailbox the caller made; whether the
    watcher was registered, and the call of the demand handler. *)
Definition register_watcher (key : clusterKey) (requireExisting : bool) (w : sid) (box : mailbox) (now1 now2 : time) :
    State hub (bool * option clusterKey) :=
  r ← locked (register key requireExisting w now1 now2);
  if registration_exists r then
    modify (set_hub_sub w (key, Subscription 0 false box)) ;;
    modify (notification_deliver (registration_expired r)) ;;
    match registration_initial r with
    | Some p => modify (λ h, deliver_to p h w)
    | None => mret ()
    end ;;
    mret (true, registration_demand r)
  else mret (false, None).

Definition subscribe (key : clusterKey) (requireExisting : bool) (w : sid) (now1 now2 : time) :
    State hub (bool * option clusterKey) :=
  register_watcher key requireExisting w (Snapshots None) now1 now2.

Definition Subscribe (key : clusterKey) (w : sid) (now1 now2 : time) : State hub (bool * option clusterKey) :=
  subscribe key false w now1 now2.

Definition subscribeShared (key : clusterKey) (w : sid) (now1 now2 : time) : State hub (bool * option clusterKey) :=
  register_watcher key true w (Publications None) now1 now2.

(** [cancel] of the subscription [w]; [once] makes a second call do nothing. *)
Definition cancel (w : sid) : State hub () := λ h,
  match hub_subs h !! w with
  | None => ((), h)
  | Some (key, sub) =>
      if subscription_closed sub then ((), h)
      else ((), set_hub_sub w (key, subscription_close sub) (set_hub_store (unregister key w (hub_store h)).2 h))
  end.

(** Receiving from the subscription's channel. *)
Definition receive (w : sid) : State hub received := λ h,
  match hub_subs h !! w with
  | None => (ReceiveBlocks, h)
  | Some (key, sub) =>
      let '(r, sub) := subscription_receive sub in (r, set_hub_sub w (key, sub) h)
  end.

(** A call, with the mailbox that a subscription makes. *)
Inductive hub_op :=
  | OpPut (snapshot : Snapshot) (now1 now2 : time)
  | OpDelete (key : clusterKey)
  | OpGet (key : clusterKey) (now : time)
  | OpExpire (ks : list clusterKey) (now : time)
  | OpSubscribe (key : clusterKey) (requireExisting shared : bool) (w : sid) (now1 now2 : time)
  | OpCancel (w : sid)
  | OpReceive (w : sid).

Definition hub_run (op : hub_op) (h : hub) : hub :=
  match op with
  | OpPut snapshot now1 now2 => (Put snapshot now1 now2 h).2
  | OpDelete key => (Delete key h).2
  | OpGet key now => (Get key now h).2
  | OpExpire ks now => (ExpireAll ks now h).2
  | OpSubscribe key requireExisting shared w now1 now2 =>
      (register_watcher key requireExisting w (if shared then Publications None else Snapshots None) now1 now2 h).2
  | OpCancel w => (cancel w h).2
  | OpReceive w => (receive w h).2
  end.

(** ** The contract *)

(** What a subscriber sees: whether its channel is open, and the item in it. *)
Record box := Box { box_key : clusterKey; box_open : bool; box_item : option Snapshot }.

(** One current snapshot per Cluster, and subscribers with room for the latest one. *)
Record topics := { topic_current : gmap clusterKey Snapshot; topic_boxes : gmap sid box }.

Inductive topic_op :=
  | Publish (key : clusterKey) (s : Snapshot)  (* a new current snapshot *)
  | Retire (key : clusterKey) (s : Snapshot)   (* no current snapshot; [s] is the last word *)
  | OpenBox (key : clusterKey) (w : sid)
  | CloseBox (w : sid)
  | TakeItem (w : sid).

(** Every open box of the Cluster now holds [s], whatever it held. *)
Definition post (key : clusterKey) (s : Snapshot) (b : box) : box :=
  if bool_decide (box_key b = key) && box_open b then Box (box_key b) true (Some s) else b.

Definition topic_do (op : topic_op) (t : topics) : topics :=
  match op with
  | Publish key s => {| topic_current := <[key := s]> (topic_current t); topic_boxes := post key s <$> topic_boxes t |}
  | Retire key s => {| topic_current := delete key (topic_current t); topic_boxes := post key s <$> topic_boxes t |}
  | OpenBox key w => {| topic_current := topic_current t; topic_boxes := <[w := Box key true (topic_current t !! key)]> (topic_boxes t) |}
  | CloseBox w => {| topic_current := topic_current t;
                     topic_boxes := alter (λ b, Box (box_key b) false (box_item b)) w (topic_boxes t) |}
  | TakeItem w => {| topic_current := topic_current t;
                     topic_boxes := alter (λ b, Box (box_key b) (box_open b) None) w (topic_boxes t) |}
  end.

Definition topic_run (l : list topic_op) (t : topics) : topics := foldl (λ t op, topic_do op t) t l.
End hub.
