(* ===== verification/HubProps.v ===== *)
(** * Correctness of the store's public operations

    The calls refine a simple contract ([Hub.topics]): one current snapshot per
    Cluster and, for every subscriber, room for the latest one.  Freshness,
    revisions and commit orders are details of the store. *)

From S2P Require Import Prelude Api Mailbox Store StoreFacts StoreProps Watchers WatcherFacts Hub.

Section claims.
Context `{RoutingDigest}.

(** ** Abstraction *)

Definition abs_box (x : clusterKey * subscription) : box :=
  Box x.1 (negb (subscription_closed x.2)) (pending_snapshot x.2).

Definition abs_current (s : Store) : gmap clusterKey Snapshot := record_snapshot <$> records s.

Definition abs (h : hub) : topics := {| topic_current := abs_current (hub_store h); topic_boxes := abs_box <$> hub_subs h |}.

(** The store's watchers are the open subscriptions, and no mailbox is ahead of it. *)
Record subs_wf (s : Store) (m : gmap sid (clusterKey * subscription)) : Prop := {
  subs_watchers k w : w ∈ watchers_of s k ↔ ∃ sub, m !! w = Some (k, sub) ∧ subscription_closed sub = false;
  subs_order w k sub : m !! w = Some (k, sub) → subscription_order sub ≤ publicationOrder s;
}.

Definition hub_wf (h : hub) : Prop := store_wf (hub_store h) ∧ subs_wf (hub_store h) (hub_subs h).

Lemma topics_eq (t t' : topics) : topic_current t = topic_current t' → topic_boxes t = topic_boxes t' → t = t'.
Proof. destruct t, t'. cbn. by intros -> ->. Qed.

(** ** Deliveries *)

Definition deliver_sub (p : publication) (x : clusterKey * subscription) : clusterKey * subscription :=
  (x.1, (subscription_deliver x.2 p).1).

Lemma deliver_to_subs p h w : hub_subs (deliver_to p h w) = alter (deliver_sub p) w (hub_subs h).
Proof.
  unfold deliver_to, deliver_sub. destruct (hub_subs h !! w) as [[key sub]|] eqn:Hw.
  - destruct (subscription_deliver sub p) as [sub' r] eqn:Hs. cbn. apply map_eq. intros w'.
    destruct (decide (w' = w)) as [->|Hne]; [by rewrite lookup_insert_eq, lookup_alter_eq, Hw; cbn; rewrite Hs|].
    by rewrite lookup_insert_ne, lookup_alter_ne by done.
  - apply map_eq. intros w'. destruct (decide (w' = w)) as [->|Hne]; [by rewrite lookup_alter_eq, Hw|by rewrite lookup_alter_ne].
Qed.

Lemma deliver_to_store p h w : hub_store (deliver_to p h w) = hub_store h.
Proof. unfold deliver_to. destruct (hub_subs h !! w) as [[]|]; [|done]. by destruct (subscription_deliver _ _). Qed.

Lemma deliver_list p l h :
  NoDup l → hub_store (foldl (deliver_to p) h l) = hub_store h
  ∧ ∀ w, hub_subs (foldl (deliver_to p) h l) !! w
         = (λ x, if bool_decide (w ∈ l) then deliver_sub p x else x) <$> hub_subs h !! w.
Proof.
  intros Hnd. revert h. induction Hnd as [|w l Hw Hnd IH]; intros h; cbn.
  - split; [done|]. intros w. by destruct (hub_subs h !! w).
  - destruct (IH (deliver_to p h w)) as [Hs Hl]. rewrite Hs, deliver_to_store. split; [done|]. intros w'.
    rewrite Hl, deliver_to_subs. destruct (decide (w' = w)) as [->|Hne].
    + rewrite lookup_alter_eq. rewrite (bool_decide_eq_false_2 _ Hw), bool_decide_eq_true_2 by by left.
      by destruct (hub_subs h !! w).
    + rewrite lookup_alter_ne by done. destruct (hub_subs h !! w'); [|done]. cbn. f_equal.
      repeat case_bool_decide; set_solver.
Qed.

(** A commit of [p] for [k], delivered to the watchers of [k]. *)
Lemma deliver_published s k p s' h :
  subs_wf s (hub_subs h) → published s k p s' → publicationOrder s < publicationOrder s' →
  let h' := notification_deliver (Notification (Some p) (elements (watchers_of s k))) h in
  hub_store h' = hub_store h ∧ subs_wf s' (hub_subs h')
  ∧ abs_box <$> hub_subs h' = post k (publication_snapshot p) <$> (abs_box <$> hub_subs h).
Proof.
  intros [Hw Ho] [Hp _ _ Hws _] Hlt. cbv zeta. unfold notification_deliver. cbn [notification_publication notification_watchers].
  destruct (deliver_list p (elements (watchers_of s k)) h (NoDup_elements _)) as [Hs Hl].
  set (h' := foldl _ _ _) in *.
  assert (∀ w key sub, hub_subs h !! w = Some (key, sub) →
    subscription_closed (subscription_deliver sub p).1 = subscription_closed sub
    ∧ subscription_order (subscription_deliver sub p).1 ≤ publicationOrder s') as Hd.
  { intros w key sub Hsub. pose proof (Ho _ _ _ Hsub). destruct (subscription_closed sub) eqn:Hc.
    - rewrite subscription_deliver_closed by done. cbn. split; [done|lia].
    - destruct (subscription_deliver_fresh sub p) as (_ & -> & -> & _); [done|lia|]. split; [done|lia]. }
  split; [exact Hs|]. split; [split|].
  - intros k' w. replace (watchers_of s' k') with (watchers_of s k') by (unfold watchers_of; by rewrite Hws). rewrite Hw, Hl.
    destruct (hub_subs h !! w) as [[key sub]|] eqn:Hsub; cbn; [|naive_solver].
    destruct (Hd _ _ _ Hsub) as [Hcl _]. unfold deliver_sub. cbn.
    case_bool_decide; split; intros (sub' & [= -> <-] & Hc'); eexists; (split; [reflexivity|]); cbn in *; congruence.
  - intros w key sub. rewrite Hl. destruct (hub_subs h !! w) as [[key' sub']|] eqn:Hsub; cbn; [|done].
    destruct (Hd _ _ _ Hsub). pose proof (Ho _ _ _ Hsub). case_bool_decide; intros [= <- <-]; lia.
  - apply map_eq. intros w. rewrite !lookup_fmap, Hl. destruct (hub_subs h !! w) as [[key sub]|] eqn:Hsub; cbn; [|done].
    f_equal. unfold post, abs_box. cbn. pose proof (Ho _ _ _ Hsub) as Hle.
    assert (w ∈ elements (watchers_of s k) ↔ key = k ∧ subscription_closed sub = false) as Hin
      by (rewrite elem_of_elements, Hw, Hsub; naive_solver).
    case_bool_decide as Hw1.
    + apply Hin in Hw1 as [-> Hc]. rewrite bool_decide_eq_true_2, Hc by done. cbn.
      destruct (subscription_deliver_fresh sub p) as (-> & _ & -> & _); [done|lia|done].
    + destruct (bool_decide (key = k)) eqn:Hk; [|done]. apply bool_decide_eq_true in Hk as ->. cbn.
      destruct (subscription_closed sub) eqn:Hc; [done|]. exfalso. apply Hw1, Hin. done.
Qed.

(** The abstract operation of a notification. *)
Definition announce (n : notification) : list topic_op :=
  match notification_publication n with
  | Some p => [Publish (ref_key (snapshot_Cluster (publication_snapshot p))) (publication_snapshot p)]
  | None => []
  end.

Definition post_all (ns : list notification) (m : gmap sid box) : gmap sid box :=
  foldl (λ m n, match notification_publication n with
                | Some p => post (ref_key (snapshot_Cluster (publication_snapshot p))) (publication_snapshot p) <$> m
                | None => m
                end) m ns.

Lemma deliver_effects s ns s' h :
  effects s ns s' → subs_wf s (hub_subs h) → 0 ≤ publicationOrder s → publicationOrder s + Z.of_nat (length ns) < u64_modulus →
  let h' := foldl (λ h n, notification_deliver n h) h ns in
  hub_store h' = hub_store h ∧ subs_wf s' (hub_subs h') ∧ abs_box <$> hub_subs h' = post_all ns (abs_box <$> hub_subs h).
Proof.
  intros He. revert h. induction He as [s s' (Hr & Hs & Ho)|s k p s1 ns s2 Hp He IH]; intros h Hwf H0 Hroom; cbn [length] in *.
  - cbn. split_and!; [done| |done]. destruct Hwf as [Hw Hord].
    split; [intros; unfold watchers_of; rewrite Hs; apply Hw|rewrite Ho; exact Hord].
  - assert (publicationOrder s1 = publicationOrder s + 1) as Hsucc
      by (rewrite (published_succ _ _ _ _ Hp); apply wrap_u64_small; lia).
    destruct (deliver_published s k p s1 h Hwf Hp ltac:(lia)) as (Hs1 & Hwf1 & Hb1). cbn [foldl].
    set (h1 := notification_deliver _ h) in *.
    destruct (IH h1 Hwf1) as (Hs2 & Hwf2 & Hb2); [lia..|]. split_and!; [congruence|done|].
    rewrite Hb2, Hb1. cbn. by rewrite (published_key _ _ _ _ Hp).
Qed.

(** ** Current snapshots *)

Definition current_all (ns : list notification) (m : gmap clusterKey Snapshot) : gmap clusterKey Snapshot :=
  foldl (λ m n, match notification_publication n with
                | Some p => <[ref_key (snapshot_Cluster (publication_snapshot p)) := publication_snapshot p]> m
                | None => m
                end) m ns.

Lemma topic_run_app l1 l2 t : topic_run (l1 ++ l2) t = topic_run l2 (topic_run l1 t).
Proof. apply foldl_app. Qed.

Lemma announce_run ns t :
  topic_run (concat (announce <$> ns)) t
  = {| topic_current := current_all ns (topic_current t); topic_boxes := post_all ns (topic_boxes t) |}.
Proof.
  revert t. induction ns as [|n ns IH]; intros t; [by destruct t|]. rewrite fmap_cons. cbn [concat]. rewrite topic_run_app, IH.
  unfold announce. cbn. by destruct (notification_publication n).
Qed.

Lemma put_current snap now1 now2 s :
  abs_current (PutDeferred snap now1 now2 s).2 = current_all [(PutDeferred snap now1 now2 s).1.2] (abs_current s).
Proof.
  rewrite PutDeferred_run. unfold abs_current, put_state. cbn. rewrite fmap_insert. f_equal. by destruct (put_changed _ _).
Qed.

Lemma read_current k now s :
  store_wf s → abs_current (readPublication k now s).2 = current_all [(readPublication k now s).1.2] (abs_current s).
Proof.
  intros [Hrs _]. destruct (readPublication_state k now s) as [[-> ->]|(r & Hr & -> & ->)]; [done|].
  destruct (expireRecord_cases r now) as [Hskip|[He Hle]]; [by rewrite expireRecord_skip|].
  rewrite expireRecord_fire by done. unfold abs_current. cbn. rewrite fmap_insert. f_equal.
  symmetry. by eapply (record_wf_key _ _ _ k r), (records_wf_each _ _ _ _ Hrs).
Qed.

Lemma expire_current ks now s :
  store_wf s → headroom s (Z.of_nat (length ks)) →
  abs_current (expire_all now ks s).2 = current_all (expire_all now ks s).1 (abs_current s).
Proof.
  revert s. induction ks as [|k ks IH]; intros s Hwf Hroom; [done|]. rewrite expire_all_cons, expire_one_read. cbn [fst snd].
  unfold headroom in Hroom. cbn [length] in Hroom. assert (headroom s 1) as H1 by (unfold headroom; lia).
  pose proof (effect_headroom _ _ _ _ Hwf H1 (readPublication_effect k now s Hwf)) as Hord.
  rewrite IH; [|by apply readPublication_wf|unfold headroom; lia]. rewrite read_current by done.
  unfold current_all. rewrite foldl_app. f_equal. unfold notifications.
  destruct (notification_publication _) eqn:E; cbn; by rewrite E.
Qed.

(** ** Calls *)

(** A section followed by its deliveries. *)
Lemma call_refines s' ns h :
  hub_wf h → store_wf s' → effects (hub_store h) ns s' → headroom (hub_store h) (Z.of_nat (length ns)) →
  abs_current s' = current_all ns (abs_current (hub_store h)) →
  let h' := foldl (λ h n, notification_deliver n h) (set_hub_store s' h) ns in
  hub_wf h' ∧ hub_store h' = s' ∧ abs h' = topic_run (concat (announce <$> ns)) (abs h).
Proof.
  intros [[Hrs Hws] Hsub] Hwf' He Hroom Hcur. cbv zeta. destruct (records_wf_counters _ _ _ _ Hrs) as [Hc _].
  destruct (deliver_effects _ ns s' (set_hub_store s' h) He Hsub ltac:(lia) Hroom) as (Hst & Hsub' & Hb).
  set (h' := foldl _ _ _) in *. cbn in Hst. split; [split; rewrite Hst; done|]. split; [done|].
  rewrite announce_run. apply topics_eq; cbn; [by rewrite Hst|exact Hb].
Qed.

(** A single notification. *)
Lemma single_refines s' n h :
  hub_wf h → store_wf s' → effects (hub_store h) (notifications n) s' → headroom (hub_store h) 1 →
  abs_current s' = current_all [n] (abs_current (hub_store h)) →
  let h' := notification_deliver n (set_hub_store s' h) in
  hub_wf h' ∧ hub_store h' = s' ∧ abs h' = topic_run (announce n) (abs h).
Proof.
  intros Hwf Hwf' He Hroom Hcur. unfold notifications in He. destruct (notification_publication n) as [p|] eqn:Hn.
  - destruct (call_refines s' [n] h Hwf Hwf' He Hroom Hcur) as (Hw & Hs & Ha). cbn [foldl] in *.
    split_and!; [done..|]. rewrite Ha. cbn. by rewrite app_nil_r.
  - assert (current_all [n] (abs_current (hub_store h)) = abs_current (hub_store h)) as Hno by (cbn; by rewrite Hn).
    destruct (call_refines s' [] h Hwf Hwf' He) as (Hw & Hs & Ha); [unfold headroom in *; cbn; lia|by rewrite Hcur|].
    cbn [foldl] in *. cbv zeta. unfold notification_deliver, announce. rewrite Hn. done.
Qed.

(** A deletion announces the end of the Cluster. *)
Lemma delete_refines k h :
  hub_wf h → headroom (hub_store h) 1 →
  let h' := (Delete k h).2 in
  hub_wf h' ∧ abs h' = topic_run (match records (hub_store h) !! k with
                                  | Some r => [Retire k (publication_snapshot (deleted_publication (hub_store h) r))]
                                  | None => [] end) (abs h).
Proof.
  intros [Hwf Hsub] Hroom. cbv zeta. unfold Delete. rewrite State_bind_run. unfold locked, modify. cbn [fst snd].
  pose proof (DeleteDeferred_wf k _ Hwf Hroom) as Hwf'. pose proof (DeleteDeferred_effect k _ Hwf) as He.
  pose proof (DeleteDeferred_run k (hub_store h)) as Hrun. destruct Hwf as [Hrs Hws].
  destruct (records_wf_counters _ _ _ _ Hrs) as [Hc _]. apply effect_effects in He. unfold headroom in Hroom.
  destruct (DeleteDeferred k (hub_store h)) as [n s']. cbn [fst snd] in *.
  destruct (records (hub_store h) !! k) as [r|] eqn:Hr; injection Hrun as -> ->.
  - set (s' := bump_order _) in *.
    destruct (deliver_effects _ _ _ (set_hub_store s' h) He Hsub ltac:(lia) ltac:(cbn; lia)) as (Hst & Hsub' & Hb).
    cbn [notifications notification_publication foldl] in Hst, Hsub', Hb. set (h' := notification_deliver _ _) in *. clearbody h'.
    split; [split; rewrite Hst; done|]. apply topics_eq; cbn; [rewrite Hst; unfold abs_current; cbn; by rewrite fmap_delete|].
    rewrite Hb. cbn. do 2 f_equal. by eapply (record_wf_key _ _ _ k r), (records_wf_each _ _ _ _ Hrs).
  - cbn. split; [split; [done|]; by destruct Hsub|]. done.
Qed.

(** *** Subscriptions *)

(** A new subscription is not among the watchers that are told of an expiry. *)
Lemma deliver_insert n w x h h1 :
  NoDup (notification_watchers n) → w ∉ notification_watchers n → hub_subs h = hub_subs h1 →
  hub_subs (notification_deliver n (set_hub_sub w x h)) = <[w := x]> (hub_subs (notification_deliver n h1)).
Proof.
  intros Hnd Hw Heq. unfold notification_deliver. destruct (notification_publication n) as [p|]; [|cbn; by rewrite Heq].
  apply map_eq. intros w'. rewrite (proj2 (deliver_list p _ _ Hnd)). cbn. destruct (decide (w' = w)) as [->|Hne].
  - rewrite !lookup_insert_eq. cbn. by rewrite bool_decide_eq_false_2.
  - by rewrite !lookup_insert_ne, (proj2 (deliver_list p _ _ Hnd)), Heq by done.
Qed.

Lemma deliver_store n h : NoDup (notification_watchers n) → hub_store (notification_deliver n h) = hub_store h.
Proof. intros Hnd. unfold notification_deliver. case_match; [|done]. by apply deliver_list. Qed.

Lemma read_watchers k now s :
  store_wf s → NoDup (notification_watchers (readPublication k now s).1.2)
  ∧ ∀ w, w ∈ notification_watchers (readPublication k now s).1.2 → w ∈ watchers_of s k.
Proof.
  intros Hwf. destruct (readPublication_effect k now s Hwf) as [[-> _]|(p & -> & _)]; cbn; [by split; [apply NoDup_nil_2|intros ? ?%not_elem_of_nil]|].
  split; [apply NoDup_elements|]. intros w. by rewrite elem_of_elements.
Qed.

(** The mailbox of a new subscription after its initial delivery. *)
Definition first_sub (box : mailbox) (initial : option publication) : subscription :=
  match initial with
  | Some p => (subscription_deliver (Subscription 0 false box) p).1
  | None => Subscription 0 false box
  end.

Lemma first_sub_spec (shared : bool) initial bound :
  (∀ p, initial = Some p → 0 < publication_order p ≤ bound) → 0 ≤ bound →
  let sub := first_sub (if shared then Publications None else Snapshots None) initial in
  subscription_closed sub = false ∧ subscription_order sub ≤ bound ∧ pending_snapshot sub = publication_snapshot <$> initial.
Proof.
  intros Hp Hb. destruct initial as [p|]; cbn; [|by destruct shared]. destruct (Hp p eq_refl).
  destruct (subscription_deliver_fresh (Subscription 0 false (if shared then Publications None else Snapshots None)) p)
    as (-> & -> & -> & _); [done|cbn; lia|]. done.
Qed.

(** What [register] leaves: the read, and then a new open box. *)
Lemma register_watcher_run k req w (shared : bool) now1 now2 h :
  hub_wf h → hub_subs h !! w = None → is_Some (records (hub_store h) !! k) ∨ req = false →
  let r := readPublication k now1 (hub_store h) in
  let h1 := notification_deliver r.1.2 (set_hub_store r.2 h) in
  let h' := (register_watcher k req w (if shared then Publications None else Snapshots None) now1 now2 h).2 in
  hub_subs h' = <[w := (k, first_sub (if shared then Publications None else Snapshots None) r.1.1)]> (hub_subs h1)
  ∧ hub_store h' = (register k req w now1 now2 (hub_store h)).2.
Proof.
  intros [Hwf Hsub] Hfresh Hor. cbv zeta. unfold register_watcher. rewrite State_bind_run. unfold locked.
  pose proof (register_run k req w now1 now2 (hub_store h) Hor) as Hrun.
  destruct (read_watchers k now1 (hub_store h) Hwf) as [Hnd Hws].
  assert (w ∉ notification_watchers (readPublication k now1 (hub_store h)).1.2) as Hw.
  { intros (sub & Hsome & _)%Hws%(subs_watchers _ _ Hsub). congruence. }
  destruct (readPublication k now1 (hub_store h)) as [[initial n] s1]. cbn [fst snd] in *.
  destruct (hasDemand k now2 s1) as [active s2]. rewrite Hrun. cbn [fst snd registration_exists]. rewrite !State_bind_run.
  cbn [modify mret State_ret fst snd registration_initial registration_expired].
  set (h2 := set_hub_sub _ _ _). pose proof (deliver_insert n w (k, Subscription 0 false (if shared then Publications None else Snapshots None))
    (set_hub_store (set_subscribers (λ m, <[k := {[w]} ∪ default ∅ (m !! k)]> m) s2) h) (set_hub_store s1 h) Hnd Hw eq_refl) as Hins.
  fold h2 in Hins. destruct initial as [p|]; cbn [snd modify mret State_ret first_sub].
  - rewrite deliver_to_subs, deliver_to_store, Hins, (deliver_store n h2 Hnd). split; [|done].
    apply map_eq. intros w'. destruct (decide (w' = w)) as [->|Hne]; [by rewrite lookup_alter_eq, !lookup_insert_eq|].
    by rewrite lookup_alter_ne, !lookup_insert_ne by done.
  - rewrite Hins, (deliver_store n h2 Hnd). done.
Qed.

Lemma register_watchers_of k req w now1 now2 s k' :
  is_Some (records s !! k) ∨ req = false →
  watchers_of (register k req w now1 now2 s).2 k' = if decide (k' = k) then {[w]} ∪ watchers_of s k else watchers_of s k'.
Proof.
  intros Hor. rewrite register_run by done. pose proof (readPublication_state k now1 s) as Hst.
  assert (subscribers (readPublication k now1 s).2 = subscribers s) as Hs1.
  { destruct Hst as [[-> _]|(r & Hr & -> & _)]; [done|].
    destruct (expireRecord_cases r now1) as [Hskip|[He Hle]]; [by rewrite expireRecord_skip|by rewrite expireRecord_fire]. }
  destruct (readPublication k now1 s) as [r s1]. pose proof (hasDemand_quiet k now2 s1) as (_ & Hs2 & _).
  destruct (hasDemand k now2 s1) as [a s2]. cbn in *. unfold watchers_of. cbn. rewrite Hs2, Hs1.
  case_decide; [subst; by rewrite lookup_insert_eq|by rewrite lookup_insert_ne].
Qed.

Lemma register_counters k req w now1 now2 s :
  is_Some (records s !! k) ∨ req = false →
  publicationOrder (register k req w now1 now2 s).2 = publicationOrder (readPublication k now1 s).2
  ∧ records (register k req w now1 now2 s).2 = records (readPublication k now1 s).2.
Proof.
  intros Hor. rewrite register_run by done. destruct (readPublication k now1 s) as [r s1].
  pose proof (hasDemand_quiet k now2 s1) as (Hr & _ & Ho). destruct (hasDemand k now2 s1) as [a s2]. done.
Qed.

Lemma subscribe_refines k req shared w now1 now2 h :
  hub_wf h → headroom (hub_store h) 1 → hub_subs h !! w = None → is_Some (records (hub_store h) !! k) ∨ req = false →
  let h' := hub_run (OpSubscribe k req shared w now1 now2) h in
  hub_wf h' ∧ abs h' = topic_run (announce (readPublication k now1 (hub_store h)).1.2 ++ [OpenBox k w]) (abs h).
Proof.
  intros Hwf Hroom Hfresh Hor. cbn [hub_run]. pose proof Hwf as [Hst Hsub].
  destruct (register_watcher_run k req w shared now1 now2 h Hwf Hfresh Hor) as [Hs' Hstore'].
  pose proof (register_wf k req w now1 now2 _ Hst Hroom) as Hwf'. set (h' := (register_watcher _ _ _ _ _ _ h).2) in *.
  destruct (register_counters k req w now1 now2 (hub_store h) Hor) as [Hord Hrec].
  pose proof (λ k', register_watchers_of k req w now1 now2 (hub_store h) k' Hor) as Hws.
  pose proof (readPublication_current k now1 (hub_store h)) as Hinit.
  pose proof (readPublication_wf k now1 _ Hst Hroom) as Hwf1.
  destruct (single_refines (readPublication k now1 (hub_store h)).2 (readPublication k now1 (hub_store h)).1.2 h Hwf Hwf1)
    as ((_ & Hsub1) & Hst1 & Habs1); [by apply effect_effects with k, readPublication_effect|done|by apply read_current|].
  set (r := readPublication k now1 (hub_store h)) in *. set (h1 := notification_deliver r.1.2 _) in *.
  assert (∀ p, r.1.1 = Some p → 0 < publication_order p ≤ publicationOrder r.2) as Hp.
  { intros p Hp. rewrite Hinit in Hp. destruct (records r.2 !! k) as [rc|] eqn:Hrc; [|done]. injection Hp as <-.
    eapply record_wf_order, (records_wf_each _ _ _ _ (proj1 Hwf1)), Hrc. }
  destruct (first_sub_spec shared r.1.1 (publicationOrder r.2) Hp) as (Hopen & Hle & Hitem);
    [destruct (records_wf_counters _ _ _ _ (proj1 Hwf1)); lia|].
  set (sub := first_sub _ _) in *. clearbody h' sub h1. split; [split; [by rewrite Hstore'|]|].
  - rewrite Hstore', Hs'. rewrite Hst1 in Hsub1. destruct Hsub1 as [Hw1 Ho1].
    assert (∀ k', watchers_of r.2 k' = watchers_of (hub_store h) k') as Hsame.
    { intros k'. subst r. destruct (readPublication_effect k now1 _ Hst) as [[_ (_ & Hq & _)]|(p & _ & Hpb)]; unfold watchers_of;
        [by rewrite Hq|by rewrite (published_watchers _ _ _ _ Hpb)]. }
    split.
    + intros k' w'. rewrite Hws. destruct (decide (w' = w)) as [->|Hne].
      * rewrite lookup_insert_eq. assert (∀ k', w ∉ watchers_of (hub_store h) k') as Hno.
        { intros k1 (? & ? & _)%(subs_watchers _ _ Hsub). congruence. }
        specialize (Hno k'). case_decide; [subst; set_solver|]. split; [done|]. by intros (? & [= ->] & _).
      * rewrite lookup_insert_ne, <-Hw1, Hsame by done. case_decide; [subst; set_solver|done].
    + intros w' k' sub'. rewrite Hord. intros [[_ [= _ <-]]|[_ Hl]]%lookup_insert_Some; [done|by eapply Ho1].
  - rewrite topic_run_app, <-Habs1. apply topics_eq; cbn; [rewrite Hstore', Hst1; unfold abs_current; by rewrite Hrec|].
    rewrite Hs', fmap_insert. f_equal. unfold abs_box. cbn. rewrite Hopen, Hitem, Hinit, Hst1. cbn. unfold abs_current.
    rewrite lookup_fmap. by destruct (records r.2 !! k).
Qed.

(** Replacing one subscription changes its box. *)
Lemma abs_insert (m : gmap sid (clusterKey * subscription)) w x y (g : box → box) :
  m !! w = Some x → abs_box y = g (abs_box x) → abs_box <$> <[w := y]> m = alter g w (abs_box <$> m).
Proof.
  intros Hx Hy. apply map_eq. intros w'. rewrite lookup_fmap. destruct (decide (w' = w)) as [->|Hne].
  - rewrite lookup_insert_eq, lookup_alter_eq, lookup_fmap, Hx. cbn. by rewrite Hy.
  - by rewrite lookup_insert_ne, lookup_alter_ne, lookup_fmap by done.
Qed.

Lemma abs_unchanged (m : gmap sid (clusterKey * subscription)) w (g : box → box) :
  (∀ x, m !! w = Some x → g (abs_box x) = abs_box x) → abs_box <$> m = alter g w (abs_box <$> m).
Proof.
  intros Hg. symmetry. apply alter_id. intros b. rewrite lookup_fmap. destruct (m !! w); [|done]. intros [= <-]. by apply Hg.
Qed.

Lemma cancel_refines w h :
  hub_wf h → hub_wf (cancel w h).2 ∧ abs (cancel w h).2 = topic_run [CloseBox w] (abs h).
Proof.
  intros [Hst [Hw Ho]]. unfold cancel. destruct (hub_subs h !! w) as [[key sub]|] eqn:Hsub.
  2: { split; [by split|]. apply topics_eq; cbn; [done|]. apply abs_unchanged. by rewrite Hsub. }
  destruct (subscription_closed sub) eqn:Hc; cbn [snd].
  { split; [by split|]. apply topics_eq; cbn; [done|]. apply abs_unchanged. rewrite Hsub. intros ? [= <-].
    unfold abs_box. cbn. by rewrite Hc. }
  split; [split; [by apply unregister_wf|]; split|].
  - intros k' w'. cbn [set_hub_sub set_hub_store hub_store hub_subs]. rewrite watchers_of_unregister.
    destruct (decide (w' = w)) as [->|Hne].
    + rewrite lookup_insert_eq. case_decide as Hk; [subst; split; [set_solver|by intros (? & [= <-] & ?)]|].
      rewrite Hw, Hsub. split; [by intros (? & [= ->] & _)|by intros (? & [= <-] & _)].
    + rewrite lookup_insert_ne, <-Hw by done. case_decide; [subst; set_solver|done].
  - intros w' k' sub'. cbn. intros [[_ [= _ <-]]|[_ Hl]]%lookup_insert_Some; [cbn|]; eauto.
  - apply topics_eq; cbn; [done|]. by eapply abs_insert.
Qed.

Lemma receive_refines w h :
  hub_wf h → hub_wf (receive w h).2 ∧ abs (receive w h).2 = topic_run [TakeItem w] (abs h).
Proof.
  intros [Hst [Hw Ho]]. unfold receive. destruct (hub_subs h !! w) as [[key sub]|] eqn:Hsub.
  2: { split; [by split|]. apply topics_eq; cbn; [done|]. apply abs_unchanged. by rewrite Hsub. }
  assert (subscription_closed (subscription_receive sub).2 = subscription_closed sub
    ∧ subscription_order (subscription_receive sub).2 = subscription_order sub
    ∧ pending_snapshot (subscription_receive sub).2 = None) as (Hc & Hor & Hp).
  { unfold subscription_receive, pending_snapshot. destruct (subscription_mailbox sub) as [[x|]|[x|]] eqn:Hm; cbn; by rewrite ?Hm. }
  destruct (subscription_receive sub) as [r sub']. cbn [fst snd] in *. split; [split; [done|]; split|].
  - intros k' w'. cbn. rewrite Hw. destruct (decide (w' = w)) as [->|Hne]; [|by rewrite lookup_insert_ne].
    rewrite lookup_insert_eq, Hsub. split; intros (? & [= <- <-] & ?); eexists; (split; [done|congruence]).
  - intros w' k' sub0. cbn. intros [[_ [= _ <-]]|[_ Hl]]%lookup_insert_Some; [rewrite Hor|]; eauto.
  - apply topics_eq; cbn; [done|]. eapply abs_insert; [done|]. unfold abs_box. cbn. by rewrite Hc, Hp.
Qed.

(** ** Theorems *)

(** What a call announces. *)
Definition hub_announces (op : hub_op) (h : hub) : list topic_op :=
  let s := hub_store h in
  match op with
  | OpPut snapshot now1 now2 => announce (PutDeferred snapshot now1 now2 s).1.2
  | OpDelete k => match records s !! k with
                  | Some r => [Retire k (publication_snapshot (deleted_publication s r))]
                  | None => []
                  end
  | OpGet k now => announce (readPublication k now s).1.2
  | OpExpire ks now => concat (announce <$> (Expire ks now s).1)
  | OpSubscribe k req _ w now1 _ =>
      if bool_decide (records s !! k = None) && req then []
      else announce (readPublication k now1 s).1.2 ++ [OpenBox k w]
  | OpCancel w => [CloseBox w]
  | OpReceive w => [TakeItem w]
  end.

Definition hub_cost (op : hub_op) : Z := match op with OpExpire ks _ => Z.of_nat (length ks) | _ => 1 end.

Definition hub_fresh (op : hub_op) (h : hub) : Prop :=
  match op with OpSubscribe _ _ _ w _ _ => hub_subs h !! w = None | _ => True end.

(** C8: every call on the store, with its deliveries, is what the contract says: a
    publication becomes the current snapshot and the item of every open subscriber
    of its Cluster, whatever was there; a deletion removes the snapshot and leaves
    its tombstone with them; a subscription starts with the current snapshot; a
    closed one changes no more.  Nothing else happens to anybody. *)
Theorem hub_refines_topics op h :
  hub_wf h → headroom (hub_store h) (hub_cost op) → hub_fresh op h →
  hub_wf (hub_run op h) ∧ abs (hub_run op h) = topic_run (hub_announces op h) (abs h).
Proof.
  intros Hwf Hroom Hfresh. pose proof Hwf as [Hst _].
  destruct op as [snap now1 now2|k|k now|ks now|k req shared w now1 now2|w|w]; cbn [hub_run hub_announces hub_cost hub_fresh] in *.
  - unfold Put. rewrite !State_bind_run. unfold locked. pose proof (put_current snap now1 now2 (hub_store h)) as Hc.
    pose proof (PutDeferred_wf snap now1 now2 _ Hst Hroom) as Hw. pose proof (PutDeferred_effect snap now1 now2 (hub_store h)) as He.
    destruct (PutDeferred snap now1 now2 (hub_store h)) as [[changed n] s']. cbn in *. apply effect_effects in He.
    by destruct (single_refines s' n h Hwf Hw He Hroom Hc) as (? & _ & ?).
  - by apply delete_refines.
  - unfold Get, GetDeferred. rewrite !State_bind_run. unfold locked. rewrite State_bind_run. cbn.
    pose proof (read_current k now _ Hst) as Hc. pose proof (readPublication_wf k now _ Hst Hroom) as Hw.
    pose proof (readPublication_effect k now _ Hst) as He. destruct (readPublication k now (hub_store h)) as [[p n] s'].
    cbn in *. apply effect_effects in He. by destruct (single_refines s' n h Hwf Hw He Hroom Hc) as (? & _ & ?).
  - unfold ExpireAll. rewrite State_bind_run. unfold locked. pose proof (Expire_wf ks now _ Hst Hroom) as Hw.
    pose proof (Expire_effects ks now _ Hst Hroom) as He.
    assert (abs_current (Expire ks now (hub_store h)).2 = current_all (Expire ks now (hub_store h)).1 (abs_current (hub_store h))) as Hc
      by (rewrite Expire_state, Expire_notifications, <-expire_current by done; done).
    assert (headroom (hub_store h) (Z.of_nat (length (Expire ks now (hub_store h)).1))) as Hr.
    { rewrite Expire_notifications. pose proof (expire_all_length now ks (hub_store h)). unfold headroom in *. lia. }
    destruct (Expire ks now (hub_store h)) as [ns s']. cbn in *.
    by destruct (call_refines s' ns h Hwf Hw He Hr Hc) as (? & _ & ?).
  - destruct (bool_decide (records (hub_store h) !! k = None) && req) eqn:Hb.
    + boolify. subst. unfold register_watcher. rewrite State_bind_run. unfold locked. rewrite register_refused by done. done.
    + apply (subscribe_refines k req shared w now1 now2 h Hwf Hroom Hfresh).
      apply andb_false_iff in Hb as [Hb|Hb]; [left|by right]. apply bool_decide_eq_false in Hb. by destruct (records _ !! k).
  - by apply cancel_refines.
  - by apply receive_refines.
Qed.


End claims.

(** ** A concrete hub *)

Section example.
#[local] Existing Instance identity_digest.

Definition empty_hub : hub := {| hub_store := NewStore "process"; hub_subs := ∅; hub_coalesced := 0 |}.

Lemma empty_hub_wf : hub_wf empty_hub.
Proof.
  split; [apply (reachable_wf "process"), reachable_new|]. split.
  - intros k w. unfold watchers_of. cbn. rewrite !lookup_empty. cbn. split; [set_solver|]. by intros (? & ? & _).
  - intros w k sub. cbn. by rewrite lookup_empty.
Qed.

(** A subscriber that came before the first observation gets it. *)
Lemma hub_refines_topics_witness :
  topic_boxes (abs (hub_run (OpPut (example_snapshot second) second second)
    (hub_run (OpSubscribe example_key false true 1 second second) empty_hub))) !! 1%positive
  = Some (Box example_key true (Some (set_Revision "process:1" (set_APIVersion APIVersion (example_snapshot second))))).
Proof.
  destruct (hub_refines_topics (OpSubscribe example_key false true 1 second second) empty_hub) as [Hwf1 Ha1].
  - exact empty_hub_wf.
  - vm_compute. reflexivity.
  - reflexivity.
  - destruct (hub_refines_topics (OpPut (example_snapshot second) second second)
      (hub_run (OpSubscribe example_key false true 1 second second) empty_hub)) as [_ Ha2].
    + exact Hwf1.
    + vm_compute. reflexivity.
    + exact I.
    + rewrite Ha2, Ha1. vm_compute. reflexivity.
Defined.

End example.
