(* ===== verification/Queue.v ===== *)
(** * The observation queue (src/internal/observer/queue.go)

    A work queue with an urgent and a background lane that share one set of
    dirty, active and promoted keys.  Every definition is one critical section of
    [priorityQueue.mu]; it returns the new queue and whether it broadcasts on the
    condition variable.  A [container/list] element is stored only in [entries]
    and in its own list, so it is identified by its key and its list. *)

From S2P Require Import Prelude Api.

Inductive lane := Urgent | Background.

#[export] Instance lane_eq_dec : EqDecision lane.
Proof. solve_decision. Defined.

Definition urgentBurstLimit : Z := 8.

Record priorityQueue := {
  urgent : list clusterKey;
  background : list clusterKey;
  entries : gmap clusterKey lane;
  dirty : gset clusterKey;
  processing : gmap clusterKey bool;
  promoted : gmap clusterKey bool;
  burst : Z; (* int *)
  shuttingDown : bool;
  drain : bool;
}.

Definition newPriorityQueue : priorityQueue := {|
  urgent := []; background := []; entries := ∅; dirty := ∅; processing := ∅;
  promoted := ∅; burst := 0; shuttingDown := false; drain := false;
|}.

(** [l.Remove e] for the element of [key] when [e] belongs to [l]. *)
Fixpoint remove_element (key : clusterKey) (l : list clusterKey) : list clusterKey :=
  match l with
  | [] => []
  | x :: l => if decide (x = key) then l else x :: remove_element key l
  end.

(** [promoted[key]] of a Go map: [false] when absent. *)
Definition is_promoted (p : priorityQueue) (key : clusterKey) : bool :=
  default false (promoted p !! key).

Definition promote (key : clusterKey) (p : priorityQueue) : priorityQueue * bool :=
  if shuttingDown p || is_promoted p key then (p, false)
  else
    match entries p !! key with
    | Some e =>
        ({| urgent := urgent p ++ [key];
            background := match e with
                          | Background => remove_element key (background p)
                          | Urgent => background p
                          end;
            entries := <[key := Urgent]> (entries p); dirty := dirty p;
            processing := processing p; promoted := <[key := true]> (promoted p);
            burst := burst p; shuttingDown := shuttingDown p; drain := drain p |}, true)
    | None =>
        ({| urgent := urgent p; background := background p; entries := entries p;
            dirty := dirty p; processing := processing p;
            promoted := <[key := true]> (promoted p);
            burst := burst p; shuttingDown := shuttingDown p; drain := drain p |}, false)
    end.

(** [push] requires the lock and always broadcasts. *)
Definition push (key : clusterKey) (p : priorityQueue) : priorityQueue :=
  if is_promoted p key
  then {| urgent := urgent p ++ [key]; background := background p;
          entries := <[key := Urgent]> (entries p); dirty := dirty p;
          processing := processing p; promoted := promoted p;
          burst := burst p; shuttingDown := shuttingDown p; drain := drain p |}
  else {| urgent := urgent p; background := background p ++ [key];
          entries := <[key := Background]> (entries p); dirty := dirty p;
          processing := processing p; promoted := promoted p;
          burst := burst p; shuttingDown := shuttingDown p; drain := drain p |}.

Definition mark_dirty (key : clusterKey) (p : priorityQueue) : priorityQueue := {|
  urgent := urgent p; background := background p; entries := entries p;
  dirty := {[key]} ∪ dirty p; processing := processing p; promoted := promoted p;
  burst := burst p; shuttingDown := shuttingDown p; drain := drain p;
|}.

Definition Add (key : clusterKey) (p : priorityQueue) : priorityQueue * bool :=
  if shuttingDown p then (p, false)
  else if bool_decide (key ∈ dirty p) then (p, false)
  else
    let p := mark_dirty key p in
    match processing p !! key with
    | Some _ => (p, false)
    | None => (push key p, true)
    end.

Definition Len (p : priorityQueue) : nat := size (entries p).

(** The outcome of one pass of [get]: the loop sleeps on the condition
    variable, reports shutdown, or returns a key. *)
Inductive get_result :=
  | GetWait
  | GetShutdown
  | GetItem (key : clusterKey).

(** The dequeue of [key], classified as [class], leaving the given lanes. *)
Definition dequeue (key : clusterKey) (class : bool) (us bs : list clusterKey) (n : Z)
    (p : priorityQueue) : priorityQueue := {|
  urgent := us; background := bs; entries := delete key (entries p);
  dirty := dirty p ∖ {[key]}; processing := <[key := class]> (processing p);
  promoted := delete key (promoted p);
  burst := n; shuttingDown := shuttingDown p; drain := drain p;
|}.

(** The condition under which [get] keeps looping. *)
Definition get_empty (urgentOnly : bool) (p : priorityQueue) : bool :=
  (length (urgent p) =? 0)%nat && (urgentOnly || (length (background p) =? 0)%nat).

Definition get (urgentOnly : bool) (p : priorityQueue) : get_result * priorityQueue :=
  if get_empty urgentOnly p
  then (if shuttingDown p then GetShutdown else GetWait, p)
  else
    let take_urgent := (0 <? length (urgent p))%nat &&
      (urgentOnly || (burst p <? urgentBurstLimit) || (length (background p) =? 0)%nat) in
    if take_urgent then
      match urgent p with
      | key :: rest =>
          let n := if negb urgentOnly && (burst p <? urgentBurstLimit) then burst p + 1 else burst p in
          (GetItem key, dequeue key true rest (background p) n p)
      | [] => (GetWait, p)
      end
    else
      match background p with
      | key :: rest => (GetItem key, dequeue key false (urgent p) rest 0 p)
      | [] => (GetWait, p)
      end.

Definition IsUrgent (key : clusterKey) (p : priorityQueue) : bool :=
  default false (processing p !! key).

Definition Done (key : clusterKey) (p : priorityQueue) : priorityQueue * bool :=
  match processing p !! key with
  | None => (p, false)
  | Some _ =>
      let p := {| urgent := urgent p; background := background p; entries := entries p;
                  dirty := dirty p; processing := delete key (processing p);
                  promoted := promoted p; burst := burst p;
                  shuttingDown := shuttingDown p; drain := drain p |} in
      (if bool_decide (key ∈ dirty p) then push key p else p, true)
  end.

Definition set_shutdown (with_drain : bool) (p : priorityQueue) : priorityQueue := {|
  urgent := urgent p; background := background p; entries := entries p; dirty := dirty p;
  processing := processing p; promoted := promoted p; burst := burst p;
  shuttingDown := true; drain := with_drain;
|}.

Definition ShutDown (p : priorityQueue) : priorityQueue * bool := (set_shutdown false p, true).

(** [ShutDownWithDrain] sets the flags, then sleeps while [drain_waits]. *)
Definition ShutDownWithDrain (p : priorityQueue) : priorityQueue * bool := (set_shutdown true p, true).

(** The loop condition of [ShutDownWithDrain]. *)
Definition drain_waits (p : priorityQueue) : bool :=
  drain p && ((0 <? size (entries p))%nat || (0 <? size (processing p))%nat).

(** ** The invariant *)

Record queue_wf (p : priorityQueue) : Prop := {
  queue_wf_nodup : NoDup (urgent p ++ background p);
  queue_wf_urgent : ∀ k, entries p !! k = Some Urgent ↔ k ∈ urgent p;
  queue_wf_background : ∀ k, entries p !! k = Some Background ↔ k ∈ background p;
  queue_wf_dirty : ∀ k, is_Some (entries p !! k) ↔ k ∈ dirty p ∧ processing p !! k = None;
  queue_wf_promoted : ∀ k l, entries p !! k = Some l → (l = Urgent ↔ is_promoted p k = true);
  queue_wf_burst : 0 ≤ burst p ≤ urgentBurstLimit;
}.

(** One call into the queue. *)
Inductive queue_op :=
  | OpPromote (key : clusterKey)
  | OpAdd (key : clusterKey)
  | OpGet (urgentOnly : bool)
  | OpDone (key : clusterKey)
  | OpShutDown
  | OpShutDownWithDrain.

Definition queue_run (op : queue_op) (p : priorityQueue) : priorityQueue :=
  match op with
  | OpPromote key => (promote key p).1
  | OpAdd key => (Add key p).1
  | OpGet urgentOnly => (get urgentOnly p).2
  | OpDone key => (Done key p).1
  | OpShutDown => (ShutDown p).1
  | OpShutDownWithDrain => (ShutDownWithDrain p).1
  end.

Definition queue_broadcasts (op : queue_op) (p : priorityQueue) : bool :=
  match op with
  | OpPromote key => (promote key p).2
  | OpAdd key => (Add key p).2
  | OpGet _ => false
  | OpDone key => (Done key p).2
  | OpShutDown => (ShutDown p).2
  | OpShutDownWithDrain => (ShutDownWithDrain p).2
  end.

Definition queue_runs (ops : list queue_op) (p : priorityQueue) : priorityQueue :=
  foldl (λ p op, queue_run op p) p ops.
