(* ===== verification/QueueFacts.v ===== *)
(** * Invariant of the observation queue

    The lanes, [entries], [dirty], [processing] and [promoted] stay consistent
    under every operation, which yields the work-queue contract, the absence of
    lost wake-ups and the fairness bound in [QueueProps]. *)

From S2P Require Import Prelude Api Queue.

(** ** Lanes *)

Lemma remove_element_elem key l x :
  NoDup l → (x ∈ remove_element key l ↔ x ∈ l ∧ x ≠ key).
Proof.
  induction 1 as [|y l Hy Hl IH]; cbn; [set_solver|].
  case_decide as Hd; [subst|]; set_solver.
Qed.

Lemma remove_element_sublist key l : remove_element key l `sublist_of` l.
Proof.
  induction l as [|y l IH]; cbn; [done|]. case_decide; [by apply sublist_cons|by constructor].
Qed.

Lemma NoDup_sublist {A} (k l : list A) : k `sublist_of` l → NoDup l → NoDup k.
Proof.
  induction 1 as [|x k l Hsub IH|x k l Hsub IH]; intros Hl; [done| |];
    apply NoDup_cons in Hl as [Hx Hl]; [|by auto].
  constructor; [|by auto]. intros Hk. apply Hx. by eapply elem_of_sublist.
Qed.

(** The outcome of [get]. *)
Variant get_spec (u : bool) (p : priorityQueue) : get_result * priorityQueue → Prop :=
  | get_spec_empty :
      urgent p = [] → u = true ∨ background p = [] →
      get_spec u p (if shuttingDown p then GetShutdown else GetWait, p)
  | get_spec_urgent k rest n :
      urgent p = k :: rest → u = true ∨ burst p < urgentBurstLimit ∨ background p = [] →
      n = (if negb u && (burst p <? urgentBurstLimit) then burst p + 1 else burst p) →
      get_spec u p (GetItem k, dequeue k true rest (background p) n p)
  | get_spec_background k rest :
      u = false → background p = k :: rest → urgent p = [] ∨ urgentBurstLimit ≤ burst p →
      get_spec u p (GetItem k, dequeue k false (urgent p) rest 0 p).

Lemma get_cases u p : get_spec u p (get u p).
Proof.
  unfold get, get_empty. destruct (urgent p) as [|k us] eqn:Hu; cbn.
  - destruct (background p) as [|b bs] eqn:Hb; cbn.
    + rewrite orb_true_r. constructor; auto.
    + destruct u; cbn; [constructor; auto|]. rewrite <- Hu. constructor; auto.
  - destruct u; cbn; [eapply get_spec_urgent; eauto|].
    destruct (background p) as [|b bs] eqn:Hb; cbn.
    + rewrite orb_true_r. cbn. rewrite <- Hb. eapply get_spec_urgent; eauto.
    + destruct (Z.ltb_spec (burst p) urgentBurstLimit) as [Hlt|Hge]; cbn.
      * rewrite <- Hb. eapply get_spec_urgent; eauto. cbn. by rewrite (proj2 (Z.ltb_lt _ _) Hlt).
      * rewrite <- Hu. apply get_spec_background; auto.
Qed.

(** ** Preservation *)

Lemma newPriorityQueue_wf : queue_wf newPriorityQueue.
Proof.
  split; cbn; try (intros *; rewrite lookup_empty; set_solver).
  - constructor.
  - unfold urgentBurstLimit. lia.
Qed.

Lemma lane_fresh p k :
  queue_wf p → entries p !! k = None → (k ∉ urgent p) ∧ (k ∉ background p).
Proof.
  intros Hwf Hk. rewrite <- (queue_wf_urgent _ Hwf), <- (queue_wf_background _ Hwf). by rewrite Hk.
Qed.

(** [push] re-establishes the invariant for a dirty, inactive, unqueued key. *)
Lemma push_wf key p :
  NoDup (urgent p ++ background p) →
  (∀ k, entries p !! k = Some Urgent ↔ k ∈ urgent p) →
  (∀ k, entries p !! k = Some Background ↔ k ∈ background p) →
  (∀ k, k ≠ key → (is_Some (entries p !! k) ↔ k ∈ dirty p ∧ processing p !! k = None)) →
  (∀ k l, entries p !! k = Some l → (l = Urgent ↔ is_promoted p k = true)) →
  0 ≤ burst p ≤ urgentBurstLimit →
  entries p !! key = None → key ∈ dirty p → processing p !! key = None →
  queue_wf (push key p).
Proof.
  intros Hnd Hu Hb Hd Hp Hbu Hnone Hdirty Hidle.
  assert ((key ∉ urgent p) ∧ (key ∉ background p)) as [Hnu Hnb] by (rewrite <- Hu, <- Hb, Hnone; done).
  assert (∀ l k, is_Some (<[key := l]> (entries p) !! k) ↔ k ∈ dirty p ∧ processing p !! k = None) as Hd'.
  { intros l k. destruct (decide (k = key)) as [->|Hne].
    - rewrite lookup_insert_eq. naive_solver.
    - rewrite lookup_insert_ne by done. auto. }
  unfold push. destruct (is_promoted p key) eqn:Hpr; split; cbn; try done.
  - rewrite <- app_assoc. cbn. rewrite <- Permutation_middle. constructor; [set_solver|done].
  - intros k. rewrite lookup_insert. case_decide; [subst; set_solver|]. rewrite Hu. set_solver.
  - intros k. rewrite lookup_insert. case_decide; [subst; set_solver|]. rewrite Hb. set_solver.
  - intros k l [[<- <-]|[_ Hk]]%lookup_insert_Some; [by rewrite <- Hpr|by apply Hp].
  - rewrite app_assoc, <- Permutation_cons_append. constructor; [set_solver|done].
  - intros k. rewrite lookup_insert. case_decide; [subst; set_solver|]. rewrite Hu. set_solver.
  - intros k. rewrite lookup_insert. case_decide; [subst; set_solver|]. rewrite Hb. set_solver.
  - intros k l [[<- <-]|[_ Hk]]%lookup_insert_Some; [|by apply Hp].
    unfold is_promoted in *. cbn. rewrite Hpr. naive_solver.
Qed.

Lemma promote_wf key p : queue_wf p → queue_wf (promote key p).1.
Proof.
  intros Hwf. unfold promote.
  destruct (shuttingDown p || is_promoted p key) eqn:Hg; [done|].
  apply orb_false_iff in Hg as [_ Hnp]. destruct Hwf as [Hnd Hu Hb Hd Hp Hbu].
  assert (∀ k, k ≠ key → default false (<[key := true]> (promoted p) !! k) = is_promoted p k) as Hpo
    by (intros; unfold is_promoted; by rewrite lookup_insert_ne).
  destruct (entries p !! key) as [[]|] eqn:He; cbn.
  - pose proof (proj1 (Hp _ _ He) eq_refl). congruence.
  - assert (key ∈ background p) as Hin by by apply Hb.
    apply NoDup_app in Hnd as (Hndu & Hdisj & Hndb).
    assert (∀ x, x ∈ remove_element key (background p) ↔ x ∈ background p ∧ x ≠ key) as Hrem
      by (intros; by apply remove_element_elem).
    split; cbn; try done.
    + apply NoDup_app. split_and!.
      * apply NoDup_app. split_and!; [done|set_solver|apply NoDup_singleton].
      * intros x Hx. rewrite Hrem. set_solver.
      * eapply NoDup_sublist; [apply remove_element_sublist|done].
    + intros k. rewrite lookup_insert. case_decide; [subst; set_solver|]. rewrite Hu. set_solver.
    + intros k. rewrite lookup_insert, Hrem. case_decide; [subst; set_solver|]. rewrite Hb. set_solver.
    + intros k. rewrite lookup_insert. case_decide; [subst|by apply Hd].
      rewrite <- Hd, He. split; by eexists.
    + intros k l [[<- <-]|[Hne Hk]]%lookup_insert_Some; unfold is_promoted; cbn.
      * by rewrite lookup_insert_eq.
      * rewrite Hpo by done. by apply Hp.
  - split; cbn; try done. intros k l Hk. unfold is_promoted; cbn.
    rewrite Hpo by congruence. by apply Hp.
Qed.

Lemma Add_wf key p : queue_wf p → queue_wf (Add key p).1.
Proof.
  intros Hwf. unfold Add. destruct (shuttingDown p); [done|].
  case_bool_decide as Hdirty; [done|]. destruct Hwf as [Hnd Hu Hb Hd Hp Hbu].
  assert (entries p !! key = None) as Hnone.
  { apply eq_None_not_Some. rewrite Hd. tauto. }
  cbn. destruct (processing p !! key) eqn:Hpr; cbn.
  - split; cbn; try done. intros k. rewrite Hd.
    destruct (decide (k = key)) as [->|]; [rewrite Hpr|]; set_solver.
  - apply push_wf; cbn; try done; [|set_solver].
    intros k Hne. rewrite Hd. set_solver.
Qed.

Lemma Done_wf key p : queue_wf p → queue_wf (Done key p).1.
Proof.
  intros Hwf. unfold Done. destruct (processing p !! key) as [c|] eqn:Hpr; [|done].
  destruct Hwf as [Hnd Hu Hb Hd Hp Hbu].
  assert (entries p !! key = None) as Hnone.
  { apply eq_None_not_Some. rewrite Hd. rewrite Hpr. naive_solver. }
  cbn. case_bool_decide as Hdirty; cbn.
  - apply push_wf; cbn; try done; [|by rewrite lookup_delete_eq].
    intros k Hne. rewrite lookup_delete_ne by done. apply Hd.
  - split; cbn; try done. intros k. destruct (decide (k = key)) as [->|Hne].
    + rewrite Hnone, lookup_delete_eq. split; [by intros []|naive_solver].
    + rewrite lookup_delete_ne by done. apply Hd.
Qed.

(** Removing the head of either lane and activating it. *)
Lemma dequeue_wf key class us bs n p :
  queue_wf p → (urgent p = key :: us ∧ background p = bs) ∨ (urgent p = us ∧ background p = key :: bs) →
  0 ≤ n ≤ urgentBurstLimit → queue_wf (dequeue key class us bs n p).
Proof.
  intros [Hnd Hu Hb Hd Hp Hbu] Hlane Hn.
  assert (urgent p ++ background p ≡ₚ key :: us ++ bs) as Hperm
    by (destruct Hlane as [[-> ->]|[-> ->]]; [done|by rewrite Permutation_middle]).
  rewrite Hperm in Hnd. apply NoDup_cons in Hnd as [Hfresh Hnd].
  split; cbn; try done.
  - intros k. rewrite lookup_delete. case_decide as Hk; [subst; set_solver|].
    rewrite Hu. destruct Hlane as [[-> _]|[-> _]]; set_solver.
  - intros k. rewrite lookup_delete. case_decide as Hk; [subst; set_solver|].
    rewrite Hb. destruct Hlane as [[_ ->]|[_ ->]]; set_solver.
  - intros k. rewrite lookup_delete, lookup_insert. case_decide as Hk.
    + subst. split; [by intros []|naive_solver].
    + rewrite Hd. set_solver.
  - intros k l [Hne Hk]%lookup_delete_Some. unfold is_promoted; cbn.
    rewrite lookup_delete_ne by done. by apply Hp.
Qed.

Lemma get_wf u p : queue_wf p → queue_wf (get u p).2.
Proof.
  intros Hwf. destruct (get_cases u p) as [|k rest n Hu Hor ->|k rest Hu Hb Hor]; cbn; [done| |].
  - apply dequeue_wf; [done|by left|]. pose proof (queue_wf_burst _ Hwf).
    destruct (negb u && (burst p <? urgentBurstLimit)) eqn:Hg; [|done].
    apply andb_true_iff in Hg as [_ Hlt%Z.ltb_lt]. lia.
  - apply dequeue_wf; [done|by right|]. unfold urgentBurstLimit. lia.
Qed.

Lemma set_shutdown_wf b p : queue_wf p → queue_wf (set_shutdown b p).
Proof. by intros []. Qed.

Lemma queue_run_wf op p : queue_wf p → queue_wf (queue_run op p).
Proof.
  destruct op; cbn.
  - apply promote_wf.
  - apply Add_wf.
  - apply get_wf.
  - apply Done_wf.
  - apply set_shutdown_wf.
  - apply set_shutdown_wf.
Qed.

Lemma queue_runs_wf ops p : queue_wf p → queue_wf (queue_runs ops p).
Proof.
  unfold queue_runs. revert p. induction ops as [|op ops IH]; intros p Hwf; [done|].
  cbn. by apply IH, queue_run_wf.
Qed.
