(* ===== verification/QueueProps.v ===== *)
(** * Theorems about the observation queue

    The queue implements the work-queue contract of client-go that the observer
    programs against, wakes every worker that has something to do, and does not
    starve background observations. *)

From S2P Require Import Prelude Api Queue QueueFacts.

(** ** The contract of a work queue

    What [workqueue.TypedInterface] promises: a set of dirty keys, a set of active
    keys, at most one activation of a key at a time, and a dirty active key is
    handed out again after it is done. *)
Record wq_state := WqState {
  wq_dirty : gset clusterKey;
  wq_active : gset clusterKey;
  wq_closed : bool;
}.

Inductive wq_step (w : wq_state) : queue_op → option get_result → wq_state → Prop :=
  | wq_promote key : wq_step w (OpPromote key) None w
  | wq_add key :
      wq_step w (OpAdd key) None
        (WqState (if wq_closed w then wq_dirty w else {[key]} ∪ wq_dirty w) (wq_active w) (wq_closed w))
  | wq_done key :
      wq_step w (OpDone key) None (WqState (wq_dirty w) (wq_active w ∖ {[key]}) (wq_closed w))
  | wq_get_item u key :
      key ∈ wq_dirty w → key ∉ wq_active w →
      wq_step w (OpGet u) (Some (GetItem key))
        (WqState (wq_dirty w ∖ {[key]}) ({[key]} ∪ wq_active w) (wq_closed w))
  | wq_get_none u :
      (u = false → wq_dirty w ⊆ wq_active w) →
      wq_step w (OpGet u) (Some (if wq_closed w then GetShutdown else GetWait)) w
  | wq_shutdown :
      wq_step w OpShutDown None (WqState (wq_dirty w) (wq_active w) true)
  | wq_shutdown_drain :
      wq_step w OpShutDownWithDrain None (WqState (wq_dirty w) (wq_active w) true).

Definition queue_abs (p : priorityQueue) : wq_state :=
  WqState (dirty p) (dom (processing p)) (shuttingDown p).

Definition queue_result (op : queue_op) (p : priorityQueue) : option get_result :=
  match op with OpGet u => Some (get u p).1 | _ => None end.

(** An item [get] returns was queued: dirty and not active. *)
Lemma get_item_queued u p key p' :
  queue_wf p → get u p = (GetItem key, p') → key ∈ dirty p ∧ processing p !! key = None.
Proof.
  intros Hwf Hget. pose proof (get_cases u p) as Hspec. rewrite Hget in Hspec.
  apply (queue_wf_dirty _ Hwf).
  inversion Hspec as [Hu Hor Heq|k rest n Hu|k rest Hu Hb]; subst.
  - by destruct (shuttingDown p').
  - eexists. apply (queue_wf_urgent _ Hwf). rewrite Hu. by left.
  - eexists. apply (queue_wf_background _ Hwf). rewrite Hb. by left.
Qed.

(** When both lanes are empty, every dirty key is active. *)
Lemma empty_lanes_active p :
  queue_wf p → urgent p = [] → background p = [] → dirty p ⊆ dom (processing p).
Proof.
  intros Hwf Hu Hb k Hk. apply elem_of_dom.
  destruct (processing p !! k) eqn:Hpr; [by eexists|]. exfalso.
  destruct (proj2 (queue_wf_dirty _ Hwf k) (conj Hk Hpr)) as [[] Hl].
  - apply (queue_wf_urgent _ Hwf) in Hl. rewrite Hu in Hl. by apply elem_of_nil in Hl.
  - apply (queue_wf_background _ Hwf) in Hl. rewrite Hb in Hl. by apply elem_of_nil in Hl.
Qed.

Lemma push_abs key p : queue_abs (push key p) = queue_abs p.
Proof. unfold push. by destruct (is_promoted p key). Qed.

Lemma queue_simulation op p :
  queue_wf p → wq_step (queue_abs p) op (queue_result op p) (queue_abs (queue_run op p)).
Proof.
  intros Hwf. destruct op as [key|key|u|key| |]; cbn.
  - replace (queue_abs (promote key p).1) with (queue_abs p); [constructor|].
    unfold promote. destruct (_ || _); [done|]. by destruct (entries p !! key).
  - replace (queue_abs (Add key p).1) with
      (WqState (if shuttingDown p then dirty p else {[key]} ∪ dirty p) (dom (processing p)) (shuttingDown p));
      [apply (wq_add (queue_abs p))|].
    unfold Add. destruct (shuttingDown p) eqn:Hs; [unfold queue_abs; cbn; by rewrite Hs|].
    case_bool_decide as Hd.
    + unfold queue_abs; cbn. rewrite Hs. f_equal. set_solver.
    + cbn. destruct (processing p !! key); cbn; rewrite ?push_abs; unfold queue_abs; cbn; by rewrite Hs.
  - destruct (get u p) as [r p'] eqn:Hget. pose proof (get_cases u p) as Hspec. rewrite Hget in Hspec.
    inversion Hspec as [Hu Hor Heq|k rest n Hu Hor Hn|k rest Hu Hb Hor]; subst; cbn.
    + apply (wq_get_none (queue_abs p')). intros ->. apply empty_lanes_active; naive_solver.
    + destruct (get_item_queued _ _ _ _ Hwf Hget) as [Hd Hi].
      unfold queue_abs, dequeue; cbn. rewrite dom_insert_L.
      apply (wq_get_item (queue_abs p)); cbn; [done|]. by apply not_elem_of_dom.
    + destruct (get_item_queued _ _ _ _ Hwf Hget) as [Hd Hi].
      unfold queue_abs, dequeue; cbn. rewrite dom_insert_L.
      apply (wq_get_item (queue_abs p)); cbn; [done|]. by apply not_elem_of_dom.
  - replace (queue_abs (Done key p).1) with
      (WqState (dirty p) (dom (processing p) ∖ {[key]}) (shuttingDown p));
      [apply (wq_done (queue_abs p))|].
    unfold Done. destruct (processing p !! key) eqn:Hpr.
    + cbn. case_bool_decide; rewrite ?push_abs; unfold queue_abs; cbn; by rewrite dom_delete_L.
    + apply not_elem_of_dom in Hpr. unfold queue_abs. cbn. f_equal. set_solver.
  - apply (wq_shutdown (queue_abs p)).
  - apply (wq_shutdown_drain (queue_abs p)).
Qed.

(** ** Sleeping workers *)

(** A thread asleep on the condition variable: in [get], or in
    [ShutDownWithDrain]. *)
Inductive waiter := WaitGet (urgentOnly : bool) | WaitDrain.

(** The loop condition under which that thread has to sleep. *)
Definition must_wait (p : priorityQueue) (w : waiter) : bool :=
  match w with
  | WaitGet u => get_empty u p && negb (shuttingDown p)
  | WaitDrain => drain_waits p
  end.

Record queue_system := System {
  sys_queue : priorityQueue;
  sys_sleeping : list waiter;
}.

(** A thread runs one section, waking all sleepers when it broadcasts, or goes
    to sleep because its loop condition holds. *)
Inductive sys_step (s : queue_system) : queue_system → Prop :=
  | sys_run op :
      sys_step s (System (queue_run op (sys_queue s))
        (if queue_broadcasts op (sys_queue s) then [] else sys_sleeping s))
  | sys_sleep w :
      must_wait (sys_queue s) w = true →
      sys_step s (System (sys_queue s) (w :: sys_sleeping s)).

Inductive sys_reachable : queue_system → Prop :=
  | sys_new : sys_reachable (System newPriorityQueue [])
  | sys_next s s' : sys_reachable s → sys_step s s' → sys_reachable s'.

Lemma drain_waits_active p : drain p = true → processing p ≠ ∅ → drain_waits p = true.
Proof.
  intros Hd Hp. unfold drain_waits. rewrite Hd. apply orb_true_iff. right.
  apply Nat.ltb_lt, Nat.neq_0_lt_0. by intros Hsize%map_size_empty_inv.
Qed.

(** A section that does not broadcast gives no sleeper a reason to wake. *)
Lemma silent_keeps_waiting op p w :
  queue_broadcasts op p = false → must_wait p w = true → must_wait (queue_run op p) w = true.
Proof.
  destruct op as [key|key|u|key| |]; cbn; try done.
  - unfold promote. destruct (_ || _); [done|]. by destruct (entries p !! key).
  - unfold Add. destruct (shuttingDown p) eqn:Hs; [done|]. case_bool_decide; [done|].
    cbn. by destruct (processing p !! key).
  - intros _ Hw.
    destruct (get_cases u p) as [|k rest n Hu Hor Hn|k rest Hu Hb Hor]; cbn; [done| |];
      destruct w as [u'|]; cbn in Hw |- *; unfold get_empty in *; cbn.
    + rewrite Hu in Hw. done.
    + by apply drain_waits_active; [apply andb_true_iff in Hw as [? _]|apply insert_non_empty].
    + rewrite Hb in Hw. destruct (urgent p), u'; cbn in *; done.
    + by apply drain_waits_active; [apply andb_true_iff in Hw as [? _]|apply insert_non_empty].
  - unfold Done. by destruct (processing p !! key).
Qed.

(** ** Fairness *)

(** [k] is the [i]-th key of the background lane. *)
Definition at_background (p : priorityQueue) (k : clusterKey) (i : nat) : Prop :=
  background p !! i = Some k.

Lemma remove_element_lookup key l i k :
  NoDup l → l !! i = Some k → k ≠ key → ∃ j, (j ≤ i)%nat ∧ remove_element key l !! j = Some k.
Proof.
  intros Hnd. revert i. induction Hnd as [|x l Hx Hl IH]; intros i Hi Hne; [done|]. cbn.
  case_decide as Hd.
  - subst. destruct i as [|i]; cbn in Hi; [congruence|]. exists i. split; [lia|done].
  - destruct i as [|i]; cbn in Hi; [exists 0%nat; by split|].
    destruct (IH i Hi Hne) as (j & Hj & Hjk). exists (S j). split; [lia|done].
Qed.

(** How many more ordinary dequeues can precede the [i]-th background key. *)
Definition wait_bound (p : priorityQueue) (i : nat) : Z :=
  9 * Z.of_nat i + urgentBurstLimit - burst p.

Definition ordinary_get (op : queue_op) : bool :=
  match op with OpGet u => negb u | _ => false end.

(** One operation moves a waiting background key forward or takes it out of the
    lane, and every ordinary dequeue uses up one unit of the bound. *)
Lemma background_progress op p k i :
  queue_wf p → at_background p k i →
  k ∉ background (queue_run op p) ∨
  ∃ j, at_background (queue_run op p) k j ∧
       wait_bound (queue_run op p) j + (if ordinary_get op then 1 else 0) ≤ wait_bound p i.
Proof.
  intros Hwf Hk. pose proof (queue_wf_burst _ Hwf) as Hburst.
  pose proof (queue_wf_nodup _ Hwf) as Hnd. apply NoDup_app in Hnd as (_ & _ & Hndb).
  unfold at_background, wait_bound in *.
  assert (∀ p', background p' = background p → burst p' = burst p →
    k ∉ background p' ∨ ∃ j, background p' !! j = Some k ∧
      9 * Z.of_nat j + urgentBurstLimit - burst p' + 0 ≤ 9 * Z.of_nat i + urgentBurstLimit - burst p) as Hsame.
  { intros p' -> ->. right. exists i. split; [done|lia]. }
  assert (∀ key p', background p' = background p ++ [key] → burst p' = burst p →
    k ∉ background p' ∨ ∃ j, background p' !! j = Some k ∧
      9 * Z.of_nat j + urgentBurstLimit - burst p' + 0 ≤ 9 * Z.of_nat i + urgentBurstLimit - burst p) as Hsnoc.
  { intros key p' -> ->. right. exists i. split; [by apply lookup_app_l_Some|lia]. }
  destruct op as [key|key|u|key| |]; cbn.
  - unfold promote. destruct (_ || _); [by apply Hsame|].
    destruct (entries p !! key) as [[]|]; cbn; [by apply Hsame| |by apply Hsame].
    destruct (decide (k = key)) as [->|Hne].
    + left. rewrite remove_element_elem by done. naive_solver.
    + destruct (remove_element_lookup key _ _ _ Hndb Hk Hne) as (j & Hj & Hjk).
      right. exists j. split; [done|lia].
  - unfold Add. destruct (shuttingDown p); [by apply Hsame|]. case_bool_decide; [by apply Hsame|].
    cbn. destruct (processing p !! key); [by apply Hsame|]. cbn. unfold push.
    destruct (is_promoted _ key); [by apply Hsame|by eapply Hsnoc].
  - destruct (get_cases u p) as [Hu Hor|k' rest n Hu Hor Hn|k' rest Hu Hb Hor]; cbn.
    + destruct Hor as [->|Hb]; [by apply Hsame|]. by rewrite Hb in Hk.
    + right. exists i. split; [done|]. subst n. destruct u; cbn; [lia|].
      destruct Hor as [|[Hlt|Hb]]; [done| |by rewrite Hb in Hk].
      rewrite (proj2 (Z.ltb_lt _ _) Hlt). lia.
    + subst u. cbn. rewrite Hb in Hk, Hndb. destruct i as [|i]; cbn in Hk.
      * left. simplify_eq. by apply NoDup_cons in Hndb as [? _].
      * right. exists i. split; [done|]. unfold urgentBurstLimit in *. lia.
  - unfold Done. destruct (processing p !! key); [|by apply Hsame]. cbn.
    case_bool_decide; [|by apply Hsame]. unfold push.
    destruct (is_promoted _ key); [by apply Hsame|by eapply Hsnoc].
  - by apply Hsame.
  - by apply Hsame.
Qed.

Lemma queue_runs_cons op ops p : queue_runs (op :: ops) p = queue_runs ops (queue_run op p).
Proof. done. Qed.

Lemma background_served ops p k i :
  queue_wf p → at_background p k i →
  wait_bound p i < Z.of_nat (length (filter (λ op, ordinary_get op = true) ops)) →
  ∃ ops1 ops2, ops = ops1 ++ ops2 ∧ k ∉ background (queue_runs ops1 p).
Proof.
  revert p i. induction ops as [|op ops IH]; intros p i Hwf Hk Hlt.
  { exfalso. pose proof (queue_wf_burst _ Hwf). unfold wait_bound in Hlt. cbn in Hlt. lia. }
  destruct (background_progress op p k i Hwf Hk) as [Hout|(j & Hj & Hle)].
  { exists [op], ops. split; done. }
  destruct (IH (queue_run op p) j) as (ops1 & ops2 & -> & Hout).
  - by apply queue_run_wf.
  - done.
  - rewrite filter_cons in Hlt.
    destruct (ordinary_get op); case_decide; try done; cbn in Hlt; lia.
  - exists (op :: ops1), ops2. split; done.
Qed.

(** ** Accepted work *)

(** The operation that takes [k] out of the dirty set. *)
Definition hands_out (op : queue_op) (p : priorityQueue) (k : clusterKey) : bool :=
  match queue_result op p with Some (GetItem k') => bool_decide (k' = k) | _ => false end.

Lemma dirty_kept op p k :
  k ∈ dirty p → hands_out op p k = false → k ∈ dirty (queue_run op p).
Proof.
  unfold hands_out. destruct op as [key|key|u|key| |]; cbn; try done.
  - unfold promote. destruct (_ || _); [done|]. by destruct (entries p !! key).
  - unfold Add. destruct (shuttingDown p); [done|]. case_bool_decide; [done|]. cbn. intros Hk _.
    destruct (processing p !! key); cbn; [set_solver|]. unfold push.
    destruct (is_promoted _ key); set_solver.
  - destruct (get_cases u p) as [|k' rest n Hu Hor Hn|k' rest Hu Hb Hor]; cbn; [by destruct (shuttingDown p)| |];
      intros Hk Hne%bool_decide_eq_false; set_solver.
  - unfold Done. destruct (processing p !! key); [|done]. cbn. intros Hk _.
    case_bool_decide; [|done]. unfold push. by destruct (is_promoted _ key).
Qed.

(** ** Theorems *)

(** C18: the queue implements the work-queue contract: every operation from every
    reachable queue is a step of the specification, so a key is active at most
    once, an accepted key is handed out (again) until it is done, and an ordinary
    [Get] waits only when every dirty key is active. *)
Theorem queue_refines_workqueue ops op :
  let p := queue_runs ops newPriorityQueue in
  wq_step (queue_abs p) op (queue_result op p) (queue_abs (queue_run op p)).
Proof. apply queue_simulation, queue_runs_wf, newPriorityQueue_wf. Qed.

(** Accepted work is not lost and keeps its priority: an accepted key stays
    dirty until [Get] hands it out, and while it is dirty and not active it is in
    exactly one lane, the urgent one exactly when it was promoted. *)
Theorem accepted_work_kept ops op k :
  let p := queue_runs ops newPriorityQueue in
  k ∈ dirty p →
  (hands_out op p k = false → k ∈ dirty (queue_run op p)) ∧
  (processing p !! k = None →
     NoDup (urgent p ++ background p) ∧
     (k ∈ urgent p ↔ is_promoted p k = true) ∧ (k ∈ background p ↔ is_promoted p k = false)).
Proof.
  intros p Hk. assert (queue_wf p) as Hwf by (apply queue_runs_wf, newPriorityQueue_wf).
  split; [by apply dirty_kept|]. intros Hidle. split; [by apply queue_wf_nodup|].
  rewrite <- (queue_wf_urgent _ Hwf), <- (queue_wf_background _ Hwf).
  destruct (proj2 (queue_wf_dirty _ Hwf k) (conj Hk Hidle)) as [l Hl].
  pose proof (queue_wf_promoted _ Hwf _ _ Hl) as Hp. rewrite Hl.
  destruct l, (is_promoted p k); naive_solver.
Qed.

(** C37: no wake-up is lost: in every reachable state of any number of workers and
    drains, each thread asleep on the condition variable still has to wait, so
    a worker never sleeps while it could dequeue or has to stop. *)
Theorem no_lost_wakeup s w :
  sys_reachable s → w ∈ sys_sleeping s → must_wait (sys_queue s) w = true.
Proof.
  intros Hs. revert w. induction Hs as [|s s' _ IH Hstep]; intros w Hw; [by apply elem_of_nil in Hw|].
  destruct Hstep as [op|w' Hw']; cbn in Hw |- *.
  - destruct (queue_broadcasts op (sys_queue s)) eqn:Hb; [by apply elem_of_nil in Hw|].
    by apply silent_keeps_waiting, IH.
  - apply elem_of_cons in Hw as [->|Hw]; [done|by apply IH].
Qed.

(** C38: background observations are not starved: in any run of queue operations,
    the key at position [i] of the background lane leaves that lane before
    [9 * i + 9] ordinary dequeues have been made, however much urgent work
    arrives. *)
Theorem background_not_starved ops0 ops k i :
  let p := queue_runs ops0 newPriorityQueue in
  background p !! i = Some k →
  9 * Z.of_nat i + 9 ≤ Z.of_nat (length (filter (λ op, ordinary_get op = true) ops)) →
  ∃ ops1 ops2, ops = ops1 ++ ops2 ∧ k ∉ background (queue_runs ops1 p).
Proof.
  intros p Hk Hlen. assert (queue_wf p) as Hwf by (apply queue_runs_wf, newPriorityQueue_wf).
  eapply background_served; [done..|]. pose proof (queue_wf_burst _ Hwf).
  unfold wait_bound, urgentBurstLimit in *. lia.
Qed.

(** ** Concrete runs *)

Definition key_a : clusterKey := ClusterKey "ns" "a".
Definition key_b : clusterKey := ClusterKey "ns" "b".

Lemma accepted_work_kept_witness :
  let p := queue_runs [OpPromote key_a; OpAdd key_a; OpAdd key_b] newPriorityQueue in
  (key_a ∈ urgent p ↔ is_promoted p key_a = true) ∧ urgent p = [key_a].
Proof.
  intros p. split; [|vm_compute; reflexivity].
  apply (accepted_work_kept [OpPromote key_a; OpAdd key_a; OpAdd key_b] OpShutDown key_a).
  - apply (bool_decide_eq_true_1 _). vm_compute; reflexivity.
  - vm_compute; reflexivity.
Defined.

Lemma no_lost_wakeup_witness :
  must_wait (queue_run (OpPromote key_a) newPriorityQueue) (WaitGet true) = true.
Proof.
  apply (no_lost_wakeup (System (queue_run (OpPromote key_a) newPriorityQueue) [WaitGet true])); [|by left].
  eapply sys_next; [eapply sys_next; [apply sys_new|apply (sys_sleep _ (WaitGet true)); reflexivity]|].
  exact (sys_run (System newPriorityQueue [WaitGet true]) (OpPromote key_a)).
Defined.

Lemma background_not_starved_witness :
  ∃ ops1 ops2, replicate 9 (OpGet false) = ops1 ++ ops2 ∧
    key_b ∉ background (queue_runs ops1
      (queue_runs [OpPromote key_a; OpAdd key_a; OpAdd key_b] newPriorityQueue)).
Proof.
  apply (background_not_starved _ _ key_b 0); [vm_compute; reflexivity|vm_compute; discriminate].
Defined.
