(* ===== verification/Config.v ===== *)
(** * Cluster parameters (src/internal/config/cluster.go)

    [ParseParameters] validates the plugin parameters of one Cluster.  Go ranges
    over a map in an unspecified order, so the order is an argument ([MapRange]);
    what is accepted, and the result, are shown not to depend on it.  JSON
    decoding of untrusted text, Unicode lower casing and [net.ParseIP] are
    arguments as well ([TextLibrary]). *)

From Stdlib Require Import Ascii.
From S2P Require Import Prelude Api.

Definition PluginName : string := "connect.cnpg.io".
Definition EnabledAnnotation : string := PluginName +:+ "/enabled".
Definition ParametersAnnotation : string := PluginName +:+ "/parameters".

(** ** What the code uses of the text libraries *)

(** [Decode_endpoints] is [Decode] of a strict JSON decoder into a map of
    endpoints, with whether a second [Decode] then reports [io.EOF]; a [null]
    leaves the nil map.  The parameters returned together with an error are not
    used by any caller.  [Unmarshal_strings] and [Unmarshal_string_map] are
    [json.Unmarshal] into a string slice and into a string map. *)
Class TextLibrary := {
  Decode_endpoints : string → option (option (gmap string Endpoint) * bool);
  Unmarshal_strings : string → option (list string);
  Unmarshal_string_map : string → option (gmap string string);
  ToLower : string → string;
  ParseIP : string → bool;
}.

(** The order in which a [for range] visits a map: every entry once. *)
Class MapRange := {
  range {A} : gmap string A → list (string * A);
  range_perm {A} (m : gmap string A) : range m ≡ₚ map_to_list m;
}.

(** [strings.ContainsAny] for a set of ASCII characters, and
    [strings.Contains] for one character. *)
Definition has_byte (s : string) (c : ascii) : bool := Contains (String.list_ascii_of_string s) c.
Definition ContainsAny (s chars : string) : bool :=
  existsb (has_byte s) (String.list_ascii_of_string chars).

Definition control_chars : string := String "009"%char (String "013"%char (String "010"%char EmptyString)).

(** [net.JoinHostPort host (strconv.Itoa port)]. *)
Definition JoinHostPort (host : string) (port : Z) : string :=
  if has_byte host ":"%char then "[" +:+ host +:+ "]:" +:+ pretty port
  else host +:+ ":" +:+ pretty port.

(** ** Parameters *)

(** A nil map is distinguished from an empty one: [reflect.DeepEqual] on
    parameters does. *)
Record Parameters := {
  ExternalEndpoints : option (gmap string Endpoint);
  ServerName : string;
}.

#[export] Instance Parameters_eq_dec : EqDecision Parameters.
Proof. solve_decision. Defined.

(** The entries of a possibly nil map. *)
Definition entries_of {A} (m : option (gmap string A)) : gmap string A := default ∅ m.

(** The zero value of the Go struct. *)
Definition no_parameters : Parameters := {| ExternalEndpoints := None; ServerName := "" |}.

Inductive config_error :=
  | ErrDecodeEndpoints
  | ErrTrailingEndpoints
  | ErrServerName
  | ErrUnknownParameter (key : string)
  | ErrEndpoint (name : string)
  | ErrEndpointHostPort (name : string)
  | ErrEndpointServerName (name : string)
  | ErrSharedAddress (previous name : string).

Section config.
Context `{TextLibrary, MapRange}.

(** The body of the first loop: one parameter. *)
Definition parse_parameter (p : Parameters) (kv : string * string) : Parameters * option config_error :=
  let '(key, value) := kv in
  if bool_decide (key = "externalEndpoints") then
    match Decode_endpoints value with
    | None => (p, Some ErrDecodeEndpoints)
    | Some (endpoints, eof) =>
        let p := {| ExternalEndpoints := endpoints; ServerName := ServerName p |} in
        if eof then (p, None) else (p, Some ErrTrailingEndpoints)
    end
  else if bool_decide (key = "serverName") then
    if bool_decide (value = "") || ContainsAny value ("/ \?#@:" +:+ control_chars)
    then (p, Some ErrServerName)
    else ({| ExternalEndpoints := ExternalEndpoints p; ServerName := value |}, None)
  else (p, Some (ErrUnknownParameter key)).

Fixpoint parse_loop (p : Parameters) (l : list (string * string)) : Parameters * option config_error :=
  match l with
  | [] => (p, None)
  | kv :: l =>
      match parse_parameter p kv with
      | (p, Some err) => (p, Some err)
      | (p, None) => parse_loop p l
      end
  end.

(** The address of an endpoint, as the duplicate check compares it. *)
Definition endpoint_address (e : Endpoint) : string :=
  JoinHostPort (ToLower (endpoint_Host e)) (endpoint_Port e).

(** The guards of the second loop on one endpoint. *)
Definition check_endpoint (name : string) (e : Endpoint) : option config_error :=
  if bool_decide (name = "") || bool_decide (endpoint_Host e = "") || (endpoint_Port e =? 0)
     || ContainsAny (endpoint_Host e) ("/ \?#@" +:+ control_chars)
  then Some (ErrEndpoint name)
  else if has_byte (endpoint_Host e) ":"%char && negb (ParseIP (endpoint_Host e))
  then Some (ErrEndpointHostPort name)
  else if ContainsAny (endpoint_ServerName e) ("/ \?#@:" +:+ control_chars)
  then Some (ErrEndpointServerName name)
  else None.

Fixpoint check_loop (addresses : gmap string string) (l : list (string * Endpoint)) : option config_error :=
  match l with
  | [] => None
  | (name, e) :: l =>
      match check_endpoint name e with
      | Some err => Some err
      | None =>
          match addresses !! endpoint_address e with
          | Some previous => Some (ErrSharedAddress previous name)
          | None => check_loop (<[endpoint_address e := name]> addresses) l
          end
      end
  end.

Definition ParseParameters (values : gmap string string) : Parameters * option config_error :=
  match parse_loop {| ExternalEndpoints := Some ∅; ServerName := "" |} (range values) with
  | (p, Some err) => (p, Some err)
  | (p, None) => (p, check_loop ∅ (range (entries_of (ExternalEndpoints p))))
  end.
End config.
