(* ===== verification/ConfigProps.v ===== *)
(** * Correctness of the parameter parser

    The parser accepts exactly the parameter maps of [accepted], with exactly one
    result, whatever the order Go visits the maps in. *)

From Stdlib Require Import Ascii.
From S2P Require Import Prelude Api Config.

Section parser.
Context `{TextLibrary}.

(** ** Specification *)

(** An endpoint that identifies one instance: a usable host (a literal address
    when it has a colon), a nonzero port and a server name that is a DNS name. *)
Record endpoint_valid (name : string) (e : Endpoint) : Prop := {
  endpoint_named : name ≠ "";
  endpoint_host : endpoint_Host e ≠ "";
  endpoint_port : endpoint_Port e ≠ 0;
  endpoint_host_chars : ContainsAny (endpoint_Host e) ("/ \?#@" +:+ control_chars) = false;
  endpoint_host_colon : has_byte (endpoint_Host e) ":"%char = true → ParseIP (endpoint_Host e) = true;
  endpoint_server_chars : ContainsAny (endpoint_ServerName e) ("/ \?#@:" +:+ control_chars) = false;
}.

Record accepted (values : gmap string string) (p : Parameters) : Prop := {
  accepted_keys : ∀ k, is_Some (values !! k) → k = "externalEndpoints" ∨ k = "serverName";
  accepted_endpoints :
    match values !! "externalEndpoints" with
    | Some v => Decode_endpoints v = Some (ExternalEndpoints p, true)
    | None => ExternalEndpoints p = Some ∅
    end;
  accepted_server :
    match values !! "serverName" with
    | Some v => ServerName p = v ∧ v ≠ "" ∧ ContainsAny v ("/ \?#@:" +:+ control_chars) = false
    | None => ServerName p = ""
    end;
  accepted_valid : map_Forall endpoint_valid (entries_of (ExternalEndpoints p));
  accepted_addresses : ∀ n1 n2 e1 e2,
    entries_of (ExternalEndpoints p) !! n1 = Some e1 →
    entries_of (ExternalEndpoints p) !! n2 = Some e2 →
    endpoint_address e1 = endpoint_address e2 → n1 = n2;
}.

(** ** The loops *)

Lemma check_endpoint_spec name e : check_endpoint name e = None ↔ endpoint_valid name e.
Proof.
  unfold check_endpoint. split.
  - intros Hc. destruct (_ || _ || _ || _) eqn:E1; [done|].
    destruct (_ && _) eqn:E2; [done|]. destruct (ContainsAny (endpoint_ServerName e) _) eqn:E3; [done|].
    boolify. split; try done; [by apply Z.eqb_neq|].
    intros Hcolon. rewrite Hcolon in E2. by destruct (ParseIP _).
  - intros [Hn Hh Hp Hc Hip Hs]. rewrite !bool_decide_eq_false_2 by done.
    rewrite (proj2 (Z.eqb_neq _ _) Hp), Hc, Hs. cbn.
    destruct (has_byte _ _); [by rewrite Hip|done].
Qed.

Lemma check_loop_spec addresses l :
  check_loop addresses l = None ↔
  (∀ n e, (n, e) ∈ l → endpoint_valid n e) ∧ NoDup (endpoint_address ∘ snd <$> l)
  ∧ ∀ n e, (n, e) ∈ l → addresses !! endpoint_address e = None.
Proof.
  revert addresses. induction l as [|[n e] l IH]; intros addresses.
  { split; [|done]. intros _. split_and!; [|constructor|]; intros ?? []%elem_of_nil. }
  cbn. destruct (check_endpoint n e) eqn:Hc.
  { split; [done|]. intros (Hv & _). by rewrite (proj2 (check_endpoint_spec n e)) in Hc by (apply Hv; left). }
  apply check_endpoint_spec in Hc. destruct (addresses !! endpoint_address e) eqn:Ha.
  { split; [done|]. intros (_ & _ & Hf). by rewrite (Hf n e) in Ha by left. }
  rewrite IH, NoDup_cons. split.
  - intros (Hv & Hnd & Hf). split_and!.
    + intros n' e' [[= -> ->]|Hin]%elem_of_cons; auto.
    + intros ([n' e'] & He & Hin)%list_elem_of_fmap. cbn in He. specialize (Hf _ _ Hin).
      by rewrite He, lookup_insert_eq in Hf.
    + done.
    + intros n' e' [[= -> ->]|Hin]%elem_of_cons; [done|].
      specialize (Hf _ _ Hin). apply lookup_insert_None in Hf. tauto.
  - intros (Hv & [Hnin Hnd] & Hf). split_and!; [|done|].
    + intros n' e' Hin. apply Hv. by right.
    + intros n' e' Hin. rewrite lookup_insert_ne; [apply (Hf n'); by right|].
      intros He. apply Hnin. rewrite He. by apply (list_elem_of_fmap_2 (endpoint_address ∘ snd) l (n', e')).
Qed.

(** What the first loop requires of its remaining entries, from parameters [p]. *)
Definition loop_accepts (p : Parameters) (m : gmap string string) (p' : Parameters) : Prop :=
  (∀ k, is_Some (m !! k) → k = "externalEndpoints" ∨ k = "serverName")
  ∧ match m !! "externalEndpoints" with
    | Some v => Decode_endpoints v = Some (ExternalEndpoints p', true)
    | None => ExternalEndpoints p' = ExternalEndpoints p
    end
  ∧ match m !! "serverName" with
    | Some v => ServerName p' = v ∧ v ≠ "" ∧ ContainsAny v ("/ \?#@:" +:+ control_chars) = false
    | None => ServerName p' = ServerName p
    end.

Lemma loop_accepts_nil p p' : loop_accepts p ∅ p' ↔ p' = p.
Proof.
  unfold loop_accepts. rewrite !lookup_empty. split.
  - intros (_ & He & Hs). destruct p, p'. cbn in *. congruence.
  - intros ->. split_and!; [|done..]. intros k. by rewrite lookup_empty, is_Some_alt.
Qed.

Lemma loop_accepts_known p (m : gmap string string) p' k v :
  m !! k = None →
  loop_accepts p (<[k := v]> m) p' →
  (k = "externalEndpoints" ∨ k = "serverName") ∧ ∀ k', is_Some (m !! k') → k' = "externalEndpoints" ∨ k' = "serverName".
Proof.
  intros Hk (Hkeys & _). split; [apply Hkeys; by rewrite lookup_insert_eq|].
  intros k' [v' Hk']. apply Hkeys. rewrite lookup_insert_ne by congruence. by exists v'.
Qed.

Lemma known_insert (m : gmap string string) k v :
  (k = "externalEndpoints" ∨ k = "serverName") →
  (∀ k', is_Some (m !! k') → k' = "externalEndpoints" ∨ k' = "serverName") →
  ∀ k', is_Some (<[k := v]> m !! k') → k' = "externalEndpoints" ∨ k' = "serverName".
Proof.
  intros Hk Hm k'. destruct (decide (k = k')) as [->|]; [done|]. rewrite lookup_insert_ne by done. apply Hm.
Qed.

Lemma parse_step_spec p (m : gmap string string) p' k v :
  m !! k = None →
  loop_accepts p (<[k := v]> m) p' ↔ ∃ p1, parse_parameter p (k, v) = (p1, None) ∧ loop_accepts p1 m p'.
Proof.
  intros Hk. unfold parse_parameter. split.
  - intros Hacc. destruct (loop_accepts_known _ _ _ _ _ Hk Hacc) as [[->| ->] Hkeys]; cbn;
      destruct Hacc as (_ & He & Hs).
    + rewrite lookup_insert_eq in He. rewrite lookup_insert_ne in Hs by done. rewrite He.
      eexists. split; [done|]. by split_and!; [|rewrite Hk|].
    + rewrite lookup_insert_eq in Hs. rewrite lookup_insert_ne in He by done. destruct Hs as (<- & Hne & Hc).
      rewrite Hc, (bool_decide_eq_true_2 ("serverName" = "serverName")),
        (bool_decide_eq_false_2 (ServerName p' = "")) by done. cbn.
      eexists. split; [done|]. by split_and!; [| |rewrite Hk].
  - intros (p1 & Hp & Hkeys & He & Hs). revert Hp. case_bool_decide as Hk1; [|case_bool_decide as Hk2; [|done]].
    + subst. destruct (Decode_endpoints v) as [[endpoints []]|] eqn:Hd; intros [= <-]. rewrite Hk in He.
      split_and!; [apply known_insert; auto| |]; rewrite ?lookup_insert_eq, ?lookup_insert_ne by done; [|done].
      by rewrite Hd, He.
    + subst. destruct (_ || _) eqn:Hbad; intros [= <-]. boolify. rewrite Hk in Hs.
      split_and!; [apply known_insert; auto| |]; rewrite ?lookup_insert_eq, ?lookup_insert_ne by done; done.
Qed.

Lemma parse_loop_spec p l p' :
  NoDup l.*1 → parse_loop p l = (p', None) ↔ loop_accepts p (list_to_map l) p'.
Proof.
  revert p. induction l as [|[k v] l IH]; intros p Hnd.
  { cbn. rewrite loop_accepts_nil. naive_solver. }
  cbn in Hnd. apply NoDup_cons in Hnd as [Hk Hnd]. cbn [list_to_map foldr].
  rewrite parse_step_spec by by apply not_elem_of_list_to_map_1.
  cbn [parse_loop fst snd]. destruct (parse_parameter p (k, v)) as [p1 [err|]].
  - naive_solver.
  - rewrite IH by done. naive_solver.
Qed.

(** ** Map order *)

Context (order : MapRange).

Lemma range_elem {A} (m : gmap string A) k x : (k, x) ∈ range m ↔ m !! k = Some x.
Proof. by rewrite range_perm, elem_of_map_to_list. Qed.

Lemma range_NoDup {A} (m : gmap string A) : NoDup (range m).*1.
Proof. rewrite range_perm. apply NoDup_fst_map_to_list. Qed.

Lemma range_to_map {A} (m : gmap string A) : list_to_map (range m) = m.
Proof.
  rewrite <-(list_to_map_to_list m) at 2. apply list_to_map_proper; [|apply range_perm].
  apply range_NoDup.
Qed.

(** Distinct addresses in the list are distinct addresses in the map. *)
Lemma addresses_distinct (m : gmap string Endpoint) :
  NoDup (endpoint_address ∘ snd <$> range m) ↔
  ∀ n1 n2 e1 e2, m !! n1 = Some e1 → m !! n2 = Some e2 → endpoint_address e1 = endpoint_address e2 → n1 = n2.
Proof.
  split.
  - intros Hnd n1 n2 e1 e2 H1 H2 He. apply range_elem, list_elem_of_lookup in H1 as [i Hi].
    apply range_elem, list_elem_of_lookup in H2 as [j Hj].
    assert (i = j) as ->; [|congruence].
    eapply (NoDup_lookup _ i j (endpoint_address e1) Hnd); rewrite list_lookup_fmap, ?Hi, ?Hj; cbn; congruence.
  - intros Hinj. apply NoDup_fmap_2_strong.
    + intros [n1 e1] [n2 e2] H1%range_elem H2%range_elem He. cbn in He.
      pose proof (Hinj _ _ _ _ H1 H2 He). subst. congruence.
    + eapply NoDup_fmap_1, range_NoDup.
Qed.

Lemma ParseParameters_spec values p : ParseParameters values = (p, None) ↔ accepted values p.
Proof.
  unfold ParseParameters.
  pose proof (λ p', parse_loop_spec {| ExternalEndpoints := Some ∅; ServerName := "" |} (range values) p'
    (range_NoDup values)) as Hloop.
  rewrite range_to_map in Hloop.
  destruct (parse_loop _ _) as [p1 [err|]].
  { split; [done|]. intros [Hk He Hs _ _]. by destruct (proj2 (Hloop p)). }
  rewrite pair_equal_spec, check_loop_spec, addresses_distinct. split.
  - intros [-> (Hv & Ha & _)]. destruct (proj1 (Hloop p) eq_refl) as (Hk & He & Hs). split; try done.
    intros n e Hn. by apply Hv, range_elem.
  - intros [Hk He Hs Hv Ha]. assert (p1 = p) as ->; [|split_and!; try done].
    { assert (Hp : (p1, None) = (p, None)) by (apply Hloop; done). by inversion Hp. }
    intros n e Hn%range_elem. by apply Hv.
Qed.
End parser.

(** The parser accepts a parameter map exactly when its keys are known, the
    external endpoints are one JSON object of valid endpoints with distinct
    addresses and the server name is a DNS name, and it then returns exactly
    these; neither depends on the order in which Go visits the maps. *)
Theorem parse_parameters_spec `{TextLibrary} (order : MapRange) values p :
  ParseParameters values = (p, None) ↔ accepted values p.
Proof. apply ParseParameters_spec. Qed.

(** The outcome of parsing is the same for every visiting order: the same
    parameter maps are rejected and the accepted ones give equal parameters. *)
Theorem parse_parameters_deterministic `{TextLibrary} (order1 order2 : MapRange) values :
  let r1 := @ParseParameters _ order1 values in
  let r2 := @ParseParameters _ order2 values in
  (r1.2 = None ↔ r2.2 = None) ∧ (r1.2 = None → r1 = r2).
Proof.
  assert (∀ o1 o2 : MapRange, (@ParseParameters _ o1 values).2 = None →
    @ParseParameters _ o1 values = @ParseParameters _ o2 values) as Hone.
  { intros o1 o2 Herr. destruct (@ParseParameters _ o1 values) as [p err] eqn:E. cbn in Herr. subst.
    symmetry. by apply ParseParameters_spec, (ParseParameters_spec o1). }
  cbn. split; [|apply Hone]. split; intros Herr.
  - by rewrite <-(Hone order1 order2).
  - by rewrite <-(Hone order2 order1).
Qed.

(** ** A concrete text library

    It decodes two fixed texts; the rest is rejected. *)

Definition example_endpoint : Endpoint :=
  {| endpoint_Host := "db-1.example"; endpoint_Port := 5432; endpoint_ServerName := "" |}.

#[local] Instance fixed_text : TextLibrary := {|
  Decode_endpoints v :=
    if bool_decide (v = "one") then Some (Some {["db-1" := example_endpoint]}, true)
    else if bool_decide (v = "two") then
      Some (Some (<["db-2" := example_endpoint]> {["db-1" := example_endpoint]}), true)
    else None;
  Unmarshal_strings v := None;
  Unmarshal_string_map v := None;
  ToLower v := v;
  ParseIP v := false;
|}.

#[local] Instance list_order : MapRange.
Proof. exists (λ A, map_to_list); done. Defined.

Example parse_one :
  ParseParameters {["externalEndpoints" := "one"]}
  = ({| ExternalEndpoints := Some {["db-1" := example_endpoint]}; ServerName := "" |}, None).
Proof. reflexivity. Qed.

Example parse_two :
  (ParseParameters {["externalEndpoints" := "two"]}).2 = Some (ErrSharedAddress "db-1" "db-2").
Proof. vm_compute. reflexivity. Qed.

#[local] Instance reverse_order : MapRange.
Proof. exists (λ A m, reverse (map_to_list m)). intros. apply reverse_Permutation. Defined.

Lemma parse_parameters_spec_witness :
  accepted {["externalEndpoints" := "one"]}
    {| ExternalEndpoints := Some {["db-1" := example_endpoint]}; ServerName := "" |}.
Proof. apply (parse_parameters_spec list_order). reflexivity. Defined.

Lemma parse_parameters_deterministic_witness :
  let values : gmap string string := <["serverName" := "db.example"]> {["externalEndpoints" := "one"]} in
  @ParseParameters _ list_order values = @ParseParameters _ reverse_order values.
Proof. apply parse_parameters_deterministic. vm_compute. reflexivity. Defined.
