(* ===== verification/Kube.v ===== *)
(** * Kubernetes objects as the observer reads them

    Clusters arrive as unstructured JSON objects and Pods as typed objects.  The
    accessors of the unstructured object are an interface ([Unstructured]); the
    Pod is the record of the fields that discovery reads. *)

From S2P Require Import Prelude Api.

(** ** Unstructured values *)

(** The dynamic types that JSON decoding produces. *)
Inductive any :=
  | Nil
  | Bool (b : bool)
  | Int (z : Z)
  | Float (bits : Z) (* the bit pattern of a float64 *)
  | Str (s : string)
  | Slice (l : list any)
  | Map (m : gmap string any).

Abbreviation object := (gmap string any).

(** [reflect.DeepEqual] on these values is structural equality. *)
#[export] Instance any_eq_dec : EqDecision any.
Proof.
  refine (fix go (v w : any) : Decision (v = w) :=
    let _ : EqDecision any := go in
    match v, w with
    | Nil, Nil => left eq_refl
    | Bool a, Bool b => cast_if (decide (a = b))
    | Int a, Int b | Float a, Float b => cast_if (decide (a = b))
    | Str a, Str b => cast_if (decide (a = b))
    | Slice a, Slice b => cast_if (decide (a = b))
    | Map a, Map b => cast_if (decide (a = b))
    | _, _ => right _
    end); abstract congruence.
Defined.

(** [unstructured.Unstructured] accessors. A nested accessor returns the value,
    whether it was found, and whether a value on the path has the wrong type;
    without a value it returns the zero value. *)
Class Unstructured := {
  GetNamespace : object → string;
  GetName : object → string;
  GetUID : object → string;
  GetAnnotations : object → gmap string string;
  GetDeletionTimestamp : object → option time;
  NestedString : object → list string → string * bool * bool;
  NestedBool : object → list string → bool * bool * bool;
  NestedSlice : object → list string → list any * bool * bool;
  NestedStringMap : object → list string → gmap string string * bool * bool;
  NestedFieldNoCopy : object → list string → option any;
}.

(** Reading a Go map with a missing key gives the zero value. *)
Definition map_value (m : gmap string string) (k : string) : string := default "" (m !! k).

(** ** Pods *)

Record OwnerReference := {
  owner_APIVersion : string;
  owner_Kind : string;
  owner_Name : string;
  owner_UID : string;
  owner_Controller : option bool;
  owner_BlockOwnerDeletion : option bool;
}.

Record Container := {
  container_Name : string;
  container_Command : list string;
  container_Args : list string;
}.

Record PodCondition := {
  condition_Type : string;
  condition_Status : string;
}.

Record ContainerStatus := {
  status_Name : string;
  status_ContainerID : string;
}.

Record Pod := {
  pod_Namespace : string;
  pod_Name : string;
  pod_UID : string;
  pod_DeletionTimestamp : option time;
  pod_Labels : gmap string string;
  pod_OwnerReferences : list OwnerReference;
  pod_NodeName : string;
  pod_Containers : list Container;
  pod_Phase : string;
  pod_PodIP : string;
  pod_Conditions : list PodCondition;
  pod_ContainerStatuses : list ContainerStatus;
}.

#[export] Instance OwnerReference_eq_dec : EqDecision OwnerReference.
Proof. solve_decision. Defined.
#[export] Instance Container_eq_dec : EqDecision Container.
Proof. solve_decision. Defined.
#[export] Instance PodCondition_eq_dec : EqDecision PodCondition.
Proof. solve_decision. Defined.
#[export] Instance ContainerStatus_eq_dec : EqDecision ContainerStatus.
Proof. solve_decision. Defined.
#[export] Instance Pod_eq_dec : EqDecision Pod.
Proof. solve_decision. Defined.

(** ** What the accessors document

    A nested accessor follows the path through maps.  A missing field or a nil on
    the way is not found; any other value on the way, or a value of the wrong type
    at its end, is an error. *)

Inductive field := FieldMissing | FieldError | FieldValue (v : any).

Fixpoint field_at (v : any) (path : list string) : field :=
  match path with
  | [] => FieldValue v
  | name :: path =>
      match v with
      | Nil => FieldMissing
      | Map m => match m !! name with Some v => field_at v path | None => FieldMissing end
      | _ => FieldError
      end
  end.

Definition nested_as {A} (zero : A) (f : any → option A) (o : object) (path : list string) : A * bool * bool :=
  match field_at (Map o) path with
  | FieldMissing => (zero, false, false)
  | FieldError => (zero, false, true)
  | FieldValue v => match f v with Some x => (x, true, false) | None => (zero, false, true) end
  end.

Definition nested (o : object) (path : list string) : option any :=
  match field_at (Map o) path with FieldValue v => Some v | _ => None end.

Definition as_string (v : any) : option string := match v with Str s => Some s | _ => None end.
Definition as_bool (v : any) : option bool := match v with Bool b => Some b | _ => None end.
Definition as_slice (v : any) : option (list any) := match v with Slice l => Some l | _ => None end.

(** A map of strings; a value of another type is an error. *)
Definition as_string_map (v : any) : option (gmap string string) :=
  match v with
  | Map m => if bool_decide (map_Forall (λ _ v, as_string v ≠ None) m) then Some (omap as_string m) else None
  | _ => None
  end.

Definition get_string (o : object) (path : list string) : string := (nested_as "" as_string o path).1.1.

Class UnstructuredLaws `{Unstructured} : Prop := {
  GetNamespace_law o : GetNamespace o = get_string o ["metadata"; "namespace"];
  GetName_law o : GetName o = get_string o ["metadata"; "name"];
  GetUID_law o : GetUID o = get_string o ["metadata"; "uid"];
  GetAnnotations_law o : GetAnnotations o = (nested_as ∅ as_string_map o ["metadata"; "annotations"]).1.1;
  GetDeletionTimestamp_law o o' :
    field_at (Map o) ["metadata"; "deletionTimestamp"] = field_at (Map o') ["metadata"; "deletionTimestamp"] →
    GetDeletionTimestamp o = GetDeletionTimestamp o';
  NestedString_law o path : NestedString o path = nested_as "" as_string o path;
  NestedBool_law o path : NestedBool o path = nested_as false as_bool o path;
  NestedSlice_law o path : NestedSlice o path = nested_as [] as_slice o path;
  NestedStringMap_law o path : NestedStringMap o path = nested_as ∅ as_string_map o path;
  NestedFieldNoCopy_law o path : NestedFieldNoCopy o path = nested o path;
}.

(** ** A concrete accessor, used to evaluate examples; its objects are not being
    deleted. *)

Definition plain_access : Unstructured := {|
  GetNamespace o := get_string o ["metadata"; "namespace"];
  GetName o := get_string o ["metadata"; "name"];
  GetUID o := get_string o ["metadata"; "uid"];
  GetAnnotations o := (nested_as ∅ as_string_map o ["metadata"; "annotations"]).1.1;
  GetDeletionTimestamp o := None;
  NestedString := nested_as "" as_string;
  NestedBool := nested_as false as_bool;
  NestedSlice := nested_as [] as_slice;
  NestedStringMap := nested_as ∅ as_string_map;
  NestedFieldNoCopy := nested;
|}.

Lemma plain_access_laws : @UnstructuredLaws plain_access.
Proof. by split. Qed.
