(* ===== verification/Topology.v ===== *)
(** * Topology (src/internal/observer/topology.go, status.go)

    How one collection becomes a snapshot: the Pods of a Cluster, the status each
    instance manager reported and the Cluster's own metadata.  [results[i]] out
    of range panics in Go: [buildSnapshot] returns [None] there. *)

From S2P Require Import Prelude Api Config Kube.

(** A non-nil Go error. *)
Inductive error :=
  | ErrPodNotReady
  | ErrMemberChanged
  | ErrProbe (message : string).

(** ** Instance status (status.go) *)

Record replicationStatus := {
  ApplicationName : string;
  State_ : string;
  SyncState : string;
}.

Record instanceStatus := {
  IsPrimary : option bool; (* *bool *)
  SystemID : string;
  Timeline : Z; (* int *)
  ReplayLSN : string;
  ReplayPaused : bool;
  WalReceiverActive : bool;
  Rewinding : bool;
  Unavailable : bool;
  Replication : list replicationStatus;
}.

Definition no_status : instanceStatus := {|
  IsPrimary := None; SystemID := ""; Timeline := 0; ReplayLSN := ""; ReplayPaused := false;
  WalReceiverActive := false; Rewinding := false; Unavailable := false; Replication := [];
|}.

Record statusResult := {
  result_status : instanceStatus;
  result_err : option error;
}.

#[export] Instance error_eq_dec : EqDecision error.
Proof. solve_decision. Defined.
#[export] Instance replicationStatus_eq_dec : EqDecision replicationStatus.
Proof. solve_decision. Defined.
#[export] Instance instanceStatus_eq_dec : EqDecision instanceStatus.
Proof. solve_decision. Defined.
#[export] Instance statusResult_eq_dec : EqDecision statusResult.
Proof. solve_decision. Defined.

Definition statusScheme (pod : Pod) : string :=
  if existsb (λ c, bool_decide (container_Name c = "postgres")
                   && (Contains (container_Command c) "--status-port-tls"
                       || Contains (container_Args c) "--status-port-tls")) (pod_Containers pod)
  then "https" else "http".

(** ** Pods *)

Fixpoint pod_condition_ready (l : list PodCondition) : bool :=
  match l with
  | [] => false
  | c :: l =>
      if bool_decide (condition_Type c = "Ready") then bool_decide (condition_Status c = "True")
      else pod_condition_ready l
  end.

Definition podReady (pod : Pod) : bool :=
  if bool_decide (is_Some (pod_DeletionTimestamp pod)) || negb (bool_decide (pod_Phase pod = "Running"))
     || bool_decide (pod_PodIP pod = "")
  then false
  else pod_condition_ready (pod_Conditions pod).

Section topology.
Context `{TextLibrary, MapRange, Unstructured}.

Definition clusterRef (cluster : object) : ClusterRef := {|
  cluster_Namespace := GetNamespace cluster;
  cluster_Name := GetName cluster;
  cluster_UID := GetUID cluster;
|}.

(** [currentPrimary] and [targetPrimary] of the status. *)
Definition primaryNames (cluster : object) : string * string :=
  let '(current, _, _) := NestedString cluster ["status"; "currentPrimary"] in
  let '(target, _, _) := NestedString cluster ["status"; "targetPrimary"] in
  (current, target).

Definition owned_by (cluster : object) (owner : OwnerReference) : bool :=
  bool_decide (owner_Kind owner = "Cluster") && bool_decide (owner_UID owner = GetUID cluster)
  && bool_decide (owner_APIVersion owner = "postgresql.cnpg.io/v1").

(** [result[i].Name < result[j].Name]. *)
Definition pod_less (a b : Pod) : bool := pair_less (pod_Name a, "") (pod_Name b, "").

Definition ownedPods (cluster : object) (items : list Pod) : list Pod :=
  sort_Slice pod_less (filter (λ pod, existsb (owned_by cluster) (pod_OwnerReferences pod) = true) items).

(** ** Parameters of a Cluster *)

Inductive parameters_error :=
  | ErrPluginsType
  | ErrEnabledType
  | ErrParametersType
  | ErrParametersAnnotation
  | ErrParameters (err : config_error).

(** [value.(map[string]any)] with [plugin["name"] == config.PluginName]. *)
Definition native_plugin (value : any) : option object :=
  match value with
  | Map plugin =>
      match plugin !! "name" with
      | Some (Str name) => if bool_decide (name = PluginName) then Some plugin else None
      | _ => None
      end
  | _ => None
  end.

Definition parsed_parameters (values : gmap string string) : bool * Parameters * option parameters_error :=
  let '(parsed, err) := ParseParameters values in (true, parsed, ErrParameters <$> err).

(** The body of the loop for the first matching plugin entry. *)
Definition plugin_parameters (plugin : object) : bool * Parameters * option parameters_error :=
  let '(enabled, found, bad) := NestedBool plugin ["enabled"] in
  if bad then (true, no_parameters, Some ErrEnabledType)
  else if found && negb enabled then (false, no_parameters, None)
  else
    let '(values, _, bad) := NestedStringMap plugin ["parameters"] in
    if bad then (true, no_parameters, Some ErrParametersType) else parsed_parameters values.

(** Without a matching plugin entry, the annotation supplies the parameters. *)
Definition annotation_parameters (cluster : object) : bool * Parameters * option parameters_error :=
  let raw := map_value (GetAnnotations cluster) ParametersAnnotation in
  if bool_decide (raw = "") then parsed_parameters ∅
  else
    match Unmarshal_string_map raw with
    | None => (true, no_parameters, Some ErrParametersAnnotation)
    | Some values => parsed_parameters values
    end.

Fixpoint find_plugin (plugins : list any) : option object :=
  match plugins with
  | [] => None
  | value :: plugins =>
      match native_plugin value with
      | Some plugin => Some plugin
      | None => find_plugin plugins
      end
  end.

(** Whether the Cluster is observed, its parameters, and an error. *)
Definition parameters (cluster : object) : bool * Parameters * option parameters_error :=
  if bool_decide (map_value (GetAnnotations cluster) EnabledAnnotation = "false")
  then (false, no_parameters, None)
  else
    let '(plugins, _, bad) := NestedSlice cluster ["spec"; "plugins"] in
    if bad then (false, no_parameters, Some ErrPluginsType)
    else
      match find_plugin plugins with
      | Some plugin => plugin_parameters plugin
      | None => annotation_parameters cluster
      end.

(** ** Snapshots *)

Definition unavailable (cluster : object) (at_ : time) (ttl : duration) (reason : string) : Snapshot := {|
  snapshot_APIVersion := APIVersion;
  snapshot_Cluster := clusterRef cluster;
  snapshot_Revision := "";
  snapshot_ObservedAt := at_;
  snapshot_ValidUntil := at_ + ttl;
  snapshot_Available := false;
  snapshot_Reason := reason;
  snapshot_PrimaryID := "";
  snapshot_Transitioning := false;
  snapshot_Members := [];
  snapshot_Connection := {| connection_Database := ""; connection_ServerCAPEM := "" |};
|}.

Definition transitioning (cluster : object) : bool :=
  let '(current, target) := primaryNames cluster in
  negb (bool_decide (current = target)) || bool_decide (current = "").

(** The name the servers' certificates are verified against. *)
Definition cluster_server_name (cluster : object) (params : Parameters) : string :=
  if bool_decide (ServerName params = "")
  then GetName cluster +:+ "-rw." +:+ GetNamespace cluster +:+ ".svc"
  else ServerName params.

Definition pod_endpoints (params : Parameters) (serverName : string) (pod : Pod) : gmap string Endpoint :=
  let endpoints : gmap string Endpoint :=
    if bool_decide (pod_PodIP pod = "") then ∅
    else {["internal" := {| endpoint_Host := pod_PodIP pod; endpoint_Port := 5432;
                            endpoint_ServerName := serverName |}]} in
  match entries_of (ExternalEndpoints params) !! pod_Name pod with
  | Some e =>
      <["external" := {| endpoint_Host := endpoint_Host e; endpoint_Port := endpoint_Port e;
          endpoint_ServerName :=
            if bool_decide (endpoint_ServerName e = "") then serverName else endpoint_ServerName e |}]>
        endpoints
  | None => endpoints
  end.

(** The member of a Pod with the fields the status decides. *)
Definition pod_member (params : Parameters) (serverName : string) (pod : Pod)
    (role : string) (reason : string) (timeline : Z) (replayLSN : string) : Member := {|
  member_ID := pod_UID pod;
  member_Name := pod_Name pod;
  member_Role := role;
  member_SyncState := "unknown";
  member_Ready := false;
  member_Reason := reason;
  member_Endpoints := pod_endpoints params serverName pod;
  member_Node := pod_NodeName pod;
  member_Zone := map_value (pod_Labels pod) "topology.kubernetes.io/zone";
  member_Region := map_value (pod_Labels pod) "topology.kubernetes.io/region";
  member_Timeline := timeline;
  member_ReplayLSN := replayLSN;
|}.

(** The variables of the first loop; a [primaryIndex] of -1 is [None]. *)
Record scan := {
  scan_members : list Member;
  scan_primaryIndex : option nat;
  scan_primaryCount : Z; (* int *)
}.

Definition is_fenced (fenced : list string) (pod : Pod) : bool :=
  Contains fenced "*" || Contains fenced (pod_Name pod).

Definition add_member (m : Member) (acc : scan) : scan := {|
  scan_members := scan_members acc ++ [m];
  scan_primaryIndex := scan_primaryIndex acc;
  scan_primaryCount := scan_primaryCount acc;
|}.

(** The body of the first loop. *)
Definition scan_pod (cluster : object) (params : Parameters) (fenced : list string)
    (i : nat) (pod : Pod) (r : statusResult) (acc : scan) : scan :=
  let m := pod_member params (cluster_server_name cluster params) pod in
  let st := result_status r in
  if is_fenced fenced pod then add_member (m "unknown" "fenced" 0 "") acc
  else if negb (podReady pod) then add_member (m "unknown" "pod_not_ready" 0 "") acc
  else
    match result_err r, IsPrimary st with
    | Some _, _ | _, None => add_member (m "unknown" "status_unavailable" 0 "") acc
    | None, Some isPrimary =>
        if Unavailable st || Rewinding st
        then add_member (m "unknown" "instance_unavailable" 0 "") acc
        else if isPrimary then
          add_member (m "primary" "primary_unverified" (Timeline st) (ReplayLSN st))
            {| scan_members := scan_members acc;
               scan_primaryIndex :=
                 if bool_decide (pod_Name pod = (primaryNames cluster).1) && negb (transitioning cluster)
                 then Some i else scan_primaryIndex acc;
               scan_primaryCount := scan_primaryCount acc + 1 |}
        else
          let reason :=
            if ReplayPaused st then "replay_paused"
            else if negb (WalReceiverActive st) then "wal_receiver_inactive"
            else "replication_unverified" in
          add_member (m "standby" reason (Timeline st) (ReplayLSN st)) acc
    end.

Fixpoint scan_pods (cluster : object) (params : Parameters) (fenced : list string)
    (i : nat) (pods : list Pod) (results : list statusResult) (acc : scan) : option scan :=
  match pods with
  | [] => Some acc
  | pod :: pods =>
      r ← results !! i;
      scan_pods cluster params fenced (S i) pods results (scan_pod cluster params fenced i pod r acc)
  end.

(** The senders of the primary by application name, and the names seen twice. *)
Definition index_senders (l : list replicationStatus) : gmap string replicationStatus * gset string :=
  foldl (λ acc r,
    (<[ApplicationName r := r]> acc.1,
     if bool_decide (is_Some (acc.1 !! ApplicationName r)) then {[ApplicationName r]} ∪ acc.2 else acc.2))
    (∅, ∅) l.

Definition set_ready (sync reason : string) (ready : bool) (m : Member) : Member := {|
  member_ID := member_ID m; member_Name := member_Name m; member_Role := member_Role m;
  member_SyncState := sync; member_Ready := ready; member_Reason := reason;
  member_Endpoints := member_Endpoints m; member_Node := member_Node m;
  member_Zone := member_Zone m; member_Region := member_Region m;
  member_Timeline := member_Timeline m; member_ReplayLSN := member_ReplayLSN m;
|}.

(** The body of the last loop: verify one standby against the primary's senders. *)
Definition verify_standby (primary : instanceStatus) (m : Member) (r : instanceStatus) : Member :=
  let '(replication, duplicates) := index_senders (Replication primary) in
  if negb (bool_decide (member_Role m = "standby"))
     || negb (bool_decide (member_Reason m = "replication_unverified")) then m
  else if negb (bool_decide (SystemID r = SystemID primary))
  then set_ready (member_SyncState m) "database_identity_mismatch" (member_Ready m) m
  else
    match replication !! member_Name m with
    | None => m
    | Some state =>
        if bool_decide (member_Name m ∈ duplicates) || negb (bool_decide (State_ state = "streaming")) then m
        else if negb (Contains ["sync"; "quorum"; "potential"; "async"] (SyncState state)) then m
        else set_ready (SyncState state) "" true m
    end.

Fixpoint verify_standbys (primary : instanceStatus) (i : nat) (members : list Member)
    (results : list statusResult) : option (list Member) :=
  match members with
  | [] => Some []
  | m :: members =>
      r ← results !! i;
      rest ← verify_standbys primary (S i) members results;
      Some (verify_standby primary m (result_status r) :: rest)
  end.

Definition with_members (reason : string) (available : bool) (primaryID : string)
    (trans : bool) (members : list Member) (s : Snapshot) : Snapshot := {|
  snapshot_APIVersion := snapshot_APIVersion s; snapshot_Cluster := snapshot_Cluster s;
  snapshot_Revision := snapshot_Revision s; snapshot_ObservedAt := snapshot_ObservedAt s;
  snapshot_ValidUntil := snapshot_ValidUntil s; snapshot_Available := available;
  snapshot_Reason := reason; snapshot_PrimaryID := primaryID;
  snapshot_Transitioning := trans; snapshot_Members := members;
  snapshot_Connection := snapshot_Connection s;
|}.

(** The fenced instances; [None] when the annotation is malformed. *)
Definition fenced_instances (cluster : object) : option (list string) :=
  match GetAnnotations cluster !! "cnpg.io/fencedInstances" with
  | Some raw => Unmarshal_strings raw
  | None => Some []
  end.

Definition buildSnapshot (cluster : object) (pods : list Pod) (results : list statusResult)
    (params : Parameters) (at_ : time) (ttl : duration) : option Snapshot :=
  let snapshot := unavailable cluster at_ ttl "primary_unverified" in
  let trans := transitioning cluster in
  match fenced_instances cluster with
  | None => Some (with_members "invalid_fencing_configuration" false "" trans [] snapshot)
  | Some fenced =>
      acc ← scan_pods cluster params fenced 0 pods results
              {| scan_members := []; scan_primaryIndex := None; scan_primaryCount := 0 |};
      let members := scan_members acc in
      if 1 <? scan_primaryCount acc
      then Some (with_members "multiple_primaries_observed" false "" trans members snapshot)
      else if trans
      then Some (with_members "primary_transition" false "" trans members snapshot)
      else
        match scan_primaryIndex acc with
        | None => Some (with_members "primary_unverified" false "" trans members snapshot)
        | Some i =>
            primary ← results !! i;
            m ← members !! i;
            members' ← verify_standbys (result_status primary) 0
                         (<[i := set_ready (member_SyncState m) "" true m]> members) results;
            Some (with_members "" true (member_ID m) trans members' snapshot)
        end
  end.
End topology.
