(* ===== verification/TopologyFacts.v ===== *)
(** * Lemmas on topology construction

    The first loop of [buildSnapshot] pairs each Pod with its result and counts
    the verified primary claims; the last loop verifies the standbys pointwise. *)

From S2P Require Import Prelude Api Config Kube Topology.

(** ** Specification of a single instance *)

(** An instance whose report counts: unfenced, a ready Pod, no probe error, a
    role ([primary] or standby), neither unavailable nor rewinding. *)
Record instance_verified (fenced : list string) (pod : Pod) (r : statusResult) (primary : bool) : Prop := {
  verified_unfenced : is_fenced fenced pod = false;
  verified_ready : podReady pod = true;
  verified_err : result_err r = None;
  verified_role : IsPrimary (result_status r) = Some primary;
  verified_available : Unavailable (result_status r) = false;
  verified_rewinding : Rewinding (result_status r) = false;
}.

Definition reports (primary : bool) (fenced : list string) (x : Pod * statusResult) : bool :=
  negb (is_fenced fenced x.1) && podReady x.1 && bool_decide (result_err x.2 = None)
  && bool_decide (IsPrimary (result_status x.2) = Some primary)
  && negb (Unavailable (result_status x.2)) && negb (Rewinding (result_status x.2)).

Lemma reports_spec primary fenced pod r :
  reports primary fenced (pod, r) = true ↔ instance_verified fenced pod r primary.
Proof.
  unfold reports. cbn. rewrite !andb_true_iff, !negb_true_iff, !bool_decide_eq_true.
  split; [intros [[[[[]]]]]; by split|by intros []].
Qed.

(** At most one element satisfies [P] when the filtered list has length at most one. *)
Lemma filter_nonempty {A} (P : A → bool) (l : list A) k z :
  l !! k = Some z → P z = true → (1 ≤ length (filter (λ x, P x = true) l))%nat.
Proof.
  intros Hk HP. assert (z ∈ filter (λ x, P x = true) l) as Hin
    by (apply list_elem_of_filter; split; [done|by eapply list_elem_of_lookup_2]).
  destruct (filter _ l); [by apply elem_of_nil in Hin|cbn; lia].
Qed.

Lemma filter_unique {A} (P : A → bool) (l : list A) i j x y :
  (length (filter (λ x, P x = true) l) ≤ 1)%nat →
  l !! i = Some x → P x = true → l !! j = Some y → P y = true → i = j.
Proof.
  revert i j. induction l as [|z l IH]; intros i j Hlen Hi HPx Hj HPy; [done|].
  rewrite filter_cons in Hlen. destruct i as [|i], j as [|j]; cbn in Hi, Hj; simplify_eq; [done|..].
  - rewrite decide_True in Hlen by done. pose proof (filter_nonempty P l j y Hj HPy). cbn in Hlen. lia.
  - rewrite decide_True in Hlen by done. pose proof (filter_nonempty P l i x Hi HPx). cbn in Hlen. lia.
  - f_equal. apply IH; [|done..]. destruct (decide _); cbn in Hlen; lia.
Qed.

Section facts.
Context `{TextLibrary, MapRange, Unstructured}.
Context (cluster : object) (params : Parameters) (fenced : list string).

Abbreviation scan_pod := (scan_pod cluster params fenced).
Abbreviation scan_pods := (scan_pods cluster params fenced).

Definition empty_scan : scan := {| scan_members := []; scan_primaryIndex := None; scan_primaryCount := 0 |}.

(** ** The first loop *)

(** The member the first loop appends. *)
Definition scan_member (pod : Pod) (r : statusResult) : Member :=
  default (pod_member params "" pod "" "" 0 "") (last (scan_members (scan_pod 0 pod r empty_scan))).

Definition designated (x : Pod * statusResult) : bool :=
  reports true fenced x && bool_decide (pod_Name x.1 = (primaryNames cluster).1) && negb (transitioning cluster).

Lemma scan_pod_spec i pod r acc :
  scan_pod i pod r acc = {|
    scan_members := scan_members acc ++ [scan_member pod r];
    scan_primaryIndex := if designated (pod, r) then Some i else scan_primaryIndex acc;
    scan_primaryCount := scan_primaryCount acc + (if reports true fenced (pod, r) then 1 else 0);
  |}.
Proof.
  unfold scan_member, Topology.scan_pod, designated, reports. cbn.
  destruct (is_fenced fenced pod); cbn; [by rewrite Z.add_0_r|].
  destruct (podReady pod); cbn; [|by rewrite Z.add_0_r].
  destruct (result_err r) as [e|]; cbn.
  { unfold add_member. by rewrite Z.add_0_r. }
  destruct (IsPrimary _) as [[]|]; cbn; [..|unfold add_member; by rewrite Z.add_0_r].
  - destruct (Unavailable _), (Rewinding _); cbn; unfold add_member; cbn; rewrite ?Z.add_0_r; done.
  - destruct (Unavailable _), (Rewinding _); cbn; unfold add_member; cbn; rewrite ?Z.add_0_r; done.
Qed.

(** The index the loop ends with: the last designated primary. *)
Fixpoint last_index (i : nat) (l : list (Pod * statusResult)) (found : option nat) : option nat :=
  match l with
  | [] => found
  | x :: l => last_index (S i) l (if designated x then Some i else found)
  end.

Lemma scan_pods_spec i pods results acc :
  (i + length pods ≤ length results)%nat →
  scan_pods i pods results acc = Some {|
    scan_members := scan_members acc ++ zip_with scan_member pods (drop i results);
    scan_primaryIndex := last_index i (zip pods (drop i results)) (scan_primaryIndex acc);
    scan_primaryCount := scan_primaryCount acc
      + Z.of_nat (length (filter (λ x, reports true fenced x = true) (zip pods (drop i results))));
  |}.
Proof.
  revert i acc. induction pods as [|pod pods IH]; intros i acc Hlen; cbn.
  { rewrite app_nil_r, Z.add_0_r. by destruct acc. }
  cbn in Hlen. destruct (lookup_lt_is_Some_2 results i) as [r Hr]; [lia|].
  rewrite Hr. cbn [mbind option_bind]. rewrite IH, scan_pod_spec by lia.
  rewrite (drop_S _ _ _ Hr). cbn [zip_with last_index scan_members scan_primaryIndex scan_primaryCount].
  rewrite <-app_assoc, filter_cons. do 2 f_equal.
  destruct (reports true fenced (pod, r)) eqn:E; [rewrite decide_True by done|rewrite decide_False by done]; cbn; lia.
Qed.

Lemma scan_pods_short i pods results acc :
  ¬ (i + length pods ≤ length results)%nat → (i ≤ length results)%nat → scan_pods i pods results acc = None.
Proof.
  revert i acc. induction pods as [|pod pods IH]; intros i acc Hlen Hi; cbn in *; [lia|].
  destruct (results !! i) eqn:Hr; [|done]. cbn. apply IH; [lia|]. apply lookup_lt_Some in Hr. lia.
Qed.

Lemma last_index_cases i l found :
  (∃ k x, last_index i l found = Some (i + k)%nat ∧ l !! k = Some x ∧ designated x = true)
  ∨ last_index i l found = found ∧ ∀ k x, l !! k = Some x → designated x = false.
Proof.
  revert i found. induction l as [|x l IH]; intros i found; cbn.
  { right. split; [done|]. intros k y. by rewrite lookup_nil. }
  destruct (IH (S i) (if designated x then Some i else found)) as [(k & y & Hidx & Hk & Hd)|[Hidx Hnone]].
  - left. exists (S k), y. split_and!; [|done..]. rewrite Hidx. f_equal. lia.
  - destruct (designated x) eqn:Hx.
    + left. exists 0%nat, x. split_and!; [|done..]. rewrite Hidx. f_equal. lia.
    + right. split; [done|]. intros [|k] y Hy; cbn in Hy; [congruence|by eapply Hnone].
Qed.
End facts.

(** ** The last loop *)

Lemma verify_standbys_spec primary i members results :
  (i + length members ≤ length results)%nat →
  verify_standbys primary i members results
  = Some (zip_with (λ m r, verify_standby primary m (result_status r)) members (drop i results)).
Proof.
  revert i. induction members as [|m members IH]; intros i Hlen; cbn; [done|].
  cbn in Hlen. destruct (lookup_lt_is_Some_2 results i) as [r Hr]; [lia|].
  rewrite Hr. cbn [mbind option_bind]. rewrite IH by lia. by rewrite (drop_S _ _ _ Hr).
Qed.

(** ** Outcomes of [buildSnapshot] *)

Section outcome.
Context `{TextLibrary, MapRange, Unstructured}.
Context (cluster : object) (pods : list Pod) (results : list statusResult).
Context (params : Parameters) (at_ : time) (ttl : duration).

(** Pod [i] is the Cluster's current primary, verified, and no other instance
    reports itself as a verified primary; the Cluster is not in transition. *)
Record sole_primary (fenced : list string) (i : nat) (pod : Pod) (r : statusResult) : Prop := {
  sole_pod : pods !! i = Some pod;
  sole_result : results !! i = Some r;
  sole_verified : instance_verified fenced pod r true;
  sole_name : pod_Name pod = (primaryNames cluster).1;
  sole_stable : transitioning cluster = false;
  sole_unique : ∀ j pod' r', pods !! j = Some pod' → results !! j = Some r' →
    instance_verified fenced pod' r' true → j = i;
}.

Definition scanned (fenced : list string) : list Member :=
  zip_with (scan_member cluster params fenced) pods results.

Definition base_snapshot : Snapshot := unavailable cluster at_ ttl "primary_unverified".

Inductive outcome : Snapshot → Prop :=
  | outcome_fencing :
      fenced_instances cluster = None →
      outcome (with_members "invalid_fencing_configuration" false "" (transitioning cluster) [] base_snapshot)
  | outcome_unavailable fenced reason trans :
      fenced_instances cluster = Some fenced → reason ≠ "" → trans = transitioning cluster →
      (∀ i pod r, ¬ sole_primary fenced i pod r) →
      outcome (with_members reason false "" trans (scanned fenced) base_snapshot)
  | outcome_available fenced i pod r m :
      fenced_instances cluster = Some fenced → sole_primary fenced i pod r →
      m = scan_member cluster params fenced pod r →
      outcome (with_members "" true (member_ID m) false
        (zip_with (λ m r', verify_standby (result_status r) m (result_status r'))
           (<[i := set_ready (member_SyncState m) "" true m]> (scanned fenced)) results) base_snapshot).

Lemma zip_lookup i pod r : zip pods results !! i = Some (pod, r) ↔ pods !! i = Some pod ∧ results !! i = Some r.
Proof. rewrite lookup_zip_with_Some. naive_solver. Qed.

Lemma designated_sole fenced i x :
  (length (filter (λ x, reports true fenced x = true) (zip pods results)) ≤ 1)%nat →
  zip pods results !! i = Some x → designated cluster fenced x = true → sole_primary fenced i x.1 x.2.
Proof.
  destruct x as [pod r]. intros Hlen Hi Hd. pose proof Hi as [Hpod Hr]%zip_lookup.
  unfold designated in Hd. boolify. split; try done; [by apply reports_spec|].
  intros j pod' r' Hj Hj' Hv. eapply (filter_unique (reports true fenced)); [done| | |exact Hi|done].
  - by apply zip_lookup.
  - by apply reports_spec.
Qed.

(** A sole primary is designated and its claim is the only one. *)
Lemma sole_designated fenced i pod r :
  sole_primary fenced i pod r → zip pods results !! i = Some (pod, r) ∧ designated cluster fenced (pod, r) = true.
Proof.
  intros [Hpod Hr Hv Hn Ht _]. split; [by apply zip_lookup|]. unfold designated.
  apply reports_spec in Hv. rewrite Hv, Ht. cbn. by rewrite bool_decide_eq_true_2.
Qed.

Lemma filter_one {A} (P : A → bool) (l : list A) i :
  (∀ j x, l !! j = Some x → P x = true → j = i) → (length (filter (λ x, P x = true) l) ≤ 1)%nat.
Proof.
  revert i. induction l as [|x l IH]; intros i Huniq; [cbn; lia|]. rewrite filter_cons.
  destruct (decide (P x = true)) as [Hx|Hx].
  - assert (i = 0%nat) as -> by (symmetry; by apply (Huniq 0%nat x)).
    assert (filter (λ x, P x = true) l = []) as ->; [|done].
    apply elem_of_nil_inv. intros y [Hy [j Hj]%list_elem_of_lookup]%list_elem_of_filter.
    by specialize (Huniq (S j) y Hj Hy).
  - destruct i as [|i].
    + apply (IH 0%nat). intros j y Hj Hy. by specialize (Huniq (S j) y Hj Hy).
    + apply (IH i). intros j y Hj Hy. specialize (Huniq (S j) y Hj Hy). lia.
Qed.

Lemma sole_count fenced i pod r :
  sole_primary fenced i pod r →
  (length (filter (λ x, reports true fenced x = true) (zip pods results)) ≤ 1)%nat.
Proof.
  intros Hsole. apply (filter_one (reports true fenced) _ i). intros j [pod' r'] [Hj Hj']%zip_lookup Hv.
  eapply sole_unique; [done..|]. by apply reports_spec.
Qed.

Lemma buildSnapshot_outcome :
  (length pods ≤ length results)%nat →
  ∃ s, buildSnapshot cluster pods results params at_ ttl = Some s ∧ outcome s.
Proof.
  intros Hlen. unfold buildSnapshot. destruct (fenced_instances cluster) as [fenced|] eqn:Hf; [|by eexists; split; [|constructor]].
  rewrite scan_pods_spec by done. cbn [mbind option_bind scan_members scan_primaryIndex scan_primaryCount].
  rewrite drop_0, app_nil_l. fold (scanned fenced). fold base_snapshot.
  set (count := length (filter _ _)). destruct (Z.ltb_spec 1 (0 + Z.of_nat count)) as [Hc|Hc].
  { eexists. split; [done|]. apply (outcome_unavailable fenced); [done..|].
    intros i pod r Hs%sole_count. unfold count in Hc. lia. }
  destruct (transitioning cluster) eqn:Ht.
  { eexists. split; [done|]. apply (outcome_unavailable fenced); [done..|].
    intros i pod r Hs%sole_stable. congruence. }
  destruct (last_index_cases cluster fenced 0 (zip pods results) None) as [(k & x & Hidx & Hk & Hd)|[Hidx Hnone]].
  - rewrite Hidx. cbn [Nat.add]. destruct x as [pod r].
    assert (sole_primary fenced k pod r) as Hsole by (apply (designated_sole fenced k (pod, r)); [unfold count in Hc; lia|done..]).
    destruct (proj1 (zip_lookup _ _ _) Hk) as [Hpod Hr]. rewrite Hr. cbn [mbind option_bind].
    assert (scanned fenced !! k = Some (scan_member cluster params fenced pod r)) as Hm
      by (apply lookup_zip_with_Some; by eauto).
    rewrite Hm. cbn [mbind option_bind]. rewrite verify_standbys_spec.
    2: { rewrite length_insert. unfold scanned. rewrite length_zip_with. lia. }
    rewrite drop_0. cbn [mbind option_bind]. eexists. split; [done|]. by eapply outcome_available.
  - rewrite Hidx. eexists. split; [done|]. apply (outcome_unavailable fenced); [done..|].
    intros i pod r [Hi Hd]%sole_designated. by rewrite (Hnone _ _ Hi) in Hd.
Qed.

Lemma buildSnapshot_total :
  (length pods ≤ length results)%nat → is_Some (buildSnapshot cluster pods results params at_ ttl).
Proof. intros (s & Hs & _)%buildSnapshot_outcome. by exists s. Qed.

(** The outcome of a call that returned. *)
Lemma buildSnapshot_inv s : buildSnapshot cluster pods results params at_ ttl = Some s → 
  (fenced_instances cluster = None ∨ (length pods ≤ length results)%nat) ∧ outcome s.
Proof.
  intros Hs. destruct (fenced_instances cluster) as [fenced|] eqn:Hf.
  - assert (length pods ≤ length results)%nat as Hlen.
    { destruct (decide (length pods ≤ length results)%nat) as [|Hl]; [done|].
      unfold buildSnapshot in Hs. rewrite Hf, scan_pods_short in Hs by (cbn; lia). done. }
    destruct (buildSnapshot_outcome Hlen) as (s' & Hs' & Ho). rewrite Hs in Hs'. simplify_eq. by auto.
  - unfold buildSnapshot in Hs. rewrite Hf in Hs. simplify_eq. split; [by left|by constructor].
Qed.
End outcome.
