(* ===== verification/TopologyProps.v ===== *)
(** * Correctness of topology construction

    A snapshot routes to an instance exactly when the evidence of the collection
    verifies it: one verified primary that is the Cluster's settled primary, and
    standbys that this primary reports as its only sender of that name. *)

From S2P Require Import Prelude Api Config Kube Topology TopologyFacts.

(** ** The primary's senders *)

Abbreviation senders n l := (filter (λ r, ApplicationName r = n) l).

Lemma index_senders_spec l n :
  (index_senders l).1 !! n = last (senders n l)
  ∧ (n ∈ (index_senders l).2 ↔ (2 ≤ length (senders n l))%nat).
Proof.
  induction l as [|r l [IH1 IH2]] using rev_ind; [split; [done|]; cbn; split; [set_solver|lia]|].
  unfold index_senders in *. rewrite foldl_snoc, filter_app. cbn [fst snd].
  set (acc := foldl _ _ l) in *. cbn [filter list_filter]. destruct (decide (ApplicationName r = n)) as [<-|Hne].
  - rewrite lookup_insert_eq, last_snoc. split; [done|]. rewrite length_app. cbn [length].
    rewrite IH1. destruct (senders (ApplicationName r) l) as [|x xs] eqn:Hs.
    + rewrite bool_decide_eq_false_2 by (intros [? [=]]). rewrite IH2. cbn. lia.
    + rewrite bool_decide_eq_true_2 by (apply last_is_Some; done). cbn [length]. split; [lia|]. intros _. set_solver.
  - rewrite lookup_insert_ne by done. rewrite app_nil_r. split; [done|].
    case_bool_decide; [|done]. rewrite <-IH2. set_solver.
Qed.

(** Exactly one sender of that name. *)
Lemma index_senders_unique l n state :
  (index_senders l).1 !! n = Some state ∧ n ∉ (index_senders l).2 ↔ senders n l = [state].
Proof.
  destruct (index_senders_spec l n) as [-> ->]. split.
  - intros [Hl Hlen]. destruct (senders n l) as [|x [|y xs]]; cbn in *; [done|congruence|lia].
  - intros ->. cbn. split; [done|lia].
Qed.

Section props.
Context `{TextLibrary, MapRange, Unstructured}.
Context (cluster : object) (params : Parameters).

(** ** Members *)

(** What a member always takes from its Pod and the parameters. *)
Record member_identity (m : Member) (pod : Pod) : Prop := {
  identity_ID : member_ID m = pod_UID pod;
  identity_Name : member_Name m = pod_Name pod;
  identity_Endpoints : member_Endpoints m = pod_endpoints params (cluster_server_name cluster params) pod;
  identity_Node : member_Node m = pod_NodeName pod;
  identity_Zone : member_Zone m = map_value (pod_Labels pod) "topology.kubernetes.io/zone";
  identity_Region : member_Region m = map_value (pod_Labels pod) "topology.kubernetes.io/region";
}.

(** A standby the primary vouches for. *)
Record standby_verified (fenced : list string) (primary : instanceStatus) (pod : Pod) (r : statusResult) : Prop := {
  standby_instance : instance_verified fenced pod r false;
  standby_replaying : ReplayPaused (result_status r) = false;
  standby_receiving : WalReceiverActive (result_status r) = true;
  standby_system : SystemID (result_status r) = SystemID primary;
  standby_sender : ∃ state, senders (pod_Name pod) (Replication primary) = [state]
    ∧ State_ state = "streaming" ∧ SyncState state ∈ ["sync"; "quorum"; "potential"; "async"];
}.

Abbreviation scan_member := (scan_member cluster params).

Lemma scan_member_identity fenced pod r :
  member_identity (scan_member fenced pod r) pod ∧ member_Ready (scan_member fenced pod r) = false.
Proof.
  unfold TopologyFacts.scan_member, scan_pod. repeat case_goal; cbn; (split; [by split|done]).
Qed.

(** The first loop leaves a standby to be verified. *)
Lemma scan_member_standby fenced pod r :
  member_Role (scan_member fenced pod r) = "standby"
  ∧ member_Reason (scan_member fenced pod r) = "replication_unverified"
  ↔ instance_verified fenced pod r false ∧ ReplayPaused (result_status r) = false
    ∧ WalReceiverActive (result_status r) = true.
Proof.
  unfold TopologyFacts.scan_member, scan_pod. split.
  - intros [Hrole Hreason]. revert Hrole Hreason. repeat case_goal; cbn; try done.
    all: intros _ _; boolify; split_and!; [by split|done..].
  - intros ([-> -> -> -> -> ->] & -> & ->). done.
Qed.

Lemma set_ready_identity sync reason ready m pod :
  member_identity m pod → member_identity (set_ready sync reason ready m) pod.
Proof. by intros []. Qed.

Lemma verify_standby_identity primary m r pod :
  member_identity m pod → member_identity (verify_standby primary m r) pod.
Proof.
  intros [????? ?]. unfold verify_standby. destruct (index_senders _) as [replication duplicates].
  repeat case_goal; by split.
Qed.

(** The last loop makes exactly the members ready that a sender vouches for. *)
Lemma verify_standby_ready primary m r :
  member_Ready m = false →
  member_Ready (verify_standby primary m r) = true ↔
  member_Role m = "standby" ∧ member_Reason m = "replication_unverified" ∧ SystemID r = SystemID primary
  ∧ ∃ state, senders (member_Name m) (Replication primary) = [state]
    ∧ State_ state = "streaming" ∧ SyncState state ∈ ["sync"; "quorum"; "potential"; "async"].
Proof.
  intros Hm. unfold verify_standby.
  pose proof (index_senders_unique (Replication primary) (member_Name m)) as Hsend.
  destruct (index_senders _) as [replication duplicates]. cbn in Hsend. split.
  - repeat case_goal; cbn; try congruence. intros _. boolify. split_and!; try done.
    eexists. split_and!; [by apply Hsend|done|by apply Contains_spec].
  - intros (Hrole & Hreason & Hsys & state & Hs & Hst & Hsync). apply Hsend in Hs as [Hs Hd].
    rewrite Hs, (proj2 (Contains_spec _ _) Hsync).
    by repeat (case_bool_decide; try done).
Qed.

Lemma verify_standby_primary primary m r :
  member_Reason m = "" → verify_standby primary m r = m.
Proof.
  intros Hr. unfold verify_standby. destruct (index_senders _). rewrite Hr.
  by rewrite (bool_decide_eq_false_2 (_ = "replication_unverified")), orb_true_r by done.
Qed.

(** ** Snapshots *)

Context (pods : list Pod) (results : list statusResult) (at_ : time) (ttl : duration).

Abbreviation outcome := (outcome cluster pods results params at_ ttl).
Abbreviation sole_primary := (sole_primary cluster pods results).

Lemma scanned_lookup fenced j m :
  scanned cluster pods results params fenced !! j = Some m ↔
  ∃ pod r, m = scan_member fenced pod r ∧ pods !! j = Some pod ∧ results !! j = Some r.
Proof. apply lookup_zip_with_Some. Qed.

(** Member [j] of an available snapshot. *)
Lemma available_member fenced i pod r j m :
  sole_primary fenced i pod r →
  zip_with (λ m r', verify_standby (result_status r) m (result_status r'))
    (<[i := set_ready (member_SyncState (scan_member fenced pod r)) "" true (scan_member fenced pod r)]>
       (scanned cluster pods results params fenced)) results !! j = Some m →
  ∃ pod' r', pods !! j = Some pod' ∧ results !! j = Some r' ∧
    m = if bool_decide (j = i)
        then set_ready (member_SyncState (scan_member fenced pod r)) "" true (scan_member fenced pod r)
        else verify_standby (result_status r) (scan_member fenced pod' r') (result_status r').
Proof.
  intros Hsole (x & r' & -> & Hx & Hr')%lookup_zip_with_Some. case_bool_decide as Hji.
  - subst. rewrite list_lookup_insert_eq in Hx.
    + simplify_eq. rewrite verify_standby_primary by done. exists pod, r'. by destruct Hsole.
    + unfold scanned. rewrite length_zip_with. destruct Hsole as [Hp%lookup_lt_Some Hr%lookup_lt_Some]. lia.
  - rewrite list_lookup_insert_ne in Hx by done. apply scanned_lookup in Hx as (pod' & r'' & -> & Hpod & Hr).
    simplify_eq. by eauto.
Qed.

Lemma outcome_members s :
  outcome s → fenced_instances cluster = None ∨ (length pods ≤ length results)%nat →
  fenced_instances cluster = None ∧ snapshot_Members s = [] ∨ Forall2 member_identity (snapshot_Members s) pods.
Proof.
  intros [Hf|fenced reason trans Hf _ _ _|fenced i pod r m Hf Hsole ->] Hlen; cbn; [by left|right..];
    destruct Hlen as [|Hlen]; [congruence| |congruence|].
  - unfold scanned. apply Forall2_same_length_lookup_2; [rewrite length_zip_with; lia|].
    intros j m pod (pod' & r & -> & Hp & _)%lookup_zip_with_Some Hpod. simplify_eq. apply scan_member_identity.
  - apply Forall2_same_length_lookup_2.
    { unfold scanned. rewrite length_zip_with, length_insert, length_zip_with. lia. }
    intros j m pod' Hm Hpod. apply available_member in Hm as (pod'' & r' & Hp & Hr & ->); [|done].
    simplify_eq. case_bool_decide as Hj; [|apply verify_standby_identity, scan_member_identity].
    destruct Hsole as [Hsp _ _ _ _ _]. simplify_eq. apply set_ready_identity, scan_member_identity.
Qed.
End props.

Section claims.
Context `{TextLibrary, MapRange, Unstructured}.

(** The primary of an available snapshot. *)
Lemma available_primary cluster pods results params at_ ttl s :
  buildSnapshot cluster pods results params at_ ttl = Some s → snapshot_Available s = true →
  ∃ fenced i pod r, fenced_instances cluster = Some fenced ∧ sole_primary cluster pods results fenced i pod r
    ∧ snapshot_PrimaryID s = pod_UID pod.
Proof.
  intros [_ Hs]%buildSnapshot_inv. destruct Hs as [| |fenced i pod r m Hf Hsole ->]; cbn; [done..|]. intros _.
  exists fenced, i, pod, r. split_and!; [done..|]. apply scan_member_identity.
Qed.

(** C5: a collection is routable exactly when the fencing annotation is well
    formed, the Cluster is settled on a named primary, that Pod is ready,
    unfenced and verified as primary, and no other Pod reports itself as a
    verified primary; the snapshot then names that Pod. *)
Theorem available_exactly_when_verified cluster pods results params at_ ttl s :
  buildSnapshot cluster pods results params at_ ttl = Some s →
  (snapshot_Available s = true ↔
   ∃ fenced i pod r, fenced_instances cluster = Some fenced ∧ sole_primary cluster pods results fenced i pod r)
  ∧ ∀ fenced i pod r, fenced_instances cluster = Some fenced → sole_primary cluster pods results fenced i pod r →
      snapshot_PrimaryID s = pod_UID pod ∧ snapshot_Reason s = "" ∧ snapshot_Transitioning s = false.
Proof.
  intros [Hlen Hs]%buildSnapshot_inv. destruct Hs as [Hf|fenced reason trans Hf Hr Ht Hn|fenced i pod r m Hf Hsole ->]; cbn.
  - split; [split; [done|]|]; naive_solver.
  - split; [split; [done|]|]; naive_solver.
  - split; [split; [by eauto 10|done]|]. intros fenced' j pod' r' Hf' Hsole'.
    assert (fenced' = fenced) as -> by congruence.
    destruct (scan_member_identity cluster params fenced pod r) as [[-> _ _ _ _ _] _].
    assert (j = i) as -> by (destruct Hsole', Hsole; by eauto). destruct Hsole', Hsole. by simplify_eq.
Qed.

(** C6: a member is ready exactly when the snapshot has a sole verified primary
    and the member is that primary, or a verified standby of the same database
    system that replays, receives WAL and is the only streaming sender of its
    name at that primary, with a known synchronisation state. *)
Theorem ready_exactly_when_verified cluster pods results params at_ ttl s j m :
  buildSnapshot cluster pods results params at_ ttl = Some s →
  snapshot_Members s !! j = Some m →
  member_Ready m = true ↔
  ∃ fenced i pod r, fenced_instances cluster = Some fenced ∧ sole_primary cluster pods results fenced i pod r ∧
    (j = i ∨ ∃ pod' r', pods !! j = Some pod' ∧ results !! j = Some r'
                        ∧ standby_verified fenced (result_status r) pod' r').
Proof.
  intros [Hlen Hs]%buildSnapshot_inv.
  destruct Hs as [Hf|fenced reason trans Hf Hr Ht Hn|fenced i pod r m0 Hf Hsole ->]; cbn; [done|..].
  - intros (pod & r & -> & _)%scanned_lookup. rewrite (proj2 (scan_member_identity cluster params fenced pod r)).
    naive_solver.
  - intros (pod' & r' & Hp & Hr & ->)%available_member; [|done]. case_bool_decide as Hj; [subst; cbn; naive_solver|].
    rewrite verify_standby_ready by apply scan_member_identity.
    destruct (scan_member_identity cluster params fenced pod' r') as [[_ Hname _ _ _ _] _]. rewrite Hname.
    pose proof (scan_member_standby cluster params fenced pod' r') as Hstand. split.
    + intros (Hrole & Hreason & Hsys & Hsend). destruct (proj1 Hstand (conj Hrole Hreason)) as (Hv & Hrp & Hw).
      exists fenced, i, pod, r. split_and!; [done..|]. right. by exists pod', r'.
    + intros (fenced' & i' & pod1 & r1 & Hf' & Hsole' & Hcase).
      assert (fenced' = fenced) as -> by congruence.
      assert (i' = i) as -> by (destruct Hsole', Hsole; by eauto).
      assert (pod1 = pod ∧ r1 = r) as [-> ->] by (destruct Hsole', Hsole; by simplify_eq).
      destruct Hcase as [?|(pod2 & r2 & Hp2 & Hr2 & [Hi Hrp Hw Hsys Hsend])]; [done|]. simplify_eq.
      destruct (proj2 Hstand (conj Hi (conj Hrp Hw))) as [??]. by split_and!.
Qed.

(** A snapshot that is not routable is closed: no primary, no ready member,
    and a reason. *)
Theorem unavailable_fails_closed cluster pods results params at_ ttl s :
  buildSnapshot cluster pods results params at_ ttl = Some s →
  snapshot_Available s = false → fail_closed s ∧ snapshot_Reason s ≠ "".
Proof.
  intros [_ Hs]%buildSnapshot_inv. destruct Hs as [Hf|fenced reason trans Hf Hr Ht Hn|]; cbn; [..|done]; intros _.
  - done.
  - split; [split_and!|]; [done..| |done]. apply Forall_lookup. intros j m (pod & r & -> & _)%scanned_lookup.
    apply scan_member_identity.
Qed.

(** With a result for every Pod the construction returns, its members are
    the Pods in order (none when the fencing annotation is malformed), each with
    its Pod's identity, endpoints and placement, and the snapshot expires [ttl]
    after the collection started. *)
Theorem snapshot_describes_pods cluster pods results params at_ ttl :
  (length pods ≤ length results)%nat →
  ∃ s, buildSnapshot cluster pods results params at_ ttl = Some s
    ∧ snapshot_Cluster s = clusterRef cluster ∧ snapshot_ObservedAt s = at_ ∧ snapshot_ValidUntil s = at_ + ttl
    ∧ (fenced_instances cluster = None ∧ snapshot_Members s = []
       ∨ Forall2 (member_identity cluster params) (snapshot_Members s) pods).
Proof.
  intros Hlen. destruct (buildSnapshot_outcome cluster pods results params at_ ttl Hlen) as (s & Hs & Ho).
  exists s. split; [done|]. split_and!; [by destruct Ho..|]. eapply outcome_members; [done|by right].
Qed.
End claims.

(** ** A concrete collection

    Cluster [db] settled on [db-1]; [db-2] streams from it, [db-3] is not ready. *)

Section example.
#[local] Existing Instance plain_access.

#[local] Instance plain_text : TextLibrary := {|
  Decode_endpoints v := None;
  Unmarshal_strings v := if bool_decide (v = "[]") then Some [] else None;
  Unmarshal_string_map v := None;
  ToLower v := v;
  ParseIP v := false;
|}.

#[local] Instance plain_range : MapRange.
Proof. exists (λ A, map_to_list); done. Defined.

Definition example_cluster (current : string) : object :=
  <["metadata" := Map (<["namespace" := Str "app"]> (<["name" := Str "db"]> {["uid" := Str "u-1"]}))]>
  {["status" := Map (<["currentPrimary" := Str current]> {["targetPrimary" := Str "db-1"]})]}.

Definition example_pod (name ready : string) : Pod := {|
  pod_Namespace := "app"; pod_Name := name; pod_UID := "uid-" +:+ name; pod_DeletionTimestamp := None;
  pod_Labels := ∅; pod_OwnerReferences := []; pod_NodeName := "node"; pod_Containers := [];
  pod_Phase := "Running"; pod_PodIP := "10.0.0.1";
  pod_Conditions := [{| condition_Type := "Ready"; condition_Status := ready |}]; pod_ContainerStatuses := [];
|}.

Definition example_status (primary : bool) (senders : list replicationStatus) : statusResult := {|
  result_status := {|
    IsPrimary := Some primary; SystemID := "sys"; Timeline := 1; ReplayLSN := "0/1"; ReplayPaused := false;
    WalReceiverActive := negb primary; Rewinding := false; Unavailable := false; Replication := senders |};
  result_err := None;
|}.

Definition example_pods : list Pod :=
  [example_pod "db-1" "True"; example_pod "db-2" "True"; example_pod "db-3" "False"].

Definition example_results : list statusResult :=
  [example_status true [{| ApplicationName := "db-2"; State_ := "streaming"; SyncState := "async" |}];
   example_status false [];
   {| result_status := no_status; result_err := Some ErrPodNotReady |}].

Abbreviation example_build current :=
  (buildSnapshot (example_cluster current) example_pods example_results no_parameters 10 20).

Example example_ready :
  (λ s, (snapshot_Available s, snapshot_PrimaryID s, member_Ready <$> snapshot_Members s)) <$> example_build "db-1"
  = Some (true, "uid-db-1", [true; true; false]).
Proof. vm_compute. reflexivity. Qed.

Lemma available_exactly_when_verified_witness :
  ∃ fenced i pod r, fenced_instances (example_cluster "db-1") = Some fenced
    ∧ sole_primary (example_cluster "db-1") example_pods example_results fenced i pod r.
Proof.
  destruct (example_build "db-1") as [s|] eqn:E; [|vm_compute in E; discriminate].
  apply (available_exactly_when_verified _ _ _ _ _ _ s E).
  vm_compute in E. injection E as <-. reflexivity.
Defined.

Lemma ready_exactly_when_verified_witness :
  ∃ fenced i pod r, fenced_instances (example_cluster "db-1") = Some fenced
    ∧ sole_primary (example_cluster "db-1") example_pods example_results fenced i pod r
    ∧ (1%nat = i ∨ ∃ pod' r', example_pods !! 1%nat = Some pod' ∧ example_results !! 1%nat = Some r'
         ∧ standby_verified fenced (result_status r) pod' r').
Proof.
  destruct (example_build "db-1") as [s|] eqn:E; [|vm_compute in E; discriminate].
  destruct (snapshot_Members s !! 1%nat) as [m|] eqn:Hm;
    [|vm_compute in E; injection E as <-; vm_compute in Hm; discriminate].
  apply (ready_exactly_when_verified _ _ _ _ _ _ s 1%nat m E Hm).
  vm_compute in E. injection E as <-. vm_compute in Hm. injection Hm as <-. reflexivity.
Defined.

Lemma unavailable_fails_closed_witness :
  ∃ s, example_build "db-2" = Some s ∧ fail_closed s ∧ snapshot_Reason s ≠ "".
Proof.
  destruct (example_build "db-2") as [s|] eqn:E; [|vm_compute in E; discriminate].
  exists s. split; [reflexivity|]. apply (unavailable_fails_closed _ _ _ _ _ _ s E).
  vm_compute in E. injection E as <-. reflexivity.
Defined.

Lemma snapshot_describes_pods_witness :
  ∃ s, example_build "db-1" = Some s ∧ snapshot_Cluster s = clusterRef (example_cluster "db-1")
    ∧ snapshot_ObservedAt s = 10 ∧ snapshot_ValidUntil s = 10 + 20
    ∧ (fenced_instances (example_cluster "db-1") = None ∧ snapshot_Members s = []
       ∨ Forall2 (member_identity (example_cluster "db-1") no_parameters) (snapshot_Members s) example_pods).
Proof. apply (snapshot_describes_pods (example_cluster "db-1") example_pods example_results). cbn. lia. Defined.
End example.
