(* ===== verification/Evidence.v ===== *)
(** * Split-brain evidence (src/internal/observer/primary_evidence.go)

    [conflictingPrimary] remembers, per Cluster UID, the instances that claimed to
    be primary in an observed conflict.  The state is the observer's [primaries]
    map; [results[i]] out of range panics in Go and is [None] here. *)

From S2P Require Import Prelude Api Config Kube Topology.

Record primaryEvidence := {
  evidence_clusterUID : string;
  evidence_members : gmap string string; (* instance name to Pod UID *)
}.

Abbreviation primaries := (gmap clusterKey primaryEvidence).

(** [for _, pod := range current]: the current UIDs, and the evidence without
    instances that a Pod of another UID replaced. *)
Definition prune_replaced (current : list Pod) (members : gmap string string) :
    gmap string string * gmap string string :=
  foldl (λ acc pod,
    (<[pod_Name pod := pod_UID pod]> acc.1,
     match acc.2 !! pod_Name pod with
     | Some uid => if bool_decide (uid = pod_UID pod) then acc.2 else delete (pod_Name pod) acc.2
     | None => acc.2
     end)) (∅, members) current.

(** A Pod that a current Pod of the same name and another UID replaced. *)
Definition superseded (currentUIDs : gmap string string) (pod : Pod) : bool :=
  match currentUIDs !! pod_Name pod with
  | Some uid => negb (bool_decide (uid = pod_UID pod))
  | None => false
  end.

(** The body of [for i, pod := range probed]. *)
Definition record_report (currentUIDs : gmap string string) (pod : Pod) (r : statusResult)
    (members : gmap string string) : gmap string string :=
  if superseded currentUIDs pod then members
  else
    match result_err r, IsPrimary (result_status r) with
    | Some _, _ | _, None => members
    | None, Some true => <[pod_Name pod := pod_UID pod]> members
    | None, Some false =>
        if bool_decide (map_value members (pod_Name pod) = pod_UID pod)
        then delete (pod_Name pod) members else members
    end.

Fixpoint record_reports (currentUIDs : gmap string string) (i : nat) (probed : list Pod)
    (results : list statusResult) (members : gmap string string) : option (gmap string string) :=
  match probed with
  | [] => Some members
  | pod :: probed =>
      r ← results !! i;
      record_reports currentUIDs (S i) probed results (record_report currentUIDs pod r members)
  end.

(** Only the expected primary is left: no unresolved conflict. *)
Definition settle (expected : string) (members : gmap string string) : gmap string string :=
  if bool_decide (size members = 1%nat) && bool_decide (is_Some (members !! expected)) then ∅ else members.

Section evidence.
Context `{TextLibrary, Unstructured}.

(** The evidence of the Cluster, fresh for a new Cluster UID. *)
Definition current_evidence (cluster : object) (key : clusterKey) (p : primaries) : gmap string string :=
  match p !! key with
  | Some e => if bool_decide (evidence_clusterUID e = GetUID cluster) then evidence_members e else ∅
  | None => ∅
  end.

(** The fenced instances; here an empty annotation counts as absent. *)
Definition evidence_fenced (cluster : object) : option (list string) :=
  let raw := map_value (GetAnnotations cluster) "cnpg.io/fencedInstances" in
  if bool_decide (raw = "") then Some [] else Unmarshal_strings raw.

(** [for name := range evidence.members]: one of them conflicts. *)
Definition unresolved (expected : string) (fenced : list string) (members : gmap string string) : bool :=
  existsb (λ x, negb (bool_decide (x.1 = expected)) && negb (Contains fenced "*") && negb (Contains fenced x.1))
    (map_to_list members).

Definition conflictingPrimary (observed cluster : object) (probed current : list Pod)
    (results : list statusResult) (p : primaries) : option (bool * primaries) :=
  let key := ClusterKey (GetNamespace cluster) (GetName cluster) in
  let '(currentUIDs, members) := prune_replaced current (current_evidence cluster key p) in
  members ← record_reports currentUIDs 0 probed results members;
  let members := settle (primaryNames observed).1 members in
  let p := <[key := {| evidence_clusterUID := GetUID cluster; evidence_members := members |}]> p in
  match evidence_fenced cluster with
  | None => Some (true, p)
  | Some fenced => Some (unresolved (primaryNames cluster).1 fenced members, p)
  end.
End evidence.
