(* ===== verification/EvidenceProps.v ===== *)
(** * Correctness of the split-brain evidence

    A conflict once observed stays in the evidence until a verified demotion or a
    replacement of the Pod resolves it, whatever happens to the Cluster's own
    primary fields; a single healthy primary never produces one. *)

From S2P Require Import Prelude Api Config Kube Topology TopologyProps Evidence.

(** ** Specification *)

(** A verified report of the role [primary]. *)
Definition claims (primary : bool) (r : statusResult) : Prop :=
  result_err r = None ∧ IsPrimary (result_status r) = Some primary.

(** Every current Pod of that name has that UID. *)
Definition not_replaced (current : list Pod) (n u : string) : Prop :=
  ∀ pod, pod ∈ current → pod_Name pod = n → pod_UID pod = u.

(** An instance with a primary claim on record or in this collection, that this
    collection neither replaces nor verifies as demoted. *)
Record suspect (probed current : list Pod) (results : list statusResult)
    (before : gmap string string) (n : string) : Prop := {
  suspect_claim :
    (∃ u, before !! n = Some u ∧ not_replaced current n u)
    ∨ (∃ j pod r, probed !! j = Some pod ∧ results !! j = Some r ∧ pod_Name pod = n ∧ claims true r
                  ∧ not_replaced current n (pod_UID pod));
  suspect_not_demoted : ∀ j pod r, probed !! j = Some pod → results !! j = Some r → pod_Name pod = n → ¬ claims false r;
}.

(** ** The loops *)

Lemma prune_uids current members n u :
  (prune_replaced current members).1 !! n = Some u → ∃ pod, pod ∈ current ∧ pod_Name pod = n ∧ pod_UID pod = u.
Proof.
  unfold prune_replaced. induction current as [|pod current IH] using rev_ind; [done|].
  rewrite foldl_snoc. cbn [fst]. destruct (decide (pod_Name pod = n)) as [<-|Hne].
  - rewrite lookup_insert_eq. intros [= <-]. exists pod. set_solver.
  - rewrite lookup_insert_ne by done. intros (pod' & ? & ?)%IH. exists pod'. set_solver.
Qed.

(** Pruning removes exactly the instances a Pod of another UID replaced. *)
Lemma prune_members current members n u :
  (prune_replaced current members).2 !! n = Some u ↔ members !! n = Some u ∧ not_replaced current n u.
Proof.
  unfold prune_replaced. induction current as [|pod current IH] using rev_ind.
  { cbn. split; [|by intros []]. intros Hn. split; [done|]. by intros pod ?%elem_of_nil. }
  rewrite foldl_snoc. cbn [snd]. set (acc := foldl _ _ current) in *.
  assert (not_replaced (current ++ [pod]) n u ↔ not_replaced current n u ∧ (pod_Name pod = n → pod_UID pod = u)) as ->.
  { unfold not_replaced. split.
    - intros Hn. split; [intros pod' Hin|]; apply Hn; set_solver.
    - intros [Hn Hp] pod' [Hin|Hin]%elem_of_app; [by apply Hn|]. apply list_elem_of_singleton in Hin as ->. auto. }
  destruct (decide (pod_Name pod = n)) as [Hn|Hne].
  - rewrite Hn. destruct (acc.2 !! n) as [w|] eqn:Hw.
    + case_bool_decide as Hu.
      * rewrite Hw. destruct IH as [IH1 IH2]. split; [intros [= <-]; split_and!; naive_solver|].
        intros (? & ? & ?). by apply IH2.
      * rewrite lookup_delete_eq. split; [done|]. intros (Hm & Hr & Hp). destruct Hu. rewrite Hp by done.
        enough (Some w = Some u) by congruence. by apply IH.
    + rewrite Hw. split; [done|]. intros (Hm & Hr & Hp). by apply IH.
  - destruct (acc.2 !! pod_Name pod); [case_bool_decide|]; rewrite ?lookup_delete_ne by done; rewrite IH; tauto.
Qed.

Section loops.
Context (currentUIDs : gmap string string).

Lemma record_report_other pod r members n :
  pod_Name pod ≠ n → record_report currentUIDs pod r members !! n = members !! n.
Proof.
  intros Hne. unfold record_report. repeat case_goal; rewrite ?lookup_insert_ne, ?lookup_delete_ne by done; done.
Qed.

Lemma record_report_keep pod r members n :
  is_Some (members !! n) → (pod_Name pod = n → ¬ claims false r) →
  is_Some (record_report currentUIDs pod r members !! n).
Proof.
  intros Hn Hd. destruct (decide (pod_Name pod = n)) as [Heq|Hne]; [|by rewrite record_report_other].
  unfold record_report, claims in *. repeat case_goal; rewrite ?Heq, ?lookup_insert_eq; try done.
  destruct (Hd Heq); by split.
Qed.

Lemma record_report_claim pod r members :
  superseded currentUIDs pod = false → claims true r →
  record_report currentUIDs pod r members !! pod_Name pod = Some (pod_UID pod).
Proof. intros Hs [He Hp]. unfold record_report. by rewrite Hs, He, Hp, lookup_insert_eq. Qed.

(** Members only come from the evidence so far or from a claim. *)
Lemma record_report_sound pod r members n u :
  record_report currentUIDs pod r members !! n = Some u →
  members !! n = Some u ∨ pod_Name pod = n ∧ pod_UID pod = u ∧ claims true r.
Proof.
  destruct (decide (pod_Name pod = n)) as [<-|Hne]; [|rewrite record_report_other by done; by left].
  unfold record_report, claims. repeat case_goal; rewrite ?lookup_insert_eq, ?lookup_delete_eq; naive_solver.
Qed.

Lemma record_reports_total i probed results members :
  (i + length probed ≤ length results)%nat → is_Some (record_reports currentUIDs i probed results members).
Proof.
  revert i members. induction probed as [|pod probed IH]; intros i members Hlen; cbn in *; [done|].
  destruct (lookup_lt_is_Some_2 results i) as [r ->]; [lia|]. cbn. apply IH. lia.
Qed.

Lemma record_reports_sound i probed results members members' n u :
  record_reports currentUIDs i probed results members = Some members' → members' !! n = Some u →
  members !! n = Some u ∨ ∃ j pod r, probed !! j = Some pod ∧ results !! (i + j)%nat = Some r
    ∧ pod_Name pod = n ∧ pod_UID pod = u ∧ claims true r.
Proof.
  revert i members. induction probed as [|pod probed IH]; intros i members Hrec Hn; cbn in Hrec; [left; congruence|].
  destruct (results !! i) as [r|] eqn:Hr; [|done]. cbn in Hrec.
  destruct (IH _ _ Hrec Hn) as [[Hm|(? & ? & ?)]%record_report_sound|(j & pod' & r' & Hj & Hr' & ?)]; [by left|right..].
  - exists 0%nat, pod, r. by rewrite Nat.add_0_r.
  - exists (S j), pod', r'. by rewrite Nat.add_succ_r.
Qed.

Lemma record_reports_keep i probed results members members' n :
  record_reports currentUIDs i probed results members = Some members' →
  (∀ j pod r, probed !! j = Some pod → results !! (i + j)%nat = Some r → pod_Name pod = n → ¬ claims false r) →
  is_Some (members !! n) ∨ (∃ j pod r, probed !! j = Some pod ∧ results !! (i + j)%nat = Some r
    ∧ pod_Name pod = n ∧ claims true r ∧ superseded currentUIDs pod = false) →
  is_Some (members' !! n).
Proof.
  revert i members. induction probed as [|pod probed IH]; intros i members Hrec Hd Hn; cbn in Hrec.
  { simplify_eq. destruct Hn as [|(j & ? & ? & ? & _)]; [done|by rewrite lookup_nil in *]. }
  destruct (results !! i) as [r|] eqn:Hr; [|done]. cbn in Hrec.
  assert (pod_Name pod = n → ¬ claims false r) as Hd0 by (apply (Hd 0%nat); [done|by rewrite Nat.add_0_r]).
  apply (IH _ _ Hrec).
  - intros j pod' r' Hj Hr'. apply (Hd (S j)); [done|by rewrite Nat.add_succ_r].
  - destruct Hn as [Hn|([|j] & pod' & r' & Hj & Hr' & Hname & Hc & Hs)].
    + left. by apply record_report_keep.
    + cbn in Hj. rewrite Nat.add_0_r in Hr'. simplify_eq. left. by rewrite record_report_claim.
    + right. exists j, pod', r'. rewrite Nat.add_succ_r in Hr'. done.
Qed.
End loops.

Lemma superseded_not_replaced current members pod :
  not_replaced current (pod_Name pod) (pod_UID pod) → superseded (prune_replaced current members).1 pod = false.
Proof.
  intros Hn. unfold superseded. destruct (_ !! _) as [u|] eqn:Hu; [|done].
  apply prune_uids in Hu as (pod' & Hin & Hname & <-). by rewrite (Hn pod'), bool_decide_eq_true_2.
Qed.

(** Two instances on record are not settled. *)
Lemma settle_two expected (members : gmap string string) n1 n2 :
  n1 ≠ n2 → is_Some (members !! n1) → is_Some (members !! n2) → settle expected members = members.
Proof.
  intros Hne [u1 H1] [u2 H2]. unfold settle. case_bool_decide as Hsize; [|done].
  assert (size (delete n1 members) = 0%nat) as Hd by (rewrite map_size_delete_Some; [lia|by eauto]).
  apply map_size_empty_inv in Hd. rewrite <-(lookup_delete_ne _ n1) in H2 by done. by rewrite Hd in H2.
Qed.

Section claims.
Context `{TextLibrary, Unstructured}.

(** The key under which a Cluster's evidence is kept. *)
Definition evidence_key (cluster : object) : clusterKey := ClusterKey (GetNamespace cluster) (GetName cluster).

Abbreviation evidence cluster p := (current_evidence cluster (evidence_key cluster) p).

(** What a call computes before its verdict. *)
Lemma conflictingPrimary_inv observed cluster probed current results p b p' :
  conflictingPrimary observed cluster probed current results p = Some (b, p') →
  ∃ members,
    record_reports (prune_replaced current (evidence cluster p)).1 0 probed results
      (prune_replaced current (evidence cluster p)).2 = Some members
    ∧ (evidence cluster p') = settle (primaryNames observed).1 members
    ∧ (∀ k, k ≠ evidence_key cluster → p' !! k = p !! k)
    ∧ b = match evidence_fenced cluster with
          | None => true
          | Some fenced => unresolved (primaryNames cluster).1 fenced (evidence cluster p')
          end.
Proof.
  unfold conflictingPrimary. fold (evidence_key cluster).
  destruct (prune_replaced _ _) as [uids pruned]. cbn [fst snd].
  destruct (record_reports _ _ _ _ _) as [members|]; [|done]. cbn [mbind option_bind]. intros Hres.
  exists members. split; [done|].
  assert (p' = <[evidence_key cluster := {| evidence_clusterUID := GetUID cluster;
    evidence_members := settle (primaryNames observed).1 members |}]> p) as ->
    by (destruct (evidence_fenced cluster); by simplify_eq).
  assert (∀ e, evidence cluster (<[evidence_key cluster := {| evidence_clusterUID := GetUID cluster;
    evidence_members := e |}]> p) = e) as Hev.
  { intros e. unfold current_evidence. by rewrite lookup_insert_eq, bool_decide_eq_true_2. }
  rewrite !Hev. split_and!; [done| |destruct (evidence_fenced cluster); by simplify_eq].
  intros k Hk. by rewrite lookup_insert_ne.
Qed.

Lemma unresolved_spec expected fenced members :
  unresolved expected fenced members = true ↔
  ∃ n u, members !! n = Some u ∧ n ≠ expected ∧ ("*" ∉ fenced) ∧ n ∉ fenced.
Proof.
  unfold unresolved. rewrite existsb_exists. setoid_rewrite andb_true_iff. setoid_rewrite andb_true_iff.
  setoid_rewrite negb_true_iff. unfold Contains. setoid_rewrite bool_decide_eq_false. split.
  - intros ([n u] & Hin & (? & ?) & ?). exists n, u. split_and!; try done.
    by apply elem_of_map_to_list, list_elem_of_In.
  - intros (n & u & Hn & ? & ? & ?). exists (n, u). split_and!; try done.
    by apply list_elem_of_In, elem_of_map_to_list.
Qed.

(** A suspect instance is on record after the loops. *)
Lemma suspect_recorded probed current results before members n :
  record_reports (prune_replaced current before).1 0 probed results (prune_replaced current before).2 = Some members →
  suspect probed current results before n → is_Some (members !! n).
Proof.
  intros Hrec [Hc Hd]. eapply record_reports_keep; [exact Hrec|exact Hd|].
  destruct Hc as [(u & Hu & Hn)|(j & pod & r & Hj & Hr & <- & Hc & Hn)].
  - left. exists u. by apply prune_members.
  - right. exists j, pod, r. split_and!; try done. by apply superseded_not_replaced.
Qed.

(** C12: two instances with a primary claim, on record or just reported, that are
    neither replaced nor verified as demoted stay on record together whatever the
    Cluster's primary fields say, and are reported as a conflict unless they are
    fenced. *)
Theorem split_brain_retained observed cluster probed current results p b p' n1 n2 :
  conflictingPrimary observed cluster probed current results p = Some (b, p') →
  n1 ≠ n2 →
  suspect probed current results (evidence cluster p) n1 →
  suspect probed current results (evidence cluster p) n2 →
  is_Some ((evidence cluster p') !! n1) ∧ is_Some ((evidence cluster p') !! n2)
  ∧ ((∀ fenced, evidence_fenced cluster = Some fenced → ("*" ∉ fenced) ∧ (n1 ∉ fenced) ∧ n2 ∉ fenced) → b = true).
Proof.
  intros (members & Hrec & Hev & _ & Hb)%conflictingPrimary_inv Hne H1 H2.
  apply (suspect_recorded _ _ _ _ _ _ Hrec) in H1, H2.
  rewrite (settle_two _ _ n1 n2) in Hev by done. rewrite Hev in *. split_and!; [done..|].
  intros Hf. subst b. destruct (evidence_fenced cluster) as [fenced|]; [|done].
  destruct (Hf fenced eq_refl) as (? & ? & ?). destruct H1 as [u1 H1], H2 as [u2 H2]. apply unresolved_spec.
  destruct (decide (n1 = (primaryNames cluster).1)); [exists n2, u2|exists n1, u1]; split_and!; congruence || done.
Qed.

(** C13: a conflict is reported exactly when the fencing annotation is malformed
    or an unfenced instance other than the expected primary is on record. *)
Theorem conflict_exact observed cluster probed current results p b p' :
  conflictingPrimary observed cluster probed current results p = Some (b, p') →
  b = true ↔ evidence_fenced cluster = None ∨
    ∃ fenced n u, evidence_fenced cluster = Some fenced ∧ (evidence cluster p') !! n = Some u
      ∧ n ≠ (primaryNames cluster).1 ∧ ("*" ∉ fenced) ∧ n ∉ fenced.
Proof.
  intros (members & _ & _ & _ & ->)%conflictingPrimary_inv. destruct (evidence_fenced cluster) as [fenced|]; [|naive_solver].
  rewrite unresolved_spec. naive_solver.
Qed.

Lemma conflict_total observed cluster probed current results p :
  (length probed ≤ length results)%nat → is_Some (conflictingPrimary observed cluster probed current results p).
Proof.
  intros Hlen. unfold conflictingPrimary. destruct (prune_replaced _ _) as [uids pruned].
  destruct (record_reports_total uids 0 probed results pruned) as [m ->]; [done|].
  cbn. by destruct (evidence_fenced cluster).
Qed.

(** With a result for every probed Pod the check returns; what is on record
    afterwards was on record before for an unreplaced Pod or was claimed in this
    collection, and no other Cluster's record changes. *)
Theorem evidence_sound observed cluster probed current results p :
  (length probed ≤ length results)%nat →
  ∃ b p', conflictingPrimary observed cluster probed current results p = Some (b, p')
  ∧ (∀ n u, (evidence cluster p') !! n = Some u →
      (evidence cluster p) !! n = Some u ∧ not_replaced current n u
      ∨ ∃ j pod r, probed !! j = Some pod ∧ results !! j = Some r
          ∧ pod_Name pod = n ∧ pod_UID pod = u ∧ claims true r)
  ∧ ∀ k, k ≠ evidence_key cluster → p' !! k = p !! k.
Proof.
  intros Hlen. destruct (conflict_total observed cluster probed current results p Hlen) as [[b p'] E].
  exists b, p'. split; [done|]. apply conflictingPrimary_inv in E as (members & Hrec & Hev & Hk & _).
  split; [|done]. rewrite Hev. intros n u Hn.
  assert (members !! n = Some u) as Hm by (unfold settle in Hn; by destruct (_ && _)).
  destruct (record_reports_sound _ _ _ _ _ _ _ _ Hrec Hm) as [Hp|?]; [left|by right]. by apply prune_members.
Qed.

(** When nothing is on record and only the Cluster's expected primary claims
    the role, no conflict is reported and nothing is put on record. *)
Theorem healthy_primary_no_conflict observed cluster probed current results p b p' fenced :
  conflictingPrimary observed cluster probed current results p = Some (b, p') →
  (evidence cluster p) = ∅ → evidence_fenced cluster = Some fenced →
  (∀ j pod r, probed !! j = Some pod → results !! j = Some r → claims true r →
    pod_Name pod = (primaryNames observed).1) →
  b = false ∧ (evidence cluster p') = ∅.
Proof.
  intros (members & Hrec & Hev & _ & Hb)%conflictingPrimary_inv Hempty Hf Honly.
  assert (∀ n u, members !! n = Some u → n = (primaryNames observed).1) as Hmem.
  { intros n u Hn. destruct (record_reports_sound _ _ _ _ _ _ _ _ Hrec Hn) as [Hp|(j & pod & r & ? & ? & <- & _ & ?)].
    - apply prune_members in Hp as [Hp _]. by rewrite Hempty in Hp.
    - by eapply Honly. }
  assert (settle (primaryNames observed).1 members = ∅) as Hset.
  { unfold settle. destruct (decide (members = ∅)) as [->|Hne]; [by destruct (_ && _)|].
    apply map_choose in Hne as (n & u & Hn). pose proof (Hmem _ _ Hn) as ->.
    rewrite (bool_decide_eq_true_2 (is_Some _)) by eauto. rewrite bool_decide_eq_true_2; [done|].
    rewrite <-(map_size_singleton (M := gmap string) (primaryNames observed).1 u). f_equal.
    apply map_eq. intros k. destruct (decide (k = (primaryNames observed).1)) as [->|Hk].
    - by rewrite lookup_singleton_eq.
    - rewrite lookup_singleton_ne by done. destruct (members !! k) eqn:E; [|done]. by apply Hmem in E. }
  rewrite Hset in Hev. rewrite Hf, Hev in Hb. by subst.
Qed.
End claims.

(** ** Concrete collections *)

Section example.
#[local] Existing Instances plain_access plain_text.

(** Both [db-1] and [db-2] claim to be primary. *)
Definition split_results : list statusResult := [example_status true []; example_status true []].
Definition split_pods : list Pod := [example_pod "db-1" "True"; example_pod "db-2" "True"].
Definition split_call := conflictingPrimary (example_cluster "db-1") (example_cluster "db-1") split_pods split_pods split_results ∅.

Lemma split_not_replaced name : name ∈ ["db-1"; "db-2"] → not_replaced split_pods name ("uid-" +:+ name).
Proof. intros _ pod Hin. apply elem_of_cons in Hin as [->|[->|[]%elem_of_nil]%elem_of_cons]; cbn; by intros <-. Qed.

Lemma split_suspect j name r :
  split_pods !! j = Some (example_pod name "True") → split_results !! j = Some r → claims true r →
  suspect split_pods split_pods split_results ∅ name.
Proof.
  intros Hj Hr Hc. split.
  - right. exists j, (example_pod name "True"), r. split_and!; [done..|].
    assert (name ∈ ["db-1"; "db-2"]) as Hn by (destruct j as [|[|]]; cbn in Hj; simplify_eq; set_solver).
    by apply split_not_replaced.
  - intros [|[|]] pod r' Hp Hr' _; cbn in Hp, Hr'; simplify_eq; by intros [_ [=]].
Qed.

Lemma split_verdict : fst <$> split_call = Some true.
Proof. vm_compute. reflexivity. Qed.

Lemma split_brain_retained_witness :
  ∃ b p', split_call = Some (b, p') ∧ b = true
    ∧ is_Some (current_evidence (example_cluster "db-1") (ClusterKey "app" "db") p' !! "db-2").
Proof.
  pose proof split_verdict as Hv. destruct split_call as [[b p']|] eqn:E; [|discriminate Hv].
  exists b, p'. split; [reflexivity|].
  destruct (split_brain_retained _ _ _ _ _ _ _ _ "db-1" "db-2" E) as (_ & H2 & Hb).
  - discriminate.
  - eapply (split_suspect 0); [reflexivity..|by split].
  - eapply (split_suspect 1); [reflexivity..|by split].
  - split; [|exact H2]. apply Hb. intros fenced Hf. vm_compute in Hf. injection Hf as <-.
    split_and!; apply not_elem_of_nil.
Defined.

Lemma conflict_exact_witness :
  ∃ b p', split_call = Some (b, p')
    ∧ (evidence_fenced (example_cluster "db-1") = None ∨
       ∃ fenced n u, evidence_fenced (example_cluster "db-1") = Some fenced
        ∧ current_evidence (example_cluster "db-1") (ClusterKey "app" "db") p' !! n = Some u
        ∧ n ≠ "db-1" ∧ ("*" ∉ fenced) ∧ n ∉ fenced).
Proof.
  pose proof split_verdict as Hv. destruct split_call as [[b p']|] eqn:E; [|discriminate Hv].
  exists b, p'. split; [reflexivity|]. apply (conflict_exact _ _ _ _ _ _ _ _ E).
  injection Hv as Hv. exact Hv.
Defined.

Lemma evidence_sound_witness :
  ∃ b p', split_call = Some (b, p') ∧ ∀ k, k ≠ ClusterKey "app" "db" → p' !! k = (∅ : primaries) !! k.
Proof.
  destruct (evidence_sound (example_cluster "db-1") (example_cluster "db-1") split_pods split_pods split_results ∅)
    as (b & p' & Hc & _ & Hk); [apply Nat.leb_le; reflexivity|]. exists b, p'. split; [exact Hc|exact Hk].
Defined.

(** The Cluster moves to [db-2] while [db-1] reports that it is primary. *)
Definition moved_call := conflictingPrimary (example_cluster "db-1") (example_cluster "db-2")
  example_pods example_pods example_results ∅.

Lemma moved_defined : is_Some moved_call.
Proof. apply (bool_decide_eq_true_1 _). vm_compute. reflexivity. Qed.

Lemma healthy_primary_no_conflict_witness : ∃ p', moved_call = Some (false, p').
Proof.
  destruct moved_defined as [[b p'] E]. rewrite E. exists p'. destruct (healthy_primary_no_conflict _ _ _ _ _ _ _ _ [] E) as [-> _]; [reflexivity..| |reflexivity].
  intros j pod r Hp Hr [_ Hc]. destruct j as [|[|[|j]]]; [..|discriminate Hp].
  - injection Hp as <-. reflexivity.
  - injection Hr as <-. discriminate Hc.
  - injection Hr as <-. discriminate Hc.
Defined.
End example.
