(* ===== verification/Grpc.v ===== *)
(** * The discovery service (src/internal/discovery/grpc.go)

    Request authorisation and validation, the wire messages of
    src/api/connect/v1/topology.pb.go, and the two handlers.  The handlers hold no
    lock between their store accesses: everything other goroutines do to the
    store in between is an argument ([interference]). *)

From Stdlib Require Import Ascii.
From S2P Require Import Prelude Api Mailbox Store.

(** ** Libraries *)

(** [sha256.Sum256], the Kubernetes name validation and the protobuf timestamp.
    [AsTime] is how a client reads a timestamp; the documentation promises that
    it inverts [timestamppb.New]. *)
Class ServiceLibrary := {
  sum : Type;
  sum_eq_dec :: EqDecision sum;
  Sum256 : string → sum;
  IsDNS1123Label : string → bool;
  DNS1123SubdomainMaxLength : Z;
  Timestamp : Type;
  timestamppb_New : time → Timestamp;
  AsTime : Timestamp → time;
  AsTime_New : ∀ t, AsTime (timestamppb_New t) = t;
}.

(** The status codes the service returns. *)
Inductive code := Canceled | DeadlineExceeded | InvalidArgument | NotFound | ResourceExhausted
  | Unauthenticated.

#[export] Instance code_eq_dec : EqDecision code.
Proof. solve_decision. Defined.

Record status := Status { status_code : code; status_message : string }.

(** ** Strings *)

(** [strings.Cut s " "]. *)
Fixpoint Cut (s : string) : string * string * bool :=
  match s with
  | EmptyString => (EmptyString, EmptyString, false)
  | String c s =>
      if bool_decide (c = " "%char) then (EmptyString, s, true)
      else let '(before, after, found) := Cut s in (String c before, after, found)
  end.

(** [strings.Split s "."]. *)
Fixpoint Split (s : string) : list string :=
  match s with
  | EmptyString => [EmptyString]
  | String c s =>
      if bool_decide (c = "."%char) then EmptyString :: Split s
      else match Split s with
           | label :: labels => String c label :: labels
           | [] => [String c EmptyString]
           end
  end.

(** [strings.EqualFold s t] for a [t] of ASCII letters without special case
    folding, as ["Bearer"] is. *)
Definition lower_ascii (c : ascii) : ascii :=
  let n := nat_of_ascii c in
  if (65 <=? n)%nat && (n <=? 90)%nat then ascii_of_nat (n + 32) else c.

Fixpoint EqualFold (s t : string) : bool :=
  match s, t with
  | EmptyString, EmptyString => true
  | String c s, String d t => bool_decide (lower_ascii c = lower_ascii d) && EqualFold s t
  | _, _ => false
  end.

(** ** Wire messages (topology.pb.go) *)

Inductive Role := ROLE_UNKNOWN | ROLE_PRIMARY | ROLE_STANDBY.
Inductive SyncStatePB := SYNC_STATE_UNKNOWN | SYNC_STATE_SYNC | SYNC_STATE_QUORUM
  | SYNC_STATE_POTENTIAL | SYNC_STATE_ASYNC.

Record ClusterRefPB := { pb_Namespace : string; pb_Name : string; pb_Uid : string }.

Record EndpointPB := { pb_Host : string; pb_Port : Z; (* uint32 *) pb_ServerName : string }.

Record MemberPB := {
  pb_Id : string;
  pb_MemberName : string;
  pb_Role : Role;
  pb_SyncState : SyncStatePB;
  pb_Ready : bool;
  pb_MemberReason : string;
  pb_Endpoints : gmap string EndpointPB;
  pb_Node : string;
  pb_Zone : string;
  pb_Region : string;
  pb_Timeline : Z; (* int64 *)
  pb_ReplayLsn : string;
}.

Record ConnectionParametersPB := { pb_Database : string; pb_ServerCaPem : string }.

Definition wrap_u32 (z : Z) : Z := z mod 2 ^ 32.

Definition roleToProto (role : string) : Role :=
  if bool_decide (role = "primary") then ROLE_PRIMARY
  else if bool_decide (role = "standby") then ROLE_STANDBY
  else ROLE_UNKNOWN.

Definition syncToProto (state : string) : SyncStatePB :=
  if bool_decide (state = "sync") then SYNC_STATE_SYNC
  else if bool_decide (state = "quorum") then SYNC_STATE_QUORUM
  else if bool_decide (state = "potential") then SYNC_STATE_POTENTIAL
  else if bool_decide (state = "async") then SYNC_STATE_ASYNC
  else SYNC_STATE_UNKNOWN.

Definition endpointToProto (e : Endpoint) : EndpointPB := {|
  pb_Host := endpoint_Host e; pb_Port := wrap_u32 (endpoint_Port e); pb_ServerName := endpoint_ServerName e;
|}.

Definition memberToProto (m : Member) : MemberPB := {|
  pb_Id := member_ID m;
  pb_MemberName := member_Name m;
  pb_Role := roleToProto (member_Role m);
  pb_SyncState := syncToProto (member_SyncState m);
  pb_Ready := member_Ready m;
  pb_MemberReason := member_Reason m;
  pb_Endpoints := map_fold (λ network e acc, <[network := endpointToProto e]> acc) ∅ (member_Endpoints m);
  pb_Node := member_Node m;
  pb_Zone := member_Zone m;
  pb_Region := member_Region m;
  pb_Timeline := wrap_s64 (member_Timeline m);
  pb_ReplayLsn := member_ReplayLSN m;
|}.

Section service.
Context `{ServiceLibrary, RoutingDigest}.

Record SnapshotPB := {
  pb_ApiVersion : string;
  pb_Cluster : ClusterRefPB;
  pb_Revision : string;
  pb_ObservedAt : Timestamp;
  pb_ValidUntil : Timestamp;
  pb_Available : bool;
  pb_Reason : string;
  pb_PrimaryId : string;
  pb_Transitioning : bool;
  pb_Members : list MemberPB;
  pb_Connection : ConnectionParametersPB;
}.

Definition toProto (s : Snapshot) : SnapshotPB := {|
  pb_ApiVersion := snapshot_APIVersion s;
  pb_Cluster := {| pb_Namespace := cluster_Namespace (snapshot_Cluster s);
                   pb_Name := cluster_Name (snapshot_Cluster s); pb_Uid := cluster_UID (snapshot_Cluster s) |};
  pb_Revision := snapshot_Revision s;
  pb_ObservedAt := timestamppb_New (snapshot_ObservedAt s);
  pb_ValidUntil := timestamppb_New (snapshot_ValidUntil s);
  pb_Available := snapshot_Available s;
  pb_Reason := snapshot_Reason s;
  pb_PrimaryId := snapshot_PrimaryID s;
  pb_Transitioning := snapshot_Transitioning s;
  pb_Members := memberToProto <$> snapshot_Members s;
  pb_Connection := {| pb_Database := connection_Database (snapshot_Connection s);
                      pb_ServerCaPem := connection_ServerCAPEM (snapshot_Connection s) |};
|}.

(** ** Authorisation and validation *)

Record Server := { authenticated : bool; tokenDigest : sum }.

Definition NewServer (token : string) : Server :=
  {| authenticated := negb (bool_decide (token = "")); tokenDigest := Sum256 token |}.

Definition unauthenticated : status := Status Unauthenticated "valid bearer token required".

(** [values] are the [authorization] values of the incoming metadata. *)
Definition authorize (srv : Server) (values : list string) : option status :=
  if negb (authenticated srv) then None
  else
    match values with
    | [value] =>
        let '(scheme, token, ok) := Cut value in
        let valid := bool_decide (tokenDigest srv = Sum256 token) in
        if negb ok || negb (EqualFold scheme "Bearer") || negb valid then Some unauthenticated else None
    | _ => Some unauthenticated
    end.

Definition validDNSName (value : string) (dots : bool) : bool :=
  if negb dots then IsDNS1123Label value
  else if DNS1123SubdomainMaxLength <? Z.of_nat (String.length value) then false
  else forallb IsDNS1123Label (Split value).

Definition validateReference (namespace name : string) : option status :=
  if negb (validDNSName namespace false) || negb (validDNSName name true)
  then Some (Status InvalidArgument "namespace and name must be valid Kubernetes resource names")
  else None.

Definition not_observed : status := Status NotFound "cluster is not observed".

(** ** GetTopology *)

(** What the other goroutines do to the store between two accesses. *)
Definition interference : Type := Store → Store.

(** The handler: the response or a status, and the demand handler's call. *)
Definition GetTopology (srv : Server) (values : list string) (namespace name : string)
    (now1 : time) (between : interference) (now2 : time) :
    State Store ((status + SnapshotPB) * option clusterKey) :=
  match authorize srv values with
  | Some err => mret (inl err, None)
  | None =>
      match validateReference namespace name with
      | Some err => mret (inl err, None)
      | None =>
          let key := ClusterKey namespace name in
          refreshed ← RequestRefresh key now1;
          modify between ;;
          read ← readPublication key now2;
          mret (match read.1 with
                | None => inl not_observed
                | Some published => inr (toProto (publication_snapshot published))
                end, refreshed.2)
      end
  end.

(** ** WatchTopology *)

(** What one iteration of the loop receives: the end of the stream's context,
    the closed mailbox, or a publication.  For a publication: what happens to the
    store before the expiry lookup, the two clock readings, and the error of
    [Send], if any. *)
Inductive watch_event :=
  | WatchDone (err : status)
  | WatchClosed
  | WatchPublication (published : publication) (now1 : time) (before : interference) (now2 : time)
      (send : option status).

(** A message handed to [Send], with the publication it renders and the last
    clock reading before it. *)
Record sent := Sent { sent_publication : publication; sent_now : time; sent_message : SnapshotPB }.

Inductive watch_outcome :=
  | Continue (out : option sent) (lastSent : Z)
  | Return (out : option sent) (err : option status).

(** The publication to send, or [None] to continue: a pending snapshot that is no
    longer valid is replaced by the store's current one. *)
Definition watch_select (published : publication) (now1 : time) (before : interference) (now2 : time) :
    State Store (option (publication * time)) :=
  let snapshot := publication_snapshot published in
  if negb (bool_decide (snapshot_Reason snapshot = "deleted")) && negb (Before now1 (snapshot_ValidUntil snapshot))
  then
    modify before ;;
    read ← readPublication (ref_key (snapshot_Cluster snapshot)) now2;
    mret ((λ latest, (latest, now2)) <$> read.1)
  else mret (Some (published, now1)).

(** One iteration of the [for] loop. *)
Definition watch_iteration (ev : watch_event) (lastSent : Z) : State Store watch_outcome :=
  match ev with
  | WatchDone err => mret (Return None (Some err))
  | WatchClosed => mret (Return None None)
  | WatchPublication published now1 before now2 send =>
      chosen ← watch_select published now1 before now2;
      mret (match chosen with
            | None => Continue None lastSent
            | Some (published, now) =>
                if publication_order published <=? lastSent then Continue None lastSent
                else
                  let out := Sent published now (toProto (publication_snapshot published)) in
                  match send with
                  | Some err => Return (Some out) (Some err)
                  | None => Continue (Some out) (publication_order published)
                  end
            end)
  end.

(** The loop over the received events; [None] as result while it still runs. *)
Fixpoint watch_loop (events : list watch_event) (lastSent : Z) : State Store (list sent * option (option status)) :=
  match events with
  | [] => mret ([], None)
  | ev :: events =>
      outcome ← watch_iteration ev lastSent;
      match outcome with
      | Return out err => mret (option_list out, Some err)
      | Continue out lastSent =>
          rest ← watch_loop events lastSent;
          mret (option_list out ++ rest.1, rest.2)
      end
  end.

(** The handler; the subscription's mailbox supplies [events] once [register]
    succeeded, and its [cancel] runs when the handler returns. *)
Definition WatchTopology (srv : Server) (values : list string) (namespace name : string)
    (watcher : sid) (now1 now2 : time) (events : list watch_event) :
    State Store (list sent * option (option status)) :=
  match authorize srv values with
  | Some err => mret ([], Some (Some err))
  | None =>
      match validateReference namespace name with
      | Some err => mret ([], Some (Some err))
      | None =>
          let key := ClusterKey namespace name in
          reg ← register key true watcher now1 now2;
          if registration_exists reg then
            result ← watch_loop events 0;
            (match result.2 with Some _ => unregister key watcher | None => mret () end) ;;
            mret result
          else mret ([], Some (Some not_observed))
      end
  end.
End service.
