(* ===== verification/GrpcProps.v ===== *)
(** * Correctness of the discovery service

    Authorisation accepts exactly the bearer token; the wire encoding loses
    nothing of a snapshot the observer can build; a stream never goes back and
    never sends a route that is known to be stale. *)

From Stdlib Require Import Ascii.
From S2P Require Import Prelude Api Mailbox Store StoreFacts StoreProps Config Kube Topology TopologyFacts TopologyProps Grpc.

(** ** Cutting at a space *)

Fixpoint no_space (s : string) : Prop :=
  match s with EmptyString => True | String c s => c ≠ " "%char ∧ no_space s end.

Lemma Cut_spec s before after : Cut s = (before, after, true) ↔ s = before +:+ " " +:+ after ∧ no_space before.
Proof.
  revert before after. induction s as [|c s IH]; intros before after; cbn.
  - split; [done|]. intros [Hs _]. by destruct before.
  - case_bool_decide as Hc.
    + subst. split.
      * intros [= <- <-]. done.
      * intros [Hs Hb]. destruct before as [|d before]; injection Hs as Hs; [by subst|]. by destruct Hb.
    + destruct (Cut s) as [[b a] f] eqn:E. split.
      * intros [= <- <- ->]. destruct (proj1 (IH b a) eq_refl) as [-> Hb]. done.
      * intros [Hs Hb]. destruct before as [|d before]; injection Hs as -> Hs; [done|]. destruct Hb as [_ Hb].
        pose proof (proj2 (IH before after) (conj Hs Hb)). by simplify_eq.
Qed.

(** ** Reading a message *)

Definition role_string (r : Role) : string :=
  match r with ROLE_PRIMARY => "primary" | ROLE_STANDBY => "standby" | ROLE_UNKNOWN => "unknown" end.

Definition sync_string (s : SyncStatePB) : string :=
  match s with
  | SYNC_STATE_SYNC => "sync" | SYNC_STATE_QUORUM => "quorum" | SYNC_STATE_POTENTIAL => "potential"
  | SYNC_STATE_ASYNC => "async" | SYNC_STATE_UNKNOWN => "unknown"
  end.

Definition read_endpoint (e : EndpointPB) : Endpoint := {|
  endpoint_Host := pb_Host e; endpoint_Port := pb_Port e; endpoint_ServerName := pb_ServerName e;
|}.

Definition read_member (m : MemberPB) : Member := {|
  member_ID := pb_Id m; member_Name := pb_MemberName m; member_Role := role_string (pb_Role m);
  member_SyncState := sync_string (pb_SyncState m); member_Ready := pb_Ready m;
  member_Reason := pb_MemberReason m; member_Endpoints := read_endpoint <$> pb_Endpoints m;
  member_Node := pb_Node m; member_Zone := pb_Zone m; member_Region := pb_Region m;
  member_Timeline := pb_Timeline m; member_ReplayLSN := pb_ReplayLsn m;
|}.

(** The values a wire message can carry. *)
Record member_wire (m : Member) : Prop := {
  wire_role : member_Role m ∈ ["unknown"; "primary"; "standby"];
  wire_sync : member_SyncState m ∈ ["unknown"; "sync"; "quorum"; "potential"; "async"];
  wire_ports : map_Forall (λ _ e, 0 ≤ endpoint_Port e < 2 ^ 16) (member_Endpoints m);
  wire_timeline : in_s64 (member_Timeline m);
}.

Lemma endpointToProto_read e : 0 ≤ endpoint_Port e < 2 ^ 16 → read_endpoint (endpointToProto e) = e.
Proof.
  intros Hp. destruct e. unfold read_endpoint, endpointToProto, wrap_u32. cbn in *. f_equal.
  apply Z.mod_small. lia.
Qed.

Lemma endpoints_converted (m : gmap string Endpoint) :
  map_fold (λ network e acc, <[network := endpointToProto e]> acc) ∅ m = endpointToProto <$> m.
Proof.
  apply (map_fold_weak_ind (λ r m, r = endpointToProto <$> m)).
  - by rewrite fmap_empty.
  - intros i x m' r Hi ->. by rewrite fmap_insert.
Qed.

Lemma memberToProto_read m : member_wire m → read_member (memberToProto m) = m.
Proof.
  intros [Hr Hs Hp Ht]. destruct m. unfold read_member, memberToProto. cbn in *. f_equal.
  - rewrite !elem_of_cons, elem_of_nil in Hr. by destruct Hr as [->|[->|[->|[]]]].
  - rewrite !elem_of_cons, elem_of_nil in Hs. by destruct Hs as [->|[->|[->|[->|[->|[]]]]]].
  - rewrite endpoints_converted, <-map_fmap_compose. rewrite <-(map_fmap_id member_Endpoints) at 2.
    apply map_fmap_ext. intros i e Hi. apply endpointToProto_read, (Hp i e Hi).
  - by apply wrap_s64_small.
Qed.

Section service.
Context `{ServiceLibrary, RoutingDigest}.

Definition read_snapshot (s : SnapshotPB) : Snapshot := {|
  snapshot_APIVersion := pb_ApiVersion s;
  snapshot_Cluster := {| cluster_Namespace := pb_Namespace (pb_Cluster s); cluster_Name := pb_Name (pb_Cluster s);
                         cluster_UID := pb_Uid (pb_Cluster s) |};
  snapshot_Revision := pb_Revision s;
  snapshot_ObservedAt := AsTime (pb_ObservedAt s); snapshot_ValidUntil := AsTime (pb_ValidUntil s);
  snapshot_Available := pb_Available s; snapshot_Reason := pb_Reason s; snapshot_PrimaryID := pb_PrimaryId s;
  snapshot_Transitioning := pb_Transitioning s; snapshot_Members := read_member <$> pb_Members s;
  snapshot_Connection := {| connection_Database := pb_Database (pb_Connection s);
                            connection_ServerCAPEM := pb_ServerCaPem (pb_Connection s) |};
|}.

Lemma toProto_read s : Forall member_wire (snapshot_Members s) → read_snapshot (toProto s) = s.
Proof.
  intros Hm. destruct s as [v [] rev obs val av re pr tr ms []]. unfold read_snapshot, toProto. cbn in *.
  rewrite !AsTime_New. f_equal. rewrite <-list_fmap_compose. rewrite <-(list_fmap_id ms) at 2.
  apply list_fmap_ext. intros i m Hi. apply memberToProto_read. by eapply Forall_lookup_1.
Qed.

(** ** Streams *)

(** Interference that keeps the store well formed, as every store operation does. *)
Definition event_ok (ev : watch_event) : Prop :=
  match ev with
  | WatchPublication _ _ before _ _ => ∀ s, store_wf s → store_wf (before s) ∧ headroom (before s) 1
  | _ => True
  end.

(** What the code has checked before it sends: a snapshot published as deleted is sent
    unchecked, so that the message routes nowhere as long as only closed snapshots are
    published as deleted; see [faithful] in [DeliveryProps]. *)
Definition fresh (x : sent) : Prop :=
  let s := publication_snapshot (sent_publication x) in
  snapshot_Reason s = "deleted" ∨ sent_now x < snapshot_ValidUntil s ∨ fail_closed s.

Lemma watch_select_fresh published now1 before now2 s :
  event_ok (WatchPublication published now1 before now2 None) → store_wf s →
  store_wf (watch_select published now1 before now2 s).2
  ∧ ∀ p now m, (watch_select published now1 before now2 s).1 = Some (p, now) → fresh (Sent p now m).
Proof.
  intros Hok Hs. unfold watch_select, fresh. cbn.
  destruct (_ && _) eqn:Hb.
  - boolify. destruct (Hok s Hs) as [Hs' Hroom]. run_state.
    pose proof (readPublication_wf (ref_key (snapshot_Cluster (publication_snapshot published))) now2 _ Hs' Hroom) as Hwf.
    pose proof (readPublication_fail_closed (ref_key (snapshot_Cluster (publication_snapshot published))) now2 (before s)) as Hfc.
    destruct (readPublication _ now2 (before s)) as [[[p|] n] s'']; cbn in *; (split; [done|]); [|done].
    intros p' now m [= <- <-]. right. by apply Hfc.
  - split; [done|]. intros p now m [= <- <-]. apply andb_false_iff in Hb as [Hb|Hb]; boolify; [left|right; left]; done.
Qed.

Lemma watch_iteration_spec ev lastSent s :
  event_ok ev → store_wf s →
  store_wf (watch_iteration ev lastSent s).2 ∧
  match (watch_iteration ev lastSent s).1 with
  | Continue out lastSent' =>
      match out with
      | Some x => lastSent < publication_order (sent_publication x) ∧ lastSent' = publication_order (sent_publication x)
                  ∧ fresh x ∧ sent_message x = toProto (publication_snapshot (sent_publication x))
      | None => lastSent' = lastSent
      end
  | Return out _ =>
      match out with
      | Some x => lastSent < publication_order (sent_publication x) ∧ fresh x
                  ∧ sent_message x = toProto (publication_snapshot (sent_publication x))
      | None => True
      end
  end.
Proof.
  intros Hok Hs. destruct ev as [err| |published now1 before now2 send]; [done..|].
  unfold watch_iteration. rewrite State_bind_run.
  destruct (watch_select_fresh published now1 before now2 s Hok Hs) as [Hwf Hfresh].
  destruct (watch_select published now1 before now2 s) as [[[p now]|] s']; cbn in *; [|done].
  destruct (Z.leb_spec (publication_order p) lastSent); cbn; [done|].
  destruct send; cbn; split_and!; try done; by apply Hfresh.
Qed.

(** Orders of a list of messages, all above a bound and strictly increasing. *)
Fixpoint increasing (from : Z) (l : list sent) : Prop :=
  match l with
  | [] => True
  | x :: l => from < publication_order (sent_publication x) ∧ increasing (publication_order (sent_publication x)) l
  end.

Lemma watch_loop_spec events lastSent s :
  Forall event_ok events → store_wf s →
  store_wf (watch_loop events lastSent s).2
  ∧ increasing lastSent (watch_loop events lastSent s).1.1
  ∧ Forall (λ x, fresh x ∧ sent_message x = toProto (publication_snapshot (sent_publication x)))
      (watch_loop events lastSent s).1.1.
Proof.
  revert lastSent s. induction events as [|ev events IH]; intros lastSent s Hok Hs; [done|].
  apply Forall_cons in Hok as [Hev Hok]. cbn [watch_loop]. rewrite State_bind_run.
  destruct (watch_iteration_spec ev lastSent s Hev Hs) as [Hwf Hit].
  destruct (watch_iteration ev lastSent s) as [[out last'|out err] s']; cbn [fst snd] in *.
  - rewrite State_bind_run. destruct (IH last' s' Hok Hwf) as (Hwf' & Hinc & Hall).
    destruct (watch_loop events last' s') as [[l r] s'']. cbn in *.
    destruct out as [x|]; cbn; [|by subst].
    destruct Hit as (Hlt & -> & Hf & Hm). split_and!; [done..|]. by constructor.
  - cbn. destruct out as [x|]; cbn; [|done]. destruct Hit as (Hlt & Hf & Hm). split_and!; [done..|].
    by constructor; [|constructor].
Qed.
End service.

(** ** What the observer builds is wire safe *)

Section built.
Context `{TextLibrary, MapRange, Unstructured}.
Context (cluster : object) (params : Parameters).
Context (Hports : map_Forall (λ _ e, 0 ≤ endpoint_Port e < 2 ^ 16) (entries_of (ExternalEndpoints params))).

Lemma pod_endpoints_ports serverName pod :
  map_Forall (λ _ e, 0 ≤ endpoint_Port e < 2 ^ 16) (pod_endpoints params serverName pod).
Proof.
  unfold pod_endpoints.
  assert (map_Forall (λ _ e, 0 ≤ endpoint_Port e < 2 ^ 16) (if bool_decide (pod_PodIP pod = "") then (∅ : gmap string Endpoint)
    else {["internal" := {| endpoint_Host := pod_PodIP pod; endpoint_Port := 5432; endpoint_ServerName := serverName |}]})) as Hint.
  { case_bool_decide; [apply map_Forall_empty|]. apply map_Forall_singleton. cbn. lia. }
  destruct (entries_of (ExternalEndpoints params) !! pod_Name pod) as [e|] eqn:He; [|done].
  apply map_Forall_insert_2; [|done]. exact (Hports _ _ He).
Qed.

Lemma scan_member_wire fenced pod r :
  in_s64 (Timeline (result_status r)) → member_wire (scan_member cluster params fenced pod r).
Proof.
  intros Ht. pose proof (scan_member_identity cluster params fenced pod r) as [[_ _ He _ _ _] _].
  assert (in_s64 0) by (unfold in_s64, s64_min, s64_max; lia).
  split; [..|rewrite He; apply pod_endpoints_ports|]; unfold scan_member, scan_pod; repeat case_goal; cbn; done || set_solver.
Qed.

Lemma verify_standby_wire primary m r : member_wire m → member_wire (verify_standby primary m r).
Proof.
  intros [Hr Hs Hp Ht]. unfold verify_standby. destruct (index_senders _). repeat case_goal; cbn; try by split.
  boolify. split; cbn; try done. match goal with H : Contains _ _ = true |- _ => apply Contains_spec in H; by right end.
Qed.

Lemma set_ready_wire ready m : member_wire m → member_wire (set_ready (member_SyncState m) "" ready m).
Proof. intros [????]. by split. Qed.

Lemma built_members_wire pods results at_ ttl s :
  Forall (λ r, in_s64 (Timeline (result_status r))) results →
  buildSnapshot cluster pods results params at_ ttl = Some s → Forall member_wire (snapshot_Members s).
Proof.
  intros Ht [_ Hs]%buildSnapshot_inv.
  assert (∀ fenced, Forall member_wire (scanned cluster pods results params fenced)) as Hscan.
  { intros fenced. apply Forall_lookup. intros j m (pod & r & -> & _ & Hr)%scanned_lookup.
    apply scan_member_wire. by eapply Forall_lookup_1 in Ht. }
  destruct Hs as [|fenced reason trans _ _ _ _|fenced i pod r m _ Hsole ->]; cbn; [constructor|apply Hscan|].
  apply Forall_lookup. intros j m (x & r' & -> & Hx & _)%lookup_zip_with_Some. apply verify_standby_wire.
  revert x Hx. apply Forall_lookup, Forall_insert; [apply Hscan|]. apply set_ready_wire, scan_member_wire.
  destruct Hsole as [_ Hr _ _ _ _]. by eapply Forall_lookup_1 in Ht.
Qed.
End built.

(** ** Theorems *)

Section claims.
Context `{ServiceLibrary, RoutingDigest}.

(** C35: without a configured token every request is authorised; with one, exactly
    the requests that carry a single authorization value whose scheme is Bearer,
    in any case, and whose token has the digest of the configured token. *)
Theorem authorize_exact token values :
  authorize (NewServer token) values = None ↔
  token = "" ∨ ∃ scheme t, values = [scheme +:+ " " +:+ t] ∧ no_space scheme
    ∧ EqualFold scheme "Bearer" = true ∧ Sum256 t = Sum256 token.
Proof.
  unfold authorize, NewServer. cbn. case_bool_decide as Ht; cbn; [naive_solver|].
  destruct values as [|v [|v' values]]; [naive_solver| |naive_solver].
  destruct (Cut v) as [[scheme t] []] eqn:Hcut; cbn.
  - apply Cut_spec in Hcut as [-> Hns]. destruct (EqualFold scheme "Bearer") eqn:Hf; cbn.
    + case_bool_decide as Hd; cbn; [split; [|done]; intros _; right; by exists scheme, t|].
      split; [done|]. intros [?|(scheme' & t' & [= Hv] & Hns' & _ & Hd')]; [done|].
      assert (Cut (scheme +:+ " " +:+ t) = (scheme', t', true)) as Hc by (apply Cut_spec; done).
      assert (Cut (scheme +:+ " " +:+ t) = (scheme, t, true)) as Hc' by (apply Cut_spec; done).
      rewrite Hc in Hc'. injection Hc' as -> ->. congruence.
    + split; [done|]. intros [?|(scheme' & t' & [= Hv] & Hns' & Hf' & _)]; [done|].
      assert (Cut (scheme +:+ " " +:+ t) = (scheme', t', true)) as Hc by (apply Cut_spec; done).
      assert (Cut (scheme +:+ " " +:+ t) = (scheme, t, true)) as Hc' by (apply Cut_spec; done).
      rewrite Hc in Hc'. injection Hc' as -> ->. congruence.
  - split; [done|]. intros [?|(scheme' & t' & [= ->] & Hns & _)]; [done|].
    by rewrite (proj2 (Cut_spec _ scheme' t')) in Hcut.
Qed.

(** The messages of a watch have strictly increasing commit orders, whatever
    the mailbox delivers and however other goroutines change the store, and a
    message that is not a tombstone routes only while its snapshot is valid at
    the last check before sending. *)
Theorem watch_stream_fresh srv values namespace name w now1 now2 events s :
  Forall event_ok events → store_wf s → headroom s 1 →
  let sents := (WatchTopology srv values namespace name w now1 now2 events s).1.1 in
  increasing 0 sents ∧ Forall fresh sents
  ∧ Forall (λ x, sent_message x = toProto (publication_snapshot (sent_publication x))) sents.
Proof.
  intros Hok Hs Hroom. unfold WatchTopology. destruct (authorize srv values); [done|].
  destruct (validateReference namespace name); [done|]. cbn zeta. rewrite State_bind_run.
  pose proof (register_wf (ClusterKey namespace name) true w now1 now2 s Hs Hroom) as Hwf.
  destruct (register _ _ _ _ _ s) as [reg s']. cbn [fst snd] in *.
  destruct (registration_exists reg); [|done]. rewrite State_bind_run.
  destruct (watch_loop_spec events 0 s' Hok Hwf) as (_ & Hinc & Hall). rewrite State_bind_run. cbn.
  rewrite Forall_and in Hall. tauto.
Qed.

(** C36: a unary read either fails with the status of the first failed check
    without touching the store, or reports a cluster that is not observed, or
    returns the cluster asked for with routes only while they are valid. *)
Theorem get_topology_response srv values namespace name now1 between now2 s r call s' :
  store_wf s → (∀ t, store_wf t → store_wf (between t) ∧ headroom (between t) 1) →
  GetTopology srv values namespace name now1 between now2 s = ((r, call), s') →
  let key := ClusterKey namespace name in
  (∃ err, (authorize srv values = Some err
           ∨ authorize srv values = None ∧ validateReference namespace name = Some err)
          ∧ r = inl err ∧ call = None ∧ s' = s)
  ∨ authorize srv values = None ∧ validateReference namespace name = None ∧
    let s1 := between (RequestRefresh key now1 s).2 in
    (r = inl not_observed ∧ records s1 !! key = None
     ∨ ∃ p, r = inr (toProto (publication_snapshot p))
         ∧ ref_key (snapshot_Cluster (publication_snapshot p)) = key
         ∧ (now2 < snapshot_ValidUntil (publication_snapshot p) ∨ fail_closed (publication_snapshot p))).
Proof.
  intros Hs Hbetween Hget key. unfold GetTopology in Hget.
  destruct (authorize srv values) as [err|] eqn:Ha; [left; exists err; run_state in Hget; simplify_eq; by auto|].
  destruct (validateReference namespace name) as [err|] eqn:Hv; [left; exists err; run_state in Hget; simplify_eq; by auto|].
  right. split_and!; [done..|]. cbn zeta. fold key in Hget. rewrite State_bind_run in Hget.
  set (s1 := between (RequestRefresh key now1 s).2) in *.
  assert (store_wf (RequestRefresh key now1 s).2) as Hwf0 by by apply RequestRefresh_wf.
  destruct (Hbetween _ Hwf0) as [Hwf Hroom]. fold s1 in Hwf, Hroom.
  rewrite State_bind_run in Hget. cbn [modify fst snd] in Hget. fold s1 in Hget.
  rewrite State_bind_run in Hget. pose proof (readPublication_wf key now2 s1 Hwf Hroom) as [Hrs _].
  pose proof (readPublication_current key now2 s1) as Hcur.
  pose proof (λ p, readPublication_fail_closed key now2 s1 p Hwf) as Hfc.
  destruct (readPublication key now2 s1) as [[[p|] n] s2] eqn:E; run_state in Hget; cbn in *; simplify_eq.
  - right. exists p. split_and!; [done| |by apply Hfc].
    destruct (records s' !! key) as [rec|] eqn:Hr; cbn in Hcur; simplify_eq.
    by eapply record_wf_key, records_wf_each.
  - left. split; [done|]. apply (readPublication_none key now2). by rewrite E.
Qed.

(** The wire message of a snapshot the observer built determines it: a client
    that reads the fields recovers every member, role, synchronisation state,
    endpoint and timestamp. *)
Theorem built_snapshot_lossless `{TextLibrary, MapRange, Unstructured} cluster pods results params at_ ttl s :
  map_Forall (λ _ e, 0 ≤ endpoint_Port e < 2 ^ 16) (entries_of (ExternalEndpoints params)) →
  Forall (λ r, in_s64 (Timeline (result_status r))) results →
  buildSnapshot cluster pods results params at_ ttl = Some s →
  read_snapshot (toProto s) = s.
Proof. intros Hp Ht Hs. by eapply toProto_read, built_members_wire. Qed.
End claims.

(** ** Concrete requests *)

Section example.
#[local] Existing Instances identity_digest plain_access plain_text plain_range.

(** Digests and timestamps are the values themselves; names are nonempty. *)
#[local] Instance plain_service : ServiceLibrary := {|
  sum := string; Sum256 := id; IsDNS1123Label v := negb (bool_decide (v = ""));
  DNS1123SubdomainMaxLength := 253; Timestamp := time; timestamppb_New := id; AsTime := id;
  AsTime_New t := eq_refl;
|}.

Lemma authorize_exact_witness : authorize (NewServer "secret") ["bearer secret"] = None.
Proof. apply authorize_exact. right. exists "bearer", "secret". cbn. split_and!; done. Defined.

(** The watch of a stored snapshot that expires while it is pending. *)
Definition example_events : list watch_event :=
  [WatchPublication (Publication (example_snapshot second) 1) (100 * second) (λ _, example_store) (100 * second) None;
   WatchPublication (Publication (example_snapshot second) 1) second (λ _, example_store) second None;
   WatchClosed].

Abbreviation example_watch :=
  (WatchTopology (NewServer "") [] (key_namespace example_key) (key_name example_key) 7 second second example_events
     example_store).

Lemma example_watch_ok : Forall event_ok example_events.
Proof.
  assert (∀ s, store_wf s → store_wf example_store ∧ headroom example_store 1) as Hok.
  { intros _ _. split; [apply (reachable_wf "process"), example_reachable|reflexivity]. }
  unfold example_events. repeat (apply Forall_cons; split); [exact Hok..|exact I|apply Forall_nil_2].
Qed.

Example example_watch_sends :
  (λ x, snapshot_Reason (publication_snapshot (sent_publication x))) <$> example_watch.1.1 = ["expired"].
Proof. vm_compute. reflexivity. Qed.

Lemma watch_stream_fresh_witness : increasing 0 example_watch.1.1 ∧ Forall fresh example_watch.1.1.
Proof.
  destruct (watch_stream_fresh (NewServer "") [] (key_namespace example_key) (key_name example_key) 7 second second
    example_events example_store) as (Hinc & Hf & _).
  - exact example_watch_ok.
  - exact (reachable_wf "process" _ example_reachable).
  - reflexivity.
  - split; [exact Hinc|exact Hf].
Defined.

Definition example_get := GetTopology (NewServer "") [] (key_namespace example_key) (key_name example_key)
  (100 * second) (λ _, example_store) (100 * second) example_store.

Lemma get_topology_response_witness :
  ∃ p, example_get.1.1 = inr (toProto (publication_snapshot p)) ∧ fail_closed (publication_snapshot p).
Proof.
  assert (match example_get.1.1 with inr m => pb_ValidUntil m <=? 100 * second | inl _ => false end = true) as Hr
    by (vm_compute; reflexivity).
  unfold example_get in *. destruct (GetTopology _ _ _ _ _ _ _ _) as [[r call] s'] eqn:E.
  apply get_topology_response in E as [(err & _ & -> & _)|(_ & _ & [[-> _]|(p & -> & _ & Hp)])].
  - discriminate Hr.
  - discriminate Hr.
  - exists p. split; [reflexivity|]. destruct Hp as [Hp|Hp]; [|exact Hp].
    cbn in Hr. apply Z.leb_le in Hr. lia.
  - exact (reachable_wf "process" _ example_reachable).
  - intros _ _. split; [exact (reachable_wf "process" _ example_reachable)|reflexivity].
Defined.

Lemma built_snapshot_lossless_witness :
  ∃ s, buildSnapshot (example_cluster "db-1") example_pods example_results no_parameters 10 20 = Some s
    ∧ read_snapshot (toProto s) = s.
Proof.
  destruct (buildSnapshot_total (example_cluster "db-1") example_pods example_results no_parameters 10 20)
    as [s Hs]; [apply Nat.leb_le; reflexivity|].
  exists s. split; [exact Hs|]. apply (built_snapshot_lossless _ _ _ _ _ _ _) in Hs; [exact Hs|..].
  - apply map_Forall_empty.
  - repeat constructor; discriminate.
Defined.
End example.
