(* ===== verification/Delivery.v ===== *)
(** * Streams of the discovery service (src/internal/discovery/grpc.go, publication.go)

    The watch streams of the gRPC service running against the store, its mailboxes
    and the deliveries in flight of [Watchers].  A stream is a position in the loop
    of [WatchTopology]; the store, other subscribers, deliveries and other streams
    may act between any two of its steps.  The wire messages of publications are
    converted once and shared by all streams. *)

From S2P Require Import Prelude Api Mailbox Store StoreFacts StoreProps Watchers Grpc.

Section delivery.
Context `{ServiceLibrary, RoutingDigest}.

(** Where a stream is: in the [select], before the lookup of an expired snapshot,
    before the comparison with [lastSent] and [Send], or returned. [checked] is the
    clock reading that found the publication valid. *)
Inductive stream_phase :=
  | Selecting
  | LookingUp (p : publication)
  | Sending (p : publication) (checked : time)
  | Returned (err : option status).

(** [stream_out] are the messages sent, newest first. *)
Record stream := Stream {
  stream_phase_ : stream_phase;
  stream_lastSent : Z; (* uint64 *)
  stream_out : list sent;
}.

(** Publications are shared by reference and identified by their commit order;
    [dl_wire] holds the messages that [wireOnce] has converted. *)
Record delivery := {
  dl_world : World;
  dl_streams : gmap sid stream;
  dl_wire : gmap Z SnapshotPB;
}.

Definition NewDelivery (id : string) : delivery :=
  {| dl_world := NewWorld id; dl_streams := ∅; dl_wire := ∅ |}.

Definition set_stream (w : sid) (s : stream) (W : World) (D : delivery) : delivery :=
  {| dl_world := W; dl_streams := <[w := s]> (dl_streams D); dl_wire := dl_wire D |}.

(** [published.protobuf()]: convert once, then return the same message. *)
Definition protobuf (p : publication) (wire : gmap Z SnapshotPB) : SnapshotPB * gmap Z SnapshotPB :=
  match wire !! publication_order p with
  | Some m => (m, wire)
  | None => let m := toProto (publication_snapshot p) in (m, <[publication_order p := m]> wire)
  end.

(** What the shared mailbox of a watcher holds. *)
Definition slot (x : watcher) : option publication :=
  match subscription_mailbox (watcher_sub x) with Publications o => o | Snapshots _ => None end.

(** The watcher that a step of the store and its mailboxes acts for. *)
Definition acts_for (a : action) : option sid :=
  match a with
  | ActSubscribe _ _ _ w _ _ | ActReceive w | ActCancel w | ActClose w => Some w
  | ActCall _ | ActDeliver _ => None
  end.

Definition foreign (a : action) (D : delivery) : bool :=
  match acts_for a with Some w => bool_decide (dl_streams D !! w = None) | None => true end.

Inductive delivery_action :=
  | Elsewhere (a : action)                                    (* the store, deliveries, other subscribers *)
  | OpenWatch (w : sid) (key : clusterKey) (now1 now2 : time) (* subscribeShared of an existing Cluster *)
  | StreamReceive (w : sid) (now : time)                      (* case published, ok := <-updates *)
  | StreamDone (w : sid) (err : status)                       (* case <-ctx.Done() *)
  | StreamLookup (w : sid) (now : time)                       (* s.store.getPublication *)
  | StreamSend (w : sid) (err : option status)                (* the comparison and stream.Send *)
  | StreamCancel (w : sid)                                    (* the deferred cancel: unregister *)
  | StreamClose (w : sid).                                    (* the deferred cancel: watcher.close() *)

(** After a reception: an expired snapshot that is no tombstone is looked up. *)
Definition received_phase (p : publication) (now : time) : stream_phase :=
  if negb (bool_decide (snapshot_Reason (publication_snapshot p) = "deleted"))
     && negb (Before now (snapshot_ValidUntil (publication_snapshot p)))
  then LookingUp p else Sending p now.

Definition stream_receive (w : sid) (s : stream) (now : time) (D : delivery) : option delivery :=
  x ← world_watchers (dl_world D) !! w;
  match slot x with
  | Some p =>
      W ← world_do (ActReceive w) (dl_world D);
      Some (set_stream w (Stream (received_phase p now) (stream_lastSent s) (stream_out s)) W D)
  | None =>
      if subscription_closed (watcher_sub x)
      then Some (set_stream w (Stream (Returned None) (stream_lastSent s) (stream_out s)) (dl_world D) D)
      else None
  end.

Definition stream_lookup (w : sid) (s : stream) (p : publication) (now : time) (D : delivery) : option delivery :=
  let key := ref_key (snapshot_Cluster (publication_snapshot p)) in
  W ← world_do (ActCall (CallRead key now)) (dl_world D);
  Some (set_stream w
    (Stream (match (readPublication key now (world_store (dl_world D))).1.1 with
             | Some latest => Sending latest now
             | None => Selecting
             end) (stream_lastSent s) (stream_out s)) W D).

Definition stream_send (w : sid) (s : stream) (p : publication) (checked : time) (err : option status) (D : delivery) :
    delivery :=
  if publication_order p <=? stream_lastSent s
  then set_stream w (Stream Selecting (stream_lastSent s) (stream_out s)) (dl_world D) D
  else
    let '(m, wire) := protobuf p (dl_wire D) in
    {| dl_world := dl_world D;
       dl_streams := <[w := match err with
                            | Some err => Stream (Returned (Some err)) (stream_lastSent s) (stream_out s)
                            | None => Stream Selecting (publication_order p) (Sent p checked m :: stream_out s)
                            end]> (dl_streams D);
       dl_wire := wire |}.

(** The deferred [cancel()] of a stream that has returned. *)
Definition stream_cancel (w : sid) (a : action) (D : delivery) : option delivery :=
  s ← dl_streams D !! w;
  match stream_phase_ s with
  | Returned _ => W ← world_do a (dl_world D); Some (set_stream w s W D)
  | _ => None
  end.

Definition delivery_do (a : delivery_action) (D : delivery) : option delivery :=
  match a with
  | Elsewhere a =>
      if foreign a D
      then W ← world_do a (dl_world D);
           Some {| dl_world := W; dl_streams := dl_streams D; dl_wire := dl_wire D |}
      else None
  | OpenWatch w key now1 now2 =>
      guard (dl_streams D !! w = None) ;;
      W ← world_do (ActSubscribe key true true w now1 now2) (dl_world D);
      Some (set_stream w (Stream Selecting 0 []) W D)
  | StreamReceive w now =>
      s ← dl_streams D !! w;
      match stream_phase_ s with Selecting => stream_receive w s now D | _ => None end
  | StreamDone w err =>
      s ← dl_streams D !! w;
      match stream_phase_ s with
      | Selecting => Some (set_stream w (Stream (Returned (Some err)) (stream_lastSent s) (stream_out s)) (dl_world D) D)
      | _ => None
      end
  | StreamLookup w now =>
      s ← dl_streams D !! w;
      match stream_phase_ s with LookingUp p => stream_lookup w s p now D | _ => None end
  | StreamSend w err =>
      s ← dl_streams D !! w;
      match stream_phase_ s with Sending p checked => Some (stream_send w s p checked err D) | _ => None end
  | StreamCancel w => stream_cancel w (ActCancel w) D
  | StreamClose w => stream_cancel w (ActClose w) D
  end.

Inductive delivery_reachable (id : string) : delivery → Prop :=
  | delivery_new : delivery_reachable id (NewDelivery id)
  | delivery_next a D D' : delivery_reachable id D → delivery_do a D = Some D' → delivery_reachable id D'.

Definition delivery_run (l : list delivery_action) (D : delivery) : option delivery :=
  foldl (λ D a, D ← D; delivery_do a D) (Some D) l.
End delivery.
