(* ===== verification/DeliveryFacts.v ===== *)
(** * What a step of the store and its mailboxes does to a stream

    Publications and tombstones only accumulate, a watcher keeps its key and what
    its consumer took, and a shared mailbox holds the newest publication it
    accepted. *)

From S2P Require Import Prelude Api Mailbox Store StoreFacts StoreProps Watchers WatcherFacts WatcherProps Grpc GrpcProps Delivery.

Section facts.
Context `{ServiceLibrary, RoutingDigest}.

(** ** Growth *)

(** What every step of the world adds to: the history, the latest publication of a
    Cluster, and a newer publication in place of a record that is gone. *)
Record grows (W W' : World) : Prop := {
  grows_counter : publicationOrder (world_store W) ≤ publicationOrder (world_store W');
  grows_history : world_history W ⊆ world_history W';
  grows_latest : ∀ k p, world_latest W !! k = Some p →
    ∃ p', world_latest W' !! k = Some p' ∧ publication_order p ≤ publication_order p';
  grows_records : ∀ k, is_Some (records (world_store W) !! k) → is_Some (records (world_store W') !! k) ∨
    ∃ p, world_latest W' !! k = Some p ∧ publicationOrder (world_store W) < publication_order p;
}.

#[export] Instance grows_preorder : PreOrder grows.
Proof.
  split.
  - intros W. split; [done|done|by eauto using Z.le_refl|auto].
  - intros W1 W2 W3 [Hc1 Hh1 Hl1 Hr1] [Hc2 Hh2 Hl2 Hr2]. split; [lia|by etrans| |].
    + intros k p Hp. destruct (Hl1 k p Hp) as (p2 & Hp2 & ?). destruct (Hl2 k p2 Hp2) as (p3 & ? & ?).
      exists p3. split; [done|lia].
    + intros k Hk. destruct (Hr1 k Hk) as [Hk2|(p & Hp & ?)].
      * destruct (Hr2 k Hk2) as [?|(p & ? & ?)]; [by left|right]. exists p. split; [done|lia].
      * right. destruct (Hl2 k p Hp) as (p3 & ? & ?). exists p3. split; [done|lia].
Qed.

(** A step that leaves the store's records and the histories alone. *)
Lemma grows_same W W' :
  records (world_store W') = records (world_store W) →
  publicationOrder (world_store W') = publicationOrder (world_store W) →
  world_history W' = world_history W → world_latest W' = world_latest W → grows W W'.
Proof. intros Hr Ho Hh Hl. split; rewrite ?Hr, ?Ho, ?Hh, ?Hl; eauto using Z.le_refl. Qed.

Lemma grows_published W k p s' :
  world_inv W → headroom (world_store W) 1 → published (world_store W) k p s' →
  grows W (set_store s' (post_notification (Notification (Some p) (elements (watchers_of (world_store W) k))) W)).
Proof.
  intros HW Hroom Hpub. pose proof Hpub as [Hpo Hsucc Hkey _ _]. pose proof (inv_counter _ HW).
  unfold headroom in Hroom. rewrite wrap_u64_small in Hsucc by lia. split; cbn -[elements spread].
  - lia.
  - apply insert_subseteq. destruct (_ !! publication_order p) as [q|] eqn:E; [|done]. apply (inv_history _ HW) in E. lia.
  - intros k' q Hq. destruct (inv_latest_history _ HW _ _ Hq) as [Hq' _]. apply (inv_history _ HW) in Hq' as [_ ?].
    destruct (decide (pub_key p = k')) as [<-|Hne]; [|rewrite lookup_insert_ne by done; by eauto using Z.le_refl].
    exists p. rewrite lookup_insert_eq. split; [done|lia].
  - intros k' Hk'. destruct (decide (k' = k)) as [->|Hne]; [|left; by rewrite (published_other _ _ _ _ _ Hpub)].
    right. exists p. rewrite Hkey, lookup_insert_eq. split; [done|lia].
Qed.

Lemma grows_effects s ns s' W :
  effects s ns s' → world_store W = s → world_inv W → headroom s (Z.of_nat (length ns)) → grows W (commit ns s' W).
Proof.
  intros He. revert W. induction He as [s s' Hq|s k p s1 ns s2 Hp He IH]; intros W <- HW Hroom.
  - destruct Hq as (? & _ & ?). by apply grows_same.
  - unfold headroom in Hroom. cbn [length] in Hroom. set (n := Notification _ _).
    change (commit (n :: ns) s2 W) with (commit ns s2 (post_notification n W)). rewrite <- (commit_set_store ns s1).
    pose proof (inv_counter _ HW). etrans; [apply (grows_published W k p s1); [done|unfold headroom; lia|done]|].
    apply IH; [done|by apply published_inv; [done|unfold headroom; lia|]|].
    unfold headroom. rewrite (published_succ _ _ _ _ Hp), wrap_u64_small; lia.
Qed.

Lemma grows_step W W' : world_inv W → store_wf (world_store W) → step W W' → grows W W'.
Proof.
  intros HW Hwf [c ns Hns Hroom|k req shared w now1 now2 reg s' Hfresh Hroom Hreg Hex
    |p w x f1 f2 Hf Hx|w x Hx|w x Hx Hcan|w x Hx Hcan Hcl]; try by apply grows_same.
  - eapply grows_effects; [by apply store_notes_effects|done..].
  - destruct (register_effects _ _ _ _ _ _ _ _ Hwf Hreg Hex) as (s1 & Heff & Hlen & _ & Hr & Ho & _).
    etrans; [eapply (grows_effects _ _ _ W Heff); [done..|unfold headroom in *; lia]|].
    by apply grows_same; cbn; rewrite ?commit_set_store.
  - unfold perform_delivery. destruct (watcher_deliver p x). by apply grows_same.
Qed.

(** ** Watchers *)

Definition shared (x : watcher) : bool :=
  match subscription_mailbox (watcher_sub x) with Publications _ => true | Snapshots _ => false end.

(** What another goroutine's step leaves of a watcher. *)
Record same_consumer (x x' : watcher) : Prop := {
  same_key : watcher_key x' = watcher_key x;
  same_born : watcher_born x' = watcher_born x;
  same_cancelled : watcher_cancelled x' = watcher_cancelled x;
  same_taken : watcher_taken x' = watcher_taken x;
  same_shared : shared x' = shared x;
}.

#[local] Instance same_consumer_refl : Reflexive same_consumer.
Proof. by intros x. Qed.

Lemma deliver_consumer p x : same_consumer x (watcher_deliver p x).1.
Proof.
  destruct x as [k [o c [m|m]] cancelled born acc taken]; unfold watcher_deliver, subscription_deliver; cbn;
    by destruct (c || (publication_order p <=? o)).
Qed.

Lemma world_do_consumer a W W' w x :
  world_do a W = Some W' → acts_for a ≠ Some w → world_watchers W !! w = Some x →
  ∃ x', world_watchers W' !! w = Some x' ∧ same_consumer x x'.
Proof.
  destruct a as [c|k req sh w' now1 now2|i|w'|w'|w']; cbn; intros Hdo Hne Hx.
  - apply bind_Some in Hdo as (ns & Hns & Hdo). case_guard; simplify_eq/=. exists x.
    split; [|done]. by rewrite post_watchers.
  - do 2 (case_guard; simplify_eq/=). destruct (register _ _ _ _ _ _) as [reg s']. case_guard; simplify_eq/=. exists x.
    split; [|done]. rewrite lookup_insert_ne by congruence. by rewrite post_watchers.
  - apply bind_Some in Hdo as ([p v] & Hi & Hdo). apply bind_Some in Hdo as (y & Hy & [= <-]). cbn.
    unfold perform_delivery. pose proof (deliver_consumer p y) as Hs. destruct (watcher_deliver p y) as [y' ?]. cbn in *.
    destruct (decide (v = w)) as [->|]; [|rewrite lookup_insert_ne by done; by exists x].
    simplify_eq. exists y'. by rewrite lookup_insert_eq.
  - apply bind_Some in Hdo as (y & Hy & [= <-]). exists x. cbn. by rewrite lookup_insert_ne by congruence.
  - apply bind_Some in Hdo as (y & Hy & Hdo). case_guard; simplify_eq/=. exists x. by rewrite lookup_insert_ne by congruence.
  - apply bind_Some in Hdo as (y & Hy & Hdo). case_guard; simplify_eq/=. exists x. by rewrite lookup_insert_ne by congruence.
Qed.

(** A shared mailbox holds the publication it accepted last, not a copy. *)
Definition exact (x : watcher) : Prop := ∀ p, slot x = Some p → head (watcher_accepted x) = Some p.

Definition all_exact (W : World) : Prop := map_Forall (λ _, exact) (world_watchers W).

Lemma deliver_exact p x : exact x → exact (watcher_deliver p x).1.
Proof.
  destruct x as [k [o c [m|m]] cancelled born acc taken]; unfold exact, slot, watcher_deliver, subscription_deliver; cbn;
    intros He; destruct (c || (publication_order p <=? o)); cbn; naive_solver.
Qed.

Lemma world_do_exact a W W' : all_exact W → world_do a W = Some W' → all_exact W'.
Proof.
  unfold all_exact. intros He. destruct a as [c|k req sh w now1 now2|i|w|w|w]; cbn; intros Hdo.
  - apply bind_Some in Hdo as (ns & Hns & Hdo). case_guard; simplify_eq/=. by rewrite post_watchers.
  - do 2 (case_guard; simplify_eq/=). destruct (register _ _ _ _ _ _) as [reg s']. case_guard; simplify_eq/=. rewrite post_watchers.
    apply map_Forall_insert_2; [|done]. unfold exact, slot. by destruct sh.
  - apply bind_Some in Hdo as ([p v] & Hi & Hdo). apply bind_Some in Hdo as (y & Hy & [= <-]). cbn in *.
    unfold perform_delivery. pose proof (deliver_exact p y (He _ _ Hy)) as Hs.
    destruct (watcher_deliver p y) as [y' ?]. by apply map_Forall_insert_2.
  - apply bind_Some in Hdo as (y & Hy & [= <-]). apply map_Forall_insert_2; [|done]. pose proof (He _ _ Hy) as Hs.
    unfold exact, slot, watcher_receive, subscription_receive in *. destruct (subscription_mailbox _) as [[]|[]] eqn:E; cbn; by rewrite ?E.
  - apply bind_Some in Hdo as (y & Hy & Hdo). case_guard; simplify_eq/=. apply map_Forall_insert_2; [|done].
    by pose proof (He _ _ Hy).
  - apply bind_Some in Hdo as (y & Hy & Hdo). case_guard; simplify_eq/=. apply map_Forall_insert_2; [|done].
    by pose proof (He _ _ Hy).
Qed.
End facts.
