(* ===== verification/DeliveryProps.v ===== *)
(** * Correctness of the discovery streams

    From a commit in the store to the message a client receives: whatever the
    interleaving of commits, deliveries, expiries, lookups and sends, a stream
    moves forward, sends routes only while they are valid, and once it waits with
    an empty mailbox its client has the current state. *)

From S2P Require Import Prelude Api Mailbox Store StoreFacts StoreProps Watchers WatcherFacts WatcherProps Grpc GrpcProps Delivery DeliveryFacts.

Section props.
Context `{ServiceLibrary, RoutingDigest}.

(** ** The invariant *)

(** A publication of the watcher's Cluster that was committed. *)
Definition known (W : World) (x : watcher) (p : publication) : Prop :=
  world_history W !! publication_order p = Some p ∧ pub_key p = watcher_key x.

(** A newer publication of the same Cluster was committed. *)
Definition outdated (W : World) (q : publication) : Prop :=
  ∃ p, world_latest W !! pub_key q = Some p ∧ publication_order q < publication_order p.

(** What was taken from the mailbox last is covered by order [n] or outdated. *)
Definition covered (W : World) (x : watcher) (n : Z) : Prop :=
  ∀ q, head (watcher_taken x) = Some q → publication_order q ≤ n ∨ outdated W q.

Definition phase_ok (W : World) (x : watcher) (s : stream) : Prop :=
  match stream_phase_ s with
  | Selecting => covered W x (stream_lastSent s)
  | LookingUp p => head (watcher_taken x) = Some p ∧ snapshot_Reason (publication_snapshot p) ≠ "deleted"
  | Sending p checked =>
      known W x p ∧ fresh (Sent p checked (toProto (publication_snapshot p))) ∧ covered W x (publication_order p)
  | Returned _ => True
  end.

Definition sent_ok (W : World) (x : watcher) (o : sent) : Prop :=
  known W x (sent_publication o) ∧ fresh o ∧ sent_message o = toProto (publication_snapshot (sent_publication o)).

Definition returned (s : stream) : bool := match stream_phase_ s with Returned _ => true | _ => false end.

Record stream_ok (W : World) (x : watcher) (s : stream) : Prop := {
  so_shared : shared x = true;
  so_live : returned s = false → watcher_cancelled x = false;
  so_sent : Forall (sent_ok W x) (stream_out s);
  so_sorted : StronglySorted newer (sent_publication <$> stream_out s);
  so_last : stream_lastSent s = from_option publication_order 0 (head (sent_publication <$> stream_out s));
  so_phase : phase_ok W x s;
  so_born : is_Some (records (world_store W) !! watcher_key x) ∨
    ∃ p, world_latest W !! watcher_key x = Some p ∧ watcher_born x < publication_order p;
}.

Record delivery_inv (D : delivery) : Prop := {
  di_world : world_inv (dl_world D);
  di_store : store_wf (world_store (dl_world D));
  di_exact : all_exact (dl_world D);
  di_streams : ∀ w s, dl_streams D !! w = Some s → ∃ x, world_watchers (dl_world D) !! w = Some x ∧ stream_ok (dl_world D) x s;
  di_wire : ∀ n m, dl_wire D !! n = Some m →
    ∃ p, world_history (dl_world D) !! n = Some p ∧ m = toProto (publication_snapshot p);
}.

Lemma outdated_grows W W' q : grows W W' → outdated W q → outdated W' q.
Proof.
  intros Hg (p & Hp & Hlt). destruct (grows_latest _ _ Hg _ _ Hp) as (p' & ? & ?). exists p'. split; [done|lia].
Qed.

Lemma covered_grows W W' x x' n : grows W W' → same_consumer x x' → covered W x n → covered W' x' n.
Proof.
  intros Hg Hs Hc q. rewrite (same_taken _ _ Hs). intros [?|?]%Hc; [by left|right]. by eapply outdated_grows.
Qed.

Lemma known_grows W W' x x' p : grows W W' → same_consumer x x' → known W x p → known W' x' p.
Proof.
  intros Hg Hs [? ?]. unfold known. rewrite (same_key _ _ Hs). split; [|done]. by eapply lookup_weaken; [|apply grows_history].
Qed.

Lemma stream_ok_grows W W' x x' s :
  grows W W' → same_consumer x x' → watcher_born x ≤ publicationOrder (world_store W) → stream_ok W x s → stream_ok W' x' s.
Proof.
  intros Hg Hs Hborn [Hsh Hl Hse Hso Hla Hph Hbo]. split; try done.
  - by rewrite (same_shared _ _ Hs).
  - by rewrite (same_cancelled _ _ Hs).
  - eapply Forall_impl; [done|]. intros o (? & ? & ?). split_and!; [by eapply known_grows|done..].
  - unfold phase_ok in *. destruct (stream_phase_ s) as [|p|p t|]; [by eapply covered_grows| | |done].
    + by rewrite (same_taken _ _ Hs).
    + destruct Hph as (? & ? & ?). split_and!; [by eapply known_grows|done|by eapply covered_grows].
  - rewrite (same_key _ _ Hs), (same_born _ _ Hs). destruct Hbo as [Hr|(p & Hp & Hlt)].
    + destruct (grows_records _ _ Hg _ Hr) as [?|(p & ? & ?)]; [by left|right]. exists p. split; [done|lia].
    + right. destruct (grows_latest _ _ Hg _ _ Hp) as (p' & ? & ?). exists p'. split; [done|lia].
Qed.

(** ** Steps of the world *)

Lemma world_do_inv a D W :
  delivery_inv D → world_do a (dl_world D) = Some W →
  world_inv W ∧ store_wf (world_store W) ∧ all_exact W ∧ grows (dl_world D) W
  ∧ ∀ w s, dl_streams D !! w = Some s → acts_for a ≠ Some w → ∃ x, world_watchers W !! w = Some x ∧ stream_ok W x s.
Proof.
  intros [HW Hst He Hs _] Hdo. pose proof (world_do_step _ _ _ Hdo) as Hstep.
  destruct (step_inv _ _ HW Hst Hstep). pose proof (grows_step _ _ HW Hst Hstep) as Hg. split_and!; [done..| |done|].
  - by eapply world_do_exact.
  - intros w s Hw Hne. destruct (Hs w s Hw) as (x & Hx & Hok).
    destruct (world_do_consumer _ _ _ _ _ Hdo Hne Hx) as (x' & Hx' & Hsame). exists x'. split; [done|].
    eapply stream_ok_grows; [done..| |done]. by apply (inv_watchers _ HW w).
Qed.

Lemma wire_grows D W :
  delivery_inv D → grows (dl_world D) W → ∀ n m, dl_wire D !! n = Some m →
  ∃ p, world_history W !! n = Some p ∧ m = toProto (publication_snapshot p).
Proof.
  intros HD Hg n m (p & Hp & ->)%(di_wire _ HD). exists p. split; [|done]. by eapply lookup_weaken; [|apply grows_history].
Qed.

(** A step of the world for stream [w], after which the stream is [s]. *)
Lemma inv_acts a D W w s :
  delivery_inv D → world_do a (dl_world D) = Some W → (∀ v, acts_for a = Some v → v = w) →
  (∃ x, world_watchers W !! w = Some x ∧ stream_ok W x s) → delivery_inv (set_stream w s W D).
Proof.
  intros HD Hdo Ha Hx. destruct (world_do_inv _ _ _ HD Hdo) as (? & ? & ? & Hg & Hs). split; cbn; try done.
  - intros v s' [[<- <-]|[Hne Hv]]%lookup_insert_Some; [done|]. apply Hs; [done|]. intros Hv'. by apply Ha in Hv'.
  - by apply wire_grows.
Qed.

(** A step of stream [w] alone. *)
Lemma inv_local D w s :
  delivery_inv D → (∃ x, world_watchers (dl_world D) !! w = Some x ∧ stream_ok (dl_world D) x s) →
  delivery_inv (set_stream w s (dl_world D) D).
Proof.
  intros [HW Hst He Hs Hwi] Hx. split; cbn; try done. by intros v s' [[<- <-]|[Hne Hv]]%lookup_insert_Some; [|apply Hs].
Qed.

(** A stream that returns keeps what it has sent. *)
Lemma ok_returns W x s err : stream_ok W x s → stream_ok W x (Stream (Returned err) (stream_lastSent s) (stream_out s)).
Proof. by intros []. Qed.

(** ** Steps of a stream *)

Lemma taken_known W w x q : world_inv W → world_watchers W !! w = Some x → head (watcher_taken x) = Some q → known W x q.
Proof.
  intros HW Hx Hq. destruct (inv_watchers _ HW w x Hx) as [Hwf _]. pose proof (watcher_wf_accepted _ _ Hwf) as Hacc.
  rewrite Forall_forall in Hacc. apply Hacc. eapply elem_of_sublist; [|by eapply taken_accepted].
  destruct (watcher_taken x); [done|]. injection Hq as ->. by left.
Qed.

(** A phase of a stream that still runs, in place of another. *)
Lemma ok_moves W x s s' :
  stream_ok W x s → returned s = false → stream_lastSent s' = stream_lastSent s → stream_out s' = stream_out s →
  phase_ok W x s' → stream_ok W x s'.
Proof. intros [] Hret Hl Ho Hp. split; rewrite ?Hl, ?Ho; auto. Qed.

Lemma receive_ok W w x s p now :
  world_inv W → world_watchers W !! w = Some x → exact x → stream_ok W x s → returned s = false → slot x = Some p →
  stream_ok W (watcher_receive x) (Stream (received_phase p now) (stream_lastSent s) (stream_out s)).
Proof.
  intros HW Hx He [Hsh Hl Hse Hso Hla Hph Hbo] Hret Hslot. pose proof (He _ Hslot) as Hacc.
  assert (watcher_taken (watcher_receive x) = p :: watcher_taken x ∧ shared (watcher_receive x) = true) as [Ht Hs'].
  { unfold slot, shared, watcher_receive, pending_snapshot, subscription_receive in *.
    destruct (watcher_accepted x); [done|]. injection Hacc as ->. cbn.
    by destruct (subscription_mailbox (watcher_sub x)) as [|[]]. }
  assert (known W (watcher_receive x) p) as Hk.
  { destruct (inv_watchers _ HW w x Hx) as [Hwf _]. pose proof (watcher_wf_accepted _ _ Hwf) as Hall.
    rewrite Forall_forall in Hall. apply Hall. destruct (watcher_accepted x); [done|]. injection Hacc as ->. by left. }
  split; try done; [by auto|]. unfold received_phase, phase_ok. cbn [stream_phase_]. rewrite <-negb_orb.
  destruct (bool_decide _ || _) eqn:E; cbn [negb].
  - split_and!; [done| |intros q; rewrite Ht; intros [= ->]; by left]. unfold fresh. cbn.
    apply orb_true_iff in E as [E%bool_decide_eq_true|E%Before_spec]; auto.
  - apply orb_false_iff in E as [E%bool_decide_eq_false _]. by rewrite Ht.
Qed.

(** A step that changes only the watchers. *)
Lemma ok_watchers W w y x s : stream_ok W x s → stream_ok (set_watcher w y W) x s.
Proof. by intros [? ? ? ? ? ? ?]. Qed.

Lemma receive_inv D D' w s now :
  delivery_inv D → dl_streams D !! w = Some s → returned s = false → stream_receive w s now D = Some D' → delivery_inv D'.
Proof.
  intros HD Hs Hret. unfold stream_receive. intros (x & Hx & Hdo)%bind_Some.
  destruct (di_streams _ HD w s Hs) as (x' & Hx' & Hok). simplify_eq. destruct (slot x) as [p|] eqn:Hslot.
  - apply bind_Some in Hdo as (W & HdoW & [= <-]). eapply inv_acts; [done..|by intros v [= ->]|].
    cbn in HdoW. rewrite Hx in HdoW. injection HdoW as <-. exists (watcher_receive x). split; [apply lookup_insert_eq|].
    apply ok_watchers. eapply receive_ok; [apply HD|done| |done..]. by apply (di_exact _ HD) in Hx.
  - destruct (subscription_closed _); [|done]. injection Hdo as <-. apply inv_local; [done|].
    exists x. split; [done|]. by apply ok_returns.
Qed.

(** Two committed publications of the same order are the same. *)
Lemma history_unique W p q :
  world_history W !! publication_order p = Some p → world_history W !! publication_order q = Some q →
  publication_order p = publication_order q → p = q.
Proof. intros Hp Hq Heq. rewrite Heq in Hp. congruence. Qed.

(** Without a record the latest publication is a tombstone, newer than anything else. *)
Lemma removed_outdates W x p :
  world_inv W → known W x p → snapshot_Reason (publication_snapshot p) ≠ "deleted" →
  records (world_store W) !! watcher_key x = None → outdated W p.
Proof.
  intros HW [Hp Hk] Hreason Hr. destruct (inv_history_latest _ HW _ _ Hp) as (q & Hq & Hle). exists q. split; [done|].
  destruct (inv_latest_history _ HW _ _ Hq) as [Hq' _]. rewrite Hk in Hq.
  destruct (inv_latest_records _ HW _ _ Hq) as [(r & ? & _)|(_ & _ & Hdel)]; [congruence|].
  destruct (decide (publication_order p = publication_order q)) as [Heq|]; [|lia].
  by rewrite (history_unique W p q) in Hreason.
Qed.

Lemma latest_covers W x p q :
  world_inv W → known W x q → world_latest W !! watcher_key x = Some p → publication_order q ≤ publication_order p.
Proof.
  intros HW [Hq Hk] Hp. destruct (inv_history_latest _ HW _ _ Hq) as (p' & Hp' & ?). rewrite Hk in Hp'. by simplify_eq.
Qed.

Lemma lookup_inv D D' w s p now :
  delivery_inv D → dl_streams D !! w = Some s → stream_phase_ s = LookingUp p → stream_lookup w s p now D = Some D' →
  delivery_inv D'.
Proof.
  intros HD Hs Hph. unfold stream_lookup. intros (W & Hdo & [= <-])%bind_Some. pose proof (di_store _ HD) as Hst.
  destruct (world_do_inv _ _ _ HD Hdo) as (HW & _ & _ & Hg & Hothers).
  destruct (Hothers w s Hs) as (x & Hx & Hok); [done|].
  assert (returned s = false) as Hret by (unfold returned; by rewrite Hph).
  pose proof (so_phase _ _ _ Hok) as Hp. unfold phase_ok in Hp. rewrite Hph in Hp. destruct Hp as [Htaken Hreason].
  pose proof (taken_known _ _ _ _ HW Hx Htaken) as Hk. destruct Hk as [Hhist Hkey].
  assert (world_store W = (readPublication (pub_key p) now (world_store (dl_world D))).2) as HWs.
  { cbn in Hdo. case_guard; [|done]. cbn in Hdo. by injection Hdo as <-. }
  eapply inv_acts; [done..|done|]. exists x. split; [done|]. eapply ok_moves; [done..|]. unfold phase_ok. cbn [stream_phase_].
  pose proof (readPublication_current (pub_key p) now (world_store (dl_world D))) as Hcur. rewrite <-HWs, Hkey in Hcur.
  rewrite Hkey. destruct (readPublication (watcher_key x) now _).1.1 as [latest|] eqn:Hread; cbn [stream_phase_].
  - destruct (records (world_store W) !! watcher_key x) as [r|] eqn:Hr; [|done]. injection Hcur as ->.
    pose proof (inv_records _ HW _ _ Hr) as Hl. destruct (inv_latest_history _ HW _ _ Hl) as [Hlh Hlk]. split_and!.
    + done.
    + unfold fresh. cbn. right. by eapply readPublication_fail_closed.
    + intros q Hq. rewrite Htaken in Hq. injection Hq as ->. left. by eapply latest_covers.
  - intros q Hq. rewrite Htaken in Hq. injection Hq as ->. right. eapply (removed_outdates _ x); [done..|].
    by destruct (records (world_store W) !! watcher_key x).
Qed.

(** The shared message of a committed publication is its conversion. *)
Lemma protobuf_spec D x p :
  delivery_inv D → known (dl_world D) x p →
  (protobuf p (dl_wire D)).1 = toProto (publication_snapshot p)
  ∧ ∀ n m, (protobuf p (dl_wire D)).2 !! n = Some m →
      ∃ q, world_history (dl_world D) !! n = Some q ∧ m = toProto (publication_snapshot q).
Proof.
  intros HD [Hp _]. unfold protobuf. destruct (dl_wire D !! publication_order p) as [m|] eqn:Hm; cbn.
  - split; [|apply HD]. apply (di_wire _ HD) in Hm as (q & Hq & ->). congruence.
  - split; [done|]. intros n m [[<- <-]|[_ Hn]]%lookup_insert_Some; [by exists p|by apply (di_wire _ HD)].
Qed.

Lemma sorted_cons p (l : list publication) :
  from_option publication_order 0 (head l) < publication_order p → StronglySorted newer l → StronglySorted newer (p :: l).
Proof.
  intros Hlt Hl. constructor; [done|]. destruct l as [|q l]; constructor; [done|]. cbn in Hlt.
  apply StronglySorted_inv in Hl as [_ Hq]. eapply Forall_impl; [done|]. unfold newer. intros r ?. lia.
Qed.

Lemma send_inv D w s p checked err :
  delivery_inv D → dl_streams D !! w = Some s → stream_phase_ s = Sending p checked →
  delivery_inv (stream_send w s p checked err D).
Proof.
  intros HD Hs Hph. destruct (di_streams _ HD w s Hs) as (x & Hx & Hok).
  assert (returned s = false) as Hret by (unfold returned; by rewrite Hph).
  pose proof (so_phase _ _ _ Hok) as Hp. unfold phase_ok in Hp. rewrite Hph in Hp. destruct Hp as (Hk & Hfr & Hcov).
  unfold stream_send. destruct (Z.leb_spec (publication_order p) (stream_lastSent s)) as [Hle|Hlt].
  { apply inv_local; [done|]. exists x. split; [done|]. eapply ok_moves; [done..|]. unfold phase_ok. cbn.
    intros q [?|?]%Hcov; [left; lia|by right]. }
  destruct (protobuf_spec D x p HD Hk) as [Hm Hwire]. destruct (protobuf p (dl_wire D)) as [m wire]. cbn in Hm, Hwire. subst m.
  pose proof HD as [HW Hst He Hall _]. split; cbn; try done.
  intros v s' [[<- <-]|[Hne Hv]]%lookup_insert_Some; [|by apply Hall]. exists x. split; [done|].
  destruct err as [err|]; [by apply ok_returns|]. destruct Hok as [Hsh Hl Hse Hso Hla _ Hbo]. split; cbn; try done.
  - by auto.
  - by constructor.
  - apply sorted_cons; [|done]. by rewrite <-Hla.
Qed.

Lemma cancel_stream_inv D D' w a :
  delivery_inv D → a = ActCancel w ∨ a = ActClose w → stream_cancel w a D = Some D' → delivery_inv D'.
Proof.
  intros HD Ha. unfold stream_cancel. intros (s & Hs & Hdo)%bind_Some. destruct (stream_phase_ s) eqn:Hph; try done.
  apply bind_Some in Hdo as (W & HdoW & [= <-]). destruct (di_streams _ HD w s Hs) as (x & Hx & Hok).
  eapply inv_acts; [done..|by destruct Ha; subst; intros v [= ->]|]. destruct Hok as [Hsh Hl Hse Hso Hla Hp Hbo].
  assert (returned s = true) as Hret by (unfold returned; by rewrite Hph).
  destruct Ha as [-> | ->]; cbn in HdoW; rewrite Hx in HdoW; cbn in HdoW; (case_guard; [|done]); cbn in HdoW; injection HdoW as <-;
    eexists; (split; [apply lookup_insert_eq|]); split; try done; rewrite ?Hret; done.
Qed.

Lemma open_inv D D' w key now1 now2 :
  delivery_inv D → delivery_do (OpenWatch w key now1 now2) D = Some D' → delivery_inv D'.
Proof.
  intros HD Hopen. cbn [delivery_do] in Hopen. apply bind_Some in Hopen as (_ & _ & Hopen).
  apply bind_Some in Hopen as (W & HdoW & [= <-]).
  destruct (world_do_inv _ _ _ HD HdoW) as (HW & _). eapply inv_acts; [done..|by intros v [= ->]|].
  cbn in HdoW. do 2 (case_guard; simplify_eq/=). destruct (register _ _ _ _ _ _) as [reg s'] eqn:Hreg.
  case_guard as Hex; simplify_eq/=.
  destruct (register_effects _ _ _ _ _ _ _ _ (di_store _ HD) Hreg Hex) as (s1 & _ & _ & _ & Hr & _ & _ & Hsome).
  exists (new_watcher key true (publicationOrder s')). split; [apply lookup_insert_eq|]. split; cbn; try done.
  - by constructor.
  - left. rewrite Hr. by apply Hsome.
Qed.

Lemma delivery_do_inv a D D' : delivery_inv D → delivery_do a D = Some D' → delivery_inv D'.
Proof.
  intros HD Hdo. destruct a as [a|w key now1 now2|w now|w err|w now|w err|w|w]; [|by eapply open_inv|..]; cbn [delivery_do] in Hdo.
  - destruct (foreign a D) eqn:Hf; [|done]. apply bind_Some in Hdo as (W & HdoW & [= <-]).
    destruct (world_do_inv _ _ _ HD HdoW) as (? & ? & ? & Hg & Hs). split; cbn; [done..| |by apply wire_grows].
    intros w s Hw. apply Hs; [done|]. intros Ha. unfold foreign in Hf. rewrite Ha in Hf. apply bool_decide_eq_true in Hf. congruence.
  - apply bind_Some in Hdo as (s & Hs & Hdo). destruct (stream_phase_ s) eqn:Hph; try done.
    eapply receive_inv; [done..| |done]. unfold returned. by rewrite Hph.
  - apply bind_Some in Hdo as (s & Hs & Hdo). destruct (stream_phase_ s) eqn:Hph; try done. injection Hdo as <-.
    destruct (di_streams _ HD w s Hs) as (x & Hx & Hok). apply inv_local; [done|]. exists x. split; [done|]. by apply ok_returns.
  - apply bind_Some in Hdo as (s & Hs & Hdo). destruct (stream_phase_ s) eqn:Hph; try done. by eapply lookup_inv.
  - apply bind_Some in Hdo as (s & Hs & Hdo). destruct (stream_phase_ s) eqn:Hph; try done. injection Hdo as <-. by eapply send_inv.
  - by eapply cancel_stream_inv; [|left|].
  - by eapply cancel_stream_inv; [|right|].
Qed.

Lemma delivery_reachable_inv id D : delivery_reachable id D → delivery_inv D.
Proof.
  induction 1 as [|a D D' _ IH Hdo]; [|by eapply delivery_do_inv]. split; cbn; [apply NewWorld_inv| |done|..].
  - apply (reachable_wf id), reachable_new.
  - by intros w s.
  - by intros n m.
Qed.

(** ** Progress *)

(** Deliveries to [w] that have not been performed. *)
Definition backlog (W : World) (w : sid) : nat := length (filter (λ pw, pw.2 = w) (world_flight W)).

(** The record of a Cluster may still expire once. *)
Definition may_expire (W : World) (k : clusterKey) : nat :=
  match records (world_store W) !! k with Some r => if record_expired r then 0 else 1 | None => 0 end.

Definition phase_cost (s : stream) : nat :=
  match stream_phase_ s with LookingUp _ => 2 | Sending _ _ => 1 | Selecting | Returned _ => 0 end.

(** The work left for a stream when nothing new is published. *)
Definition work_left (D : delivery) (w : sid) : nat :=
  match dl_streams D !! w, world_watchers (dl_world D) !! w with
  | Some s, Some x =>
      5 * backlog (dl_world D) w + match slot x with Some _ => 4 | None => 0 end + phase_cost s + 8 * may_expire (dl_world D) (watcher_key x)
  | _, _ => 0
  end%nat.

(** The steps that serve stream [w]: its deliveries and its own, with sends that succeed. *)
Definition serves (w : sid) (D : delivery) (a : delivery_action) : Prop :=
  match a with
  | Elsewhere (ActDeliver i) => ∃ p, world_flight (dl_world D) !! i = Some (p, w)
  | StreamReceive v _ | StreamLookup v _ | StreamSend v None => v = w
  | _ => False
  end.

(** The stream waits for something new. *)
Definition idle (D : delivery) (w : sid) (s : stream) (x : watcher) : Prop :=
  stream_phase_ s = Selecting ∧ slot x = None ∧ settled_watcher (dl_world D) w.

Lemma backlog_settled W w : backlog W w = 0%nat ↔ settled_watcher W w.
Proof.
  unfold backlog, settled_watcher. rewrite length_zero_iff_nil. split.
  - intros Hn p Hp. assert ((p, w) ∈ filter (λ pw, pw.2 = w) (world_flight W)) as Hin by by apply list_elem_of_filter.
    rewrite Hn in Hin. by apply elem_of_nil in Hin.
  - intros Hs. destruct (filter _ _) as [|[p v] l] eqn:E; [done|].
    assert ((p, v) ∈ filter (λ pw, pw.2 = w) (world_flight W)) as Hin by (rewrite E; by left).
    apply list_elem_of_filter in Hin as [Hv Hin]. cbn in Hv. subst. by apply Hs in Hin.
Qed.

Lemma backlog_pending W w : (0 < backlog W w)%nat → ∃ i p, world_flight W !! i = Some (p, w).
Proof.
  intros Hb. unfold backlog in Hb. destruct (filter _ _) as [|[p v] l] eqn:E; [cbn in Hb; lia|].
  assert ((p, v) ∈ filter (λ pw, pw.2 = w) (world_flight W)) as Hin by (rewrite E; by left).
  apply list_elem_of_filter in Hin as [Hv Hin]. cbn in Hv. subst. apply list_elem_of_lookup in Hin as [i ?]. eauto.
Qed.

Lemma taken_backlog (l : list (publication * sid)) i p w :
  l !! i = Some (p, w) →
  length (filter (λ pw, pw.2 = w) l) = S (length (filter (λ pw, pw.2 = w) (take i l ++ drop (S i) l))).
Proof.
  intros Hi. rewrite <-(take_drop_middle _ _ _ Hi) at 1. rewrite !filter_app, filter_cons_True, !length_app by done. cbn. lia.
Qed.

Lemma deliver_work D D' w s i p :
  delivery_inv D → dl_streams D !! w = Some s → world_flight (dl_world D) !! i = Some (p, w) →
  delivery_do (Elsewhere (ActDeliver i)) D = Some D' → (work_left D' w < work_left D w)%nat.
Proof.
  intros HD Hs Hi. destruct (di_streams _ HD w s Hs) as (x & Hx & _). cbn. rewrite Hi. cbn. rewrite Hx. cbn. intros [= <-].
  unfold work_left. cbn [dl_streams dl_world]. unfold perform_delivery. pose proof (deliver_consumer p x) as Hsame.
  destruct (watcher_deliver p x) as [x' b]. cbn [fst] in Hsame. cbn [world_watchers]. rewrite Hs, Hx, lookup_insert_eq, (same_key _ _ Hsame).
  unfold backlog. cbn [world_flight]. rewrite (taken_backlog _ _ _ _ Hi). unfold may_expire. cbn [world_store].
  destruct (slot x), (slot x'); lia.
Qed.

Lemma receive_work D D' w s now :
  delivery_inv D → dl_streams D !! w = Some s → stream_phase_ s = Selecting → returned s = false →
  delivery_do (StreamReceive w now) D = Some D' → (work_left D' w < work_left D w)%nat.
Proof.
  intros HD Hs Hph Hret. destruct (di_streams _ HD w s Hs) as (x & Hx & Hok). cbn. rewrite Hs. cbn. rewrite Hph.
  unfold stream_receive. rewrite Hx. cbn. destruct (slot x) as [p|] eqn:Hslot.
  - rewrite Hx. cbn. intros [= <-]. unfold work_left. cbn [dl_streams dl_world set_stream set_watcher world_watchers].
    rewrite Hs, Hx, !lookup_insert_eq. cbn [watcher_receive watcher_key]. rewrite Hslot.
    assert (slot (watcher_receive x) = None) as ->.
    { unfold slot, watcher_receive, subscription_receive in *. cbn. by destruct (subscription_mailbox _) as [[]|[]]. }
    unfold phase_cost. rewrite Hph. cbn [stream_phase_]. unfold received_phase.
    change (backlog (set_watcher w (watcher_receive x) (dl_world D)) w) with (backlog (dl_world D) w).
    change (may_expire (set_watcher w (watcher_receive x) (dl_world D))) with (may_expire (dl_world D)).
    destruct (_ && _); lia.
  - (* the mailbox of a running stream is not closed *)
    destruct (subscription_closed (watcher_sub x)) eqn:Hcl; [|done]. exfalso.
    destruct (inv_watchers _ (di_world _ HD) w x Hx) as [Hwf _]. apply (watcher_wf_closed _ _ Hwf) in Hcl.
    rewrite (so_live _ _ _ Hok Hret) in Hcl. done.
Qed.

Lemma send_work D D' w s p checked :
  dl_streams D !! w = Some s → stream_phase_ s = Sending p checked → is_Some (world_watchers (dl_world D) !! w) →
  delivery_do (StreamSend w None) D = Some D' → (work_left D' w < work_left D w)%nat.
Proof.
  intros Hs Hph [x Hx]. cbn. rewrite Hs. cbn. rewrite Hph. intros [= <-]. unfold work_left, stream_send.
  destruct (_ <=? _); [|destruct (protobuf p (dl_wire D))]; cbn [dl_streams dl_world set_stream]; rewrite Hs, Hx, lookup_insert_eq;
    unfold phase_cost; rewrite Hph; cbn [stream_phase_]; lia.
Qed.

Lemma elements_once (X : gset sid) w : (length (filter (λ v, v = w) (elements X)) ≤ 1)%nat.
Proof.
  assert (NoDup (filter (λ v, v = w) (elements X))) as Hd by apply NoDup_filter, NoDup_elements.
  assert (∀ v, v ∈ filter (λ v, v = w) (elements X) → v = w) as Hw by (by intros v [? _]%list_elem_of_filter).
  destruct (filter _ _) as [|a [|b l]]; cbn; [lia|lia|]. exfalso. apply NoDup_cons in Hd as [Hn _]. apply Hn.
  rewrite (Hw a), (Hw b); [by left|by right; left|by left].
Qed.

Lemma spread_backlog p (X : gset sid) w :
  (length (filter (λ pw : publication * sid, pw.2 = w) (spread (Notification (Some p) (elements X)))) ≤ 1)%nat.
Proof.
  unfold spread. cbn [notification_publication notification_watchers]. etrans; [|apply (elements_once X w)]. apply Nat.eq_le_incl.
  induction (elements X) as [|v l IH]; [done|]. cbn [fmap list_fmap]. rewrite !filter_cons. cbn [snd].
  case_decide; cbn [length]; by rewrite ?IH.
Qed.

Lemma lookup_work D D' w s p now :
  delivery_inv D → dl_streams D !! w = Some s → stream_phase_ s = LookingUp p →
  delivery_do (StreamLookup w now) D = Some D' → (work_left D' w < work_left D w)%nat.
Proof.
  intros HD Hs Hph. destruct (di_streams _ HD w s Hs) as (x & Hx & Hok). cbn [delivery_do]. rewrite Hs. cbn [mbind option_bind]. rewrite Hph.
  pose proof (so_phase _ _ _ Hok) as Hp. unfold phase_ok in Hp. rewrite Hph in Hp. destruct Hp as [Ht _].
  destruct (taken_known _ _ _ _ (di_world _ HD) Hx Ht) as [_ Hkey].
  unfold stream_lookup. rewrite Hkey. intros (W & HdoW & [= <-])%bind_Some.
  cbn in HdoW. case_guard; simplify_eq/=. unfold work_left. cbn [dl_streams dl_world set_stream].
  rewrite Hs, lookup_insert_eq, Hx. unfold commit. cbn [set_store world_watchers]. rewrite post_watchers, Hx.
  unfold phase_cost. rewrite Hph. cbn [stream_phase_]. unfold backlog, may_expire. cbn [set_store world_flight world_store].
  set (st := world_store (dl_world D)). destruct (records st !! watcher_key x) as [r|] eqn:Hr.
  - destruct (expireRecord_cases r now) as [Hskip|[He Hle]].
    + rewrite (readPublication_live _ r) by done. cbn. rewrite Hr. destruct (record_expired r); lia.
    + rewrite (readPublication_expire _ r) by done. rewrite expireRecord_fire by done. unfold notifications. cbn -[elements spread filter].
      rewrite lookup_insert_eq, He, filter_app, length_app.
      match goal with |- context [spread (Notification (Some ?q) (elements ?X))] => pose proof (spread_backlog q X w) end.
      cbn [record_expired expired_record]. lia.
  - rewrite readPublication_unknown by done. cbn. rewrite Hr. lia.
Qed.

(** ** Theorems *)

(** The message sent last is that of the latest publication, when nothing is left to
    deliver, take or send. *)
Lemma idle_latest D w s x p :
  delivery_inv D → dl_streams D !! w = Some s → world_watchers (dl_world D) !! w = Some x → stream_ok (dl_world D) x s →
  idle D w s x → world_latest (dl_world D) !! watcher_key x = Some p →
  ∃ o rest, stream_out s = o :: rest ∧ sent_publication o = p ∧ sent_message o = toProto (publication_snapshot p).
Proof.
  intros HD Hs Hx Hok (Hph & Hslot & Hset) Hp. pose proof (di_world _ HD) as HW.
  assert (watcher_cancelled x = false) as Hcan by (apply Hok; unfold returned; by rewrite Hph).
  assert (head (watcher_accepted x) = Some p) as Hacc.
  { eapply settled_head; [done..|]. destruct (so_born _ _ _ Hok) as [?|(q & Hq & ?)]; [by left|right; by simplify_eq]. }
  destruct (inv_watchers _ HW w x Hx) as [Hwf _].
  assert (head (watcher_taken x) = Some p) as Htaken.
  { destruct (head_visible _ _ _ Hwf Hacc) as [Hpend|[_ ?]]; [exfalso|done]. pose proof (so_shared _ _ _ Hok) as Hsh.
    unfold slot, shared, pending_snapshot in *. destruct (subscription_mailbox _) as [|[]]; done. }
  pose proof (so_phase _ _ _ Hok) as Hcov. unfold phase_ok in Hcov. rewrite Hph in Hcov.
  destruct (inv_latest_history _ HW _ _ Hp) as [Hhist Hkey]. pose proof (inv_history _ HW _ _ Hhist) as [_ ?].
  assert (publication_order p ≤ stream_lastSent s) as Hle.
  { destruct (Hcov p Htaken) as [?|(q & Hq & ?)]; [done|]. rewrite Hkey in Hq. simplify_eq. lia. }
  rewrite (so_last _ _ _ Hok) in Hle. pose proof (so_sent _ _ _ Hok) as Hall.
  destruct (stream_out s) as [|o rest]; cbn in Hle; [lia|]. apply Forall_cons in Hall as [(Hk & _ & Hm) _].
  exists o, rest. assert (sent_publication o = p) as Heq; [|by rewrite Hm, Heq].
  pose proof (latest_covers _ _ _ _ HW Hk Hp). destruct Hk as [Hk _]. apply (history_unique (dl_world D)); [done..|lia].
Qed.

(** What a stream that waits has sent last: the record of the store, or the tombstone. *)
Definition shows (store : Store) (key : clusterKey) (l : list sent) : Prop :=
  ∃ o rest, l = o :: rest ∧
    match records store !! key with
    | Some r => sent_message o = toProto (record_snapshot r)
    | None => fail_closed (publication_snapshot (sent_publication o))
              ∧ snapshot_Reason (publication_snapshot (sent_publication o)) = "deleted"
    end.

Lemma idle_shows id D w s x :
  delivery_reachable id D → dl_streams D !! w = Some s → world_watchers (dl_world D) !! w = Some x →
  idle D w s x → shows (world_store (dl_world D)) (watcher_key x) (stream_out s).
Proof.
  intros HD%delivery_reachable_inv Hs Hx Hidle. destruct (di_streams _ HD w s Hs) as (x' & Hx' & Hok). simplify_eq.
  pose proof (di_world _ HD) as HW. unfold shows. destruct (records _ !! watcher_key x) as [r|] eqn:Hr.
  - destruct (idle_latest D w s x _ HD Hs Hx Hok Hidle (inv_records _ HW _ _ Hr)) as (o & rest & -> & _ & Hm).
    by exists o, rest.
  - destruct (so_born _ _ _ Hok) as [[r ?]|(p & Hp & _)]; [congruence|].
    destruct (idle_latest D w s x p HD Hs Hx Hok Hidle Hp) as (o & rest & -> & Heq & _). exists o, rest. split; [done|]. rewrite Heq.
    destruct (inv_latest_records _ HW _ _ Hp) as [(r & ? & _)|(_ & ? & ?)]; [congruence|done].
Qed.

(** Only closed snapshots have been committed as deleted. *)
Definition tombstones_closed (W : World) : Prop :=
  ∀ n p, world_history W !! n = Some p → snapshot_Reason (publication_snapshot p) = "deleted" →
    fail_closed (publication_snapshot p).

(** The message [o] of a stream for Cluster [key]: that of a publication which was
    committed for this Cluster, and which routes nowhere or was still valid when
    the stream looked at the clock before sending. *)
Definition faithful (W : World) (key : clusterKey) (o : sent) : Prop :=
  let p := sent_publication o in
  world_history W !! publication_order p = Some p ∧ ref_key (snapshot_Cluster (publication_snapshot p)) = key
  ∧ sent_message o = toProto (publication_snapshot p)
  ∧ (sent_now o < snapshot_ValidUntil (publication_snapshot p) ∨ fail_closed (publication_snapshot p)).

Lemma sent_faithful W x o : tombstones_closed W → sent_ok W x o → faithful W (watcher_key x) o.
Proof.
  intros Ht ([Hh Hk] & Hf & Hm). split_and!; [done..|]. destruct Hf as [Hd|Hf]; [|done]. right. by apply (Ht _ _ Hh).
Qed.

Lemma stream_faithful id D w s x :
  delivery_reachable id D → tombstones_closed (dl_world D) → dl_streams D !! w = Some s →
  world_watchers (dl_world D) !! w = Some x → Forall (faithful (dl_world D) (watcher_key x)) (stream_out s).
Proof.
  intros HD%delivery_reachable_inv Ht Hs Hx. destruct (di_streams _ HD w s Hs) as (x' & Hx' & Hok). simplify_eq.
  eapply Forall_impl; [apply Hok|]. intros o. by apply sent_faithful.
Qed.

(** C9: end to end, whatever the interleaving of commits, deliveries, expiries, lookups
    and sends: what a stream has sent are the messages of publications that were
    committed for its Cluster, in increasing commit order; each routes nowhere or
    was valid at the clock reading before it was sent, provided that nobody
    publishes a routable snapshot as deleted (the observer does not, [WholeProps]); and when its deliveries have run and
    it waits with an empty mailbox, the last message is that of the record the
    store has now, or the tombstone of a Cluster it no longer has. *)
Theorem stream_shows_store id D w s x :
  delivery_reachable id D → tombstones_closed (dl_world D) →
  dl_streams D !! w = Some s → world_watchers (dl_world D) !! w = Some x →
  StronglySorted newer (sent_publication <$> stream_out s)
  ∧ Forall (faithful (dl_world D) (watcher_key x)) (stream_out s)
  ∧ (idle D w s x → shows (world_store (dl_world D)) (watcher_key x) (stream_out s)).
Proof.
  intros Hr Ht Hs Hx. destruct (di_streams _ (delivery_reachable_inv _ _ Hr) w s Hs) as (x' & Hx' & Hok).
  simplify_eq. split_and!; [apply Hok|by eapply stream_faithful|by eapply idle_shows].
Qed.

(** C10: a running stream never needs a new publication to catch up: until it waits with
    an empty mailbox and no delivery outstanding, one of its deliveries or one of its
    own steps is enabled, and each of them lowers the work left for it. *)
Theorem stream_catches_up id D w s x :
  delivery_reachable id D → headroom (world_store (dl_world D)) 1 → dl_streams D !! w = Some s → returned s = false →
  world_watchers (dl_world D) !! w = Some x →
  (idle D w s x ∨ ∃ a, serves w D a ∧ is_Some (delivery_do a D))
  ∧ (∀ a D', serves w D a → delivery_do a D = Some D' → (work_left D' w < work_left D w)%nat)
  ∧ (work_left D w = 0%nat → idle D w s x).
Proof.
  intros HD%delivery_reachable_inv Hroom Hs Hret Hx. split_and!.
  - destruct (decide (0 < backlog (dl_world D) w)%nat) as [(i & p & Hi)%backlog_pending|Hb].
    { right. exists (Elsewhere (ActDeliver i)). split; [by exists p|]. cbn. rewrite Hi. cbn. rewrite Hx. by eexists. }
    assert (settled_watcher (dl_world D) w) as Hset by (apply backlog_settled; lia).
    unfold idle, returned in *. destruct (stream_phase_ s) as [|p|p t|] eqn:Hph; [|right..|done].
    + destruct (slot x) as [p|] eqn:Hslot; [right|by left]. exists (StreamReceive w 0). split; [done|].
      cbn. rewrite Hs. cbn. rewrite Hph. unfold stream_receive. rewrite Hx. cbn. rewrite Hslot, Hx. by eexists.
    + exists (StreamLookup w 0). split; [done|]. cbn. rewrite Hs. cbn. rewrite Hph. unfold stream_lookup. cbn.
      case_guard as Hg; [by eexists|]. exfalso. apply Hg. unfold headroom in *.
      match goal with |- context [notifications ?n] => pose proof (notifications_length n) end. lia.
    + exists (StreamSend w None). split; [done|]. cbn. rewrite Hs. cbn. rewrite Hph. by eexists.
  - intros a D' Ha Hdo. destruct a as [[| |i| | |]| |v t| |v t|v [|]| |]; cbn in Ha; try done; subst.
    + destruct Ha as [p Hi]. by eapply deliver_work.
    + pose proof Hdo as Hdo'. cbn in Hdo'. rewrite Hs in Hdo'. cbn in Hdo'. destruct (stream_phase_ s) eqn:Hph; try done.
      by eapply receive_work.
    + pose proof Hdo as Hdo'. cbn in Hdo'. rewrite Hs in Hdo'. cbn in Hdo'. destruct (stream_phase_ s) eqn:Hph; try done.
      by eapply lookup_work.
    + pose proof Hdo as Hdo'. cbn in Hdo'. rewrite Hs in Hdo'. cbn in Hdo'. destruct (stream_phase_ s) eqn:Hph; try done.
      by eapply send_work.
  - unfold work_left, idle, phase_cost, returned in *. rewrite Hs, Hx. intros Hw. rewrite <-backlog_settled.
    destruct (stream_phase_ s), (slot x); try done; split_and!; try done; lia.
Qed.
End props.

(** ** A concrete run

    A client subscribes, gets the first observation, and is overtaken by its expiry:
    the lookup sends the closed state, and the delivery of the same publication is
    not sent again. *)

Section example.
#[local] Existing Instances identity_digest.
#[local] Existing Instances plain_service.

Definition example_stream_run : list delivery_action :=
  [Elsewhere (ActCall (CallPut (example_snapshot second) second second)); OpenWatch 7 example_key second second;
   Elsewhere (ActDeliver 0); StreamReceive 7 (2 * minute); StreamLookup 7 (2 * minute); StreamSend 7 None;
   Elsewhere (ActDeliver 0); StreamReceive 7 (2 * minute); StreamLookup 7 (2 * minute); StreamSend 7 None].

Definition example_delivery (n : nat) : delivery :=
  default (NewDelivery "process") (delivery_run (take n example_stream_run) (NewDelivery "process")).

Definition example_stream (n : nat) : stream := default (Stream Selecting 0 []) (dl_streams (example_delivery n) !! 7%positive).

Definition example_consumer (n : nat) : watcher :=
  default (new_watcher example_key true 0) (world_watchers (dl_world (example_delivery n)) !! 7%positive).

Lemma delivery_run_reachable id l D : delivery_run l (NewDelivery id) = Some D → delivery_reachable id D.
Proof.
  unfold delivery_run. revert D. induction l as [|a l IH] using rev_ind; intros D; [intros [= <-]; constructor|].
  rewrite foldl_snoc. intros (D1 & HD1 & Hdo)%bind_Some. econstructor; [by apply IH|done].
Qed.

Lemma example_delivery_reachable n :
  bool_decide (is_Some (delivery_run (take n example_stream_run) (NewDelivery "process"))) = true →
  delivery_reachable "process" (example_delivery n).
Proof.
  intros [D HD]%bool_decide_eq_true. unfold example_delivery. rewrite HD. by eapply delivery_run_reachable.
Qed.

(** Nothing has been published as deleted in this run. *)
Lemma example_tombstones : tombstones_closed (dl_world (example_delivery 10)).
Proof.
  assert (map_Forall (λ _ p, snapshot_Reason (publication_snapshot p) ≠ "deleted") (world_history (dl_world (example_delivery 10))))
    as Hm by (eapply bool_decide_unpack; vm_compute; exact I).
  intros n p Hp Hd. by destruct (Hm n p Hp).
Qed.

Lemma stream_shows_store_witness :
  length (stream_out (example_stream 10)) = 1%nat
  ∧ ∃ o rest, stream_out (example_stream 10) = o :: rest
    ∧ Some (sent_message o) = (λ r, toProto (record_snapshot r)) <$> records (world_store (dl_world (example_delivery 10))) !! example_key.
Proof.
  split; [vm_compute; reflexivity|].
  destruct (stream_shows_store "process" (example_delivery 10) 7 (example_stream 10) (example_consumer 10)) as (_ & _ & Hidle).
  - apply example_delivery_reachable. vm_compute. reflexivity.
  - apply example_tombstones.
  - apply lookup_default_eq. vm_compute. reflexivity.
  - apply lookup_default_eq. vm_compute. reflexivity.
  - assert (watcher_key (example_consumer 10) = example_key) as Hk by (vm_compute; reflexivity).
    destruct Hidle as (o & rest & Ho & Hm).
    + split; [vm_compute; reflexivity|]. split; [vm_compute; reflexivity|]. apply backlog_settled. vm_compute. reflexivity.
    + exists o, rest. split; [exact Ho|]. rewrite Hk in Hm.
      destruct (records (world_store (dl_world (example_delivery 10))) !! example_key) eqn:E; [rewrite Hm; reflexivity|].
      exfalso. assert (bool_decide (is_Some (records (world_store (dl_world (example_delivery 10))) !! example_key)) = true) as Hs
        by (vm_compute; reflexivity). rewrite E in Hs. discriminate Hs.
Defined.

(** After four actions the stream is about to look up the expired snapshot. *)
Lemma stream_catches_up_witness :
  (∃ a, serves 7 (example_delivery 4) a ∧ is_Some (delivery_do a (example_delivery 4)))
  ∧ work_left (example_delivery 4) 7 = 10%nat.
Proof.
  split; [|vm_compute; reflexivity].
  destruct (stream_catches_up "process" (example_delivery 4) 7 (example_stream 4) (example_consumer 4)) as ([Hidle|Ha] & _).
  - apply example_delivery_reachable. vm_compute. reflexivity.
  - vm_compute. reflexivity.
  - apply lookup_default_eq. vm_compute. reflexivity.
  - vm_compute. reflexivity.
  - apply lookup_default_eq. vm_compute. reflexivity.
  - exfalso. destruct Hidle as (Hph & _). vm_compute in Hph. discriminate Hph.
  - exact Ha.
Defined.
End example.
