(* ===== verification/Work.v ===== *)
(** * Probe capacity (src/internal/observer/work.go)

    [acquireProbe] takes a slot of one or two counting semaphores (buffered
    channels) and returns the function that gives them back.  Callers run
    concurrently: every channel operation is one step of [probe_do], and a caller
    is a position in the code of [acquireProbe] or of its release function. *)

From S2P Require Import Prelude.

(** [limit/8] truncates; limits are positive. *)
Definition reservedCapacity (limit : Z) : Z :=
  if limit <? 2 then 0 else Z.max 1 (Z.quot limit 8).

(** Where a caller is. *)
Inductive phase :=
  | Entered            (* before the first select *)
  | AwaitBackground    (* blocked on backgroundProbeSlots *)
  | TryProbe           (* before the select on probeSlots *)
  | AwaitProbe         (* blocked on probeSlots *)
  | Holding            (* acquireProbe returned its release function *)
  | Releasing          (* release has received from probeSlots *)
  | Finished.

#[export] Instance phase_eq_dec : EqDecision phase.
Proof. solve_decision. Defined.

Record caller := Caller { caller_urgent : bool; caller_phase : phase }.

(** The observer's part: the lengths and capacities of the two channels, and the
    counters. *)
Record probes := {
  probeSlots : Z;
  probeSlots_cap : Z;
  backgroundProbeSlots : Z;
  backgroundProbeSlots_cap : Z;
  probeSaturation : Z; (* uint64 *)
  probeCancellations : Z; (* uint64 *)
  callers : gmap positive caller;
}.

(** [configureProbeLimits]. *)
Definition configureProbeLimits (MaxConcurrency : Z) : probes := {|
  probeSlots := 0; probeSlots_cap := MaxConcurrency;
  backgroundProbeSlots := 0; backgroundProbeSlots_cap := MaxConcurrency - reservedCapacity MaxConcurrency;
  probeSaturation := 0; probeCancellations := 0; callers := ∅;
|}.

(** The caller moves, the channels change their lengths, the counters advance. *)
Definition move (p : positive) (c : caller) (ph : phase) (dslots dbackground : Z) (saturated cancelled : bool)
    (s : probes) : probes := {|
  probeSlots := probeSlots s + dslots; probeSlots_cap := probeSlots_cap s;
  backgroundProbeSlots := backgroundProbeSlots s + dbackground;
  backgroundProbeSlots_cap := backgroundProbeSlots_cap s;
  probeSaturation := if saturated then wrap_u64 (probeSaturation s + 1) else probeSaturation s;
  probeCancellations := if cancelled then wrap_u64 (probeCancellations s + 1) else probeCancellations s;
  callers := <[p := Caller (caller_urgent c) ph]> (callers s);
|}.

Definition probe_room (s : probes) : bool := probeSlots s <? probeSlots_cap s.
Definition background_room (s : probes) : bool := backgroundProbeSlots s <? backgroundProbeSlots_cap s.

(** What the scheduler may do: a call, a step of a caller, or a step in which the
    caller observes its cancelled context. *)
Inductive probe_action :=
  | ProbeCall (p : positive) (urgent : bool)
  | ProbeStep (p : positive)
  | ProbeCancel (p : positive)
  | ProbeRelease (p : positive).

(** The next step of a caller; [None] when it is blocked or has nothing to do. *)
Definition acquire_step (p : positive) (c : caller) (s : probes) : option probes :=
  match caller_phase c with
  | Entered =>
      if caller_urgent c then Some (move p c TryProbe 0 0 false false s)
      else if background_room s then Some (move p c TryProbe 0 1 false false s)
      else Some (move p c AwaitBackground 0 0 true false s)
  | AwaitBackground => if background_room s then Some (move p c TryProbe 0 1 false false s) else None
  | TryProbe =>
      if probe_room s then Some (move p c Holding 1 0 false false s)
      else Some (move p c AwaitProbe 0 0 true false s)
  | AwaitProbe => if probe_room s then Some (move p c Holding 1 0 false false s) else None
  | Holding | Releasing | Finished => None
  end.

(** [ctx.Err()] at entry or [ctx.Done()] while blocked. *)
Definition cancel_step (p : positive) (c : caller) (s : probes) : option probes :=
  match caller_phase c with
  | Entered | AwaitBackground => Some (move p c Finished 0 0 false true s)
  | AwaitProbe =>
      if caller_urgent c then Some (move p c Finished 0 0 false true s)
      else if 0 <? backgroundProbeSlots s then Some (move p c Finished 0 (-1) false true s) else None
  | TryProbe | Holding | Releasing | Finished => None
  end.

(** The release function: two receives, each blocking on an empty channel. *)
Definition release_step (p : positive) (c : caller) (s : probes) : option probes :=
  match caller_phase c with
  | Holding =>
      if 0 <? probeSlots s
      then Some (move p c (if caller_urgent c then Finished else Releasing) (-1) 0 false false s)
      else None
  | Releasing =>
      if 0 <? backgroundProbeSlots s then Some (move p c Finished 0 (-1) false false s) else None
  | _ => None
  end.

Definition probe_do (a : probe_action) (s : probes) : option probes :=
  match a with
  | ProbeCall p urgent =>
      guard (callers s !! p = None) ;;
      Some (move p (Caller urgent Entered) Entered 0 0 false false s)
  | ProbeStep p => c ← callers s !! p; acquire_step p c s
  | ProbeCancel p => c ← callers s !! p; cancel_step p c s
  | ProbeRelease p => c ← callers s !! p; release_step p c s
  end.

Inductive probe_reachable (limit : Z) : probes → Prop :=
  | probe_init : probe_reachable limit (configureProbeLimits limit)
  | probe_next a s s' : probe_reachable limit s → probe_do a s = Some s' → probe_reachable limit s'.
