(* ===== verification/WorkProps.v ===== *)
(** * Correctness of probe capacity

    Channel lengths count the callers that hold slots, so simultaneous probes are
    bounded, background work cannot take the reserved part, releases never block
    and no slot leaks. *)

From S2P Require Import Prelude Work.

(** ** The invariant *)

Definition holds_probe (c : caller) : bool := bool_decide (caller_phase c = Holding).

Definition holds_background (c : caller) : bool :=
  negb (caller_urgent c) && Contains [TryProbe; AwaitProbe; Holding; Releasing] (caller_phase c).

Record probes_wf (limit : Z) (s : probes) : Prop := {
  wf_slots : probeSlots s = count holds_probe (callers s);
  wf_background : backgroundProbeSlots s = count holds_background (callers s);
  wf_slots_cap : probeSlots s ≤ probeSlots_cap s;
  wf_background_cap : backgroundProbeSlots s ≤ backgroundProbeSlots_cap s;
  wf_cap : probeSlots_cap s = limit;
  wf_background_limit : backgroundProbeSlots_cap s = limit - reservedCapacity limit;
  wf_releasing : ∀ p c, callers s !! p = Some c →
    caller_phase c = AwaitBackground ∨ caller_phase c = Releasing → caller_urgent c = false;
}.

(** How a move changes the two counts. *)
Lemma move_wf limit p c ph dslots dbackground sat can s :
  probes_wf limit s →
  match callers s !! p with Some c' => c' = c | None => caller_phase c = Entered end →
  dslots = (if holds_probe (Caller (caller_urgent c) ph) then 1 else 0) - (if holds_probe c then 1 else 0) →
  dbackground = (if holds_background (Caller (caller_urgent c) ph) then 1 else 0) - (if holds_background c then 1 else 0) →
  (ph = AwaitBackground ∨ ph = Releasing → caller_urgent c = false) →
  (probeSlots s + dslots ≤ probeSlots_cap s ∧ backgroundProbeSlots s + dbackground ≤ backgroundProbeSlots_cap s) →
  probes_wf limit (move p c ph dslots dbackground sat can s).
Proof.
  intros [Hs Hb ? ? ? ? Hrel] Hc Hds Hdb Hph [? ?].
  assert (∀ f, f c = false ∨ is_Some (callers s !! p) →
    (match callers s !! p with Some x => if f x then 1 else 0 | None => 0 end) = (if f c then 1 else 0)) as Hval.
  { intros f. destruct (callers s !! p) as [c'|]; [by subst|]. intros [->|[? [=]]]. done. }
  split; cbn; try done.
  - rewrite count_insert, Hval, Hs; [lia|]. destruct (callers s !! p); [by eauto|].
    left. unfold holds_probe. by rewrite Hc.
  - rewrite count_insert, Hval, Hb; [lia|]. destruct (callers s !! p); [by eauto|].
    left. unfold holds_background. rewrite Hc. apply andb_false_r.
  - intros p' c' [[<- <-]|[_ Hp']]%lookup_insert_Some; [done|by eauto].
Qed.

Lemma probe_do_wf limit a s s' : probes_wf limit s → probe_do a s = Some s' → probes_wf limit s'.
Proof.
  intros Hwf Hdo. pose proof Hwf as [Hs Hb Hsc Hbc _ _ Hrel]. destruct a as [p urgent|p|p|p]; cbn in Hdo.
  - destruct (callers s !! p) eqn:Hp; cbn in Hdo; [done|]. simplify_option_eq.
    apply move_wf; cbn; rewrite ?Hp; try done; try lia; by intros [].
  - destruct (callers s !! p) as [[u ph]|] eqn:Hp; [|done]. cbn in Hdo. unfold acquire_step, probe_room, background_room in Hdo.
    destruct ph, u; cbn in Hdo; repeat case_match; simplify_eq; try (by specialize (Hrel p _ Hp ltac:(by auto)));
      apply move_wf; cbn; rewrite ?Hp; try done; try lia; by intros [].
  - destruct (callers s !! p) as [[u ph]|] eqn:Hp; [|done]. cbn in Hdo. unfold cancel_step in Hdo.
    destruct ph, u; cbn in Hdo; repeat case_match; simplify_eq; try (by specialize (Hrel p _ Hp ltac:(by auto)));
      apply move_wf; cbn; rewrite ?Hp; try done; try lia; by intros [].
  - destruct (callers s !! p) as [[u ph]|] eqn:Hp; [|done]. cbn in Hdo. unfold release_step in Hdo.
    destruct ph, u; cbn in Hdo; repeat case_match; simplify_eq; try (by specialize (Hrel p _ Hp ltac:(by auto)));
      apply move_wf; cbn; rewrite ?Hp; try done; try lia; by intros [].
Qed.

Lemma reservedCapacity_bounds limit : 1 ≤ limit → 0 ≤ reservedCapacity limit < limit.
Proof.
  intros Hl. unfold reservedCapacity. destruct (Z.ltb_spec limit 2); [lia|].
  rewrite Z.quot_div_nonneg by lia. pose proof (Z.div_le_upper_bound limit 8 (limit - 1)). lia.
Qed.

Lemma probe_reachable_wf limit s : 1 ≤ limit → probe_reachable limit s → probes_wf limit s.
Proof.
  intros Hl. induction 1 as [|a s s' _ IH Hdo]; [|by eapply probe_do_wf].
  pose proof (reservedCapacity_bounds limit Hl).
  split; cbn; try done; rewrite ?count_empty; lia.
Qed.

(** ** Theorems *)

(** Holders by class. *)
Definition probing (urgent : bool) (c : caller) : bool :=
  holds_probe c && bool_decide (caller_urgent c = urgent).

Lemma count_split {A} (f g h : A → bool) (m : gmap positive A) :
  (∀ x, (if f x then 1 else 0) = (if g x then 1 else 0) + (if h x then 1 else 0)) → count f m = count g m + count h m.
Proof.
  intros Hsum. induction m as [|k x m Hk IH] using map_ind; [by rewrite !count_empty|].
  rewrite !count_insert, Hk. specialize (Hsum x). lia.
Qed.

Lemma count_le {A} (f g : A → bool) (m : gmap positive A) :
  (∀ x, f x = true → g x = true) → count f m ≤ count g m.
Proof.
  intros Himp. induction m as [|k x m Hk IH] using map_ind; [by rewrite !count_empty|].
  rewrite !count_insert, Hk. specialize (Himp x). destruct (f x); [rewrite Himp by done; lia|].
  destruct (g x); lia.
Qed.

(** C31: whatever the interleaving of callers and cancellations, at most
    [MaxConcurrency] callers hold a probe slot and background callers leave the
    reserved part free: as long as urgent callers hold fewer than the reserved
    number, a probe slot is free. *)
Theorem probe_capacity limit s :
  1 ≤ limit → probe_reachable limit s →
  count holds_probe (callers s) ≤ limit
  ∧ count (probing false) (callers s) ≤ limit - reservedCapacity limit
  ∧ (count (probing true) (callers s) < reservedCapacity limit → probe_room s = true).
Proof.
  intros Hl Hr. apply probe_reachable_wf in Hr as [Hs Hb Hsc Hbc Hc Hbl Hrel]; [|done].
  assert (count (probing false) (callers s) ≤ count holds_background (callers s)) as Hle.
  { apply count_le. intros [u ph]. unfold probing, holds_probe, holds_background. cbn.
    intros [->%bool_decide_eq_true ->%bool_decide_eq_true]%andb_true_iff. done. }
  split_and!; [lia..|]. intros Hu. unfold probe_room. apply Z.ltb_lt.
  rewrite Hs, (count_split holds_probe (probing true) (probing false)); [lia|].
  intros [[] ph]; unfold probing; cbn; by destruct (holds_probe _).
Qed.

(** A release never blocks: the channels hold what the caller put in. *)
Lemma release_enabled limit s p c :
  probes_wf limit s → callers s !! p = Some c → caller_phase c = Holding ∨ caller_phase c = Releasing →
  is_Some (probe_do (ProbeRelease p) s).
Proof.
  intros [Hs Hb _ _ _ _ Hrel] Hp Hph. cbn. rewrite Hp. cbn. unfold release_step. destruct Hph as [Hph|Hph]; rewrite Hph.
  - rewrite (proj2 (Z.ltb_lt 0 _)); [done|]. rewrite Hs.
    enough (1 ≤ count holds_probe (callers s)) by lia. eapply count_pos; [done|]. unfold holds_probe. by rewrite Hph.
  - rewrite (proj2 (Z.ltb_lt 0 _)); [done|]. rewrite Hb. enough (1 ≤ count holds_background (callers s)) by lia.
    eapply count_pos; [done|]. unfold holds_background. by rewrite Hph, (Hrel p c) by auto.
Qed.

(** Nor does the return of a caller that was cancelled while it waited. *)
Lemma cancel_enabled limit s p c :
  probes_wf limit s → callers s !! p = Some c → caller_phase c = AwaitProbe → is_Some (probe_do (ProbeCancel p) s).
Proof.
  intros [Hs Hb _ _ _ _ Hrel] Hp Hph. destruct c as [u ph]. cbn in *. subst. rewrite Hp. cbn. unfold cancel_step. cbn. destruct u; [done|].
  rewrite (proj2 (Z.ltb_lt 0 _)); [done|]. rewrite Hb. enough (1 ≤ count holds_background (callers s)) by lia.
  by eapply count_pos.
Qed.

(** A caller that holds slots can always give them back at once, and when
    every caller has finished all slots are free again. *)
Theorem probe_slots_returned limit s :
  1 ≤ limit → probe_reachable limit s →
  (∀ p c, callers s !! p = Some c → caller_phase c = Holding ∨ caller_phase c = Releasing →
    is_Some (probe_do (ProbeRelease p) s))
  ∧ (∀ p c, callers s !! p = Some c → caller_phase c = AwaitProbe → is_Some (probe_do (ProbeCancel p) s))
  ∧ ((∀ p c, callers s !! p = Some c → caller_phase c = Finished) →
     probeSlots s = 0 ∧ backgroundProbeSlots s = 0).
Proof.
  intros Hl Hr. apply probe_reachable_wf in Hr as Hwf; [|done]. split_and!.
  - intros p c. by apply (release_enabled limit).
  - intros p c. by apply (cancel_enabled limit).
  - destruct Hwf as [Hs Hb _ _ _ _ _]. intros Hf. rewrite Hs, Hb. split; apply count_none; intros p c Hp;
      unfold holds_probe, holds_background; rewrite (Hf _ _ Hp); [done|apply andb_false_r].
Qed.

(** ** Concrete runs *)

Definition probe_run (l : list probe_action) (s : probes) : option probes :=
  foldl (λ o a, o ≫= probe_do a) (Some s) l.

Lemma probe_run_reachable limit l s s' :
  probe_reachable limit s → probe_run l s = Some s' → probe_reachable limit s'.
Proof.
  revert s s'. induction l as [|a l IH] using rev_ind; intros s s' Hs; unfold probe_run; cbn; [by intros [= <-]|].
  rewrite foldl_snoc. fold (probe_run l s). destruct (probe_run l s) as [s1|] eqn:E; [|done]. cbn. intros Hdo.
  eapply probe_next; [|done]. by eapply IH.
Qed.

(** With a limit of two, one background caller probes and another waits. *)
Definition example_actions : list probe_action :=
  [ProbeCall 1 false; ProbeStep 1; ProbeStep 1; ProbeCall 2 false; ProbeStep 2; ProbeCall 3 true; ProbeStep 3].

Lemma probe_capacity_witness :
  ∃ s, probe_run example_actions (configureProbeLimits 2) = Some s ∧ probe_room s = true.
Proof.
  destruct (probe_run example_actions (configureProbeLimits 2)) as [s|] eqn:E; [|vm_compute in E; discriminate E].
  exists s. split; [reflexivity|]. apply (probe_capacity 2 s); [lia|..].
  - by eapply probe_run_reachable; [apply probe_init|exact E].
  - vm_compute in E. injection E as <-. vm_compute. reflexivity.
Defined.

Lemma probe_slots_returned_witness :
  ∃ s, probe_run example_actions (configureProbeLimits 2) = Some s ∧ is_Some (probe_do (ProbeRelease 1) s).
Proof.
  destruct (probe_run example_actions (configureProbeLimits 2)) as [s|] eqn:E; [|vm_compute in E; discriminate E].
  exists s. split; [reflexivity|]. eapply (probe_slots_returned 2 s); [lia|..].
  - by eapply probe_run_reachable; [apply probe_init|exact E].
  - vm_compute in E. injection E as <-. reflexivity.
  - left. reflexivity.
Defined.
