(* ===== verification/Admission.v ===== *)
(** * Discovery admission (src/internal/server/admission.go)

    The limits of the discovery server, and the admission of requests before gRPC
    reads them.  A request is a position in the code of [admit_request] or of the
    [finish] function it returns; every channel operation, timer and cancellation
    is one step of [admission_do]. *)

From S2P Require Import Prelude Grpc.

(** ** Limits *)

Record Limits := {
  MaxConcurrentStreams : Z; (* int *)
  MaxConnections : Z; (* int *)
  MaxRPCs : Z; (* int *)
  MaxWatches : Z; (* int *)
  InitialRequestTimeout : duration;
}.

Definition DefaultLimits : Limits := {|
  MaxConcurrentStreams := 128; MaxConnections := 1024; MaxRPCs := 4096; MaxWatches := 2048;
  InitialRequestTimeout := 5 * second;
|}.

Inductive limits_error :=
  | ErrLimit (name : string)
  | ErrInitialRequestTimeout.

(** [if *v.value == 0 { *v.value = v.fallback }]. *)
Definition with_fallback (value fallback : Z) : Z := if value =? 0 then fallback else value.

Definition limit_in_range (value : Z) : bool := (1 <=? value) && (value <=? 1000000).

(** The fields are completed and checked in order; the first failure returns. *)
Definition normalized (l : Limits) : Limits * option limits_error :=
  let d := DefaultLimits in
  let streams := with_fallback (MaxConcurrentStreams l) (MaxConcurrentStreams d) in
  let connections := with_fallback (MaxConnections l) (MaxConnections d) in
  let rpcs := with_fallback (MaxRPCs l) (MaxRPCs d) in
  let watches := with_fallback (MaxWatches l) (MaxWatches d) in
  let timeout := with_fallback (InitialRequestTimeout l) (InitialRequestTimeout d) in
  if negb (limit_in_range streams)
  then (Build_Limits streams (MaxConnections l) (MaxRPCs l) (MaxWatches l) (InitialRequestTimeout l),
        Some (ErrLimit "max-concurrent-streams"))
  else if negb (limit_in_range connections)
  then (Build_Limits streams connections (MaxRPCs l) (MaxWatches l) (InitialRequestTimeout l),
        Some (ErrLimit "max-discovery-connections"))
  else if negb (limit_in_range rpcs)
  then (Build_Limits streams connections rpcs (MaxWatches l) (InitialRequestTimeout l),
        Some (ErrLimit "max-discovery-rpcs"))
  else if negb (limit_in_range watches)
  then (Build_Limits streams connections rpcs watches (InitialRequestTimeout l),
        Some (ErrLimit "max-discovery-watches"))
  else if (timeout <? millisecond) || (minute <? timeout)
  then (Build_Limits streams connections rpcs watches timeout, Some ErrInitialRequestTimeout)
  else (Build_Limits streams connections rpcs watches timeout, None).

Definition Validate (l : Limits) : option limits_error := (normalized l).2.

(** ** Admission *)

Definition WatchTopology_FullMethodName : string := "/cnpg.connect.v1.TopologyService/WatchTopology".

Inductive request_phase :=
  | HasRPC       (* a slot of [rpcs] is held, the watch slot is not yet taken *)
  | Rejecting    (* no watch slot: about to receive from [rpcs] *)
  | Serving
  | Unwatched    (* finish has given the watch slot back *)
  | Gone.

Inductive timer := TimerArmed | TimerFired | TimerStopped.

#[export] Instance request_phase_eq_dec : EqDecision request_phase.
Proof. solve_decision. Defined.
#[export] Instance timer_eq_dec : EqDecision timer.
Proof. solve_decision. Defined.

(** [admittedRPC] with the position of its handler and whether its context is
    cancelled. *)
Record request := Request {
  request_watch : bool;
  request_phase_ : request_phase;
  request_timer : timer;
  request_cancelled : bool;
}.

Record admission := {
  adm_limits : Limits;
  adm_rpcs : Z; (* len(a.rpcs) *)
  adm_watches : Z; (* len(a.watches) *)
  adm_rejectedAuth : Z; (* uint64 *)
  adm_rejectedCapacity : Z; (* uint64 *)
  adm_timedout : Z; (* uint64 *)
  adm_shutdown : option status; (* the status of a.ctx.Err() *)
  adm_requests : gmap positive request;
}.

(** [newAdmission] on valid limits; invalid limits are an error. *)
Definition newAdmission (l : Limits) : limits_error + admission :=
  match normalized l with
  | (_, Some err) => inl err
  | (l, None) => inr {|
      adm_limits := l; adm_rpcs := 0; adm_watches := 0; adm_rejectedAuth := 0; adm_rejectedCapacity := 0;
      adm_timedout := 0; adm_shutdown := None; adm_requests := ∅ |}
  end.

(** Change a request, the channel lengths and the counters. *)
Definition upd (id : positive) (r : request) (drpcs dwatches dauth dcapacity dtimedout : Z) (a : admission) : admission := {|
  adm_limits := adm_limits a; adm_rpcs := adm_rpcs a + drpcs; adm_watches := adm_watches a + dwatches;
  adm_rejectedAuth := wrap_u64 (adm_rejectedAuth a + dauth);
  adm_rejectedCapacity := wrap_u64 (adm_rejectedCapacity a + dcapacity);
  adm_timedout := wrap_u64 (adm_timedout a + dtimedout); adm_shutdown := adm_shutdown a;
  adm_requests := <[id := r]> (adm_requests a);
|}.

(** The first part of [admit_request], up to the select on [rpcs]: the status of a
    rejected request, or [None]. [parent] is the request context's error and
    [denied] the result of [authorize]. *)
Definition admit_request (id : positive) (method : string) (parent denied : option status) (a : admission) :
    option status * admission :=
  let gone := Request false Gone TimerStopped true in
  match adm_shutdown a, parent, denied with
  | Some err, _, _ | None, Some err, _ => (Some err, upd id gone 0 0 0 0 0 a)
  | None, None, Some err => (Some err, upd id gone 0 0 1 0 0 a)
  | None, None, None =>
      if adm_rpcs a <? MaxRPCs (adm_limits a)
      then (None, upd id (Request (bool_decide (method = WatchTopology_FullMethodName)) HasRPC TimerStopped false)
                    1 0 0 0 0 a)
      else (Some (Status ResourceExhausted "discovery RPC capacity exhausted"), upd id gone 0 0 0 1 0 a)
  end.

Definition shut_down (a : admission) : bool := bool_decide (is_Some (adm_shutdown a)).

(** The rest of [admit_request]: the select on [watches], then the timer starts. *)
Definition admit_step (id : positive) (r : request) (a : admission) : option admission :=
  match request_phase_ r with
  | HasRPC =>
      if request_watch r then
        if adm_watches a <? MaxWatches (adm_limits a)
        then Some (upd id (Request true Serving TimerArmed (shut_down a)) 0 1 0 0 0 a)
        else Some (upd id (Request true Rejecting TimerStopped true) 0 0 0 0 0 a)
      else Some (upd id (Request false Serving TimerArmed (shut_down a)) 0 0 0 0 0 a)
  | Rejecting =>
      if 0 <? adm_rpcs a then Some (upd id (Request true Gone TimerStopped true) (-1) 0 0 1 0 a) else None
  | _ => None
  end.

(** [state.finish]: stop the timer, cancel, and return the slots. *)
Definition finish_step (id : positive) (r : request) (a : admission) : option admission :=
  match request_phase_ r with
  | Serving =>
      let stopped := if bool_decide (request_timer r = TimerArmed) then TimerStopped else request_timer r in
      if request_watch r then
        if 0 <? adm_watches a then Some (upd id (Request true Unwatched stopped true) 0 (-1) 0 0 0 a) else None
      else if 0 <? adm_rpcs a then Some (upd id (Request false Gone stopped true) (-1) 0 0 0 0 a) else None
  | Unwatched =>
      if 0 <? adm_rpcs a then Some (upd id (Request true Gone (request_timer r) true) (-1) 0 0 0 0 a) else None
  | _ => None
  end.

Inductive admission_action :=
  | Arrive (id : positive) (method : string) (parent denied : option status)
  | AdmitStep (id : positive)
  | Timeout_ (id : positive)      (* the timer fires: count and cancel *)
  | BodyEOF (id : positive)       (* initialRequestBody.Read reached io.EOF *)
  | Shutdown (err : status)       (* a.ctx is cancelled *)
  | FinishStep (id : positive).

(** [initialRequestBody.Read] at [io.EOF]: [state.timer.Stop()]. *)
Definition body_eof (r : request) : request :=
  Request (request_watch r) (request_phase_ r)
    (if bool_decide (request_timer r = TimerArmed) then TimerStopped else request_timer r) (request_cancelled r).

(** [context.AfterFunc a.ctx cancel]. *)
Definition cancel_request (r : request) : request :=
  Request (request_watch r) (request_phase_ r) (request_timer r) true.

Definition admission_do (act : admission_action) (a : admission) : option admission :=
  match act with
  | Arrive id method parent denied =>
      guard (adm_requests a !! id = None) ;; Some (admit_request id method parent denied a).2
  | AdmitStep id => r ← adm_requests a !! id; admit_step id r a
  | FinishStep id => r ← adm_requests a !! id; finish_step id r a
  | Timeout_ id =>
      r ← adm_requests a !! id;
      guard (request_timer r = TimerArmed) ;;
      Some (upd id (Request (request_watch r) (request_phase_ r) TimerFired true) 0 0 0 0 1 a)
  | BodyEOF id =>
      r ← adm_requests a !! id;
      guard (request_phase_ r = Serving) ;;
      Some (upd id (body_eof r) 0 0 0 0 0 a)
  | Shutdown err =>
      Some {| adm_limits := adm_limits a; adm_rpcs := adm_rpcs a; adm_watches := adm_watches a;
              adm_rejectedAuth := adm_rejectedAuth a; adm_rejectedCapacity := adm_rejectedCapacity a;
              adm_timedout := adm_timedout a; adm_shutdown := Some err;
              adm_requests := cancel_request <$> adm_requests a |}
  end.

Inductive admission_reachable (a0 : admission) : admission → Prop :=
  | admission_init : admission_reachable a0 a0
  | admission_next act a a' :
      admission_reachable a0 a → admission_do act a = Some a' → admission_reachable a0 a'.
