(* ===== verification/AdmissionProps.v ===== *)
(** * Correctness of discovery admission

    Accepted limits are complete and in range; admitted requests never exceed
    them, every request can give its slots back, and nothing leaks. *)

From S2P Require Import Prelude Grpc Admission.

(** ** Limits *)

Definition completed (given fallback value : Z) : Prop :=
  (given = 0 → value = fallback) ∧ (given ≠ 0 → value = given).

Record limits_ok (l : Limits) : Prop := {
  ok_streams : 1 ≤ MaxConcurrentStreams l ≤ 1000000;
  ok_connections : 1 ≤ MaxConnections l ≤ 1000000;
  ok_rpcs : 1 ≤ MaxRPCs l ≤ 1000000;
  ok_watches : 1 ≤ MaxWatches l ≤ 1000000;
  ok_timeout : millisecond ≤ InitialRequestTimeout l ≤ minute;
}.

Lemma with_fallback_spec given fallback : completed given fallback (with_fallback given fallback).
Proof. unfold completed, with_fallback. destruct (Z.eqb_spec given 0); naive_solver. Qed.

Lemma with_fallback_id given fallback : 1 ≤ given → with_fallback given fallback = given.
Proof. unfold with_fallback. destruct (Z.eqb_spec given 0); [lia|done]. Qed.

Lemma limit_in_range_spec v : limit_in_range v = true ↔ 1 ≤ v ≤ 1000000.
Proof. unfold limit_in_range. lia. Qed.

(** Every path of [normalized]. *)
Lemma normalized_ok l l' :
  normalized l = (l', None) → limits_ok l' ∧
  l' = Build_Limits (with_fallback (MaxConcurrentStreams l) 128) (with_fallback (MaxConnections l) 1024)
         (with_fallback (MaxRPCs l) 4096) (with_fallback (MaxWatches l) 2048)
         (with_fallback (InitialRequestTimeout l) (5 * second)).
Proof.
  unfold normalized. cbn [DefaultLimits MaxConcurrentStreams MaxConnections MaxRPCs MaxWatches InitialRequestTimeout].
  repeat (case_goal; [done|]). intros [= <-]. boolify. rewrite !limit_in_range_spec, !Z.ltb_ge in *.
  split; [by split|done].
Qed.

Lemma normalized_complete l : limits_ok l → normalized l = (l, None).
Proof.
  intros [Hs Hc Hr Hw [Ht1 Ht2]]. unfold normalized.
  assert (1 ≤ InitialRequestTimeout l) by (unfold millisecond, nanosecond in *; lia).
  rewrite !with_fallback_id by lia. apply limit_in_range_spec in Hs, Hc, Hr, Hw. rewrite Hs, Hc, Hr, Hw. cbn.
  apply Z.ltb_ge in Ht1, Ht2. rewrite Ht1, Ht2. by destruct l.
Qed.

(** ** The invariant *)

Definition holds_rpc (r : request) : bool := negb (bool_decide (request_phase_ r = Gone)).
Definition holds_watch (r : request) : bool := request_watch r && bool_decide (request_phase_ r = Serving).
Definition timed_out (r : request) : bool := bool_decide (request_timer r = TimerFired).

Record admission_wf (l : Limits) (a : admission) : Prop := {
  wf_limits : adm_limits a = l;
  wf_rpcs : adm_rpcs a = count holds_rpc (adm_requests a);
  wf_watches : adm_watches a = count holds_watch (adm_requests a);
  wf_rpcs_cap : adm_rpcs a ≤ MaxRPCs l;
  wf_watches_cap : adm_watches a ≤ MaxWatches l;
  wf_timedout : adm_timedout a = wrap_u64 (count timed_out (adm_requests a));
  wf_phases : ∀ id r, adm_requests a !! id = Some r →
    (request_phase_ r = Rejecting ∨ request_phase_ r = Unwatched → request_watch r = true)
    ∧ (request_timer r = TimerArmed → request_phase_ r = Serving)
    ∧ (request_timer r = TimerFired → request_phase_ r ≠ HasRPC ∧ request_phase_ r ≠ Rejecting);
}.

(** The contribution of the request filed under [id]. *)
Definition had (f : request → bool) (a : admission) (id : positive) : Z :=
  match adm_requests a !! id with Some r => if f r then 1 else 0 | None => 0 end.

Lemma wrap_u64_add x y : wrap_u64 (wrap_u64 x + y) = wrap_u64 (x + y).
Proof. unfold wrap_u64. apply Zplus_mod_idemp_l. Qed.

Lemma upd_wf l id r drpcs dwatches dauth dcapacity dtimedout a :
  admission_wf l a →
  drpcs = (if holds_rpc r then 1 else 0) - had holds_rpc a id →
  dwatches = (if holds_watch r then 1 else 0) - had holds_watch a id →
  dtimedout = (if timed_out r then 1 else 0) - had timed_out a id →
  (request_phase_ r = Rejecting ∨ request_phase_ r = Unwatched → request_watch r = true)
  ∧ (request_timer r = TimerArmed → request_phase_ r = Serving)
  ∧ (request_timer r = TimerFired → request_phase_ r ≠ HasRPC ∧ request_phase_ r ≠ Rejecting) →
  adm_rpcs a + drpcs ≤ MaxRPCs l ∧ adm_watches a + dwatches ≤ MaxWatches l →
  admission_wf l (upd id r drpcs dwatches dauth dcapacity dtimedout a).
Proof.
  intros [Hl Hr Hw ? ? Ht Hph] Hdr Hdw Hdt Hnew [? ?]. unfold had in *. split; cbn; try done.
  - rewrite count_insert, Hr. lia.
  - rewrite count_insert, Hw. lia.
  - rewrite Ht, wrap_u64_add, count_insert. f_equal. lia.
  - intros id' r' [[<- <-]|[_ Hr']]%lookup_insert_Some; [done|by eapply Hph].
Qed.

Lemma count_fmap {A B} (f : B → bool) (g : A → bool) (h : A → B) (m : gmap positive A) :
  (∀ x, f (h x) = g x) → count f (h <$> m) = count g m.
Proof.
  intros Heq. induction m as [|k x m Hk IH] using map_ind; [by rewrite fmap_empty, !count_empty|].
  rewrite fmap_insert, !count_insert, lookup_fmap, Hk. cbn. rewrite IH, Heq. done.
Qed.

Lemma shutdown_wf l err a a' : admission_wf l a → admission_do (Shutdown err) a = Some a' → admission_wf l a'.
Proof.
  intros [Hl Hr Hw ? ? Ht Hph] [= <-]. split; cbn; try done.
  - by rewrite (count_fmap _ holds_rpc).
  - by rewrite (count_fmap _ holds_watch).
  - by rewrite (count_fmap _ timed_out).
  - intros id r. rewrite lookup_fmap. intros (r0 & Hr0 & ->)%fmap_Some. exact (Hph id r0 Hr0).
Qed.

(** Close the goals of [upd_wf] for a concrete request. *)
Ltac close_upd Hp :=
  apply upd_wf; [done|unfold had; rewrite ?Hp; cbn..]; try done; try lia; split_and!; cbn; try done; by intros [].

Lemma admission_do_wf l act a a' : admission_wf l a → admission_do act a = Some a' → admission_wf l a'.
Proof.
  intros Hwf Hdo. pose proof Hwf as [Hl Hr Hw Hrc Hwc _ Hph]. subst l.
  destruct act as [id method parent denied|id|id|id|err|id]; [..|by eapply shutdown_wf|]; cbn in Hdo;
    destruct (adm_requests a !! id) as [[w ph t c]|] eqn:Hp; try done;
    try (destruct (Hph _ _ Hp) as (Hph1 & Hph2 & Hph3); cbn in Hph1, Hph2, Hph3).
  - simplify_option_eq. unfold admit_request. destruct (bool_decide (method = _)); repeat case_goal; cbn; close_upd Hp.
  - unfold admit_step in Hdo. destruct ph, w; cbn in *; repeat case_match; simplify_eq;
      destruct t; try (by specialize (Hph2 eq_refl)); try (by destruct (Hph3 eq_refl)); try (by specialize (Hph1 ltac:(by auto))); close_upd Hp.
  - simplify_option_eq. specialize (Hph2 eq_refl). subst. destruct w; close_upd Hp.
  - destruct ph, w, t; simplify_option_eq; close_upd Hp.
  - unfold finish_step in Hdo. destruct ph, w; cbn in *; repeat case_match; simplify_eq;
      destruct t; try (by specialize (Hph2 eq_refl)); try (by destruct (Hph3 eq_refl)); try (by specialize (Hph1 ltac:(by auto))); close_upd Hp.
Qed.

Lemma admission_reachable_wf l0 a0 a :
  newAdmission l0 = inr a0 → admission_reachable a0 a → admission_wf (normalized l0).1 a.
Proof.
  intros Hnew. induction 1 as [|act a a' _ IH Hdo]; [|by eapply admission_do_wf].
  unfold newAdmission in Hnew. destruct (normalized l0) as [l [err|]] eqn:Hn; [done|]. simplify_eq.
  apply normalized_ok in Hn as [[] _]. split; cbn; rewrite ?count_empty; try done; lia.
Qed.

(** ** Theorems *)

(** Limits that validate are completed field by field, zero fields from the
    defaults, and every completed limit is in its documented range; completing
    again changes nothing, and limits in range always validate. *)
Theorem limits_normalized l :
  (Validate l = None →
   let l' := (normalized l).1 in
   limits_ok l' ∧ normalized l' = (l', None)
   ∧ completed (MaxConcurrentStreams l) 128 (MaxConcurrentStreams l')
   ∧ completed (MaxConnections l) 1024 (MaxConnections l')
   ∧ completed (MaxRPCs l) 4096 (MaxRPCs l') ∧ completed (MaxWatches l) 2048 (MaxWatches l')
   ∧ completed (InitialRequestTimeout l) (5 * second) (InitialRequestTimeout l'))
  ∧ (limits_ok l → Validate l = None).
Proof.
  split.
  - unfold Validate. destruct (normalized l) as [l' [err|]] eqn:Hn; [done|]. intros _.
    apply normalized_ok in Hn as [Hok Heq]. split; [done|]. split; [by apply normalized_complete|].
    cbn [fst]. subst l'. split_and!; apply with_fallback_spec.
  - intros Hok. unfold Validate. by rewrite normalized_complete.
Qed.

(** C32: however requests, timers, cancellations and shutdown interleave, the
    requests that hold a slot never exceed [MaxRPCs], the admitted watches never
    exceed [MaxWatches], and the channel lengths the metrics report are exactly
    these numbers. *)
Theorem admission_capacity l0 a0 a :
  newAdmission l0 = inr a0 → admission_reachable a0 a →
  let l := (normalized l0).1 in
  adm_rpcs a = count holds_rpc (adm_requests a) ∧ adm_rpcs a ≤ MaxRPCs l
  ∧ adm_watches a = count holds_watch (adm_requests a) ∧ adm_watches a ≤ MaxWatches l.
Proof. intros Hnew Hr. by destruct (admission_reachable_wf _ _ _ Hnew Hr). Qed.

(** A request that holds slots can always take its next step towards giving
    them back; once every request is gone all slots are free, and the timeout
    counter is the number of requests whose first message did not arrive in time. *)
Theorem admission_slots_returned l0 a0 a :
  newAdmission l0 = inr a0 → admission_reachable a0 a →
  (∀ id r, adm_requests a !! id = Some r → request_phase_ r = Serving ∨ request_phase_ r = Unwatched →
     is_Some (admission_do (FinishStep id) a))
  ∧ (∀ id r, adm_requests a !! id = Some r → request_phase_ r = HasRPC ∨ request_phase_ r = Rejecting →
     is_Some (admission_do (AdmitStep id) a))
  ∧ ((∀ id r, adm_requests a !! id = Some r → request_phase_ r = Gone) → adm_rpcs a = 0 ∧ adm_watches a = 0)
  ∧ adm_timedout a = wrap_u64 (count timed_out (adm_requests a)).
Proof.
  intros Hnew Hreach. destruct (admission_reachable_wf _ _ _ Hnew Hreach) as [_ Hr Hw _ _ Ht Hph].
  assert (∀ id r, adm_requests a !! id = Some r → holds_rpc r = true → (0 <? adm_rpcs a) = true) as Hrpc.
  { intros id r Hid Hh. apply Z.ltb_lt. rewrite Hr. pose proof (count_pos _ _ _ _ Hid Hh). lia. }
  assert (∀ id r, adm_requests a !! id = Some r → holds_watch r = true → (0 <? adm_watches a) = true) as Hwat.
  { intros id r Hid Hh. apply Z.ltb_lt. rewrite Hw. pose proof (count_pos _ _ _ _ Hid Hh). lia. }
  split_and!; [..|done].
  - intros id [w ph t c] Hid Hp. cbn in Hp |- *. rewrite Hid. cbn. unfold finish_step. cbn.
    destruct Hp as [->| ->]; [destruct w|]; [rewrite (Hwat id _ Hid)|rewrite (Hrpc id _ Hid)..]; done.
  - intros id [w ph t c] Hid Hp. cbn in Hp |- *. rewrite Hid. cbn. unfold admit_step. cbn.
    destruct Hp as [->| ->]; [destruct w; [by case_match|done]|by rewrite (Hrpc id _ Hid)].
  - intros Hgone. rewrite Hr, Hw. split; apply count_none; intros id r Hid; unfold holds_rpc, holds_watch;
      rewrite (Hgone _ _ Hid); [done|apply andb_false_r].
Qed.

(** ** Concrete runs *)

Definition admission_run (l : list admission_action) (a : admission) : option admission :=
  foldl (λ o act, o ≫= admission_do act) (Some a) l.

Lemma admission_run_reachable a0 l a : admission_run l a0 = Some a → admission_reachable a0 a.
Proof.
  revert a. induction l as [|act l IH] using rev_ind; intros a; unfold admission_run; cbn; [intros [= <-]; constructor|].
  rewrite foldl_snoc. fold (admission_run l a0). destruct (admission_run l a0) as [a1|] eqn:E; [|done]. cbn. intros Hdo.
  eapply admission_next; [|done]. by eapply IH.
Qed.

(** One RPC slot: a watch is admitted and a second request is rejected. *)
Definition one_rpc : Limits := Build_Limits 0 0 1 1 0.

Definition example_requests : list admission_action :=
  [Arrive 1 WatchTopology_FullMethodName None None; AdmitStep 1; Timeout_ 1; Arrive 2 "" None None].

Lemma limits_normalized_witness : limits_ok (normalized one_rpc).1.
Proof. apply (limits_normalized one_rpc). reflexivity. Defined.

Lemma admission_capacity_witness :
  ∃ a0 a, newAdmission one_rpc = inr a0 ∧ admission_run example_requests a0 = Some a ∧ adm_rpcs a ≤ 1.
Proof.
  destruct (newAdmission one_rpc) as [err|a0] eqn:Hnew; [vm_compute in Hnew; discriminate Hnew|].
  destruct (admission_run example_requests a0) as [a|] eqn:E.
  2: { vm_compute in Hnew. injection Hnew as <-. vm_compute in E. discriminate E. }
  exists a0, a. split; [reflexivity|]. split; [exact E|].
  apply (admission_capacity one_rpc a0 a Hnew (admission_run_reachable _ _ _ E)).
Defined.

Lemma admission_slots_returned_witness :
  ∃ a0 a, newAdmission one_rpc = inr a0 ∧ admission_run example_requests a0 = Some a
    ∧ is_Some (admission_do (FinishStep 1) a).
Proof.
  destruct (newAdmission one_rpc) as [err|a0] eqn:Hnew; [vm_compute in Hnew; discriminate Hnew|].
  destruct (admission_run example_requests a0) as [a|] eqn:E.
  2: { vm_compute in Hnew. injection Hnew as <-. vm_compute in E. discriminate E. }
  exists a0, a. split; [reflexivity|]. split; [exact E|].
  eapply (admission_slots_returned one_rpc a0 a Hnew (admission_run_reachable _ _ _ E)).
  - vm_compute in Hnew. injection Hnew as <-. vm_compute in E. injection E as <-. reflexivity.
  - left. reflexivity.
Defined.
