(* ===== verification/Settings.v ===== *)
(** * Settings and options (src/cmd/cnpg-connect-plugin/main.go, observer/observer.go)

    Validation of the command line, the option checks of [observer.New], and the
    time budgets the observer derives from them.  Durations are [int64]: their
    arithmetic is written out with its wrap-around. *)

From S2P Require Import Prelude Admission Work.

(** The float64 tests of [validate]: [x > 0], [x > math.MaxFloat32] and
    [float32(x) == 0]. *)
Class Float64 := {
  float64 : Type;
  float_positive : float64 → bool;
  float_above_float32 : float64 → bool;
  float_zero_as_float32 : float64 → bool;
}.

Section settings.
Context `{Float64}.

Record settings := {
  pluginAddress : string;
  discoveryAddress : string;
  healthAddress : string;
  serverCert : string;
  serverKey : string;
  clientCA : string;
  discoveryCert : string;
  discoveryKey : string;
  discoveryPlaintext : bool;
  authTokenFile : string;
  settings_namespace : string;
  kubeconfig : string;
  kubeAPIQPS : float64;
  kubeAPIBurst : Z; (* int *)
  pollInterval : duration;
  ttl : duration;
  probeTimeout : duration;
  maxConcurrency : Z; (* int *)
  maxConcurrentClusters : Z; (* int *)
  limits : Limits;
  insecure : bool;
  showVersion : bool;
}.

Inductive settings_error :=
  | SettingsLimits (err : limits_error)
  | SettingsQPS
  | SettingsBurst
  | SettingsDurations
  | SettingsConcurrency
  | SettingsTTL
  | SettingsAddresses
  | SettingsInsecure
  | SettingsPluginTLS
  | SettingsDiscoveryTLS.

Definition empty (s : string) : bool := bool_decide (s = "").

Definition validate (s : settings) : option settings_error :=
  match Validate (limits s) with
  | Some err => Some (SettingsLimits err)
  | None =>
      if negb (float_positive (kubeAPIQPS s)) || float_above_float32 (kubeAPIQPS s) || float_zero_as_float32 (kubeAPIQPS s)
      then Some SettingsQPS
      else if kubeAPIBurst s <=? 0 then Some SettingsBurst
      else if (pollInterval s <=? 0) || (probeTimeout s <=? 0) || (ttl s <=? 0) then Some SettingsDurations
      else if (maxConcurrency s <? 1) || (1024 <? maxConcurrency s)
              || (maxConcurrentClusters s <? 1) || (1024 <? maxConcurrentClusters s)
      then Some SettingsConcurrency
      else if (ttl s <=? pollInterval s) || (wrap_s64 (ttl s - pollInterval s) <=? probeTimeout s)
      then Some SettingsTTL
      else if empty (pluginAddress s) || empty (discoveryAddress s) || empty (healthAddress s)
      then Some SettingsAddresses
      else if insecure s then
        if negb (empty (serverCert s)) || negb (empty (serverKey s)) || negb (empty (clientCA s))
           || negb (empty (discoveryCert s)) || negb (empty (discoveryKey s)) || negb (empty (authTokenFile s))
        then Some SettingsInsecure else None
      else if empty (serverCert s) || empty (serverKey s) || empty (clientCA s) then Some SettingsPluginTLS
      else if negb (discoveryPlaintext s) && (empty (discoveryCert s) || empty (discoveryKey s))
      then Some SettingsDiscoveryTLS
      else None
  end.

(** ** Observer options *)

Record Options := {
  Namespace : string;
  PollInterval : duration;
  TTL : duration;
  ProbeTimeout : duration;
  MaxConcurrency : Z; (* int *)
  MaxConcurrentClusters : Z; (* int *)
}.

(** The options [run] passes to the observer. *)
Definition observer_options (s : settings) : Options := {|
  Namespace := settings_namespace s; PollInterval := pollInterval s; TTL := ttl s;
  ProbeTimeout := probeTimeout s; MaxConcurrency := maxConcurrency s;
  MaxConcurrentClusters := maxConcurrentClusters s;
|}.
End settings.

Inductive options_error := OptionsTTL | OptionsConcurrency | OptionsClusters.

(** The option checks of [New]; the options it keeps, or an error. *)
Definition New_options (o : Options) : options_error + Options :=
  if (PollInterval o <=? 0) || (ProbeTimeout o <=? 0) || (TTL o <=? PollInterval o)
     || (wrap_s64 (TTL o - PollInterval o) <=? ProbeTimeout o)
  then inl OptionsTTL
  else if (MaxConcurrency o <? 1) || (1024 <? MaxConcurrency o) then inl OptionsConcurrency
  else
    let clusters := if MaxConcurrentClusters o =? 0 then 32 else MaxConcurrentClusters o in
    if (clusters <? 1) || (1024 <? clusters) then inl OptionsClusters
    else inr {| Namespace := Namespace o; PollInterval := PollInterval o; TTL := TTL o;
                ProbeTimeout := ProbeTimeout o; MaxConcurrency := MaxConcurrency o;
                MaxConcurrentClusters := clusters |}.

(** ** Derived budgets *)

(** The deadline of one collection in [observe]. *)
Definition observe_timeout (o : Options) : duration :=
  let timeout := wrap_s64 (TTL o - PollInterval o) in
  if ProbeTimeout o <=? Z.quot timeout 2 then wrap_s64 (2 * ProbeTimeout o) else timeout.

(** The lifetime of one metadata watch and its [TimeoutSeconds] in [startWatch]. *)
Definition watch_lifetime (o : Options) : duration := Z.min (30 * second) (Z.quot (TTL o) 2).
Definition watch_timeoutSeconds (o : Options) : Z := Z.max 1 (Z.quot (watch_lifetime o) second).

(** The period of the expiry ticker of [Run]; [time.NewTicker] panics unless it is
    positive. *)
Definition expiry_period (o : Options) : duration := Z.min second (Z.quot (TTL o) 4).

(** Workers that [startWorkers] reserves for urgent observations, and the others. *)
Definition urgent_workers (o : Options) : Z := reservedCapacity (MaxConcurrentClusters o).
Definition general_workers (o : Options) : Z := MaxConcurrentClusters o - urgent_workers o.
