(* ===== verification/SettingsProps.v ===== *)
(** * Correctness of settings

    Accepted settings are accepted by every component that checks them again,
    and the budgets derived from them are positive, free of overflow and shorter
    than the validity of what is observed. *)

From S2P Require Import Prelude Admission AdmissionProps Work WorkProps Settings.

(** What [New] requires. *)
Record options_ok (o : Options) : Prop := {
  options_poll : 0 < PollInterval o;
  options_probe : 0 < ProbeTimeout o;
  options_ttl : PollInterval o + ProbeTimeout o < TTL o;
  options_concurrency : 1 ≤ MaxConcurrency o ≤ 1024;
  options_clusters : 1 ≤ MaxConcurrentClusters o ≤ 1024;
}.

(** Values of the machine types. *)
Record options_typed (o : Options) : Prop := {
  typed_poll : in_s64 (PollInterval o);
  typed_probe : in_s64 (ProbeTimeout o);
  typed_ttl : in_s64 (TTL o);
}.

Lemma New_options_ok o o' :
  options_typed o → New_options o = inr o' →
  options_ok o' ∧ options_typed o' ∧ TTL o' = TTL o ∧ PollInterval o' = PollInterval o ∧ ProbeTimeout o' = ProbeTimeout o.
Proof.
  intros [Hp Hr Ht]. unfold New_options. case_goal; [done|]. case_goal; [done|]. cbn zeta. case_goal; [done|].
  intros [= <-]. boolify. unfold in_s64, s64_min, s64_max in *. rewrite wrap_s64_small in * by (unfold in_s64, s64_min, s64_max; lia).
  split; [split; cbn; lia|]. split; [by split|done].
Qed.

Lemma New_options_accepts o : options_typed o → options_ok o → New_options o = inr o.
Proof.
  intros [Hp Hr Ht] [? ? ? ? ?]. unfold New_options, in_s64, s64_min, s64_max in *.
  rewrite wrap_s64_small by (unfold in_s64, s64_min, s64_max; lia). cbn zeta.
  rewrite (proj2 (Z.eqb_neq (MaxConcurrentClusters o) 0)) by lia.
  repeat (case_goal; [exfalso; lia|]). by destruct o.
Qed.

Section claims.
Context `{Float64}.

(** Settings that validate start the program: the observer accepts the
    options unchanged and the admission accepts the limits; without [insecure]
    the operator interface has its certificate, key and client CA, and discovery
    has its own certificate unless it is explicitly plaintext. *)
Theorem validated_settings_start s :
  options_typed (observer_options s) → validate s = None →
  New_options (observer_options s) = inr (observer_options s)
  ∧ (∃ a, newAdmission (limits s) = inr a)
  ∧ (insecure s = false → serverCert s ≠ "" ∧ serverKey s ≠ "" ∧ clientCA s ≠ ""
       ∧ (discoveryPlaintext s = false → discoveryCert s ≠ "" ∧ discoveryKey s ≠ ""))
  ∧ (insecure s = true → serverCert s = "" ∧ serverKey s = "" ∧ clientCA s = ""
       ∧ discoveryCert s = "" ∧ discoveryKey s = "" ∧ authTokenFile s = "").
Proof.
  intros Hty Hv. unfold validate in Hv. destruct (Validate (limits s)) eqn:Hl; [done|].
  do 6 (case_match; [done|]). pose proof Hty as [Hp Hr Ht]. cbn in Hp, Hr, Ht.
  unfold in_s64, s64_min, s64_max in Hp, Hr, Ht.
  rewrite wrap_s64_small in * by (unfold in_s64, s64_min, s64_max; lia). split_and!.
  - apply New_options_accepts; [done|]. split; cbn; lia.
  - unfold Validate in Hl. unfold newAdmission. destruct (normalized (limits s)) as [l [err|]]; [done|by eexists].
  - intros Hins. rewrite Hins in Hv. do 2 (case_match; [done|]). unfold empty in *. boolify. split_and!; try done.
    intros Hpl. rewrite Hpl in *. cbn in *. boolify. done.
  - intros Hins. rewrite Hins in Hv. case_match; [done|]. unfold empty in *. boolify. done.
Qed.

End claims.

(** For options [New] accepts, the time of one collection is the smaller of
    two probe timeouts and what the validity leaves after a poll interval: at
    least one probe timeout, and computed without overflow.  Metadata watches and
    the expiry ticker have positive periods within the validity, the ticker from
    a validity of four nanoseconds on; urgent and general workers add up to the
    limit with at least one general worker. *)
Theorem collection_budget o o' :
  options_typed o → New_options o = inr o' →
  observe_timeout o' = Z.min (2 * ProbeTimeout o') (TTL o' - PollInterval o')
  ∧ ProbeTimeout o' ≤ observe_timeout o' < TTL o'
  ∧ 0 < watch_lifetime o' < TTL o' ∧ 1 ≤ watch_timeoutSeconds o' ≤ 30
  ∧ expiry_period o' < TTL o' ∧ (0 < expiry_period o' ↔ 4 ≤ TTL o')
  ∧ 0 ≤ urgent_workers o' ∧ 1 ≤ general_workers o' ∧ urgent_workers o' + general_workers o' = MaxConcurrentClusters o'.
Proof.
  intros Hty Hnew. apply New_options_ok in Hnew as ([Hp Hr Ht Hc Hcl] & [Hp' Hr' Ht'] & _); [|done].
  unfold in_s64, s64_min, s64_max in *.
  assert (observe_timeout o' = Z.min (2 * ProbeTimeout o') (TTL o' - PollInterval o')) as Hobs.
  { unfold observe_timeout. rewrite wrap_s64_small by (unfold in_s64, s64_min, s64_max; lia).
    rewrite Z.quot_div_nonneg by lia. pose proof (Z.div_mod (TTL o' - PollInterval o') 2).
    pose proof (Z.mod_pos_bound (TTL o' - PollInterval o') 2).
    destruct (Z.leb_spec (ProbeTimeout o') ((TTL o' - PollInterval o') / 2)); [|lia].
    rewrite wrap_s64_small by (unfold in_s64, s64_min, s64_max; lia). lia. }
  rewrite Hobs. unfold watch_timeoutSeconds, watch_lifetime, expiry_period, general_workers, urgent_workers.
  rewrite !(Z.quot_div_nonneg (TTL o')) by lia.
  assert (2 * (TTL o' / 2) ≤ TTL o' ∧ TTL o' < 2 * (TTL o' / 2) + 2) as [? ?]
    by (pose proof (Z.div_mod (TTL o') 2); pose proof (Z.mod_pos_bound (TTL o') 2); lia).
  assert (4 * (TTL o' / 4) ≤ TTL o' ∧ TTL o' < 4 * (TTL o' / 4) + 4) as [? ?]
    by (pose proof (Z.div_mod (TTL o') 4); pose proof (Z.mod_pos_bound (TTL o') 4); lia).
  pose proof (reservedCapacity_bounds (MaxConcurrentClusters o')).
  assert (Z.quot (Z.min (30 * second) (TTL o' / 2)) second ≤ 30) as ?.
  { rewrite Z.quot_div_nonneg by (unfold second, millisecond, nanosecond; lia).
    apply Z.div_le_upper_bound; unfold second, millisecond, nanosecond; lia. }
  unfold second, millisecond, nanosecond in *. split_and!; lia.
Qed.

(** ** Concrete settings *)

Section example.
#[local] Instance integer_rates : Float64 := {|
  float64 := Z; float_positive x := 0 <? x; float_above_float32 x := false; float_zero_as_float32 x := x =? 0;
|}.

(** The defaults of [parseSettings] with [--insecure], for a poll interval, a
    validity and a probe timeout. *)
Definition insecure_settings (poll validity probe : duration) : settings := {|
  pluginAddress := "127.0.0.1:9090"; discoveryAddress := "127.0.0.1:8080"; healthAddress := "127.0.0.1:8081";
  serverCert := ""; serverKey := ""; clientCA := ""; discoveryCert := ""; discoveryKey := "";
  discoveryPlaintext := false; authTokenFile := ""; settings_namespace := ""; kubeconfig := "";
  kubeAPIQPS := (100 : @float64 integer_rates); kubeAPIBurst := 200; pollInterval := poll; ttl := validity; probeTimeout := probe;
  maxConcurrency := 128; maxConcurrentClusters := 32; limits := DefaultLimits;
  insecure := true; showVersion := false;
|}.

Lemma insecure_typed poll validity probe :
  in_s64 poll → in_s64 validity → in_s64 probe → options_typed (observer_options (insecure_settings poll validity probe)).
Proof. by split. Qed.

Lemma validated_settings_start_witness :
  New_options (observer_options (insecure_settings (5 * second) (15 * second) (2 * second)))
  = inr (observer_options (insecure_settings (5 * second) (15 * second) (2 * second))).
Proof.
  apply validated_settings_start; [|vm_compute; reflexivity].
  apply insecure_typed; split; vm_compute; discriminate.
Defined.

Lemma collection_budget_witness :
  observe_timeout (observer_options (insecure_settings (5 * second) (15 * second) (2 * second))) = 4 * second.
Proof.
  destruct (collection_budget (observer_options (insecure_settings (5 * second) (15 * second) (2 * second)))
    (observer_options (insecure_settings (5 * second) (15 * second) (2 * second)))) as (-> & _).
  - apply insecure_typed; split; vm_compute; discriminate.
  - vm_compute. reflexivity.
  - reflexivity.
Defined.
End example.
