(* ===== verification/Observer.v ===== *)
(** * The observer's shared state (src/internal/observer/observer.go, events.go, connection.go)

    The comparisons that decide whether routing metadata changed, the fields that
    [Observer.stateMu] protects together with the informer caches, and the
    operations every section uses: enqueueing work, committing a publication and
    checking a CA.  A definition in [State Observer] runs inside [stateMu]; what
    runs after unlocking (deliveries, log lines) is returned as data. *)

From S2P Require Import Prelude Api Mailbox Store Queue Config Kube Topology Evidence Settings.

(** ** Comparing routing metadata (events.go, connection.go) *)

Definition postgresContainerID (p : Pod) : string :=
  default "" (head (omap (λ s, if bool_decide (status_Name s = "postgres") then Some (status_ContainerID s) else None)
                     (pod_ContainerStatuses p))).

Definition samePodRoute (a b : Pod) : bool :=
  if negb (bool_decide (pod_Name a = pod_Name b)) || negb (bool_decide (pod_UID a = pod_UID b))
     || negb (bool_decide (pod_PodIP a = pod_PodIP b)) then false
  else if negb (bool_decide (podReady a = podReady b)) || negb (bool_decide (pod_NodeName a = pod_NodeName b)) then false
  else if negb (bool_decide (statusScheme a = statusScheme b))
          || negb (bool_decide (postgresContainerID a = postgresContainerID b)) then false
  else bool_decide (pod_OwnerReferences a = pod_OwnerReferences b).

(** Calls on the delaying and rate limiting wrappers of client-go, in order. *)
Inductive queue_call (K : Type) :=
  | CallAdd (key : K)
  | CallAddAfter (key : K) (d : duration)
  | CallAddRateLimited (key : K)
  | CallForget (key : K)
  | CallDone (key : K).
Arguments CallAdd {K} key.
Arguments CallAddAfter {K} key d.
Arguments CallAddRateLimited {K} key.
Arguments CallForget {K} key.
Arguments CallDone {K} key.

Section observer.
Context `{TextLibrary, MapRange, Unstructured}.

Fixpoint first_database (cluster : object) (methods : list string) : string :=
  match methods with
  | [] => ""
  | method :: methods =>
      let '(name, _, _) := NestedString cluster ["spec"; "bootstrap"; method; "database"] in
      if bool_decide (name = "") then first_database cluster methods else name
  end.

Definition applicationDatabase (cluster : object) : string :=
  first_database cluster ["recovery"; "pg_basebackup"; "initdb"].

Definition serverCASecret (cluster : object) : string :=
  (NestedString cluster ["status"; "certificates"; "serverCASecret"]).1.1.

Definition fencedInstances_annotation (cluster : object) : string :=
  map_value (GetAnnotations cluster) "cnpg.io/fencedInstances".

Definition sameClusterRoute (a b : object) : bool :=
  if negb (bool_decide (GetUID a = GetUID b)) || bool_decide (is_Some (GetDeletionTimestamp a))
     || bool_decide (is_Some (GetDeletionTimestamp b)) then false
  else if negb (bool_decide ((primaryNames a).1 = (primaryNames b).1))
          || negb (bool_decide ((primaryNames a).2 = (primaryNames b).2)) then false
  else
    let '(enabledA, paramsA, errA) := parameters a in
    let '(enabledB, paramsB, errB) := parameters b in
    if bool_decide (is_Some errA) || bool_decide (is_Some errB) || negb (bool_decide (enabledA = enabledB))
       || negb (bool_decide (paramsA = paramsB)) then false
    else if negb (bool_decide (fencedInstances_annotation a = fencedInstances_annotation b)) then false
    else if negb (bool_decide (applicationDatabase a = applicationDatabase b)) then false
    else bool_decide (default Nil (NestedFieldNoCopy a ["status"; "certificates"])
                      = default Nil (NestedFieldNoCopy b ["status"; "certificates"])).

(** ** The observer's state *)

Context `{RoutingDigest}.

(** A cached CA; entries are compared by address. *)
Record cachedCA := CachedCA {
  ca_address : positive;
  ca_key : clusterKey; (* types.NamespacedName *)
  ca_uid : string;
  ca_resourceVersion : string;
  ca_public : string; (* []byte *)
}.

Record connectionInfo := {
  info_connection : ConnectionParameters;
  info_ca : option cachedCA;
}.

(** The projection of a Secret's [PartialObjectMetadata] that the cache keeps. *)
Record SecretMetadata := {
  secret_Namespace : string;
  secret_Name : string;
  secret_UID : string;
  secret_ResourceVersion : string;
}.

(** The informer caches, the store, the queue and the fields under [stateMu].
    [obs_observations] and [obs_caReads] map a key in work to whether its context
    was cancelled (for an observation: as superseded); [obs_calls] and
    [obs_caCalls] are the calls handed to the wrapped queues. *)
Record Observer := {
  obs_store : Store;
  obs_primaries : primaries;
  obs_clusters : gmap clusterKey object;
  obs_pods : gmap clusterKey (list Pod);
  obs_secrets : gmap clusterKey SecretMetadata;
  obs_ready : bool; (* Ready() *)
  obs_observations : gmap clusterKey bool;
  obs_demandNext : gmap clusterKey time;
  obs_queue : priorityQueue;
  obs_calls : list (queue_call clusterKey);
  obs_cas : gmap clusterKey cachedCA;
  obs_caReads : gmap clusterKey bool;
  obs_caPending : gset clusterKey;
  obs_caCalls : list (queue_call clusterKey);
}.

Definition set_obs_store (v : Store) (o : Observer) : Observer := {|
  obs_store := v; obs_primaries := obs_primaries o; obs_clusters := obs_clusters o; obs_pods := obs_pods o;
  obs_secrets := obs_secrets o; obs_ready := obs_ready o; obs_observations := obs_observations o;
  obs_demandNext := obs_demandNext o; obs_queue := obs_queue o; obs_calls := obs_calls o;
  obs_cas := obs_cas o; obs_caReads := obs_caReads o; obs_caPending := obs_caPending o;
  obs_caCalls := obs_caCalls o;
|}.

Definition set_obs_primaries (v : primaries) (o : Observer) : Observer := {|
  obs_store := obs_store o; obs_primaries := v; obs_clusters := obs_clusters o; obs_pods := obs_pods o;
  obs_secrets := obs_secrets o; obs_ready := obs_ready o; obs_observations := obs_observations o;
  obs_demandNext := obs_demandNext o; obs_queue := obs_queue o; obs_calls := obs_calls o;
  obs_cas := obs_cas o; obs_caReads := obs_caReads o; obs_caPending := obs_caPending o;
  obs_caCalls := obs_caCalls o;
|}.

Definition set_obs_observations (v : gmap clusterKey bool) (o : Observer) : Observer := {|
  obs_store := obs_store o; obs_primaries := obs_primaries o; obs_clusters := obs_clusters o;
  obs_pods := obs_pods o; obs_secrets := obs_secrets o; obs_ready := obs_ready o; obs_observations := v;
  obs_demandNext := obs_demandNext o; obs_queue := obs_queue o; obs_calls := obs_calls o;
  obs_cas := obs_cas o; obs_caReads := obs_caReads o; obs_caPending := obs_caPending o;
  obs_caCalls := obs_caCalls o;
|}.

Definition set_obs_demandNext (v : gmap clusterKey time) (o : Observer) : Observer := {|
  obs_store := obs_store o; obs_primaries := obs_primaries o; obs_clusters := obs_clusters o;
  obs_pods := obs_pods o; obs_secrets := obs_secrets o; obs_ready := obs_ready o;
  obs_observations := obs_observations o; obs_demandNext := v; obs_queue := obs_queue o;
  obs_calls := obs_calls o; obs_cas := obs_cas o; obs_caReads := obs_caReads o;
  obs_caPending := obs_caPending o; obs_caCalls := obs_caCalls o;
|}.

Definition set_obs_queue (v : priorityQueue) (o : Observer) : Observer := {|
  obs_store := obs_store o; obs_primaries := obs_primaries o; obs_clusters := obs_clusters o;
  obs_pods := obs_pods o; obs_secrets := obs_secrets o; obs_ready := obs_ready o;
  obs_observations := obs_observations o; obs_demandNext := obs_demandNext o; obs_queue := v;
  obs_calls := obs_calls o; obs_cas := obs_cas o; obs_caReads := obs_caReads o;
  obs_caPending := obs_caPending o; obs_caCalls := obs_caCalls o;
|}.

Definition set_obs_calls (v : list (queue_call clusterKey)) (o : Observer) : Observer := {|
  obs_store := obs_store o; obs_primaries := obs_primaries o; obs_clusters := obs_clusters o;
  obs_pods := obs_pods o; obs_secrets := obs_secrets o; obs_ready := obs_ready o;
  obs_observations := obs_observations o; obs_demandNext := obs_demandNext o; obs_queue := obs_queue o;
  obs_calls := v; obs_cas := obs_cas o; obs_caReads := obs_caReads o; obs_caPending := obs_caPending o;
  obs_caCalls := obs_caCalls o;
|}.

Definition set_obs_cas (v : gmap clusterKey cachedCA) (o : Observer) : Observer := {|
  obs_store := obs_store o; obs_primaries := obs_primaries o; obs_clusters := obs_clusters o;
  obs_pods := obs_pods o; obs_secrets := obs_secrets o; obs_ready := obs_ready o;
  obs_observations := obs_observations o; obs_demandNext := obs_demandNext o; obs_queue := obs_queue o;
  obs_calls := obs_calls o; obs_cas := v; obs_caReads := obs_caReads o; obs_caPending := obs_caPending o;
  obs_caCalls := obs_caCalls o;
|}.

Definition set_obs_caReads (v : gmap clusterKey bool) (o : Observer) : Observer := {|
  obs_store := obs_store o; obs_primaries := obs_primaries o; obs_clusters := obs_clusters o;
  obs_pods := obs_pods o; obs_secrets := obs_secrets o; obs_ready := obs_ready o;
  obs_observations := obs_observations o; obs_demandNext := obs_demandNext o; obs_queue := obs_queue o;
  obs_calls := obs_calls o; obs_cas := obs_cas o; obs_caReads := v; obs_caPending := obs_caPending o;
  obs_caCalls := obs_caCalls o;
|}.

Definition set_obs_caPending (v : gset clusterKey) (o : Observer) : Observer := {|
  obs_store := obs_store o; obs_primaries := obs_primaries o; obs_clusters := obs_clusters o;
  obs_pods := obs_pods o; obs_secrets := obs_secrets o; obs_ready := obs_ready o;
  obs_observations := obs_observations o; obs_demandNext := obs_demandNext o; obs_queue := obs_queue o;
  obs_calls := obs_calls o; obs_cas := obs_cas o; obs_caReads := obs_caReads o; obs_caPending := v;
  obs_caCalls := obs_caCalls o;
|}.

Definition set_obs_caCalls (v : list (queue_call clusterKey)) (o : Observer) : Observer := {|
  obs_store := obs_store o; obs_primaries := obs_primaries o; obs_clusters := obs_clusters o;
  obs_pods := obs_pods o; obs_secrets := obs_secrets o; obs_ready := obs_ready o;
  obs_observations := obs_observations o; obs_demandNext := obs_demandNext o; obs_queue := obs_queue o;
  obs_calls := obs_calls o; obs_cas := obs_cas o; obs_caReads := obs_caReads o;
  obs_caPending := obs_caPending o; obs_caCalls := v;
|}.

(** A section of the store lock inside a section of [stateMu]. *)
Definition on_store {A} (m : State Store A) : State Observer A :=
  λ o, let '(x, s) := m (obs_store o) in (x, set_obs_store s o).

(** [o.pods cluster]: the indexed Pods that the Cluster owns, by name. *)
Definition pods (cluster : object) (o : Observer) : list Pod :=
  ownedPods cluster (default [] (obs_pods o !! ClusterKey (GetNamespace cluster) (GetName cluster))).

Definition currentCA (ca : option cachedCA) (o : Observer) : bool :=
  match ca with
  | None => false
  | Some ca =>
      match obs_cas o !! ca_key ca with
      | None => false
      | Some cached =>
          if negb (bool_decide (ca_address cached = ca_address ca)) then false
          else match obs_secrets o !! ca_key ca with
               | None => false
               | Some meta => bool_decide (secret_UID meta = ca_uid ca)
                              && bool_decide (secret_ResourceVersion meta = ca_resourceVersion ca)
               end
      end
  end.

(** ** Pending deliveries (publication.go) *)

(** What runs after the lock is released: every notification, then the logs. *)
Record pendingDeliveries := Pending {
  pending_notifications : list notification;
  pending_logs : list Snapshot;
}.

Definition pending_add (pending : pendingDeliveries) (c : notification * option Snapshot) : pendingDeliveries :=
  Pending (pending_notifications pending ++ [c.1]) (pending_logs pending ++ option_list c.2).

Definition nothing_pending : pendingDeliveries := Pending [] [].

(** The additions of two parts of one section. *)
Definition pending_join (a b : pendingDeliveries) : pendingDeliveries :=
  Pending (pending_notifications a ++ pending_notifications b) (pending_logs a ++ pending_logs b).

(** [commitPublication]: the delivery, and the snapshot to log if it changed. *)
Definition commitPublication (snapshot : Snapshot) (now1 now2 : time) : State Observer (notification * option Snapshot) :=
  put ← on_store (PutDeferred snapshot now1 now2);
  mret (put.2,
    if negb put.1 || bool_decide (snapshot_Reason snapshot = "awaiting_observation") then None else Some snapshot).

(** The line that [commitPublication]'s log callback writes. *)
Record topology_log := {
  log_namespace : string;
  log_cluster : string;
  log_primary : string;
  log_available : bool;
  log_reason : string;
  log_members : list string;
  log_duration : duration;
}.

(** [fmt.Sprintf("%s:%s:%s:%t", ...)]. *)
Definition log_member (m : Member) : string :=
  member_Name m +:+ ":" +:+ member_Role m +:+ ":" +:+ member_SyncState m +:+ ":" +:+ (if member_Ready m then "true" else "false").

(** [time.Since]: the elapsed time, saturated to a [time.Duration]. *)
Definition Since (started now : time) : duration := Z.max s64_min (Z.min (now - started) s64_max).

(** The callback: the loop over the members and the line.  [started] is zero where
    no collection ran; [now] is read at the commit. *)
Definition topology_changed (snapshot : Snapshot) (started now : time) : topology_log := {|
  log_namespace := cluster_Namespace (snapshot_Cluster snapshot);
  log_cluster := cluster_Name (snapshot_Cluster snapshot);
  log_primary := foldl (λ primary m, if bool_decide (member_ID m = snapshot_PrimaryID snapshot) then member_Name m else primary)
    "" (snapshot_Members snapshot);
  log_available := snapshot_Available snapshot;
  log_reason := snapshot_Reason snapshot;
  log_members := log_member <$> snapshot_Members snapshot;
  log_duration := if IsZero started then 0 else Since started now;
|}.

(** [pending.deliver()]: every notification, then every log line. *)
Definition deliver_pending (pending : pendingDeliveries) : list (notification + Snapshot) :=
  (inl <$> pending_notifications pending) ++ (inr <$> pending_logs pending).

(** The clock readings of one invalidation, in program order. *)
Record clock := Clock {
  clk_get : time;
  clk_now : time;
  clk_put1 : time;
  clk_put2 : time;
  clk_demand : time;
}.

Definition committed (c : notification * option Snapshot) : pendingDeliveries := pending_add nothing_pending c.

(** The tail that [publishFailure] and [publishObservation] share when the Cluster
    is gone, disabled or being deleted. *)
Definition observed_cluster (key : clusterKey) (o : Observer) : option object :=
  latest ← obs_clusters o !! key;
  if negb (parameters latest).1.1 || bool_decide (is_Some (GetDeletionTimestamp latest)) then None else Some latest.

Definition delete_cluster (key : clusterKey) : State Observer pendingDeliveries :=
  n ← on_store (DeleteDeferred key);
  mret (pending_add nothing_pending (n, None)).

(** ** Scheduling *)

Context (opts : Options).

(** [o.enqueue namespace name urgent]; [now] is read by [HasDemand] and by the
    cooldown.  The loop on [demandNext] retries only when another goroutine
    changed the entry in between, so a call is one atomic decision. *)
Definition enqueue (key : clusterKey) (urgent : bool) (now : time) : State Observer () :=
  if bool_decide (key_namespace key = "") || bool_decide (key_name key = "")
     || (negb (bool_decide (Namespace opts = "")) && negb (bool_decide (key_namespace key = Namespace opts)))
  then mret ()
  else
    demand ← on_store (HasDemand key now);
    o ← get_state;
    if negb demand || bool_decide (obs_clusters o !! key = None) then mret ()
    else if urgent then
      modify (λ o, set_obs_queue (Add key (promote key (obs_queue o)).1).1 o)
    else
      match obs_demandNext o !! key with
      | Some deadline =>
          if Before now deadline
          then modify (λ o, set_obs_calls (obs_calls o ++ [CallAddAfter key (deadline - now)]) o)
          else modify (λ o, set_obs_queue (Add key (obs_queue o)).1
                             (set_obs_demandNext (<[key := now + PollInterval opts]> (obs_demandNext o)) o))
      | None => modify (λ o, set_obs_queue (Add key (obs_queue o)).1
                               (set_obs_demandNext (<[key := now + PollInterval opts]> (obs_demandNext o)) o))
      end.

Definition Notify (key : clusterKey) (now : time) : State Observer () := enqueue key true now.

(** [cancelObservationLocked]. *)
Definition cancelObservationLocked (key : clusterKey) : State Observer () :=
  modify (λ o, match obs_observations o !! key with
               | Some _ => set_obs_observations (<[key := true]> (obs_observations o)) o
               | None => o
               end).

(** [beginObservation] and the function it returns. *)
Definition beginObservation (key : clusterKey) : State Observer () :=
  modify (λ o, set_obs_observations (<[key := false]> (obs_observations o)) o).

Definition finishObservation (key : clusterKey) : State Observer () :=
  modify (λ o, set_obs_observations (delete key (obs_observations o)) o).
End observer.
