(* ===== verification/ObserverFacts.v ===== *)
(** * Facts about the observer's shared operations

    What each operation of [Observer] leaves unchanged, and what a commit leaves
    in the store.  The theorems about handlers and publications rest on these. *)

From S2P Require Import Prelude Api Mailbox Store StoreFacts Queue QueueFacts.
From S2P Require Import Config Kube Topology Evidence Settings Observer.

(** A matched route is the same instance: name, UID, address, readiness,
    placement, container and owners. *)
Lemma samePodRoute_spec a b :
  samePodRoute a b = true ↔
  pod_Name a = pod_Name b ∧ pod_UID a = pod_UID b ∧ pod_PodIP a = pod_PodIP b ∧ podReady a = podReady b
  ∧ pod_NodeName a = pod_NodeName b ∧ statusScheme a = statusScheme b
  ∧ postgresContainerID a = postgresContainerID b ∧ pod_OwnerReferences a = pod_OwnerReferences b.
Proof.
  unfold samePodRoute. split.
  - repeat (case_goal; [done|]). intros ?. boolify. done.
  - intros (-> & -> & -> & -> & -> & -> & -> & ->). by repeat (rewrite bool_decide_eq_true_2 by done; cbn).
Qed.

(** ** Log lines *)

(** The line names the member that is the primary, and none when no member is. *)
Lemma log_primary_exact snapshot started now :
  NoDup (member_ID <$> snapshot_Members snapshot) →
  (∀ m, m ∈ snapshot_Members snapshot → member_ID m = snapshot_PrimaryID snapshot →
    log_primary (topology_changed snapshot started now) = member_Name m)
  ∧ ((∀ m, m ∈ snapshot_Members snapshot → member_ID m ≠ snapshot_PrimaryID snapshot) →
    log_primary (topology_changed snapshot started now) = "").
Proof.
  cbn [topology_changed log_primary]. induction (snapshot_Members snapshot) as [|m' l IH] using rev_ind; [by split; [set_solver|]|].
  rewrite fmap_app, foldl_app. intros (Hl & Hd & _)%NoDup_app. specialize (IH Hl) as [IH1 IH2]. cbn [foldl]. split.
  - intros m [Hm| ->%list_elem_of_singleton]%elem_of_app Hid; [|by rewrite bool_decide_true].
    rewrite bool_decide_false; [by apply IH1|]. intros Hm'. apply (Hd (member_ID m)); [by apply list_elem_of_fmap_2|].
    rewrite Hid, <- Hm'. by left.
  - intros Hno. rewrite bool_decide_false by (apply Hno; set_solver). apply IH2. set_solver.
Qed.

(** ** Snapshots that route less *)

(** [s'] allows no route that [s] does not allow, for the same Cluster and for no
    longer. *)
Record narrows (s s' : Snapshot) : Prop := {
  narrows_cluster : snapshot_Cluster s' = snapshot_Cluster s;
  narrows_until : snapshot_ValidUntil s' = snapshot_ValidUntil s;
  narrows_available : snapshot_Available s' = true →
    snapshot_Available s = true ∧ snapshot_PrimaryID s' = snapshot_PrimaryID s;
  narrows_members : Forall2 (λ m m', member_ID m' = member_ID m ∧ (member_Ready m' = true → m' = m))
    (snapshot_Members s) (snapshot_Members s');
}.

#[export] Instance narrows_refl : Reflexive narrows.
Proof. intros s. split; [done..|]. apply Forall_Forall2_diag, Forall_true. naive_solver. Qed.

#[export] Instance narrows_trans : Transitive narrows.
Proof.
  intros s1 s2 s3 [Hc1 Hu1 Ha1 Hm1] [Hc2 Hu2 Ha2 Hm2]. split; [congruence..| |].
  - intros Ha. destruct (Ha2 Ha) as [Ha' ->]. by apply Ha1.
  - eapply Forall2_trans; [|exact Hm1|exact Hm2]. cbn.
    intros m1 m2 m3 [Hi1 Hr1] [Hi2 Hr2]. split; [congruence|]. intros Hr. pose proof (Hr2 Hr) as ->. by apply Hr1.
Qed.

Lemma members_narrow f ms :
  (∀ m, member_ID (f m) = member_ID m ∧ (member_Ready (f m) = true → f m = m)) →
  Forall2 (λ m m', member_ID m' = member_ID m ∧ (member_Ready m' = true → m' = m)) ms (f <$> ms).
Proof. intros Hf. apply Forall2_fmap_r, Forall_Forall2_diag, Forall_true. exact Hf. Qed.

Lemma invalidate_narrows s : narrows s (invalidate s).
Proof. split; [done..|]. cbn. by apply members_narrow. Qed.

Lemma put_view_narrows s now1 now2 : narrows s (put_view s now1 now2).
Proof.
  unfold put_view. trans (set_APIVersion APIVersion s); [by split; try apply (narrows_refl s)|].
  destruct (put_expired _ _ _); [apply invalidate_narrows|done].
Qed.

Lemma set_Revision_narrows v s : narrows s (set_Revision v s).
Proof. by split; try apply (narrows_refl s). Qed.

Section facts.
Context `{TextLibrary, MapRange, Unstructured, RoutingDigest}.

Lemma unavailable_closed c at_ ttl reason : fail_closed (unavailable c at_ ttl reason).
Proof. by split_and!. Qed.

Lemma observed_cluster_some key o latest :
  observed_cluster key o = Some latest → obs_clusters o !! key = Some latest.
Proof. unfold observed_cluster. destruct (_ !! _) as [c|]; [|done]. cbn. by case_match; intros [= <-]. Qed.

(** The cluster cache files each object under its own name. *)
Definition clusters_keyed (o : Observer) : Prop :=
  ∀ k c, obs_clusters o !! k = Some c → ClusterKey (GetNamespace c) (GetName c) = k.

(** So does the store (a part of [StoreFacts.store_wf]). *)
Definition records_keyed (o : Observer) : Prop :=
  ∀ k r, records (obs_store o) !! k = Some r → ref_key (snapshot_Cluster (record_snapshot r)) = k.

Definition record_at (k : clusterKey) (o : Observer) : option record := records (obs_store o) !! k.

(** ** Frames *)

(** The caches are as they were. *)
Record caches_same (o o' : Observer) : Prop := {
  same_clusters : obs_clusters o' = obs_clusters o;
  same_pods : obs_pods o' = obs_pods o;
  same_secrets : obs_secrets o' = obs_secrets o;
  same_ready : obs_ready o' = obs_ready o;
  same_cas : obs_cas o' = obs_cas o;
  same_caReads : obs_caReads o' = obs_caReads o;
  same_caPending : obs_caPending o' = obs_caPending o;
  same_caCalls : obs_caCalls o' = obs_caCalls o;
}.

(** What is published, known and in progress for [k] is as it was. *)
Record agrees (k : clusterKey) (o o' : Observer) : Prop := {
  agrees_record : record_at k o' = record_at k o;
  agrees_observation : obs_observations o' !! k = obs_observations o !! k;
  agrees_primaries : obs_primaries o' !! k = obs_primaries o !! k;
}.

(** Only [k] was touched. *)
Record touches (k : clusterKey) (o o' : Observer) : Prop := {
  touches_caches : caches_same o o';
  touches_others : ∀ k', k' ≠ k → agrees k' o o';
  touches_keyed : records_keyed o → records_keyed o';
}.

#[export] Instance caches_same_refl : Reflexive caches_same.
Proof. done. Qed.

#[export] Instance caches_same_trans : Transitive caches_same.
Proof. intros ??? [] []. split; congruence. Qed.

#[export] Instance agrees_refl k : Reflexive (agrees k).
Proof. done. Qed.

#[export] Instance agrees_trans k : Transitive (agrees k).
Proof. intros ??? [] []. split; congruence. Qed.

#[export] Instance touches_refl k : Reflexive (touches k).
Proof. done. Qed.

#[export] Instance touches_trans k : Transitive (touches k).
Proof. intros ??? [] []. split; [by etrans|intros; etrans; eauto|eauto]. Qed.

(** A step that publishes nothing and cancels nothing. *)
Definition steady (o o' : Observer) : Prop :=
  caches_same o o' ∧ records (obs_store o') = records (obs_store o)
  ∧ obs_observations o' = obs_observations o ∧ obs_primaries o' = obs_primaries o.

#[export] Instance steady_refl : Reflexive steady.
Proof. done. Qed.

#[export] Instance steady_trans : Transitive steady.
Proof. intros ??? (Hc1 & ? & ? & ?) (Hc2 & ? & ? & ?). split; [by etrans|]. split_and!; congruence. Qed.

Lemma steady_agrees k o o' : steady o o' → agrees k o o'.
Proof. intros (_ & Hr & Ho & Hp). split; unfold record_at; congruence. Qed.

Lemma steady_touches k o o' : steady o o' → touches k o o'.
Proof.
  intros Hs. split; [apply Hs|intros; by apply steady_agrees|].
  unfold records_keyed. destruct Hs as (_ & -> & _). done.
Qed.

Lemma HasDemand_steady key now o : steady o (on_store (HasDemand key now) o).2.
Proof.
  unfold on_store, HasDemand. pose proof (hasDemand_quiet key now (obs_store o)) as (Hr & _).
  destruct (hasDemand key now (obs_store o)) as [d s]. by split_and!.
Qed.

Lemma enqueue_steady opts key urgent now o : steady o (enqueue opts key urgent now o).2.
Proof.
  unfold enqueue. case_goal; [done|]. rewrite State_bind_run.
  trans (on_store (HasDemand key now) o).2; [apply HasDemand_steady|].
  destruct (on_store (HasDemand key now) o) as [d o1]. cbn. rewrite State_bind_run. cbn.
  repeat (case_goal; [|]); done.
Qed.

Lemma cancel_touches key o : touches key o (cancelObservationLocked key o).2.
Proof.
  unfold cancelObservationLocked. cbn. destruct (_ !! key); [|done].
  split; [done| |done]. intros k Hk. split; [done| |done]. cbn. by rewrite lookup_insert_ne.
Qed.

Lemma cancel_observation key o : obs_observations (cancelObservationLocked key o).2 !! key ≠ Some false.
Proof.
  unfold cancelObservationLocked. cbn. destruct (obs_observations o !! key) eqn:E; [|congruence].
  cbn. by rewrite lookup_insert_eq.
Qed.

Lemma cancel_record key k o : record_at k (cancelObservationLocked key o).2 = record_at k o.
Proof. unfold cancelObservationLocked, record_at. cbn. by destruct (_ !! key). Qed.

Lemma cancel_primaries key o : obs_primaries (cancelObservationLocked key o).2 = obs_primaries o.
Proof. unfold cancelObservationLocked. cbn. by destruct (_ !! key). Qed.

(** ** Commits *)

(** The record a commit leaves. *)
Definition committed_record (s : Snapshot) (now1 now2 : time) (o : Observer) : record :=
  put_record (obs_store o) (put_view s now1 now2) (put_expired s now1 now2).

Lemma commit_run s now1 now2 o :
  (commitPublication s now1 now2 o).2
  = set_obs_store (put_state (obs_store o) (put_view s now1 now2) (put_expired s now1 now2)) o.
Proof. unfold commitPublication. rewrite State_bind_run. unfold on_store. by rewrite PutDeferred_run. Qed.

Lemma commit_records s now1 now2 o :
  records (obs_store (commitPublication s now1 now2 o).2)
  = <[ref_key (snapshot_Cluster s) := committed_record s now1 now2 o]> (records (obs_store o)).
Proof. rewrite commit_run. cbn. rewrite put_view_Cluster. by destruct (put_changed _ _). Qed.

Lemma commit_record s now1 now2 o :
  record_at (ref_key (snapshot_Cluster s)) (commitPublication s now1 now2 o).2 = Some (committed_record s now1 now2 o).
Proof. unfold record_at. by rewrite commit_records, lookup_insert_eq. Qed.

Lemma committed_record_narrows s now1 now2 o : narrows s (record_snapshot (committed_record s now1 now2 o)).
Proof.
  unfold committed_record, put_record, record_snapshot. cbn.
  etrans; [apply put_view_narrows|apply set_Revision_narrows].
Qed.

Lemma committed_record_connection s now1 now2 o :
  snapshot_Connection (record_snapshot (committed_record s now1 now2 o)) = snapshot_Connection s.
Proof. cbn. unfold put_view. by destruct (put_expired _ _ _). Qed.

Lemma committed_record_closed s now1 now2 o :
  fail_closed s → fail_closed (record_snapshot (committed_record s now1 now2 o)).
Proof.
  intros Hf. unfold committed_record. destruct (put_expired s now1 now2) eqn:E.
  - exact (put_view_expired _ _ _ E).
  - unfold put_view. rewrite E. exact Hf.
Qed.

Lemma commit_touches s now1 now2 o :
  touches (ref_key (snapshot_Cluster s)) o (commitPublication s now1 now2 o).2.
Proof.
  split; [by rewrite commit_run| |].
  - intros k Hk. split; [|by rewrite commit_run..]. unfold record_at. by rewrite commit_records, lookup_insert_ne.
  - intros Hkd k r. rewrite commit_records. intros [[<- <-]|[_ Hr]]%lookup_insert_Some; [|by apply Hkd].
    f_equal. apply (narrows_cluster _ _ (committed_record_narrows s now1 now2 o)).
Qed.

Lemma commit_observations s now1 now2 o :
  obs_observations (commitPublication s now1 now2 o).2 = obs_observations o.
Proof. by rewrite commit_run. Qed.

Lemma commit_primaries s now1 now2 o :
  obs_primaries (commitPublication s now1 now2 o).2 = obs_primaries o.
Proof. by rewrite commit_run. Qed.

(** A closed snapshot of the Cluster leaves it unroutable. *)
Lemma commit_closed snapshot now1 now2 o key latest r :
  ClusterKey (GetNamespace latest) (GetName latest) = key → snapshot_Cluster snapshot = clusterRef latest →
  fail_closed snapshot → records (obs_store (commitPublication snapshot now1 now2 o).2) !! key = Some r →
  snapshot_Available (record_snapshot r) = false.
Proof.
  intros <- Hc Hf Hr. pose proof (commit_record snapshot now1 now2 o) as Hcr. rewrite Hc in Hcr.
  unfold record_at in Hcr. change (ref_key (clusterRef latest)) with (ClusterKey (GetNamespace latest) (GetName latest)) in Hcr.
  rewrite Hcr in Hr. simplify_eq. by apply (committed_record_closed _ now1 now2 o) in Hf as [? _].
Qed.

Lemma delete_cluster_run key o :
  record_at key (delete_cluster key o).2 = None ∧ obs_observations (delete_cluster key o).2 = obs_observations o
  ∧ obs_primaries (delete_cluster key o).2 = obs_primaries o ∧ obs_demandNext (delete_cluster key o).2 = obs_demandNext o
  ∧ touches key o (delete_cluster key o).2.
Proof.
  unfold delete_cluster. rewrite State_bind_run. unfold on_store, record_at. rewrite DeleteDeferred_run.
  destruct (records (obs_store o) !! key) eqn:E; cbn.
  - split_and!; [by rewrite lookup_delete_eq|done..|]. split; [done| |].
    + intros k Hk. split; [|done..]. unfold record_at. cbn. by rewrite lookup_delete_ne.
    + intros Hkd k r'. cbn. intros [_ Hr]%lookup_delete_Some. by apply Hkd.
  - by split_and!.
Qed.

(** ** Reads *)

(** Reading a record may expire it: what is read is what is then stored. *)
Lemma get_deferred_run key now o :
  let m := on_store (GetDeferred key now) o in
  m.1.1 = record_snapshot <$> record_at key m.2 ∧ touches key o m.2
  ∧ obs_observations m.2 = obs_observations o ∧ obs_primaries m.2 = obs_primaries o
  ∧ (∀ r, record_at key o = Some r → ∃ r', record_at key m.2 = Some r'
       ∧ narrows (record_snapshot r) (record_snapshot r'))
  ∧ (record_at key o = None → record_at key m.2 = None).
Proof.
  unfold on_store, GetDeferred. rewrite State_bind_run. cbn. set (s := obs_store o). unfold record_at.
  rewrite readPublication_current. fold s. destruct (records s !! key) as [r|] eqn:Hr; cbn.
  - destruct (expireRecord_cases r now) as [Hskip|[He Hle]].
    + rewrite (readPublication_live key r) by done. cbn. rewrite Hr. cbn. rewrite clone_id.
      split_and!; [done|by apply steady_touches|done..|intros ? [= <-]; by exists r|done].
    + rewrite (readPublication_expire key r), expireRecord_fire by done. cbn. rewrite lookup_insert_eq. cbn.
      rewrite clone_id. split_and!; [done| |done..|intros ? [= <-]; eexists; split; [done|]|done].
      * split; [done| |].
        -- intros k Hk. split; [|done..]. unfold record_at. cbn. by rewrite lookup_insert_ne.
        -- intros Hkd k r'. cbn. intros [[<- <-]|[_ Hr']]%lookup_insert_Some; [|by apply Hkd].
           cbn. by apply Hkd.
      * cbn. etrans; [apply invalidate_narrows|apply set_Revision_narrows].
  - rewrite readPublication_unknown by done. cbn. rewrite Hr. cbn.
    by split_and!; [|apply steady_touches|..].
Qed.
End facts.
