(* ===== verification/Collection.v ===== *)
(** * Collection and publication (src/internal/observer/collection.go)

    One observation of a Cluster: the decision to collect, the comparison of the
    collected evidence with the metadata that is current when it is published, and
    the publication itself.  Between two sections of [stateMu] other goroutines may
    change the observer arbitrarily: each section takes the state it finds. *)

From S2P Require Import Prelude Api Mailbox Store Queue Config Kube Topology Evidence Settings Observer.

(** ** Matching results to current Pods *)

(** [byName] maps a name to the last probed Pod of that name. *)
Definition probed_index (probed : list Pod) : gmap string nat :=
  foldl (λ m ip, <[pod_Name ip.2 := ip.1]> m) ∅ (imap pair probed).

(** One iteration of the second loop; indices out of range panic. *)
Definition match_result (probed : list Pod) (results : list statusResult) (pod : Pod) : option statusResult :=
  let changed := {| result_status := no_status; result_err := Some ErrMemberChanged |} in
  match probed_index probed !! pod_Name pod with
  | None => Some changed
  | Some previous =>
      p ← probed !! previous;
      if negb (samePodRoute p pod) then Some changed else results !! previous
  end.

Definition matchInstanceResults (probed current : list Pod) (results : list statusResult) : option (list statusResult) :=
  mapM (match_result probed results) current.

Section collection.
Context `{TextLibrary, MapRange, Unstructured, RoutingDigest}.
Context (opts : Options).

Definition set_Transitioning (b : bool) (s : Snapshot) : Snapshot :=
  with_members (snapshot_Reason s) (snapshot_Available s) (snapshot_PrimaryID s) b (snapshot_Members s) s.

(** [ctxErr] is whether the observation's context is done. *)
Definition publishFailure (ctxErr : bool) (key : clusterKey) (reason : string) (now now1 now2 : time) :
    State Observer (bool * pendingDeliveries) :=
  o ← get_state;
  if ctxErr then mret (false, nothing_pending)
  else
    match observed_cluster key o with
    | None => pending ← delete_cluster key; mret (false, pending)
    | Some latest =>
        let snapshot := set_Transitioning (transitioning latest) (unavailable latest now (TTL opts) reason) in
        c ← commitPublication snapshot now1 now2;
        mret (false, committed c)
    end.

Definition clear_ready (m : Member) : Member := set_ready (member_SyncState m) (member_Reason m) false m.

(** A conflict closes the snapshot for routing. *)
Definition close_conflict (s : Snapshot) : Snapshot :=
  with_members "multiple_primaries_observed" false "" (snapshot_Transitioning s)
    (clear_ready <$> snapshot_Members s) s.

Definition set_Connection (c : ConnectionParameters) (s : Snapshot) : Snapshot := {|
  snapshot_APIVersion := snapshot_APIVersion s; snapshot_Cluster := snapshot_Cluster s;
  snapshot_Revision := snapshot_Revision s; snapshot_ObservedAt := snapshot_ObservedAt s;
  snapshot_ValidUntil := snapshot_ValidUntil s; snapshot_Available := snapshot_Available s;
  snapshot_Reason := snapshot_Reason s; snapshot_PrimaryID := snapshot_PrimaryID s;
  snapshot_Transitioning := snapshot_Transitioning s; snapshot_Members := snapshot_Members s;
  snapshot_Connection := c;
|}.

(** The evidence of the collection, recorded while the Cluster is the same one. *)
Definition record_evidence (observed latest : object) (probed latestPods : list Pod) (results : list statusResult)
    (o : Observer) : option (bool * Observer) :=
  if bool_decide (GetUID observed = GetUID latest) then
    '(conflict, p) ← conflictingPrimary observed latest probed latestPods results (obs_primaries o);
    Some (conflict, set_obs_primaries p o)
  else Some (false, o).

(** The snapshot that is published for current metadata. *)
Definition observation_snapshot (latest : object) (latestPods probed : list Pod) (results : list statusResult)
    (params : Parameters) (connection : ConnectionParameters) (conflict : bool) (started : time) : option Snapshot :=
  mapped ← matchInstanceResults probed latestPods results;
  snapshot ← buildSnapshot latest latestPods mapped params started (TTL opts);
  Some (set_Connection connection (if conflict then close_conflict snapshot else snapshot)).

(** [publishObservation]; [None] is a panic (a missing result). *)
Definition publishObservation (ctxErr : bool) (key : clusterKey) (observed : object) (probed : list Pod)
    (results : list statusResult) (params : Parameters) (connection : connectionInfo)
    (started now now1 now2 nowDemand : time) (o : Observer) : option ((bool * pendingDeliveries) * Observer) :=
  match observed_cluster key o with
  | None =>
      let '(pending, o) := delete_cluster key o in
      Some ((true, pending), set_obs_primaries (delete key (obs_primaries o)) o)
  | Some latest =>
      let latestPods := pods latest o in
      '(conflict, o) ← record_evidence observed latest probed latestPods results o;
      if ctxErr || negb (obs_ready o) then Some ((false, nothing_pending), o)
      else if negb (sameClusterRoute observed latest) then
        let o := (Notify opts key nowDemand o).2 in
        let '(c, o) := commitPublication (unavailable latest now (TTL opts) "topology_changed_during_observation") now1 now2 o in
        Some ((false, committed c), o)
      else if negb (currentCA (info_ca connection) o) then
        let o := (Notify opts key nowDemand o).2 in
        let '(c, o) := commitPublication (unavailable latest now (TTL opts) "connection_defaults_changed") now1 now2 o in
        Some ((false, committed c), o)
      else
        snapshot ← observation_snapshot latest latestPods probed results params (info_connection connection) conflict started;
        let '(c, o) := commitPublication snapshot now1 now2 o in
        Some ((snapshot_Available snapshot, committed c), o)
  end.

(** ** The start of [observe] *)

Inductive observe_plan :=
  | ObserveGone (pending : pendingDeliveries)
  | ObserveFailure (reason : string)
  | ObserveCollect (cluster : object) (params : Parameters).

(** The expected primary is probed first: swap it with the first Pod. *)
Fixpoint find_pod (name : string) (i : nat) (l : list Pod) : option nat :=
  match l with
  | [] => None
  | p :: l => if bool_decide (pod_Name p = name) then Some i else find_pod name (S i) l
  end.

Definition primary_first (current : string) (l : list Pod) : list Pod :=
  match find_pod current 0 l with
  | Some i =>
      match l !! 0%nat, l !! i with
      | Some first, Some p => <[i := first]> (<[0%nat := p]> l)
      | _, _ => l
      end
  | None => l
  end.

Definition observe_begin (key : clusterKey) : State Observer observe_plan :=
  o ← get_state;
  match observed_cluster key o with
  | None =>
      pending ← delete_cluster key;
      modify (λ o, set_obs_primaries (delete key (obs_primaries o)) o) ;;
      mret (ObserveGone pending)
  | Some c =>
      let '(_, params, paramErr) := parameters c in
      if bool_decide (is_Some paramErr) then mret (ObserveFailure "invalid_configuration")
      else
        let '(current, target) := primaryNames c in
        if bool_decide (current = "") || negb (bool_decide (current = target))
        then mret (ObserveFailure "primary_transition")
        else mret (ObserveCollect c params)
  end.

(** The Pods to probe, read after the lock is released. *)
Definition observe_pods (c : object) (o : Observer) : list Pod := primary_first (primaryNames c).1 (pods c o).
End collection.
