(* ===== verification/CollectionProps.v ===== *)
(** * Correctness of collection and publication

    A route is renewed only from evidence that matches the metadata current at
    publication: an unchanged Cluster, Pods with unchanged routes, the current CA,
    healthy watches and no unresolved primary conflict. *)

From S2P Require Import Prelude Api Mailbox Store StoreFacts StoreProps.
From S2P Require Import Queue Config Kube Topology TopologyFacts TopologyProps Evidence EvidenceProps Settings Observer ObserverFacts Collection.

(** ** Matching results to current Pods *)

Lemma probed_index_spec probed n i :
  probed_index probed !! n = Some i → ∃ p, probed !! i = Some p ∧ pod_Name p = n.
Proof.
  unfold probed_index. induction probed as [|p probed IH] using rev_ind; [done|].
  rewrite imap_app, foldl_app. cbn. rewrite Nat.add_0_r. intros [[Hn Hi]|[Hne Hl]]%lookup_insert_Some.
  - exists p. subst. rewrite lookup_app_r, Nat.sub_diag by lia. done.
  - apply IH in Hl as (p' & Hp' & Hname). exists p'. split; [|done]. by apply lookup_app_l_Some.
Qed.

Lemma match_result_total probed results pod :
  (length probed ≤ length results)%nat → is_Some (match_result probed results pod).
Proof.
  intros Hlen. unfold match_result. destruct (_ !! _) as [i|] eqn:Hi; [|done].
  apply probed_index_spec in Hi as (p & Hp & _). rewrite Hp. cbn. destruct (samePodRoute p pod); cbn; [|done].
  apply lookup_lt_is_Some_2. apply lookup_lt_Some in Hp. lia.
Qed.

Lemma match_result_sound probed results pod r :
  match_result probed results pod = Some r →
  result_err r = Some ErrMemberChanged
  ∨ ∃ j p, probed !! j = Some p ∧ results !! j = Some r ∧ samePodRoute p pod = true.
Proof.
  unfold match_result. destruct (_ !! _) as [i|] eqn:Hi; [|intros [= <-]; by left].
  apply probed_index_spec in Hi as (p & Hp & _). rewrite Hp. cbn.
  destruct (samePodRoute p pod) eqn:Hs; cbn; [|intros [= <-]; by left]. intros Hr. right. by exists i, p.
Qed.

Lemma probed_index_complete probed j p :
  NoDup (pod_Name <$> probed) → probed !! j = Some p → probed_index probed !! pod_Name p = Some j.
Proof.
  unfold probed_index. induction probed as [|q probed IH] using rev_ind; [done|].
  rewrite fmap_app, NoDup_app. intros (Hnd & Hdis & _) Hj. rewrite imap_app, foldl_app. cbn. rewrite Nat.add_0_r.
  apply lookup_app_Some in Hj as [Hj|[Hlen Hj]].
  - rewrite lookup_insert_ne; [by apply IH|]. intros Hq. apply (Hdis (pod_Name p)).
    + by eapply list_elem_of_fmap_2, list_elem_of_lookup_2.
    + rewrite <-Hq. by left.
  - apply list_lookup_singleton_Some in Hj as [Hz ->]. rewrite lookup_insert_eq. f_equal. lia.
Qed.

Lemma match_total probed current results :
  (length probed ≤ length results)%nat →
  ∃ mapped, matchInstanceResults probed current results = Some mapped ∧ length mapped = length current.
Proof.
  intros Hlen. unfold matchInstanceResults.
  destruct (mapM (match_result probed results) current) as [mapped|] eqn:Hm.
  - exists mapped. split; [done|]. apply mapM_Some_1 in Hm. symmetry. exact (Forall2_length _ _ _ Hm).
  - exfalso. apply mapM_None_1, Exists_exists in Hm as (pod & _ & Hnone).
    destruct (match_result_total probed results pod Hlen) as [r Hr]. congruence.
Qed.

Section claims.
Context `{TextLibrary, MapRange, Unstructured, RoutingDigest}.
Context (opts : Options).

Lemma conflict_closed c s : fail_closed (set_Connection c (close_conflict s)).
Proof. split_and!; [done..|]. cbn. by apply Forall_fmap, Forall_true. Qed.

Lemma observation_snapshot_cluster latest latestPods probed results params connection conflict started s :
  observation_snapshot opts latest latestPods probed results params connection conflict started = Some s →
  snapshot_Cluster s = clusterRef latest ∧ snapshot_Connection s = connection
  ∧ (conflict = true → fail_closed s)
  ∧ (snapshot_Available s = true → conflict = false ∧ ∃ mapped built,
       matchInstanceResults probed latestPods results = Some mapped
       ∧ buildSnapshot latest latestPods mapped params started (TTL opts) = Some built
       ∧ snapshot_Available built = true ∧ snapshot_PrimaryID s = snapshot_PrimaryID built).
Proof.
  unfold observation_snapshot. destruct (matchInstanceResults _ _ _) as [mapped|] eqn:Hm; [|done]. cbn.
  destruct (buildSnapshot _ _ _ _ _ _) as [built|] eqn:Hb; [|done]. cbn. intros [= <-].
  assert (snapshot_Cluster built = clusterRef latest) as Hc
    by (apply buildSnapshot_inv in Hb as [_ Ho]; by destruct Ho).
  destruct conflict; cbn; split_and!; try done; [intros _; apply conflict_closed|].
  intros Ha. split; [done|]. by exists mapped, built.
Qed.

(** Committing for the Cluster under its own key. *)
Lemma commit_keyed snapshot o key latest :
  clusters_keyed o → obs_clusters o !! key = Some latest → snapshot_Cluster snapshot = clusterRef latest →
  ref_key (snapshot_Cluster snapshot) = key.
Proof. intros Hk Hl ->. exact (Hk _ _ Hl). Qed.

(** Recording evidence leaves everything but the evidence. *)
Lemma record_evidence_frame observed latest probed latestPods results o conflict o1 :
  record_evidence observed latest probed latestPods results o = Some (conflict, o1) →
  obs_store o1 = obs_store o ∧ obs_ready o1 = obs_ready o.
Proof.
  unfold record_evidence. case_bool_decide; [|by intros [= <- <-]].
  destruct (conflictingPrimary _ _ _ _ _ _) as [[]|]; cbn; by intros [= <- <-].
Qed.

Lemma commit_unavailable latest now ttl reason now1 now2 o c o' key r :
  commitPublication (unavailable latest now ttl reason) now1 now2 o = (c, o') →
  ClusterKey (GetNamespace latest) (GetName latest) = key → records (obs_store o') !! key = Some r →
  snapshot_Available (record_snapshot r) = false.
Proof.
  intros E Hk Hr. eapply (commit_closed (unavailable latest now ttl reason) now1 now2 o); [done..| |by rewrite E].
  apply unavailable_closed.
Qed.

(** The record [r] of [key] routes to what this collection verified: the Cluster,
    its CA and the probed Pods are as they were when the collection started, no
    primary conflict is on record, and the results verify a sole primary. *)
Definition verified_route (key : clusterKey) (observed : object) (probed : list Pod) (results : list statusResult)
    (connection : connectionInfo) (o : Observer) (r : record) : Prop :=
  obs_ready o = true ∧
  ∃ latest o1 mapped fenced i pod res,
    observed_cluster key o = Some latest
    ∧ record_evidence observed latest probed (pods latest o) results o = Some (false, o1)
    ∧ sameClusterRoute observed latest = true ∧ currentCA (info_ca connection) o1 = true
    ∧ matchInstanceResults probed (pods latest o) results = Some mapped
    ∧ fenced_instances latest = Some fenced
    ∧ sole_primary latest (pods latest o) mapped fenced i pod res
    ∧ snapshot_PrimaryID (record_snapshot r) = pod_UID pod
    ∧ snapshot_Connection (record_snapshot r) = info_connection connection.

Lemma publication_current ctxErr key observed probed results params connection started now now1 now2
    nowDemand o ok pending o' r :
  clusters_keyed o →
  publishObservation opts ctxErr key observed probed results params connection started now now1 now2 nowDemand o
    = Some ((ok, pending), o') →
  records (obs_store o') !! key = Some r → snapshot_Available (record_snapshot r) = true →
  records (obs_store o) !! key = Some r
  ∨ ctxErr = false ∧ verified_route key observed probed results connection o r.
Proof.
  intros Hkeyed Hpub Hr Hav. unfold publishObservation in Hpub.
  destruct (observed_cluster key o) as [latest|] eqn:Hlatest.
  2: { unfold delete_cluster, on_store in Hpub. rewrite State_bind_run, DeleteDeferred_run in Hpub.
       destruct (records (obs_store o) !! key) eqn:E; cbn in Hpub; simplify_eq; cbn in Hr;
         [by rewrite lookup_delete_eq in Hr|by rewrite E in Hr]. }
  pose proof (observed_cluster_some _ _ _ Hlatest) as Hcl.
  destruct (record_evidence observed latest probed (pods latest o) results o) as [[conflict o1]|] eqn:Hev; [|done].
  cbn [mbind option_bind] in Hpub.
  destruct (record_evidence_frame _ _ _ _ _ _ _ _ Hev) as [Hst Hrd].
  destruct (ctxErr || negb (obs_ready o1)) eqn:Hctx; [left; simplify_eq; by rewrite Hst in Hr|]. boolify.
  destruct (sameClusterRoute observed latest) eqn:Hroute; cbn [negb] in Hpub.
  2: { destruct (commitPublication _ _ _ (Notify _ _ _ o1).2) as [c o2] eqn:E; simplify_eq.
       apply (commit_unavailable _ _ _ _ _ _ _ _ _ _ _ E (Hkeyed _ _ Hcl)) in Hr. congruence. }
  destruct (currentCA (info_ca connection) o1) eqn:Hca; cbn [negb] in Hpub.
  2: { destruct (commitPublication _ _ _ (Notify _ _ _ o1).2) as [c o2] eqn:E; simplify_eq.
       apply (commit_unavailable _ _ _ _ _ _ _ _ _ _ _ E (Hkeyed _ _ Hcl)) in Hr. congruence. }
  destruct (observation_snapshot opts latest (pods latest o) probed results params (info_connection connection)
    conflict started) as [s|] eqn:Hs; [|done]. cbn [mbind option_bind] in Hpub.
  apply observation_snapshot_cluster in Hs as (Hc & Hconn & _ & Hbuilt).
  destruct (commitPublication s now1 now2 o1) as [c o2] eqn:E. simplify_eq.
  pose proof (commit_record s now1 now2 o1) as Hr1. rewrite E, (commit_keyed s _ _ _ Hkeyed Hcl Hc) in Hr1.
  unfold record_at in Hr1. cbn [snd] in Hr1. rewrite Hr1 in Hr. injection Hr as <-.
  destruct (narrows_available _ _ (committed_record_narrows s now1 now2 o1) Hav) as [Has Hid].
  pose proof (committed_record_connection s now1 now2 o1) as Hconn'. destruct (Hbuilt Has) as (-> & mapped & built & Hm & Hb & Hba & Hbid).
  pose proof (available_primary _ _ _ _ _ _ _ Hb Hba) as (fenced & i & pod & res & Hf & Hsole & Hpid).
  right. split; [done|]. split; [congruence|]. exists latest, o1, mapped, fenced, i, pod, res.
  split_and!; try done; congruence.
Qed.

(** A publication returns when there is a result for every probed Pod. *)
Lemma publication_total ctxErr key observed probed results params connection started now now1 now2 nowDemand o :
  (length probed ≤ length results)%nat →
  is_Some (publishObservation opts ctxErr key observed probed results params connection started now now1 now2 nowDemand o).
Proof.
  intros Hlen. unfold publishObservation. destruct (observed_cluster key o) as [latest|]; [|by destruct (delete_cluster key o)].
  assert (∃ b o1, record_evidence observed latest probed (pods latest o) results o = Some (b, o1)) as (b & o1 & ->).
  { unfold record_evidence. case_bool_decide; [|by eexists _, _].
    destruct (conflict_total observed latest probed (pods latest o) results (obs_primaries o) Hlen) as [[b p'] ->]. by eexists _, _. }
  cbn [mbind option_bind]. destruct (ctxErr || negb (obs_ready o1)); [done|].
  destruct (sameClusterRoute observed latest); cbn [negb]; [|by destruct (commitPublication _ _ _ _)].
  destruct (currentCA (info_ca connection) o1); cbn [negb]; [|by destruct (commitPublication _ _ _ _)].
  unfold observation_snapshot. destruct (match_total probed (pods latest o) results Hlen) as (mapped & Hm & Hml).
  rewrite Hm. cbn [mbind option_bind].
  destruct (buildSnapshot_total latest (pods latest o) mapped params started (TTL opts)) as [s ->]; [by rewrite Hml|].
  cbn [mbind option_bind]. by destruct (commitPublication _ _ _ _).
Qed.

(** After a publication a Cluster is routable only if its record is the old
    one, or the context was live, the watches healthy, the Cluster's routing
    metadata and CA unchanged since the collection started, no primary conflict
    on record, and the collected results of unchanged Pods verify a sole primary,
    whose identity and CA the record then carries. *)
Theorem published_route_is_current ctxErr key observed probed results params connection started now now1 now2
    nowDemand o ok pending o' r :
  clusters_keyed o →
  publishObservation opts ctxErr key observed probed results params connection started now now1 now2 nowDemand o
    = Some ((ok, pending), o') →
  records (obs_store o') !! key = Some r → snapshot_Available (record_snapshot r) = true →
  records (obs_store o) !! key = Some r
  ∨ ctxErr = false ∧ obs_ready o = true ∧
    ∃ latest o1 mapped fenced i pod res,
      observed_cluster key o = Some latest
      ∧ record_evidence observed latest probed (pods latest o) results o = Some (false, o1)
      ∧ sameClusterRoute observed latest = true ∧ currentCA (info_ca connection) o1 = true
      ∧ matchInstanceResults probed (pods latest o) results = Some mapped
      ∧ fenced_instances latest = Some fenced
      ∧ sole_primary latest (pods latest o) mapped fenced i pod res
      ∧ snapshot_PrimaryID (record_snapshot r) = pod_UID pod
      ∧ snapshot_Connection (record_snapshot r) = info_connection connection.
Proof. exact (publication_current _ _ _ _ _ _ _ _ _ _ _ _ _ _ _ _ _). Qed.
End claims.

(** With a result for every probed Pod the results are matched to the current
    Pods one by one: each is the result of a probed Pod whose route is unchanged,
    or the error of a changed member; and a Pod probed under a unique name whose
    route is unchanged gets its result. *)
Theorem matched_results probed current results :
  (length probed ≤ length results)%nat →
  ∃ mapped, matchInstanceResults probed current results = Some mapped ∧ length mapped = length current
    ∧ ∀ i pod r, current !! i = Some pod → mapped !! i = Some r →
      (result_err r = Some ErrMemberChanged
       ∨ ∃ j p, probed !! j = Some p ∧ results !! j = Some r ∧ samePodRoute p pod = true)
      ∧ (∀ j p, NoDup (pod_Name <$> probed) → probed !! j = Some p → samePodRoute p pod = true → results !! j = Some r).
Proof.
  intros Hlen. destruct (match_total probed current results Hlen) as (mapped & Hm & Hml).
  exists mapped. split; [done|]. split; [done|]. unfold matchInstanceResults in Hm. apply mapM_Some_1 in Hm.
  intros i pod r Hi Hr. pose proof (Forall2_lookup_lr _ _ _ _ _ _ Hm Hi Hr) as Hmr.
  split; [by apply match_result_sound|]. intros j p Hnd Hj Hs. unfold match_result in Hmr.
  assert (pod_Name p = pod_Name pod) as Hname by by destruct (proj1 (samePodRoute_spec _ _) Hs).
  rewrite <-Hname, (probed_index_complete _ j p) in Hmr by done. rewrite Hj in Hmr. cbn in Hmr. by rewrite Hs in Hmr.
Qed.

(** ** A concrete observation *)

Section example.
#[local] Existing Instances identity_digest plain_access plain_text plain_range.

Definition owned_pod (name : string) : Pod := {|
  pod_Namespace := "app"; pod_Name := name; pod_UID := "uid-" +:+ name; pod_DeletionTimestamp := None;
  pod_Labels := ∅;
  pod_OwnerReferences := [{| owner_APIVersion := "postgresql.cnpg.io/v1"; owner_Kind := "Cluster"; owner_Name := "db";
    owner_UID := "u-1"; owner_Controller := None; owner_BlockOwnerDeletion := None |}];
  pod_NodeName := "node"; pod_Containers := []; pod_Phase := "Running"; pod_PodIP := "10.0.0.1";
  pod_Conditions := [{| condition_Type := "Ready"; condition_Status := "True" |}]; pod_ContainerStatuses := [];
|}.

Definition example_ca : cachedCA := CachedCA 1 (ClusterKey "app" "ca") "s-1" "7" "PEM".

Definition example_observer : Observer := {|
  obs_store := NewStore "process"; obs_primaries := ∅;
  obs_clusters := {[ClusterKey "app" "db" := example_cluster "db-1"]};
  obs_pods := {[ClusterKey "app" "db" := [owned_pod "db-2"; owned_pod "db-1"]]};
  obs_secrets := {[ClusterKey "app" "ca" := {| secret_Namespace := "app"; secret_Name := "ca"; secret_UID := "s-1"; secret_ResourceVersion := "7" |}]};
  obs_cas := {[ClusterKey "app" "ca" := example_ca]}; obs_ready := true;
  obs_observations := ∅; obs_demandNext := ∅; obs_queue := newPriorityQueue; obs_calls := [];
  obs_caReads := ∅; obs_caPending := ∅; obs_caCalls := [];
|}.

Definition example_options : Options := Build_Options "" (5 * second) (15 * second) (2 * second) 128 32.

Definition example_connection : connectionInfo := {|
  info_connection := {| connection_Database := "app"; connection_ServerCAPEM := "PEM" |}; info_ca := Some example_ca;
|}.

Definition example_publish : option ((bool * pendingDeliveries) * Observer) :=
  publishObservation example_options false (ClusterKey "app" "db") (example_cluster "db-1")
    [owned_pod "db-1"; owned_pod "db-2"] [example_status true []; example_status false []]
    no_parameters example_connection second second second second second example_observer.

Lemma example_keyed : clusters_keyed example_observer.
Proof. intros k c. unfold example_observer. cbn [obs_clusters]. by intros [<- <-]%lookup_singleton_Some. Qed.

(** Whether a run left the Cluster routable. *)
Definition routable (x : option ((bool * pendingDeliveries) * Observer)) : bool :=
  match x with
  | Some (_, o) =>
      match records (obs_store o) !! ClusterKey "app" "db" with
      | Some r => snapshot_Available (record_snapshot r)
      | None => false
      end
  | None => false
  end.

Lemma example_routable : routable example_publish = true.
Proof. vm_compute. reflexivity. Qed.

Lemma published_route_is_current_witness :
  ∃ ok pending o' r, example_publish = Some ((ok, pending), o')
    ∧ records (obs_store o') !! ClusterKey "app" "db" = Some r
    ∧ snapshot_Connection (record_snapshot r) = info_connection example_connection.
Proof.
  pose proof example_routable as Hav. unfold routable in Hav.
  destruct example_publish as [[[ok pending] o']|] eqn:E; [|discriminate Hav].
  destruct (records (obs_store o') !! ClusterKey "app" "db") as [r|] eqn:Hr; [|discriminate Hav].
  exists ok, pending, o', r. split; [reflexivity|]. split; [exact Hr|].
  destruct (published_route_is_current example_options _ _ _ _ _ _ _ _ _ _ _ _ _ _ _ _ _ example_keyed E Hr Hav)
    as [Hold|(_ & _ & ? & ? & ? & ? & ? & ? & ? & _ & _ & _ & _ & _ & _ & _ & _ & Hc)]; [discriminate Hold|exact Hc].
Defined.

Lemma matched_results_witness :
  ∃ mapped, matchInstanceResults example_pods example_pods example_results = Some mapped ∧ length mapped = 3%nat.
Proof.
  destruct (matched_results example_pods example_pods example_results) as (mapped & Hm & Hlen & _);
    [apply Nat.leb_le; reflexivity|]. exists mapped. split; [exact Hm|exact Hlen].
Defined.
End example.
