(* ===== verification/Events.v ===== *)
(** * Metadata events (src/internal/observer/events.go)

    The handlers the informers call when a Cluster, a Pod or a Secret changed.
    Each is one section of [stateMu]; it returns the deliveries and log lines that
    follow it.  The handlers run after the informer cache was updated, so the
    caches of the [Observer] already hold the new state. *)

From S2P Require Import Prelude Api Mailbox Store Queue Config Kube Topology Evidence Settings Observer.

(** ** Event objects *)

(** The dynamic type of a handler's argument: nil or a foreign type, an object of
    the informer, or a tombstone that wraps the last known object. *)
Inductive event_object (A : Type) :=
  | Foreign
  | Live (x : A)
  | DeletedFinalStateUnknown (obj : event_object A).
Arguments Foreign {A}.
Arguments Live {A} x.
Arguments DeletedFinalStateUnknown {A} obj.

(** [cachedCluster], [cachedPod]: a tombstone is unwrapped once. *)
Definition cached {A} (obj : event_object A) : option A :=
  match (match obj with DeletedFinalStateUnknown inner => inner | _ => obj end) with
  | Live x => Some x
  | _ => None
  end.

Definition is_cluster_owner (owner : OwnerReference) : bool :=
  bool_decide (owner_Kind owner = "Cluster") && bool_decide (owner_APIVersion owner = "postgresql.cnpg.io/v1").

Definition podCluster (obj : event_object Pod) : option clusterKey :=
  p ← cached obj;
  owner ← head (filter (λ owner, is_cluster_owner owner = true) (pod_OwnerReferences p));
  Some (ClusterKey (pod_Namespace p) (owner_Name owner)).

(** Go visits a set of keys in an unspecified order. *)
Class KeyRange := {
  range_keys : gset clusterKey → list clusterKey;
  range_keys_perm s : range_keys s ≡ₚ elements s;
}.

Section events.
Context `{TextLibrary, MapRange, Unstructured, RoutingDigest, KeyRange}.
Context (opts : Options).

(** The deliveries of a loop over [l], in its order. *)
Fixpoint for_pending {A} (body : A → State Observer pendingDeliveries) (l : list A) : State Observer pendingDeliveries :=
  match l with
  | [] => mret nothing_pending
  | x :: l =>
      first ← body x;
      rest ← for_pending body l;
      mret (pending_join first rest)
  end.

(** Publish [c] as unavailable for [reason]. *)
Definition commit_unavailable (c : object) (reason : string) (clk : clock) :
    State Observer (notification * option Snapshot) :=
  commitPublication (unavailable c (clk_now clk) (TTL opts) reason) (clk_put1 clk) (clk_put2 clk).

Definition cluster_key (c : object) : clusterKey := ClusterKey (GetNamespace c) (GetName c).

(** Cancel the observation of [key] and forget what was learnt about it. *)
Definition forget_cluster (key : clusterKey) : State Observer () :=
  cancelObservationLocked key ;;
  modify (λ o, set_obs_primaries (delete key (obs_primaries o)) o) ;;
  modify (λ o, set_obs_demandNext (delete key (obs_demandNext o)) o).

(** ** Clusters *)

(** Whether the store's record is of another Cluster, or absent. *)
Definition new_identity (c : object) (o : Observer) : bool :=
  match ClusterIdentity (cluster_key c) (obs_store o) with
  | None => true
  | Some previous => negb (bool_decide (cluster_UID previous = GetUID c))
  end.

Definition clusterEvent (oldObj newObj : event_object object) (clk1 clk2 : clock) : State Observer pendingDeliveries :=
  match cached newObj with
  | None => mret nothing_pending
  | Some c =>
      let key := cluster_key c in
      if negb (parameters c).1.1 || bool_decide (is_Some (GetDeletionTimestamp c)) then
        forget_cluster key ;;
        delete_cluster key
      else
        o ← get_state;
        pending ← (if new_identity c o then
                     forget_cluster key ;;
                     placeholder ← commit_unavailable c "awaiting_observation" clk1;
                     mret (committed placeholder)
                   else mret nothing_pending);
        let notify :=
          demand ← on_store (HasDemand key (clk_get clk2));
          if (demand : bool) then Notify opts key (clk_demand clk2) else mret () in
        match cached oldObj with
        | Some old =>
            if sameClusterRoute old c then mret pending
            else
              cancelObservationLocked key ;;
              changed ← commit_unavailable c "topology_changed" clk2;
              notify ;;
              mret (pending_add pending changed)
        | None => notify ;; mret pending
        end
  end.

Definition clusterDeleted (obj : event_object object) : State Observer pendingDeliveries :=
  match cached obj with
  | None => mret nothing_pending
  | Some c =>
      let key := cluster_key c in
      o ← get_state;
      let replaced := match obs_clusters o !! key with
                      | Some current => negb (bool_decide (GetUID current = GetUID c))
                      | None => false
                      end in
      if replaced then mret nothing_pending
      else
        cancelObservationLocked key ;;
        pending ← delete_cluster key;
        modify (λ o, set_obs_primaries (delete key (obs_primaries o)) o) ;;
        modify (λ o, set_obs_demandNext (delete key (obs_demandNext o)) o) ;;
        mret pending
  end.

(** ** Pods *)

Definition zone_label : string := "topology.kubernetes.io/zone".
Definition region_label : string := "topology.kubernetes.io/region".

(** The first early return: nothing discovery reads has changed. *)
Definition same_pod (old new : option Pod) : bool :=
  match old, new with
  | Some old, Some new =>
      samePodRoute old new
      && bool_decide (map_value (pod_Labels old) zone_label = map_value (pod_Labels new) zone_label)
      && bool_decide (map_value (pod_Labels old) region_label = map_value (pod_Labels new) region_label)
  | _, _ => false
  end.

Definition set_members (ms : list Member) (s : Snapshot) : Snapshot :=
  with_members (snapshot_Reason s) (snapshot_Available s) (snapshot_PrimaryID s) (snapshot_Transitioning s) ms s.

(** The loop over the members of the retained snapshot. *)
Definition drop_member (id : string) (m : Member) : Member :=
  if bool_decide (member_ID m = id) then set_ready (member_SyncState m) "member_changed" false m else m.

(** A Pod other than the primary changed: only its member is withdrawn. *)
Definition withdraw_member (key : clusterKey) (c : object) (old : Pod) (clk : clock) : State Observer pendingDeliveries :=
  r ← on_store (GetDeferred key (clk_get clk));
  let pending := pending_add nothing_pending (r.2, None) in
  match r.1 with
  | None => mret pending
  | Some snapshot =>
      if bool_decide (cluster_UID (snapshot_Cluster snapshot) = GetUID c) then
        changed ← commitPublication (set_members (drop_member (pod_UID old) <$> snapshot_Members snapshot) snapshot)
                    (clk_put1 clk) (clk_put2 clk);
        mret (pending_add pending changed)
      else mret pending
  end.

(** Whether [old] is gone or has another route. *)
Definition route_changed (old new : option Pod) : option Pod :=
  match old, new with
  | Some old, Some new => if samePodRoute old new then None else Some old
  | Some old, None => Some old
  | None, _ => None
  end.

(** One iteration of the loop over the affected Clusters. *)
Definition pod_changed (old new : option Pod) (clk : clock) (key : clusterKey) : State Observer pendingDeliveries :=
  o ← get_state;
  pending ← match obs_clusters o !! key, route_changed old new with
            | Some c, Some old =>
                if bool_decide (pod_Name old = (primaryNames c).1) then
                  cancelObservationLocked key ;;
                  changed ← commit_unavailable c "primary_changed" clk;
                  mret (committed changed)
                else withdraw_member key c old clk
            | _, _ => mret nothing_pending
            end;
  Notify opts key (clk_demand clk) ;;
  mret pending.

Definition affected_clusters (oldObj newObj : event_object Pod) : gset clusterKey :=
  list_to_set (option_list (podCluster oldObj) ++ option_list (podCluster newObj)).

(** [clk] gives the clock readings of the iteration for each Cluster. *)
Definition podEvent (oldObj newObj : event_object Pod) (clk : clusterKey → clock) : State Observer pendingDeliveries :=
  let old := cached oldObj in
  let new := cached newObj in
  if same_pod old new then mret nothing_pending
  else for_pending (λ key, pod_changed old new (clk key) key) (range_keys (affected_clusters oldObj newObj)).

(** ** Secrets (connection.go) *)

(** [indexServerCA]: the Secret a Cluster is filed under. *)
Definition indexServerCA (c : object) : option clusterKey :=
  if (parameters c).1.1 && bool_decide (GetDeletionTimestamp c = None) && negb (bool_decide (serverCASecret c = ""))
  then Some (ClusterKey (GetNamespace c) (serverCASecret c)) else None.

Definition clustersUsingCA (key : clusterKey) (o : Observer) : list object :=
  omap (λ k, obs_clusters o !! k)
    (range_keys (dom (filter (λ kc, indexServerCA kc.2 = Some key) (obs_clusters o)))).

(** The loop body: a Cluster that uses the changed CA. *)
Definition ca_changed (clk : clock) (c : object) : State Observer pendingDeliveries :=
  let cluster := cluster_key c in
  cancelObservationLocked cluster ;;
  r ← on_store (GetDeferred cluster (clk_get clk));
  let pending := pending_add nothing_pending (r.2, None) in
  pending ← match r.1 with
            | Some snapshot =>
                if snapshot_Available snapshot
                   || negb (bool_decide (connection_ServerCAPEM (snapshot_Connection snapshot) = ""))
                then
                  changed ← commit_unavailable c "connection_defaults_changed" clk;
                  mret (pending_add pending changed)
                else mret pending
            | None => mret pending
            end;
  Notify opts cluster (clk_demand clk) ;;
  mret pending.

Definition secretEvent (obj : event_object SecretMetadata) (clk : clusterKey → clock) : State Observer pendingDeliveries :=
  match cached obj with
  | None => mret nothing_pending
  | Some meta =>
      let key := ClusterKey (secret_Namespace meta) (secret_Name meta) in
      o ← get_state;
      if currentCA (obs_cas o !! key) o then mret nothing_pending
      else
        modify (λ o, set_obs_cas (delete key (obs_cas o)) o) ;;
        modify (λ o, match obs_caReads o !! key with
                     | Some _ => set_obs_caReads (<[key := true]> (obs_caReads o)) o
                     | None => o
                     end) ;;
        modify (λ o, if bool_decide (key ∈ obs_caPending o)
                     then set_obs_caCalls (obs_caCalls o ++ [CallAdd key]) o else o) ;;
        o ← get_state;
        for_pending (λ c, ca_changed (clk (cluster_key c)) c) (clustersUsingCA key o)
  end.
End events.
