(* ===== verification/EventsFacts.v ===== *)
(** * Facts about the metadata event handlers

    The effect of each part of the handlers on the Cluster it is about, the frame
    of the others, and the loops over several Clusters. *)

From S2P Require Import Prelude Api Mailbox Store StoreFacts Queue QueueFacts.
From S2P Require Import Config Kube Topology Evidence Settings Observer ObserverFacts Events.

Section facts.
Context `{TextLibrary, MapRange, Unstructured, RoutingDigest, KeyRange}.
Context (opts : Options).

(** ** Steps of the handlers *)

Lemma commit_unavailable_spec c reason clk o :
  let o' := (commit_unavailable opts c reason clk o).2 in
  (∃ r, record_at (cluster_key c) o' = Some r ∧ fail_closed (record_snapshot r)
    ∧ snapshot_Cluster (record_snapshot r) = clusterRef c
    ∧ connection_ServerCAPEM (snapshot_Connection (record_snapshot r)) = "")
  ∧ touches (cluster_key c) o o' ∧ obs_observations o' = obs_observations o ∧ obs_primaries o' = obs_primaries o.
Proof.
  unfold commit_unavailable. set (s := unavailable c _ _ reason). cbn. split_and!.
  - eexists. split; [exact (commit_record s _ _ o)|]. split_and!.
    + apply committed_record_closed, unavailable_closed.
    + apply (narrows_cluster _ _ (committed_record_narrows s _ _ o)).
    + by rewrite committed_record_connection.
  - exact (commit_touches s _ _ o).
  - apply commit_observations.
  - apply commit_primaries.
Qed.

Lemma forget_cluster_spec key o :
  let o' := (forget_cluster key o).2 in
  touches key o o' ∧ record_at key o' = record_at key o ∧ obs_primaries o' !! key = None
  ∧ obs_demandNext o' !! key = None ∧ obs_observations o' !! key ≠ Some false.
Proof.
  unfold forget_cluster. rewrite !State_bind_run. cbn.
  destruct (cancel_touches key o) as [Hca Hot Hk]. split_and!.
  - split; [by destruct Hca| |done]. intros k Hne. destruct (Hot k Hne) as [Hr Ho Hp]. split; [done..|].
    cbn. by rewrite lookup_delete_ne.
  - unfold record_at. cbn. exact (cancel_record key key o).
  - by rewrite lookup_delete_eq.
  - by rewrite lookup_delete_eq.
  - apply cancel_observation.
Qed.

(** The conditional notification at the end of [clusterEvent]. *)
Lemma notify_steady key now1 now2 o :
  steady o ((demand ← on_store (HasDemand key now1);
             if (demand : bool) then Notify opts key now2 else mret ()) o).2.
Proof.
  rewrite State_bind_run. etrans; [apply HasDemand_steady|].
  destruct (on_store (HasDemand key now1) o).1; [apply enqueue_steady|done].
Qed.

(** ** Clusters *)

(** Whether a Cluster event invalidates the published state. *)
Definition cluster_invalidated (old : option object) (c : object) (o : Observer) : bool :=
  new_identity c o || match old with Some old => negb (sameClusterRoute old c) | None => false end.

Definition cluster_gone (c : object) : bool :=
  negb (parameters c).1.1 || bool_decide (is_Some (GetDeletionTimestamp c)).

(** Nothing but the notification happens for an event that invalidates nothing. *)
Lemma cluster_event_quiet oldObj newObj clk1 clk2 o c :
  cached newObj = Some c → cluster_gone c = false → cluster_invalidated (cached oldObj) c o = false →
  steady o (clusterEvent opts oldObj newObj clk1 clk2 o).2.
Proof.
  unfold clusterEvent, cluster_gone. intros -> -> [Hid Hold]%orb_false_iff.
  rewrite State_bind_run. cbn [get_state fst snd]. rewrite Hid. rewrite State_bind_run. cbn [mret State_ret fst snd].
  destruct (cached oldObj) as [old|]; [apply negb_false_iff in Hold as ->; done|].
  rewrite State_bind_run. cbn [mret State_ret fst snd]. apply notify_steady.
Qed.

(** The placeholder of a Cluster that the store does not know under its UID. *)
Definition placeholder (c : object) (clk1 : clock) : State Observer pendingDeliveries :=
  forget_cluster (cluster_key c) ;;
  p ← commit_unavailable opts c "awaiting_observation" clk1;
  mret (committed p).

Definition closed_for (c : object) (o : Observer) : Prop :=
  ∃ r, record_at (cluster_key c) o = Some r ∧ fail_closed (record_snapshot r)
    ∧ snapshot_Cluster (record_snapshot r) = clusterRef c.

Lemma placeholder_spec c clk1 o :
  let o' := (placeholder c clk1 o).2 in
  touches (cluster_key c) o o' ∧ closed_for c o' ∧ obs_primaries o' !! cluster_key c = None
  ∧ obs_observations o' !! cluster_key c ≠ Some false.
Proof.
  unfold placeholder. rewrite !State_bind_run.
  destruct (forget_cluster_spec (cluster_key c) o) as (Ht & _ & Hp & _ & Hob).
  set (o1 := (forget_cluster (cluster_key c) o).2) in *.
  destruct (commit_unavailable_spec c "awaiting_observation" clk1 o1) as ((r & Hr & Hf & Hc & _) & Ht' & Hob' & Hp').
  cbn. split_and!; [by etrans|by exists r|by rewrite Hp'|by rewrite Hob'].
Qed.

Lemma closed_for_steady c o o' : steady o o' → closed_for c o → closed_for c o'.
Proof. intros Hs (r & Hr & ?). exists r. by rewrite (agrees_record _ _ _ (steady_agrees _ _ _ Hs)). Qed.

(** The second half of [clusterEvent] for a changed route. *)
Lemma topology_changed_spec c clk2 o :
  let o' := (cancelObservationLocked (cluster_key c) ;;
             commit_unavailable opts c "topology_changed" clk2) o in
  touches (cluster_key c) o o'.2 ∧ closed_for c o'.2
  ∧ obs_primaries o'.2 = obs_primaries o
  ∧ obs_observations o'.2 !! cluster_key c ≠ Some false.
Proof.
  rewrite State_bind_run. set (o1 := (cancelObservationLocked (cluster_key c) o).2).
  destruct (commit_unavailable_spec c "topology_changed" clk2 o1) as ((r & Hr & Hf & Hc & _) & Ht & Hob & Hp).
  cbv zeta. split_and!.
  - etrans; [apply cancel_touches|exact Ht].
  - by exists r.
  - rewrite Hp. apply cancel_primaries.
  - rewrite Hob. apply cancel_observation.
Qed.

Lemma cluster_event_closes oldObj newObj clk1 clk2 o c :
  cached newObj = Some c → cluster_gone c = false → cluster_invalidated (cached oldObj) c o = true →
  let o' := (clusterEvent opts oldObj newObj clk1 clk2 o).2 in
  touches (cluster_key c) o o' ∧ closed_for c o' ∧ obs_observations o' !! cluster_key c ≠ Some false
  ∧ (new_identity c o = true → obs_primaries o' !! cluster_key c = None).
Proof.
  unfold clusterEvent, cluster_gone, cluster_invalidated. intros -> -> Hinv.
  rewrite State_bind_run. cbn [get_state fst snd].
  assert (∃ o1, (if new_identity c o then placeholder c clk1 else mret nothing_pending) o = o1) as [[p o1] Ho1] by eauto.
  assert (touches (cluster_key c) o o1 ∧ (new_identity c o = true → closed_for c o1
    ∧ obs_primaries o1 !! cluster_key c = None ∧ obs_observations o1 !! cluster_key c ≠ Some false)) as [Ht1 Hn1].
  { pose proof (placeholder_spec c clk1 o) as Hps. destruct (new_identity c o); cbn in Ho1.
    - rewrite Ho1 in Hps. naive_solver.
    - injection Ho1 as _ <-. done. }
  unfold placeholder in Ho1. rewrite State_bind_run, Ho1. cbn [fst snd].
  destruct (cached oldObj) as [old|].
  - destruct (sameClusterRoute old c); cbn [negb] in Hinv.
    + rewrite orb_false_r in Hinv. naive_solver.
    + pose proof (topology_changed_spec c clk2 o1) as (Ht2 & Hc2 & Hp2 & Ho2). rewrite State_bind_run in Ht2, Hc2, Hp2, Ho2.
      rewrite !State_bind_run. set (o2 := (commit_unavailable opts c _ clk2 _).2) in *.
      pose proof (notify_steady (cluster_key c) (clk_get clk2) (clk_demand clk2) o2) as Hs. rewrite State_bind_run in Hs.
      cbn [mret State_ret fst snd]. match type of Hs with steady _ ?x => set (o3 := x) in * end. cbv zeta.
      pose proof Hs as (_ & _ & Hob & Hpr). split_and!.
      * etrans; [exact Ht1|]. etrans; [exact Ht2|]. by apply steady_touches.
      * by eapply closed_for_steady.
      * by rewrite Hob.
      * intros Hn. rewrite Hpr, Hp2. naive_solver.
  - rewrite orb_false_r in Hinv. destruct (Hn1 Hinv) as (Hc1 & Hp1 & Hob1).
    rewrite State_bind_run. pose proof (notify_steady (cluster_key c) (clk_get clk2) (clk_demand clk2) o1) as Hs.
    pose proof Hs as (_ & _ & Hob & Hpr). cbn. split_and!.
    + etrans; [exact Ht1|]. by apply steady_touches.
    + by eapply closed_for_steady.
    + by rewrite Hob.
    + intros _. by rewrite Hpr.
Qed.

Lemma cluster_event_gone oldObj newObj clk1 clk2 o c :
  cached newObj = Some c → cluster_gone c = true →
  let o' := (clusterEvent opts oldObj newObj clk1 clk2 o).2 in
  touches (cluster_key c) o o' ∧ record_at (cluster_key c) o' = None ∧ obs_primaries o' !! cluster_key c = None
  ∧ obs_demandNext o' !! cluster_key c = None ∧ obs_observations o' !! cluster_key c ≠ Some false.
Proof.
  unfold clusterEvent, cluster_gone. intros -> ->. rewrite State_bind_run.
  destruct (forget_cluster_spec (cluster_key c) o) as (Ht & _ & Hp & Hd & Hob).
  destruct (delete_cluster_run (cluster_key c) (forget_cluster (cluster_key c) o).2) as (Hr & Hob' & Hp' & Hd' & Ht').
  cbn. split_and!; [by etrans|done|by rewrite Hp'|by rewrite Hd'|by rewrite Hob'].
Qed.
(** ** Loops over Clusters *)

Section loop.
Context {A : Type} (key_of : A → clusterKey) (body : A → State Observer pendingDeliveries).

(** Each iteration, from a state with the caches of [o], touches its own Cluster. *)
Definition local_body (l : list A) (o : Observer) : Prop :=
  ∀ x o1, x ∈ l → caches_same o o1 → records_keyed o1 → touches (key_of x) o1 (body x o1).2.

Lemma for_pending_cons x l o : (for_pending body (x :: l) o).2 = (for_pending body l (body x o).2).2.
Proof. cbn. by rewrite !State_bind_run. Qed.

Lemma local_body_step x l o :
  local_body (x :: l) o → records_keyed o → touches (key_of x) o (body x o).2 ∧ local_body l (body x o).2.
Proof.
  intros Hb Hk. assert (touches (key_of x) o (body x o).2) as Ht by (apply Hb; [by left|done..]).
  split; [done|]. intros y o1 Hy Hc Hk1. apply Hb; [by right| |done]. etrans; [apply Ht|exact Hc].
Qed.

Lemma for_pending_caches l o :
  local_body l o → records_keyed o → caches_same o (for_pending body l o).2.
Proof.
  revert o. induction l as [|x l IH]; intros o Hb Hk; [done|]. rewrite for_pending_cons.
  apply local_body_step in Hb as [Ht Hb]; [|done]. etrans; [apply Ht|]. by apply IH, (touches_keyed _ _ _ Ht).
Qed.

(** A Cluster outside the loop keeps its state. *)
Lemma for_pending_others l o k :
  local_body l o → records_keyed o → k ∉ key_of <$> l → agrees k o (for_pending body l o).2.
Proof.
  revert o. induction l as [|x l IH]; intros o Hb Hk Hin; [done|]. rewrite for_pending_cons.
  apply local_body_step in Hb as [Ht Hb]; [|done]. rewrite fmap_cons, not_elem_of_cons in Hin.
  etrans; [by apply Ht, Hin|]. apply IH; [done|by apply (touches_keyed _ _ _ Ht)|apply Hin].
Qed.

(** A Cluster of the loop ends as its own iteration left it. *)
Lemma for_pending_at l o x :
  local_body l o → records_keyed o → NoDup (key_of <$> l) → x ∈ l →
  ∃ o1, caches_same o o1 ∧ records_keyed o1 ∧ agrees (key_of x) o o1
    ∧ agrees (key_of x) (body x o1).2 (for_pending body l o).2.
Proof.
  revert o. induction l as [|y l IH]; intros o Hb Hk Hnd Hx; [by apply elem_of_nil in Hx|]. rewrite for_pending_cons.
  apply local_body_step in Hb as [Ht Hb]; [|done]. rewrite fmap_cons, NoDup_cons in Hnd. destruct Hnd as [Hy Hnd].
  pose proof (touches_keyed _ _ _ Ht Hk) as Hk'. apply elem_of_cons in Hx as [->|Hx].
  - exists o. split_and!; [done..|]. by apply (for_pending_others l _ (key_of y)).
  - destruct (IH _ Hb Hk' Hnd Hx) as (o1 & Hc & Hk1 & Ha & Hlast). exists o1. split_and!; [|done| |done].
    + etrans; [apply Ht|exact Hc].
    + etrans; [|exact Ha]. apply Ht. intros Heq. apply Hy. rewrite <-Heq. by apply list_elem_of_fmap_2.
Qed.
End loop.

(** ** Pods *)

Lemma drop_member_narrows id s : narrows s (set_members (drop_member id <$> snapshot_Members s) s).
Proof. split; [done..|]. cbn. apply members_narrow. intros m. unfold drop_member. by case_bool_decide. Qed.

(** No member with the instance's UID is ready. *)
Definition member_withdrawn (id : string) (s : Snapshot) : Prop :=
  ∀ m, m ∈ snapshot_Members s → member_ID m = id → member_Ready m = false.

Lemma drop_member_withdrawn id s : member_withdrawn id (set_members (drop_member id <$> snapshot_Members s) s).
Proof.
  intros m Hm Hid. cbn in Hm. apply list_elem_of_fmap in Hm as (m0 & -> & _). unfold drop_member in *.
  case_bool_decide; [done|]. congruence.
Qed.

Lemma member_withdrawn_narrows id s s' : narrows s s' → member_withdrawn id s → member_withdrawn id s'.
Proof.
  intros Hn Hw m' Hm' Hid. destruct (member_Ready m') eqn:Hr; [|done].
  apply list_elem_of_lookup in Hm' as [i Hi].
  destruct (Forall2_lookup_r _ _ _ _ _ (narrows_members _ _ Hn) Hi) as (m & Hm & _ & Heq).
  pose proof (Heq Hr) as ->. rewrite <-Hr. apply Hw; [by eapply list_elem_of_lookup_2|done].
Qed.

(** [s'] is [s] with only the member of the instance [id] withdrawn: its readiness and
    reason; every other member and everything else that is published is as it was. *)
Record only_withdraws (id : string) (s s' : Snapshot) : Prop := {
  ow_cluster : snapshot_Cluster s' = snapshot_Cluster s;
  ow_observed : snapshot_ObservedAt s' = snapshot_ObservedAt s;
  ow_until : snapshot_ValidUntil s' = snapshot_ValidUntil s;
  ow_available : snapshot_Available s' = snapshot_Available s;
  ow_reason : snapshot_Reason s' = snapshot_Reason s;
  ow_primary : snapshot_PrimaryID s' = snapshot_PrimaryID s;
  ow_transitioning : snapshot_Transitioning s' = snapshot_Transitioning s;
  ow_connection : snapshot_Connection s' = snapshot_Connection s;
  ow_members : Forall2 (λ m m',
      if bool_decide (member_ID m = id) then m' = set_ready (member_SyncState m) "member_changed" false m else m' = m)
    (snapshot_Members s) (snapshot_Members s');
}.

(** The record [r] is valid at every clock reading of [clk] that looks at it. *)
Definition valid_at (clk : clock) (r : record) : Prop :=
  clk_get clk < snapshot_ValidUntil (record_snapshot r) ∧ clk_put1 clk < snapshot_ValidUntil (record_snapshot r)
  ∧ clk_put2 clk < snapshot_ValidUntil (record_snapshot r).

Lemma committed_withdraws id s now1 now2 o :
  now1 < snapshot_ValidUntil s → now2 < snapshot_ValidUntil s →
  only_withdraws id s (record_snapshot (committed_record (set_members (drop_member id <$> snapshot_Members s) s) now1 now2 o)).
Proof.
  intros Hv1 Hv2. unfold committed_record, put_view. unfold put_expired. rewrite bool_decide_eq_false_2 by (cbn; lia).
  split; try done. cbn. induction (snapshot_Members s) as [|m l IH]; cbn; constructor; [|done]. unfold drop_member.
  by case_bool_decide.
Qed.

(** What becomes of the record [r] of a Cluster when its Pod [p], not the primary,
    changes: it gains no route and loses the member of [p]; while it is valid it
    loses only that, and a record of another Cluster object is left alone. *)
Definition member_change (c : object) (p : Pod) (clk : clock) (r r' : record) : Prop :=
  narrows (record_snapshot r) (record_snapshot r')
  ∧ if bool_decide (cluster_UID (snapshot_Cluster (record_snapshot r)) = GetUID c)
    then member_withdrawn (pod_UID p) (record_snapshot r')
         ∧ (valid_at clk r → only_withdraws (pod_UID p) (record_snapshot r) (record_snapshot r'))
    else valid_at clk r → r' = r.

Lemma read_valid key now o r :
  record_at key o = Some r → now < snapshot_ValidUntil (record_snapshot r) →
  record_at key (on_store (GetDeferred key now) o).2 = Some r.
Proof.
  intros Hr Hv. unfold on_store, GetDeferred, record_at in *. rewrite State_bind_run.
  rewrite (readPublication_live key r) by auto. exact Hr.
Qed.

Lemma withdraw_member_spec key c old clk o :
  records_keyed o →
  let o' := (withdraw_member key c old clk o).2 in
  touches key o o' ∧ obs_observations o' = obs_observations o
  ∧ ∀ r, record_at key o = Some r → ∃ r', record_at key o' = Some r' ∧ member_change c old clk r r'.
Proof.
  intros Hk. unfold withdraw_member. rewrite State_bind_run.
  destruct (get_deferred_run key (clk_get clk) o) as (Hg & Ht & Hob & Hp & Hr & Hn).
  pose proof (λ r, read_valid key (clk_get clk) o r) as Hlive.
  set (m := on_store (GetDeferred key (clk_get clk)) o) in *. cbv zeta. rewrite Hg.
  destruct (record_at key m.2) as [r1|] eqn:Hr1; cbn [fmap option_fmap option_map].
  2: { split_and!; [done..|]. intros r Hro. destruct (Hr r Hro) as (r' & ? & _). congruence. }
  pose proof (touches_keyed _ _ _ Ht Hk _ _ Hr1) as Hkey.
  assert (∀ r, record_at key o = Some r → narrows (record_snapshot r) (record_snapshot r1) ∧ (valid_at clk r → r1 = r)) as Hread.
  { intros r Hro. destruct (Hr r Hro) as (r' & [= <-] & Hnar). split; [done|]. intros (Hv & _). specialize (Hlive r Hro Hv). congruence. }
  case_bool_decide as Huid.
  - rewrite State_bind_run. cbn [mret State_ret fst snd]. set (s := set_members _ _).
    assert (ref_key (snapshot_Cluster s) = key) as Hs by exact Hkey.
    split_and!.
    + etrans; [exact Ht|]. rewrite <-Hs. apply commit_touches.
    + by rewrite commit_observations.
    + intros r Hro. destruct (Hread r Hro) as [Hnar Heq]. exists (committed_record s (clk_put1 clk) (clk_put2 clk) m.2).
      split; [rewrite <-Hs; apply commit_record|]. split.
      * etrans; [exact Hnar|]. etrans; [apply drop_member_narrows|apply committed_record_narrows].
      * rewrite <-(narrows_cluster _ _ Hnar), bool_decide_eq_true_2 by done. split.
        -- eapply member_withdrawn_narrows; [apply committed_record_narrows|apply drop_member_withdrawn].
        -- intros Hv. pose proof (Heq Hv) as ->. destruct Hv as (_ & ? & ?). by apply committed_withdraws.
  - split_and!; [done..|]. intros r Hro. destruct (Hread r Hro) as [Hnar Heq]. exists r1. split; [done|]. split; [done|].
    by rewrite <-(narrows_cluster _ _ Hnar), bool_decide_eq_false_2.
Qed.

(** What a changed Pod [p] of Cluster [c] leaves: a closed Cluster when [p] was its
    primary, otherwise the old record without [p], if there was one. *)
Definition pod_withdrawn (key : clusterKey) (c : object) (p : Pod) (clk : clock) (o o' : Observer) : Prop :=
  if bool_decide (pod_Name p = (primaryNames c).1)
  then closed_for c o' ∧ obs_observations o' !! key ≠ Some false
  else obs_observations o' !! key = obs_observations o !! key
    ∧ ∀ r, record_at key o = Some r → ∃ r', record_at key o' = Some r' ∧ member_change c p clk r r'.

Lemma pod_withdrawn_agrees key c p clk o1 o1' o o' :
  cluster_key c = key → agrees key o o1 → agrees key o1' o' → pod_withdrawn key c p clk o1 o1' → pod_withdrawn key c p clk o o'.
Proof.
  unfold pod_withdrawn, closed_for. intros <- [Hr1 Ho1 _] [Hr2 Ho2 _]. case_bool_decide; rewrite Hr2, Ho2, <-?Ho1, <-?Hr1; done.
Qed.

Lemma pod_changed_spec old new clk key o :
  clusters_keyed o → records_keyed o →
  let o' := (pod_changed opts old new clk key o).2 in
  touches key o o'
  ∧ ∀ c p, obs_clusters o !! key = Some c → route_changed old new = Some p → pod_withdrawn key c p clk o o'.
Proof.
  intros Hck Hrk. unfold pod_changed. rewrite State_bind_run. cbn [get_state fst snd]. rewrite State_bind_run.
  rewrite State_bind_run. cbn [mret State_ret fst snd]. match goal with |- context [Notify _ _ _ ?x.2] => set (m := x) end.
  assert (touches key o m.2 ∧ ∀ c p, obs_clusters o !! key = Some c → route_changed old new = Some p →
    pod_withdrawn key c p clk o m.2) as [Ht Hw].
  { subst m. destruct (obs_clusters o !! key) as [c|] eqn:Hc; [|done].
    destruct (route_changed old new) as [p|]; [|done]. pose proof (Hck _ _ Hc) as Hkey.
    unfold pod_withdrawn. case_bool_decide as Hname.
    - rewrite !State_bind_run. cbn [mret State_ret fst snd].
      destruct (commit_unavailable_spec c "primary_changed" clk (cancelObservationLocked key o).2)
        as ((r & Hr & Hf & Hcl & _) & Ht & Hob & _).
      split; [etrans; [apply cancel_touches|]; by rewrite <-Hkey at 1|].
      intros ?? [= <-] [= <-]. rewrite bool_decide_eq_true_2 by done. split; [by exists r|].
      rewrite Hob. apply cancel_observation.
    - destruct (withdraw_member_spec key c p clk o Hrk) as (Ht & Hob & Hwd).
      split; [done|]. intros ?? [= <-] [= <-]. rewrite bool_decide_eq_false_2 by done. by rewrite Hob. }
  pose proof (enqueue_steady opts key true (clk_demand clk) m.2) as Hs. fold (Notify opts key (clk_demand clk)) in Hs.
  cbv zeta. split; [etrans; [exact Ht|by apply steady_touches]|].
  intros c p Hc Hp. eapply (pod_withdrawn_agrees key c p clk o m.2); [by apply Hck|done|by apply steady_agrees|by apply Hw].
Qed.

(** ** Secrets *)

Lemma clustersUsingCA_spec key o c :
  clusters_keyed o →
  (c ∈ clustersUsingCA key o ↔ obs_clusters o !! cluster_key c = Some c ∧ indexServerCA c = Some key).
Proof.
  intros Hk. unfold clustersUsingCA. rewrite list_elem_of_omap. setoid_rewrite range_keys_perm.
  setoid_rewrite elem_of_elements. setoid_rewrite elem_of_dom. unfold is_Some. setoid_rewrite map_lookup_filter_Some.
  split.
  - intros (k & (c' & Hc' & Hi) & Hc). rewrite Hc in Hc'. injection Hc' as <-. unfold cluster_key. by rewrite (Hk _ _ Hc).
  - intros [Hc Hi]. exists (cluster_key c). split; [by exists c|done].
Qed.

Lemma clustersUsingCA_keys key o : clusters_keyed o → NoDup (cluster_key <$> clustersUsingCA key o).
Proof.
  intros Hk. unfold clustersUsingCA. set (ks := range_keys _).
  assert (NoDup ks) as Hnd by (subst ks; rewrite range_keys_perm; apply NoDup_elements). clearbody ks.
  assert (cluster_key <$> omap (λ k, obs_clusters o !! k) ks `sublist_of` ks) as Hsub.
  { clear Hnd. induction ks as [|k ks IH]; cbn; [done|]. destruct (obs_clusters o !! k) as [c|] eqn:Hc; cbn.
    - rewrite (Hk _ _ Hc : cluster_key c = k). by constructor.
    - by constructor. }
  by eapply NoDup_sublist.
Qed.

(** Whatever is published for the Cluster routes nobody and carries no CA. *)
Definition ca_withdrawn (k : clusterKey) (o : Observer) : Prop :=
  obs_observations o !! k ≠ Some false
  ∧ ∀ r, record_at k o = Some r → snapshot_Available (record_snapshot r) = false
      ∧ connection_ServerCAPEM (snapshot_Connection (record_snapshot r)) = "".

Lemma ca_withdrawn_agrees k o o' : agrees k o o' → ca_withdrawn k o → ca_withdrawn k o'.
Proof. unfold ca_withdrawn. intros [-> -> _]. done. Qed.

Lemma ca_changed_spec clk c o :
  let o' := (ca_changed opts clk c o).2 in touches (cluster_key c) o o' ∧ ca_withdrawn (cluster_key c) o'.
Proof.
  unfold ca_changed. rewrite !State_bind_run. cbn [mret State_ret fst snd].
  set (k := cluster_key c). set (o1 := (cancelObservationLocked k o).2).
  destruct (get_deferred_run k (clk_get clk) o1) as (Hg & Ht1 & Hob1 & _ & _ & _).
  set (m := on_store (GetDeferred k (clk_get clk)) o1) in *. rewrite Hg.
  match goal with |- context [Notify _ _ _ ?x.2] => set (m2 := x) end.
  assert (touches k o m.2) as Ht by (etrans; [apply cancel_touches|exact Ht1]).
  assert (obs_observations m.2 !! k ≠ Some false) as Hob by (rewrite Hob1; apply cancel_observation).
  assert (touches k o m2.2 ∧ ca_withdrawn k m2.2) as [Ht2 Hw].
  { subst m2. destruct (record_at k m.2) as [r|] eqn:Hr; cbn [fmap option_fmap option_map].
    2: { cbn [mret State_ret fst snd]. split; [done|]. split; [done|]. intros r' Hr'. congruence. }
    destruct (snapshot_Available (record_snapshot r) || _) eqn:Hv.
    - rewrite State_bind_run. cbn [mret State_ret fst snd].
      destruct (commit_unavailable_spec c "connection_defaults_changed" clk m.2) as ((r' & Hr' & [Hf _] & _ & Hca) & Ht' & Hob' & _).
      fold k in Hr', Ht'. split; [by etrans|]. split; [by rewrite Hob'|]. rewrite Hr'. by intros ? [= <-].
    - boolify. cbn [mret State_ret fst snd]. split; [done|]. split; [done|]. rewrite Hr. by intros ? [= <-]. }
  pose proof (enqueue_steady opts k true (clk_demand clk) m2.2) as Hs. fold (Notify opts k (clk_demand clk)) in Hs.
  cbv zeta. split; [etrans; [exact Ht2|by apply steady_touches]|].
  eapply ca_withdrawn_agrees; [by apply steady_agrees|exact Hw].
Qed.
End facts.
