(* ===== verification/EventsProps.v ===== *)
(** * Correctness of the metadata event handlers

    A change of routing metadata withdraws what it invalidates before the section
    ends, cancels the observation in progress, and leaves every other Cluster
    alone; nothing is withdrawn for a change that does not matter. *)

From S2P Require Import Prelude Api Mailbox Store StoreFacts StoreProps Queue QueueFacts.
From S2P Require Import Config Kube Topology TopologyProps Evidence Settings Observer ObserverFacts Collection CollectionProps Events EventsFacts.

Section claims.
Context `{TextLibrary, MapRange, Unstructured, RoutingDigest, KeyRange}.
Context (opts : Options).

(** C15: a Cluster event touches only its Cluster.  A disabled or deleted Cluster
    loses its record, evidence and cooldown; a new identity or a changed route
    leaves a closed record of the new object; in both cases no observation of it
    runs on uncancelled.  Any other event publishes and cancels nothing. *)
Theorem cluster_event_exact oldObj newObj clk1 clk2 o c :
  cached newObj = Some c →
  let key := cluster_key c in
  let o' := (clusterEvent opts oldObj newObj clk1 clk2 o).2 in
  touches key o o' ∧
  if cluster_gone c then
    record_at key o' = None ∧ obs_primaries o' !! key = None ∧ obs_demandNext o' !! key = None
    ∧ obs_observations o' !! key ≠ Some false
  else if cluster_invalidated (cached oldObj) c o then
    closed_for c o' ∧ obs_observations o' !! key ≠ Some false
    ∧ (new_identity c o = true → obs_primaries o' !! key = None)
  else steady o o'.
Proof.
  intros Hc. cbv zeta. destruct (cluster_gone c) eqn:Hg; [by apply cluster_event_gone|].
  destruct (cluster_invalidated (cached oldObj) c o) eqn:Hi; [by apply cluster_event_closes|].
  pose proof (cluster_event_quiet opts oldObj newObj clk1 clk2 o c Hc Hg Hi) as Hs.
  split; [by apply steady_touches|done].
Qed.

(** A delayed tombstone does not delete a same-name replacement; any other
    deletion removes the Cluster and cancels its observation. *)
Lemma cluster_deleted_exact obj o c :
  cached obj = Some c →
  let key := cluster_key c in
  let o' := (clusterDeleted obj o).2 in
  if match obs_clusters o !! key with Some current => negb (bool_decide (GetUID current = GetUID c)) | None => false end
  then o' = o
  else record_at key o' = None ∧ obs_primaries o' !! key = None ∧ obs_demandNext o' !! key = None
    ∧ obs_observations o' !! key ≠ Some false.
Proof.
  unfold clusterDeleted. intros ->. rewrite State_bind_run. cbn [get_state fst snd]. case_goal; [done|].
  rewrite !State_bind_run. cbn [modify mret State_ret fst snd].
  destruct (delete_cluster_run (cluster_key c) (cancelObservationLocked (cluster_key c) o).2) as (Hr & Hob & _).
  cbv zeta. split_and!; [exact Hr|cbn; by rewrite lookup_delete_eq|cbn; by rewrite lookup_delete_eq|].
  pose proof (cancel_observation (cluster_key c) o) as Hx. rewrite <-Hob in Hx. exact Hx.
Qed.

(** The effect of a Pod event on the Cluster that owned the Pod and on the others. *)
Lemma pod_event_effect oldObj newObj clk o old key c :
  clusters_keyed o → records_keyed o →
  route_changed (cached oldObj) (cached newObj) = Some old →
  podCluster oldObj = Some key → obs_clusters o !! key = Some c →
  let o' := (podEvent opts oldObj newObj clk o).2 in
  pod_withdrawn key c old (clk key) o o' ∧ ∀ k, k ∉ affected_clusters oldObj newObj → agrees k o o'.
Proof.
  intros Hck Hrk Hch Hpk Hc. unfold podEvent.
  assert (same_pod (cached oldObj) (cached newObj) = false) as ->.
  { revert Hch. unfold route_changed, same_pod. destruct (cached oldObj), (cached newObj); try done.
    by destruct (samePodRoute _ _). }
  set (body := λ k, pod_changed opts (cached oldObj) (cached newObj) (clk k) k).
  set (ks := range_keys (affected_clusters oldObj newObj)). cbv zeta.
  assert (local_body id body ks o) as Hb.
  { intros k o1 _ Hcs Hk1. subst body. cbv beta.
    destruct (pod_changed_spec opts (cached oldObj) (cached newObj) (clk k) k o1) as [Ht _]; [|done|exact Ht].
    unfold clusters_keyed. by rewrite (same_clusters _ _ Hcs). }
  assert (∀ k, k ∈ ks ↔ k ∈ affected_clusters oldObj newObj) as Hks
    by (intros k; subst ks; by rewrite range_keys_perm, elem_of_elements).
  split.
  - destruct (for_pending_at id body ks o key Hb Hrk) as (o1 & Hcs & Hk1 & Ha1 & Ha2).
    + rewrite list_fmap_id. subst ks. rewrite range_keys_perm. apply NoDup_elements.
    + apply Hks. unfold affected_clusters. rewrite Hpk. set_solver.
    + destruct (pod_changed_spec opts (cached oldObj) (cached newObj) (clk key) key o1) as [_ Hw];
        [unfold clusters_keyed; by rewrite (same_clusters _ _ Hcs)|done|].
      eapply pod_withdrawn_agrees; [by apply Hck|exact Ha1|exact Ha2|]. apply Hw; [|done].
      by rewrite (same_clusters _ _ Hcs).
  - intros k Hk. apply (for_pending_others id body ks o k Hb Hrk). by rewrite list_fmap_id, Hks.
Qed.

(** C16: when the route of a Pod changed or the Pod is gone, its Cluster is closed and
    no observation of it runs on if the Pod was the primary.  Otherwise the
    observation goes on and the retained record gains no route and keeps its
    expiry; the record of the same Cluster object loses that member, and while it
    is valid only that member: every other member and everything else published
    stays, and a record of another Cluster object stays as it is.  Clusters that
    own neither state of the Pod are untouched. *)
Theorem pod_event_withdraws oldObj newObj clk o old key c :
  clusters_keyed o → records_keyed o →
  route_changed (cached oldObj) (cached newObj) = Some old →
  podCluster oldObj = Some key → obs_clusters o !! key = Some c →
  let o' := (podEvent opts oldObj newObj clk o).2 in
  pod_withdrawn key c old (clk key) o o' ∧ ∀ k, k ∉ affected_clusters oldObj newObj → agrees k o o'.
Proof. apply pod_event_effect. Qed.

(** C40: a Pod event does not ask whether its Cluster is enrolled.  When the primary Pod
    of a disabled Cluster, or of one that is being deleted, changes its route or goes
    away, the Cluster is published again although its record had been removed, and
    reads find it. *)
Theorem pod_event_restores_disabled oldObj newObj clk o old key c now :
  clusters_keyed o → records_keyed o →
  obs_clusters o !! key = Some c → cluster_gone c = true → record_at key o = None →
  route_changed (cached oldObj) (cached newObj) = Some old → podCluster oldObj = Some key →
  pod_Name old = (primaryNames c).1 →
  let o' := (podEvent opts oldObj newObj clk o).2 in
  ClusterIdentity key (obs_store o') = Some (clusterRef c)
  ∧ is_Some (on_store (GetDeferred key now) o').1.1.
Proof.
  intros Hck Hrk Hc _ _ Hch Hpk Hname. cbv zeta.
  destruct (pod_event_effect oldObj newObj clk o old key c Hck Hrk Hch Hpk Hc) as [Hw _].
  unfold pod_withdrawn in Hw. rewrite bool_decide_eq_true_2 in Hw by done. destruct Hw as [(r & Hr & _ & Hcl) _].
  change (cluster_key c) with (ClusterKey (GetNamespace c) (GetName c)) in Hr. rewrite (Hck _ _ Hc) in Hr.
  split; [unfold ClusterIdentity; unfold record_at in Hr; rewrite Hr; cbn; by rewrite Hcl|].
  destruct (get_deferred_run key now (podEvent opts oldObj newObj clk o).2) as (-> & _ & _ & _ & Hsome & _).
  destruct (Hsome r Hr) as (r' & -> & _). by eexists.
Qed.

(** C17: when a Secret event finds the cached CA no longer current, the CA leaves the
    cache, its read in progress is cancelled and a pending fetch is queued again;
    afterwards no Cluster that uses it is routable, publishes its CA or has an
    uncancelled observation, and every other Cluster is untouched.  A current CA
    makes the event a no-op. *)
Theorem secret_event_withdraws obj clk o meta :
  clusters_keyed o → records_keyed o → cached obj = Some meta →
  let key := ClusterKey (secret_Namespace meta) (secret_Name meta) in
  let o' := (secretEvent opts obj clk o).2 in
  if currentCA (obs_cas o !! key) o then o' = o
  else obs_cas o' = delete key (obs_cas o) ∧ obs_caReads o' !! key ≠ Some false
    ∧ (key ∈ obs_caPending o → CallAdd key ∈ obs_caCalls o')
    ∧ ∀ k c, obs_clusters o !! k = Some c →
        if bool_decide (indexServerCA c = Some key) then ca_withdrawn k o' else agrees k o o'.
Proof.
  intros Hck Hrk Hm. unfold secretEvent. rewrite Hm. rewrite State_bind_run. cbn [get_state fst snd].
  set (key := ClusterKey _ _). destruct (currentCA (obs_cas o !! key) o) eqn:Hcur; [done|].
  rewrite !State_bind_run. cbn [modify get_state fst snd].
  match goal with |- context [for_pending _ _ ?x] => set (o1 := x) end.
  assert (obs_cas o1 = delete key (obs_cas o) ∧ obs_caReads o1 !! key ≠ Some false
    ∧ (key ∈ obs_caPending o → CallAdd key ∈ obs_caCalls o1) ∧ obs_clusters o1 = obs_clusters o
    ∧ records (obs_store o1) = records (obs_store o) ∧ obs_observations o1 = obs_observations o
    ∧ obs_primaries o1 = obs_primaries o) as (Hcas & Hrd & Hpend & Hcl & Hrs & Hob & Hpr).
  { subst o1. cbn [set_obs_cas obs_caReads]. destruct (obs_caReads o !! key) eqn:Hread; cbn; case_bool_decide; cbn;
      (split_and!; [done|by rewrite ?lookup_insert_eq, ?Hread|set_solver|done..]). }
  set (body := λ c, ca_changed opts (clk (cluster_key c)) c).
  assert (local_body cluster_key body (clustersUsingCA key o1) o1) as Hb 
    by (intros c o2 _ _ _; exact (proj1 (ca_changed_spec opts (clk (cluster_key c)) c o2))).
  assert (clusters_keyed o1) as Hck1 by (unfold clusters_keyed; by rewrite Hcl).
  assert (records_keyed o1) as Hrk1 by (unfold records_keyed; by rewrite Hrs).
  assert (∀ k, agrees k o o1) as Ha1 by (intros k; split; unfold record_at; congruence).
  cbv zeta. set (o' := (for_pending body _ o1).2).
  pose proof (for_pending_caches cluster_key body _ o1 Hb Hrk1) as Hsame. fold o' in Hsame.
  split_and!.
  - by rewrite (same_cas _ _ Hsame).
  - by rewrite (same_caReads _ _ Hsame).
  - by rewrite (same_caCalls _ _ Hsame).
  - intros k c Hc. pose proof (Hck _ _ Hc : cluster_key c = k) as <-. rewrite <-Hcl in Hc. case_bool_decide as Hi.
    + destruct (for_pending_at cluster_key body (clustersUsingCA key o1) o1 c Hb Hrk1) as (o2 & _ & _ & _ & Ha);
        [by apply clustersUsingCA_keys|by apply clustersUsingCA_spec|].
      eapply ca_withdrawn_agrees; [exact Ha|exact (proj2 (ca_changed_spec opts (clk (cluster_key c)) c o2))].
    + etrans; [apply Ha1|]. apply (for_pending_others cluster_key body _ _ _ Hb Hrk1).
      intros (c' & Heq & [Hc' Hi']%clustersUsingCA_spec)%list_elem_of_fmap; [|done]. rewrite <-Heq in Hc'. congruence.
Qed.
(** ** Scheduling *)

(** A named, observed Cluster of the watched namespace for which there is demand. *)
Definition wanted (key : clusterKey) (now : time) (o : Observer) : bool :=
  negb (bool_decide (key_namespace key = "")) && negb (bool_decide (key_name key = ""))
  && (bool_decide (Namespace opts = "") || bool_decide (key_namespace key = Namespace opts))
  && (hasDemand key now (obs_store o)).1 && bool_decide (is_Some (obs_clusters o !! key)).

(** The cooldown of the Cluster is running. *)
Definition cooling (key : clusterKey) (now : time) (o : Observer) : option time :=
  deadline ← obs_demandNext o !! key; if Before now deadline then Some deadline else None.

Lemma enqueue_unwanted key urgent now o :
  wanted key now o = false →
  obs_queue (enqueue opts key urgent now o).2 = obs_queue o ∧ obs_calls (enqueue opts key urgent now o).2 = obs_calls o
  ∧ obs_demandNext (enqueue opts key urgent now o).2 = obs_demandNext o.
Proof.
  unfold wanted, enqueue. intros Hw.
  destruct (bool_decide (key_namespace key = "") || _ || _) eqn:Hscope; [done|]. rewrite !State_bind_run.
  unfold on_store, HasDemand, get_state. destruct (hasDemand key now (obs_store o)) as [d s]. cbn in *.
  apply orb_false_iff in Hscope as [[Hn Hm]%orb_false_iff Hns]. rewrite Hn, Hm in Hw. cbn in Hw.
  destruct (obs_clusters o !! key) eqn:Hc; cbn; [|by rewrite orb_true_r].
  destruct d; [|done]. exfalso. revert Hns Hw. repeat case_bool_decide; naive_solver.
Qed.

Lemma enqueue_wanted key (urgent : bool) now o :
  wanted key now o = true →
  let o1 := (on_store (HasDemand key now) o).2 in
  enqueue opts key urgent now o =
  ((), if urgent then set_obs_queue (Add key (promote key (obs_queue o)).1).1 o1
       else match cooling key now o with
            | Some deadline => set_obs_calls (obs_calls o ++ [CallAddAfter key (deadline - now)]) o1
            | None => set_obs_queue (Add key (obs_queue o)).1
                        (set_obs_demandNext (<[key := now + PollInterval opts]> (obs_demandNext o)) o1)
            end).
Proof.
  unfold wanted, enqueue, cooling. intros Hw.
  apply andb_true_iff in Hw as [[[[Hn Hm]%andb_true_iff Hns]%andb_true_iff Hd]%andb_true_iff Hk%bool_decide_eq_true].
  apply negb_true_iff in Hn, Hm. rewrite Hn, Hm. cbn [orb].
  replace (negb (bool_decide (Namespace opts = "")) && _) with false
    by (revert Hns; by repeat case_bool_decide).
  rewrite !State_bind_run. unfold on_store, HasDemand, get_state.
  destruct (hasDemand key now (obs_store o)) as [d s]. cbn in *. subst d.
  destruct (obs_clusters o !! key) as [c|] eqn:Hc; [|by destruct Hk]. cbn.
  destruct urgent; [done|]. destruct (obs_demandNext o !! key) as [t|]; [|done]. cbn. by destruct (Before now t).
Qed.

Lemma Add_dirty key p : shuttingDown p = false → key ∈ dirty (Add key p).1.
Proof.
  intros Hs. unfold Add. rewrite Hs. case_bool_decide as Hd; [done|].
  destruct (processing _ !! key); cbn; [set_solver|]. unfold push. case_match; cbn; set_solver.
Qed.

Lemma Add_promoted key p k : is_promoted (Add key p).1 k = is_promoted p k.
Proof.
  unfold Add. repeat case_match; try done. cbn. unfold push. by case_match.
Qed.

Lemma promote_promoted key p : shuttingDown p = false → is_promoted (promote key p).1 key = true.
Proof.
  intros Hs. unfold promote. rewrite Hs. destruct (is_promoted p key) eqn:Hp; cbn; [done|].
  unfold is_promoted. destruct (entries p !! key); cbn; by rewrite lookup_insert_eq.
Qed.

Lemma promote_shuttingDown key p : shuttingDown (promote key p).1 = shuttingDown p.
Proof. unfold promote. by repeat case_match. Qed.

(** Enqueueing changes no route and keeps the queue consistent.  An unknown, idle
    or foreign name costs nothing; urgent work is queued in the urgent class; a
    refresh within the cooldown is deferred to its end, and otherwise queued at
    once, starting a cooldown of one poll interval. *)
Theorem enqueue_paced key (urgent : bool) now o :
  let o' := (enqueue opts key urgent now o).2 in
  steady o o' ∧ (queue_wf (obs_queue o) → queue_wf (obs_queue o')) ∧
  if wanted key now o then
    if urgent then
      obs_calls o' = obs_calls o ∧ obs_demandNext o' = obs_demandNext o
      ∧ (shuttingDown (obs_queue o) = false → key ∈ dirty (obs_queue o') ∧ is_promoted (obs_queue o') key = true)
    else
      match cooling key now o with
      | Some deadline => obs_queue o' = obs_queue o ∧ obs_demandNext o' = obs_demandNext o
          ∧ obs_calls o' = obs_calls o ++ [CallAddAfter key (deadline - now)]
      | None => obs_demandNext o' = <[key := now + PollInterval opts]> (obs_demandNext o) ∧ obs_calls o' = obs_calls o
          ∧ (shuttingDown (obs_queue o) = false → key ∈ dirty (obs_queue o'))
      end
  else obs_queue o' = obs_queue o ∧ obs_calls o' = obs_calls o ∧ obs_demandNext o' = obs_demandNext o.
Proof.
  cbv zeta. split; [apply enqueue_steady|]. destruct (wanted key now o) eqn:Hw.
  - rewrite enqueue_wanted by done. unfold on_store. destruct (HasDemand key now (obs_store o)) as [d s]. cbn [snd].
    destruct urgent; cbn [snd].
    + cbn. split; [intros Hq; by apply Add_wf, promote_wf|]. split_and!; [done..|].
      intros Hs. rewrite Add_promoted, promote_promoted by done. split; [|done].
      apply Add_dirty. by rewrite promote_shuttingDown.
    + destruct (cooling key now o); cbn; [done|]. split; [intros Hq; by apply Add_wf|].
      split_and!; [done..|]. apply Add_dirty.
  - destruct (enqueue_unwanted key urgent now o Hw) as (-> & -> & ->). done.
Qed.
End claims.

(** ** Concrete events *)

Section example.
#[local] Existing Instances identity_digest plain_access plain_text plain_range.

Definition plain_keys : KeyRange := {| range_keys s := elements s; range_keys_perm s := reflexivity _ |}.
#[local] Existing Instance plain_keys.

(** A Cluster that uses the CA Secret [app/ca], known with version 7. *)
Definition ca_cluster (current : string) : object :=
  <["status" := Map (<["currentPrimary" := Str current]> (<["targetPrimary" := Str "db-1"]>
     {["certificates" := Map {["serverCASecret" := Str "ca"]}]}))]> (example_cluster current).

Definition quiet_observer (version : string) : Observer := {|
  obs_store := NewStore "process"; obs_primaries := ∅;
  obs_clusters := {[ClusterKey "app" "db" := ca_cluster "db-1"]};
  obs_pods := {[ClusterKey "app" "db" := [owned_pod "db-2"; owned_pod "db-1"]]};
  obs_secrets := {[ClusterKey "app" "ca" := {| secret_Namespace := "app"; secret_Name := "ca";
    secret_UID := "s-1"; secret_ResourceVersion := version |}]};
  obs_ready := true; obs_observations := {[ClusterKey "app" "db" := false]}; obs_demandNext := ∅;
  obs_queue := newPriorityQueue; obs_calls := []; obs_cas := {[ClusterKey "app" "ca" := example_ca]};
  obs_caReads := ∅; obs_caPending := ∅; obs_caCalls := [];
|}.

(** The Cluster has been published as routable. *)
Definition routed_snapshot : Snapshot := {|
  snapshot_APIVersion := APIVersion; snapshot_Cluster := clusterRef (ca_cluster "db-1"); snapshot_Revision := "";
  snapshot_ObservedAt := second; snapshot_ValidUntil := minute; snapshot_Available := true; snapshot_Reason := "";
  snapshot_PrimaryID := "uid-db-1"; snapshot_Transitioning := false;
  snapshot_Members := set_ready "" "" true <$>
    [pod_member no_parameters "" (owned_pod "db-1") "primary" "" 1 "";
     pod_member no_parameters "" (owned_pod "db-2") "replica" "" 1 ""];
  snapshot_Connection := info_connection example_connection;
|}.

Definition routed_observer (version : string) : Observer :=
  (commitPublication routed_snapshot second second (quiet_observer version)).2.

Lemma quiet_records version : records_keyed (quiet_observer version).
Proof. intros k r Hr. cbn in Hr. by rewrite lookup_empty in Hr. Qed.

Lemma routed_records version : records_keyed (routed_observer version).
Proof. apply (touches_keyed _ _ _ (commit_touches routed_snapshot second second _)), quiet_records. Qed.

Lemma routed_clusters version : clusters_keyed (routed_observer version).
Proof. intros k c. unfold routed_observer. rewrite commit_run. cbn. by intros [<- <-]%lookup_singleton_Some. Qed.

Definition example_clock : clock := Clock second second second second second.

Lemma cluster_event_exact_witness :
  closed_for (ca_cluster "db-2")
    (clusterEvent example_options (Live (ca_cluster "db-1")) (Live (ca_cluster "db-2")) example_clock example_clock
      (routed_observer "7")).2.
Proof.
  destruct (cluster_event_exact example_options (Live (ca_cluster "db-1")) (Live (ca_cluster "db-2")) example_clock
    example_clock (routed_observer "7") (ca_cluster "db-2") eq_refl) as [_ Hc].
  assert (cluster_gone (ca_cluster "db-2") = false) as Hg by (vm_compute; reflexivity).
  assert (cluster_invalidated (cached (Live (ca_cluster "db-1"))) (ca_cluster "db-2") (routed_observer "7") = true) as Hi
    by (vm_compute; reflexivity).
  rewrite Hg, Hi in Hc. exact (proj1 Hc).
Defined.

(** The standby [db-2] goes away. *)
Lemma pod_event_withdraws_witness :
  ∃ r', record_at (ClusterKey "app" "db")
      (podEvent example_options (Live (owned_pod "db-2")) Foreign (λ _, example_clock) (routed_observer "7")).2 = Some r'
    ∧ only_withdraws "uid-db-2" routed_snapshot (record_snapshot r').
Proof.
  destruct (pod_event_withdraws example_options (Live (owned_pod "db-2")) Foreign (λ _, example_clock)
    (routed_observer "7") (owned_pod "db-2") (ClusterKey "app" "db") (ca_cluster "db-1")) as [Hw _].
  - apply routed_clusters.
  - apply routed_records.
  - reflexivity.
  - vm_compute. reflexivity.
  - unfold routed_observer. rewrite commit_run. apply lookup_singleton_eq.
  - unfold pod_withdrawn in Hw. rewrite bool_decide_eq_false_2 in Hw by (vm_compute; discriminate). destruct Hw as [_ Hw].
    destruct (Hw _ (commit_record routed_snapshot second second (quiet_observer "7"))) as (r' & Hr' & _ & Hm).
    exists r'. split; [exact Hr'|]. rewrite bool_decide_eq_true_2 in Hm by (vm_compute; reflexivity). destruct Hm as [_ Hm].
    destruct Hm; [split; [|split]; vm_compute; reflexivity|]. split; assumption.
Defined.

(** The same Cluster with observation disabled by its annotation, and no record. *)
Definition disabled_cluster : object :=
  <["metadata" := Map (<["annotations" := Map {[EnabledAnnotation := Str "false"]}]>
     (match ca_cluster "db-1" !! "metadata" with Some (Map m) => m | _ => ∅ end))]> (ca_cluster "db-1").

Definition disabled_observer : Observer := {|
  obs_store := NewStore "process"; obs_primaries := ∅;
  obs_clusters := {[ClusterKey "app" "db" := disabled_cluster]};
  obs_pods := ∅; obs_secrets := ∅; obs_ready := true; obs_observations := ∅; obs_demandNext := ∅;
  obs_queue := newPriorityQueue; obs_calls := []; obs_cas := ∅; obs_caReads := ∅; obs_caPending := ∅; obs_caCalls := [];
|}.

Lemma pod_event_restores_disabled_witness :
  cluster_gone disabled_cluster = true ∧
  ClusterIdentity (ClusterKey "app" "db")
    (obs_store (podEvent example_options (Live (owned_pod "db-1")) Foreign (λ _, example_clock) disabled_observer).2)
  = Some (clusterRef disabled_cluster).
Proof.
  assert (cluster_gone disabled_cluster = true) as Hg by (vm_compute; reflexivity). split; [exact Hg|].
  refine (proj1 (pod_event_restores_disabled example_options (Live (owned_pod "db-1")) Foreign (λ _, example_clock)
    disabled_observer (owned_pod "db-1") (ClusterKey "app" "db") disabled_cluster second _ _ _ Hg _ _ _ _)).
  - intros k c. cbn. intros [<- <-]%lookup_singleton_Some. vm_compute. reflexivity.
  - intros k r Hr. cbn in Hr. by rewrite lookup_empty in Hr.
  - apply lookup_singleton_eq.
  - reflexivity.
  - reflexivity.
  - vm_compute. reflexivity.
  - vm_compute. reflexivity.
Defined.

Lemma secret_event_withdraws_witness :
  ca_withdrawn (ClusterKey "app" "db")
    (secretEvent example_options (Live {| secret_Namespace := "app"; secret_Name := "ca"; secret_UID := "s-1";
       secret_ResourceVersion := "8" |}) (λ _, example_clock) (routed_observer "8")).2.
Proof.
  pose proof (secret_event_withdraws example_options (Live {| secret_Namespace := "app"; secret_Name := "ca";
    secret_UID := "s-1"; secret_ResourceVersion := "8" |}) (λ _, example_clock) (routed_observer "8") _
    (routed_clusters "8") (routed_records "8") eq_refl) as Hw.
  cbn [secret_Namespace secret_Name] in Hw.
  assert (currentCA (obs_cas (routed_observer "8") !! ClusterKey "app" "ca") (routed_observer "8") = false) as Hc
    by (vm_compute; reflexivity).
  rewrite Hc in Hw. destruct Hw as (_ & _ & _ & Hw). specialize (Hw (ClusterKey "app" "db") (ca_cluster "db-1")).
  rewrite bool_decide_eq_true_2 in Hw by (vm_compute; reflexivity). apply Hw.
  unfold routed_observer. rewrite commit_run. apply lookup_singleton_eq.
Defined.
(** A refresh one second into a cooldown of ten is deferred by nine. *)
Definition cooling_observer : Observer :=
  set_obs_demandNext {[ClusterKey "app" "db" := 10 * second]}
    (set_obs_store (set_unaryDemand (<[ClusterKey "app" "db" := minute]>) (obs_store (routed_observer "7")))
      (routed_observer "7")).

Lemma enqueue_paced_witness :
  obs_calls (enqueue example_options (ClusterKey "app" "db") false second cooling_observer).2
  = [CallAddAfter (ClusterKey "app" "db") (9 * second)].
Proof.
  destruct (enqueue_paced example_options (ClusterKey "app" "db") false second cooling_observer) as (_ & _ & Hq).
  assert (wanted example_options (ClusterKey "app" "db") second cooling_observer = true) as Hw by (vm_compute; reflexivity).
  assert (cooling (ClusterKey "app" "db") second cooling_observer = Some (10 * second)) as Hc by (vm_compute; reflexivity).
  rewrite Hw, Hc in Hq. destruct Hq as (_ & _ & Hq). rewrite Hq. reflexivity.
Defined.
End example.
