(* ===== verification/Connection.v ===== *)
(** * The CA cache (src/internal/observer/connection.go)

    The public server CA of a Cluster is read from its Secret on demand, by workers
    of their own, and shared by Secret identity and version.  [cachedConnection],
    and the two sections of [fetchCA] around the read of the Secret, are functions
    of [State Observer]; [env] is what other goroutines do while the lock is free.
    Parsing PEM and X.509 is an interface ([PEM]). *)

From S2P Require Import Prelude Api Mailbox Store Queue Config Kube Topology Evidence Settings Observer Events.

(** ** Reading the public certificates of a Secret *)

(** [encoding/pem] and [crypto/x509]: [Decode] returns the next block and the rest
    of the input, which is shorter. *)
Class PEM := {
  pem_Decode : string → option ((string * string) * string); (* ((Type, Bytes), rest) *)
  pem_Decode_shorter s b rest : pem_Decode s = Some (b, rest) → (String.length rest < String.length s)%nat;
  ParseCertificate : string → bool; (* no error *)
  EncodeToMemory : string → string → string; (* Type, Bytes *)
}.

Inductive ca_error := ErrReadSecret | ErrInvalidCertificate | ErrNoCertificates.

Record Secret := {
  Secret_UID : string;
  Secret_ResourceVersion : string;
  Secret_Data : gmap string string;
}.

Section public_ca.
Context `{PEM}.

(** The loop of [readPublicCA]; every iteration shortens [remaining], so its length
    is enough fuel ([ConnectionProps.public_ca_exact] shows that it is never used
    up). *)
Fixpoint certificates (fuel : nat) (remaining public : string) : option (string + ca_error) :=
  match fuel with
  | O => None
  | S fuel =>
      if bool_decide (remaining = "") then Some (inl public)
      else
        match pem_Decode remaining with
        | None => Some (inl public)
        | Some ((type, bytes), rest) =>
            if negb (bool_decide (type = "CERTIFICATE")) then certificates fuel rest public
            else if negb (ParseCertificate bytes) then Some (inr ErrInvalidCertificate)
            else certificates fuel rest (public +:+ EncodeToMemory "CERTIFICATE" bytes)
        end
  end.

(** [secret] is the result of the API request; [address] is the new entry's. *)
Definition readPublicCA (key : clusterKey) (secret : option Secret) (address : positive) :
    option (cachedCA + ca_error) :=
  match secret with
  | None => Some (inr ErrReadSecret)
  | Some secret =>
      let remaining := map_value (Secret_Data secret) "ca.crt" in
      public ← certificates (S (String.length remaining)) remaining "";
      match public with
      | inr err => Some (inr err)
      | inl public =>
          if bool_decide (public = "") then Some (inr ErrNoCertificates)
          else Some (inl (CachedCA address key (Secret_UID secret) (Secret_ResourceVersion secret) public))
      end
  end.
End public_ca.

(** ** The cache *)

Section connection.
Context `{TextLibrary, MapRange, Unstructured, RoutingDigest, KeyRange}.
Context (opts : Options).

Inductive connection_error := ErrContext | ErrNoSecret | ErrAwaitingCA.

Definition ca_secret_key (cluster : object) : clusterKey := ClusterKey (GetNamespace cluster) (serverCASecret cluster).

Definition cachedConnection (ctxErr : bool) (cluster : object) : State Observer (connectionInfo + connection_error) :=
  if ctxErr then mret (inr ErrContext)
  else
    let key := ca_secret_key cluster in
    o ← get_state;
    if currentCA (obs_cas o !! key) o then
      mret (match obs_cas o !! key with
            | Some ca => inl {| info_connection := {| connection_Database := applicationDatabase cluster;
                                                      connection_ServerCAPEM := ca_public ca |};
                                info_ca := Some ca |}
            | None => inr ErrContext (* not reached: a nil entry is not current *)
            end)
    else if bool_decide (obs_secrets o !! key = None) then mret (inr ErrNoSecret)
    else
      (if bool_decide (key ∈ obs_caPending o) then mret ()
       else
         modify (λ o, set_obs_caPending ({[key]} ∪ obs_caPending o) o) ;;
         modify (λ o, set_obs_caCalls (obs_caCalls o ++ [CallAdd key]) o)) ;;
      mret (inr ErrAwaitingCA).

(** [now] gives the clock reading for each Cluster of the index. *)
Fixpoint demanded (now : clusterKey → time) (l : list object) : State Observer (list object) :=
  match l with
  | [] => mret []
  | c :: l =>
      demand ← on_store (HasDemand (cluster_key c) (now (cluster_key c)));
      rest ← demanded now l;
      mret (if (demand : bool) then c :: rest else rest)
  end.

Definition demandedCAClusters (now : clusterKey → time) (key : clusterKey) : State Observer (list object) :=
  o ← get_state;
  demanded now (clustersUsingCA key o).

Definition drop_pending (key : clusterKey) : State Observer () :=
  modify (λ o, set_obs_caPending (obs_caPending o ∖ {[key]}) o).

(** The section of [fetchCA] before the read: [None] when there is nothing to read. *)
Definition fetch_begin (now : clusterKey → time) (key : clusterKey) : State Observer (option SecretMetadata) :=
  o ← get_state;
  match obs_secrets o !! key with
  | None => drop_pending key ;; mret None
  | Some meta =>
      clusters ← demandedCAClusters now key;
      o ← get_state;
      if bool_decide (clusters = []) || currentCA (obs_cas o !! key) o
      then drop_pending key ;; mret None
      else modify (λ o, set_obs_caReads (<[key := false]> (obs_caReads o)) o) ;; mret (Some meta)
  end.

(** The section after the read.  [expired] is whether the request's context is done
    for another reason than a cancellation by [secretEvent]. *)
Definition fetch_end (now : clusterKey → time) (key : clusterKey) (meta : SecretMetadata)
    (read : cachedCA + ca_error) (expired : bool) : State Observer bool :=
  o ← get_state;
  let ctxErr := expired || default false (obs_caReads o !! key) in
  modify (λ o, set_obs_caReads (delete key (obs_caReads o)) o) ;;
  match read with
  | inr _ => mret false
  | inl ca =>
      o ← get_state;
      match obs_secrets o !! key with
      | None => mret false
      | Some current =>
          if ctxErr || negb (obs_ready o)
             || negb (bool_decide (secret_UID current = secret_UID meta))
             || negb (bool_decide (secret_ResourceVersion current = secret_ResourceVersion meta))
             || negb (bool_decide (ca_uid ca = secret_UID current))
             || negb (bool_decide (ca_resourceVersion ca = secret_ResourceVersion current))
          then mret false
          else
            clusters ← demandedCAClusters now key;
            if bool_decide (clusters = []) then drop_pending key ;; mret true
            else
              modify (λ o, set_obs_cas (<[key := ca]> (obs_cas o)) o) ;;
              drop_pending key ;;
              for_each (λ c, Notify opts (cluster_key c) (now (cluster_key c))) clusters ;;
              mret true
      end
  end.

(** [fetchCA]; [env] runs between the two sections, [None] is not reached. *)
Definition fetchCA `{PEM} (now1 now2 : clusterKey → time) (key : clusterKey) (secret : option Secret)
    (address : positive) (expired : bool) (env : Observer → Observer) : State Observer bool :=
  begun ← fetch_begin now1 key;
  match begun with
  | None => mret true
  | Some meta =>
      modify env ;;
      match readPublicCA key secret address with
      | Some read => fetch_end now2 key meta read expired
      | None => mret false
      end
  end.

(** [workCA] for a key handed out by the queue; [env0] runs between the test of
    [Ready] and [fetchCA]. *)
Definition ca_call (call : queue_call clusterKey) : State Observer () :=
  modify (λ o, set_obs_caCalls (obs_caCalls o ++ [call]) o).

Definition workCA `{PEM} (ctxErr : bool) (now1 now2 : clusterKey → time) (key : clusterKey) (secret : option Secret)
    (address : positive) (expired : bool) (env0 env : Observer → Observer) : State Observer bool :=
  o ← get_state;
  result ← (if ctxErr then mret false
            else if negb (obs_ready o) then
              ca_call (CallAddAfter key (PollInterval opts)) ;; mret true
            else
              modify env0 ;;
              fetched ← fetchCA now1 now2 key secret address expired env;
              ca_call (if (fetched : bool) then CallForget key else CallAddRateLimited key) ;;
              mret true);
  ca_call (CallDone key) ;;
  mret result.
End connection.
