(* ===== verification/ConnectionProps.v ===== *)
(** * Correctness of the CA cache

    Only public certificates leave a Secret; a CA enters the cache only for the
    Secret that is current when it enters; and a missing CA stays scheduled until
    it is read or no longer needed. *)

From Stdlib Require Import Ascii.
From S2P Require Import Prelude Api Mailbox Store StoreFacts StoreProps Queue QueueFacts Config Kube Topology TopologyProps.
From S2P Require Import Evidence Settings Observer ObserverFacts Collection CollectionProps Events EventsFacts EventsProps Connection.

(** ** The public certificates of a Secret *)

Lemma string_app_nil s : s +:+ "" = s.
Proof. induction s as [|a s IH]; [done|]. change (String a (s +:+ "") = String a s). by rewrite IH. Qed.

Lemma string_app_assoc s1 s2 s3 : (s1 +:+ s2) +:+ s3 = s1 +:+ (s2 +:+ s3).
Proof.
  induction s1 as [|a s1 IH]; [done|].
  change (String a ((s1 +:+ s2) +:+ s3) = String a (s1 +:+ (s2 +:+ s3))). by rewrite IH.
Qed.

Section public.
Context `{PEM}.

(** The blocks of a PEM text, as [Decode] yields them one after the other. *)
Inductive pem_blocks : string → list (string * string) → Prop :=
  | pem_blocks_end s : s = "" ∨ pem_Decode s = None → pem_blocks s []
  | pem_blocks_next s b rest bs :
      s ≠ "" → pem_Decode s = Some (b, rest) → pem_blocks rest bs → pem_blocks s (b :: bs).

Definition is_certificate (b : string * string) : bool := bool_decide (b.1 = "CERTIFICATE").

(** What the blocks publish after [public]. *)
Fixpoint published_blocks (public : string) (bs : list (string * string)) : string + ca_error :=
  match bs with
  | [] => inl public
  | b :: bs =>
      if is_certificate b then
        if ParseCertificate b.2 then published_blocks (public +:+ EncodeToMemory "CERTIFICATE" b.2) bs
        else inr ErrInvalidCertificate
      else published_blocks public bs
  end.

Lemma certificates_blocks fuel s public :
  (String.length s < fuel)%nat →
  ∃ bs, pem_blocks s bs ∧ certificates fuel s public = Some (published_blocks public bs).
Proof.
  revert s public. induction fuel as [|fuel IH]; intros s public Hfuel; [lia|]. cbn.
  case_bool_decide as Hs; [exists []; split; [by constructor; left|done]|].
  destruct (pem_Decode s) as [[[type bytes] rest]|] eqn:Hd; [|exists []; split; [by constructor; right|done]].
  pose proof (pem_Decode_shorter _ _ _ Hd) as Hlt.
  assert (∀ public, ∃ bs, pem_blocks rest bs ∧ certificates fuel rest public = Some (published_blocks public bs)) as Hrest
    by (intros; apply IH; lia).
  unfold is_certificate.
  destruct (Hrest (if bool_decide (type = "CERTIFICATE") then public +:+ EncodeToMemory "CERTIFICATE" bytes else public))
    as (bs & Hbs & Hc).
  exists ((type, bytes) :: bs). split; [by econstructor|]. cbn. unfold is_certificate. cbn.
  case_bool_decide; cbn; [|done]. by destruct (ParseCertificate bytes).
Qed.

(** The certificates re-encoded, in order. *)
Definition encoded (certs : list (string * string)) : string :=
  foldr (λ b text, EncodeToMemory "CERTIFICATE" b.2 +:+ text) "" certs.

Lemma published_blocks_spec public bs :
  published_blocks public bs =
  let certs := filter (λ b, is_certificate b = true) bs in
  if forallb (λ b, ParseCertificate b.2) certs
  then inl (public +:+ encoded certs)
  else inr ErrInvalidCertificate.
Proof.
  revert public. induction bs as [|b bs IH]; intros public; cbn [published_blocks]; cbv zeta.
  - cbn. by rewrite string_app_nil.
  - rewrite filter_cons. destruct (is_certificate b) eqn:Hb.
    + rewrite decide_True by done. cbn. destruct (ParseCertificate b.2); cbn; [|done]. rewrite IH. cbn.
      case_match; [|done]. by rewrite string_app_assoc.
    + rewrite decide_False by done. apply IH.
Qed.

(** Reading a Secret returns, and publishes exactly the re-encoded certificates
    of its ca.crt, in order and without any other block, under the Secret's own
    identity and version; it fails when the Secret is unreadable, a certificate
    does not parse or there is none. *)
Theorem public_ca_exact key secret address :
  match secret with
  | None => readPublicCA key secret address = Some (inr ErrReadSecret)
  | Some s => ∃ bs, pem_blocks (map_value (Secret_Data s) "ca.crt") bs ∧
      let certs := filter (λ b, is_certificate b = true) bs in
      readPublicCA key secret address = Some
        (if forallb (λ b, ParseCertificate b.2) certs
         then if bool_decide (encoded certs = "") then inr ErrNoCertificates
              else inl (CachedCA address key (Secret_UID s) (Secret_ResourceVersion s) (encoded certs))
         else inr ErrInvalidCertificate)
  end.
Proof.
  destruct secret as [s|]; [|done]. unfold readPublicCA. set (text := map_value _ _).
  destruct (certificates_blocks (S (String.length text)) text "") as (bs & Hbs & Hc); [lia|].
  exists bs. split; [done|]. rewrite Hc. cbn [mbind option_bind]. rewrite published_blocks_spec. cbv zeta.
  destruct (forallb _ _); [|done]. change ("" +:+ encoded ?x) with (encoded x). by case_bool_decide.
Qed.
End public.

(** ** The cache *)

Section claims.
Context `{TextLibrary, MapRange, Unstructured, RoutingDigest, KeyRange}.
Context (opts : Options).

(** A connection is served only with the CA that is current under the lock, and a
    miss for a known Secret leaves a pending fetch. *)
Lemma cached_connection_current ctxErr cluster o :
  let '(result, o') := cachedConnection ctxErr cluster o in
  match result with
  | inl info => ctxErr = false ∧ currentCA (info_ca info) o = true ∧ o' = o
      ∧ ∃ ca, obs_cas o !! ca_secret_key cluster = Some ca ∧ info_ca info = Some ca ∧ info_connection info = {| connection_Database := applicationDatabase cluster;
          connection_ServerCAPEM := ca_public ca |}
  | inr ErrAwaitingCA => ca_secret_key cluster ∈ obs_caPending o'
      ∧ (ca_secret_key cluster ∈ obs_caPending o ∨ CallAdd (ca_secret_key cluster) ∈ obs_caCalls o')
  | inr _ => o' = o
  end.
Proof.
  unfold cachedConnection. destruct ctxErr; [done|]. rewrite State_bind_run. cbn [get_state fst snd].
  destruct (currentCA (obs_cas o !! ca_secret_key cluster) o) eqn:Hcur.
  - destruct (obs_cas o !! ca_secret_key cluster) as [ca|] eqn:Hca; [|done]. cbn. split_and!; [done..|]. by exists ca.
  - case_bool_decide; [done|]. rewrite State_bind_run. case_bool_decide; cbn; [by split; [|left]|]. set_solver.
Qed.

Lemma demanded_steady now l o : steady o (demanded now l o).2.
Proof.
  revert o. induction l as [|c l IH]; intros o; [done|]. cbn. rewrite !State_bind_run. cbn.
  etrans; [apply HasDemand_steady|apply IH].
Qed.

Lemma demandedCAClusters_steady now key o : steady o (demandedCAClusters now key o).2.
Proof. unfold demandedCAClusters. rewrite State_bind_run. apply demanded_steady. Qed.

Lemma notify_all_steady now (l : list object) o :
  steady o (for_each (λ c, Notify opts (cluster_key c) (now (cluster_key c))) l o).2.
Proof. apply (for_each_inv (steady o)); [|done]. intros c o1 _ Hs. etrans; [exact Hs|apply enqueue_steady]. Qed.

Lemma fetch_begin_spec now key o :
  let m := fetch_begin now key o in
  obs_cas m.2 = obs_cas o ∧ (m.1 = None → key ∉ obs_caPending m.2).
Proof.
  unfold fetch_begin. rewrite State_bind_run. cbn [get_state fst snd].
  destruct (obs_secrets o !! key) as [meta|]; [|cbn; split; [done|set_solver]].
  rewrite State_bind_run. pose proof (demandedCAClusters_steady now key o) as (Hc & _).
  destruct (demandedCAClusters now key o) as [clusters o1]. cbn in *. rewrite State_bind_run. cbn.
  case_match; cbn; split; try apply (same_cas _ _ Hc); [set_solver|done].
Qed.

(** The read CA is of the Secret that was current throughout. *)
Record installable (key : clusterKey) (meta : SecretMetadata) (ca : cachedCA) (expired : bool) (o : Observer) : Prop := {
  installable_live : expired = false ∧ obs_caReads o !! key ≠ Some true ∧ obs_ready o = true;
  installable_secret : ∃ current, obs_secrets o !! key = Some current
    ∧ secret_UID current = secret_UID meta ∧ secret_ResourceVersion current = secret_ResourceVersion meta
    ∧ ca_uid ca = secret_UID current ∧ ca_resourceVersion ca = secret_ResourceVersion current;
}.

Lemma fetch_end_spec now key meta read expired o :
  let m := fetch_end opts now key meta read expired o in
  (m.1 = true → key ∉ obs_caPending m.2)
  ∧ (obs_cas m.2 = obs_cas o ∨ ∃ ca, read = inl ca ∧ installable key meta ca expired o
       ∧ obs_cas m.2 = <[key := ca]> (obs_cas o) ∧ obs_secrets m.2 = obs_secrets o).
Proof.
  unfold fetch_end. rewrite !State_bind_run. cbn [get_state modify fst snd].
  set (o1 := set_obs_caReads _ o). destruct read as [ca|err]; [|by split; [|left]].
  rewrite State_bind_run. cbn [get_state fst snd]. destruct (obs_secrets o1 !! key) as [current|] eqn:Hs; [|by split; [|left]].
  destruct (_ || _ || _ || _ || _ || _) eqn:Hok; [by split; [|left]|].
  rewrite State_bind_run. pose proof (demandedCAClusters_steady now key o1) as [Hc _].
  destruct (demandedCAClusters now key o1) as [clusters o2]. cbn [fst snd] in *.
  destruct (bool_decide (clusters = [])); [rewrite State_bind_run; cbn; split; [set_solver|left; apply (same_cas _ _ Hc)]|].
  rewrite !State_bind_run. cbn [modify mret State_ret drop_pending fst snd].
  match goal with |- context [for_each ?f clusters ?x] => set (o3 := x); pose proof (notify_all_steady now clusters o3) as [Hn _] end.
  split.
  - intros _. rewrite (same_caPending _ _ Hn). subst o3. cbn. set_solver.
  - right. exists ca. split; [done|]. split_and!.
    + boolify. split; [split_and!; [done| |done]|by exists current].
      intros Hread. destruct (obs_caReads o !! key); by simplify_eq.
    + rewrite (same_cas _ _ Hn). subst o3. cbn. f_equal. apply (same_cas _ _ Hc).
    + rewrite (same_secrets _ _ Hn). subst o3. cbn. apply (same_secrets _ _ Hc).
Qed.

Lemma fetched_pending `{PEM} now1 now2 key secret address expired env o :
  let m := fetchCA opts now1 now2 key secret address expired env o in m.1 = true → key ∉ obs_caPending m.2.
Proof.
  cbv zeta. unfold fetchCA. rewrite State_bind_run. destruct (fetch_begin_spec now1 key o) as [_ Hpend].
  destruct (fetch_begin now1 key o) as [[meta|] ob]; cbn [fst snd] in *; [|by intros _; apply Hpend].
  rewrite State_bind_run. cbn [modify fst snd]. destruct (readPublicCA key secret address) as [read|]; [|done].
  apply fetch_end_spec.
Qed.

(** C30: [fetchCA], with any interference during the read, installs a CA only when it
    was read from the Secret that was current at the start and is current now,
    with healthy watches and without cancellation; the installed CA is then the
    current one.  When the fetch reports success, the key is no longer pending. *)
Theorem fetched_ca_current `{PEM} now1 now2 key secret address expired env o :
  let begun := fetch_begin now1 key o in
  let o1 := env begun.2 in
  let m := fetchCA opts now1 now2 key secret address expired env o in
  (m.1 = true → key ∉ obs_caPending m.2)
  ∧ (begun.1 = None ∧ obs_cas m.2 = obs_cas o
     ∨ obs_cas m.2 = obs_cas o1
     ∨ ∃ meta ca, begun.1 = Some meta ∧ readPublicCA key secret address = Some (inl ca)
         ∧ installable key meta ca expired o1 ∧ obs_cas m.2 = <[key := ca]> (obs_cas o1)
         ∧ currentCA (Some ca) m.2 = true).
Proof.
  cbv zeta. split; [apply fetched_pending|]. unfold fetchCA. rewrite State_bind_run.
  destruct (fetch_begin_spec now1 key o) as [Hcas _].
  destruct (fetch_begin now1 key o) as [[meta|] ob]; cbn [fst snd] in *; [|by left].
  rewrite State_bind_run. cbn [modify fst snd].
  destruct (readPublicCA key secret address) as [read|] eqn:Hread; [|by right; left].
  destruct (fetch_end_spec now2 key meta read expired (env ob)) as [_ Hor]. right. destruct Hor as [Hsame|(ca & -> & Hin & Hset & Hsec)]; [by left|]. right.
  exists meta, ca. split_and!; [done..|]. unfold currentCA.
  assert (ca_key ca = key) as ->.
  { revert Hread. unfold readPublicCA. destruct secret; [|done]. destruct (certificates _ _ _) as [[]|]; cbn; [|done..].
    case_bool_decide; [done|]. by intros [= <-]. }
  rewrite Hset, lookup_insert_eq, bool_decide_eq_true_2 by done. cbn [negb].
  destruct (installable_secret _ _ _ _ _ Hin) as (current & Hcur & _ & _ & Hu & Hr).
  rewrite Hsec, Hcur. rewrite !bool_decide_eq_true_2 by done. done.
Qed.

(** A CA that is still wanted after a worker handled its key is scheduled again. *)
Lemma ca_work_kept `{PEM} now1 now2 key secret address expired env0 env o :
  let m := workCA opts false now1 now2 key secret address expired env0 env o in
  m.1 = true ∧ (key ∈ obs_caPending m.2 → ∃ pre retry, obs_caCalls m.2 = pre ++ [retry; CallDone key]
    ∧ (retry = CallAddAfter key (PollInterval opts) ∨ retry = CallAddRateLimited key)).
Proof.
  unfold workCA. rewrite State_bind_run. cbn [get_state fst snd]. destruct (negb (obs_ready o)).
  - run_state. split; [done|]. intros _. exists (obs_caCalls o), (CallAddAfter key (PollInterval opts)). rewrite <-app_assoc. by split; [|left].
  - rewrite !State_bind_run. cbn [modify fst snd].
    pose proof (fetched_pending now1 now2 key secret address expired env (env0 o)) as Hp.
    destruct (fetchCA opts now1 now2 key secret address expired env (env0 o)) as [[] o']; cbn in *; (split; [done|]).
    + intros Hin. by destruct Hp.
    + intros _. exists (obs_caCalls o'), (CallAddRateLimited key). rewrite <-app_assoc. by split; [|right].
Qed.
End claims.

(** ** A concrete fetch *)

Section example.
#[local] Existing Instances identity_digest plain_access plain_text plain_range plain_keys.

(** A PEM library with one-letter blocks, where [C] is a certificate. *)
Definition plain_decode (s : string) : option ((string * string) * string) :=
  match s with
  | EmptyString => None
  | String a rest => Some ((if bool_decide (a = "C"%char) then "CERTIFICATE" else "PRIVATE KEY", String a ""), rest)
  end.

Lemma plain_decode_shorter s b rest :
  plain_decode s = Some (b, rest) → (String.length rest < String.length s)%nat.
Proof. destruct s as [|a s]; [done|]. intros [= <- <-]. cbn. lia. Qed.

Definition plain_pem : PEM := {|
  pem_Decode := plain_decode; pem_Decode_shorter := plain_decode_shorter;
  ParseCertificate _ := true; EncodeToMemory _ bytes := bytes;
|}.
#[local] Existing Instance plain_pem.

Definition example_secret : Secret := {|
  Secret_UID := "s-1"; Secret_ResourceVersion := "8"; Secret_Data := {["ca.crt" := "CKC"]};
|}.

Definition ca_name : clusterKey := ClusterKey "app" "ca".

Lemma public_ca_exact_witness :
  readPublicCA ca_name (Some example_secret) 2 = Some (inl (CachedCA 2 ca_name "s-1" "8" "CC"))
  ∧ ∃ bs, pem_blocks "CKC" bs.
Proof.
  split; [vm_compute; reflexivity|].
  destruct (public_ca_exact ca_name (Some example_secret) 2) as (bs & Hbs & _). exists bs. exact Hbs.
Defined.

(** The CA was rotated to version 8, and a client asks for the Cluster. *)
Definition waiting_observer : Observer :=
  set_obs_store (set_unaryDemand (<[ClusterKey "app" "db" := minute]>) (obs_store (routed_observer "8")))
    (routed_observer "8").

Definition at_second : clusterKey → time := λ _, second.

Definition example_fetch : bool * Observer :=
  fetchCA example_options at_second at_second ca_name (Some example_secret) 2 false id waiting_observer.

Definition cached_version (o : Observer) : string := default "" (ca_resourceVersion <$> obs_cas o !! ca_name).

Lemma fetched_ca_current_witness :
  example_fetch.1 = true ∧ (ca_name ∉ obs_caPending example_fetch.2) ∧ ∃ ca, currentCA (Some ca) example_fetch.2 = true.
Proof.
  assert (example_fetch.1 = true) as Hok by (vm_compute; reflexivity).
  assert (cached_version example_fetch.2 = "8") as Hnew by (vm_compute; reflexivity).
  destruct (fetched_ca_current example_options at_second at_second ca_name (Some example_secret) 2 false id waiting_observer)
    as [Hp [[_ Hc]|[Hc|(meta & ca & _ & _ & _ & _ & Hcur)]]].
  - exfalso. unfold cached_version in Hnew. unfold example_fetch in Hnew. rewrite Hc in Hnew. vm_compute in Hnew. discriminate Hnew.
  - exfalso. unfold cached_version in Hnew. unfold example_fetch in Hnew. rewrite Hc in Hnew. vm_compute in Hnew. discriminate Hnew.
  - split; [exact Hok|]. split; [exact (Hp Hok)|]. exists ca. exact Hcur.
Defined.
End example.
