(* ===== verification/Cache.v ===== *)
(** * Informer cache projections (src/internal/observer/cache.go)

    The informers keep only the fields that discovery reads: [transformClusterCache]
    for unstructured Clusters and [transformPodCache] for Pods.  A deep copy of a
    JSON value is the value itself.  An object of a foreign type is an error. *)

From S2P Require Import Prelude Api Config Kube Topology.

(** ** Clusters *)

(** A loop over names that stores what [entry] yields for them in a new map. *)
Definition collect {V} (entry : string → option V) (names : list string) : gmap string V :=
  foldl (λ result name, match entry name with Some value => <[name := value]> result | None => result end) ∅ names.

Definition projectJSONFields (source : object) (names : list string) : object :=
  collect (λ name, source !! name) names.

(** [m, _ := o[name].(map[string]any)]: a nil map reads as empty. *)
Definition map_field (o : object) (name : string) : object :=
  match o !! name with Some (Map m) => m | _ => ∅ end.

Definition fencedInstancesAnnotation : string := "cnpg.io/fencedInstances".

Definition project_metadata (cluster : object) : object :=
  let metadata := map_field cluster "metadata" in
  let projected := projectJSONFields metadata
    ["name"; "namespace"; "uid"; "resourceVersion"; "generation"; "deletionTimestamp"] in
  <["annotations" := Map (projectJSONFields (map_field metadata "annotations")
      [EnabledAnnotation; ParametersAnnotation; fencedInstancesAnnotation])]> projected.

(** The loop over the plugin entries stops at the first match. *)
Fixpoint select_plugin (values : list any) : list any :=
  match values with
  | [] => []
  | value :: values =>
      match native_plugin value with
      | Some entry => [Map (projectJSONFields entry ["name"; "enabled"; "parameters"])]
      | None => select_plugin values
      end
  end.

Definition project_plugins (spec : object) : object :=
  match spec !! "plugins" with
  | Some (Slice values) => {["plugins" := Slice (select_plugin values)]}
  | Some plugins => {["plugins" := plugins]}
  | None => ∅
  end.

Definition bootstrap_methods : list string := ["recovery"; "pg_basebackup"; "initdb"].

Definition project_bootstrap (bootstrap : object) : object :=
  collect (λ method,
    match bootstrap !! method with
    | Some (Map entry) => Some (Map (projectJSONFields entry ["database"]))
    | _ => None
    end) bootstrap_methods.

Definition project_spec (cluster : object) : object :=
  let spec := map_field cluster "spec" in
  <["bootstrap" := Map (project_bootstrap (map_field spec "bootstrap"))]> (project_plugins spec).

Definition project_cluster (cluster : object) : object :=
  <["status" := Map (projectJSONFields (map_field cluster "status") ["currentPrimary"; "targetPrimary"; "certificates"])]>
  (<["spec" := Map (project_spec cluster)]>
  (<["metadata" := Map (project_metadata cluster)]>
  (projectJSONFields cluster ["apiVersion"; "kind"]))).

(** The argument is [None] for another type or a nil pointer. *)
Definition transformClusterCache (obj : option object) : option object := project_cluster <$> obj.

(** ** Pods *)

Definition cached_labels : list string :=
  ["cnpg.io/cluster"; "cnpg.io/instanceName"; "cnpg.io/instanceRole"; "cnpg.io/podRole";
   "topology.kubernetes.io/zone"; "topology.kubernetes.io/region"].

Definition project_labels (labels : gmap string string) : gmap string string :=
  collect (λ key, labels !! key) cached_labels.

Definition project_container (c : Container) : Container := {|
  container_Name := container_Name c;
  container_Command := if Contains (container_Command c) "--status-port-tls" then ["--status-port-tls"] else [];
  container_Args := if Contains (container_Args c) "--status-port-tls" then ["--status-port-tls"] else [];
|}.

(** The first element that satisfies [f], projected, as a loop with [break] does. *)
Fixpoint first_match {A B} (f : A → option B) (l : list A) : list B :=
  match l with
  | [] => []
  | x :: l => match f x with Some y => [y] | None => first_match f l end
  end.

Definition postgres_container (c : Container) : option Container :=
  if bool_decide (container_Name c = "postgres") then Some (project_container c) else None.

Definition ready_condition (c : PodCondition) : option PodCondition :=
  if bool_decide (condition_Type c = "Ready") then Some (Build_PodCondition (condition_Type c) (condition_Status c)) else None.

Definition postgres_status (s : ContainerStatus) : option ContainerStatus :=
  if bool_decide (status_Name s = "postgres") then Some (Build_ContainerStatus (status_Name s) (status_ContainerID s)) else None.

Definition project_pod (pod : Pod) : Pod := {|
  pod_Namespace := pod_Namespace pod; pod_Name := pod_Name pod; pod_UID := pod_UID pod;
  pod_DeletionTimestamp := pod_DeletionTimestamp pod; pod_Labels := project_labels (pod_Labels pod);
  pod_OwnerReferences := pod_OwnerReferences pod; pod_NodeName := pod_NodeName pod;
  pod_Containers := first_match postgres_container (pod_Containers pod);
  pod_Phase := pod_Phase pod; pod_PodIP := pod_PodIP pod;
  pod_Conditions := first_match ready_condition (pod_Conditions pod);
  pod_ContainerStatuses := first_match postgres_status (pod_ContainerStatuses pod);
|}.

Definition transformPodCache (obj : option Pod) : option Pod := project_pod <$> obj.
