(* ===== verification/CacheProps.v ===== *)
(** * Correctness of the cache projections

    Whatever discovery reads of a Cluster or a Pod, it reads the same from the
    cached projection, so that decisions over the cache are decisions over the
    objects of the API server; and projecting twice changes nothing. *)

From S2P Require Import Prelude Api Config Kube Topology TopologyProps Settings Observer ObserverFacts Events Cache.

(** ** Projected fields *)

(** Collecting keeps exactly the named entries. *)
Lemma collect_lookup {V} (entry : string → option V) names k :
  collect entry names !! k = if bool_decide (k ∈ names) then entry k else None.
Proof.
  unfold collect. induction names as [|n names IH] using rev_ind; [done|]. rewrite foldl_app. cbn.
  destruct (decide (k = n)) as [->|Hne].
  - rewrite (bool_decide_eq_true_2 (n ∈ names ++ [n])) by set_solver.
    destruct (entry n) as [v|] eqn:He; [by rewrite lookup_insert_eq|]. rewrite IH. by case_bool_decide.
  - rewrite (bool_decide_ext (k ∈ names ++ [n]) (k ∈ names)) by set_solver.
    destruct (entry n); [rewrite lookup_insert_ne by done|]; exact IH.
Qed.

Lemma projectJSONFields_in source names k : k ∈ names → projectJSONFields source names !! k = source !! k.
Proof. intros Hk. unfold projectJSONFields. by rewrite collect_lookup, bool_decide_eq_true_2. Qed.

(** The parts of a projected Cluster. *)
Lemma project_cluster_metadata c : project_cluster c !! "metadata" = Some (Map (project_metadata c)).
Proof. unfold project_cluster. by rewrite !lookup_insert_ne, lookup_insert_eq by done. Qed.
Lemma project_cluster_spec c : project_cluster c !! "spec" = Some (Map (project_spec c)).
Proof. unfold project_cluster. by rewrite lookup_insert_ne, lookup_insert_eq by done. Qed.
Lemma project_cluster_status c :
  project_cluster c !! "status"
  = Some (Map (projectJSONFields (map_field c "status") ["currentPrimary"; "targetPrimary"; "certificates"])).
Proof. unfold project_cluster. by rewrite lookup_insert_eq. Qed.

Lemma project_metadata_field c k :
  k ∈ ["name"; "namespace"; "uid"; "resourceVersion"; "generation"; "deletionTimestamp"] →
  project_metadata c !! k = map_field c "metadata" !! k.
Proof.
  intros Hk. unfold project_metadata. rewrite lookup_insert_ne by set_solver. by apply projectJSONFields_in.
Qed.

Lemma project_bootstrap_method b k :
  k ∈ bootstrap_methods →
  project_bootstrap b !! k = match b !! k with Some (Map e) => Some (Map (projectJSONFields e ["database"])) | _ => None end.
Proof. intros Hk. unfold project_bootstrap. by rewrite collect_lookup, bool_decide_eq_true_2. Qed.

(** A value that is a map, null or missing: what the API server accepts there. *)
Definition mapped (v : option any) : Prop := match v with None | Some Nil | Some (Map _) => True | _ => False end.

(** An accessor that ignores errors reads the same through a projected map. *)
Lemma nested_through {A} (zero : A) (f : any → option A) o o' m' name k path :
  o' !! name = Some (Map m') → m' !! k = map_field o name !! k →
  (nested_as zero f o' (name :: k :: path)).1.1 = (nested_as zero f o (name :: k :: path)).1.1.
Proof.
  intros Ho' Hm'. unfold nested_as. cbn. rewrite Ho'. cbn. rewrite Hm'. unfold map_field. by destruct (o !! name) as [[]|].
Qed.

Lemma field_through o o' m' name k path :
  mapped (o !! name) → o' !! name = Some (Map m') → m' !! k = map_field o name !! k →
  field_at (Map o') (name :: k :: path) = field_at (Map o) (name :: k :: path).
Proof.
  intros Hm Ho' Hm'. cbn. rewrite Ho'. cbn. rewrite Hm'. unfold map_field. by destruct (o !! name) as [[]|].
Qed.

(** ** Clusters *)

Record well_shaped (c : object) : Prop := {
  shaped_metadata : mapped (c !! "metadata");
  shaped_spec : mapped (c !! "spec");
  shaped_annotations : map_Forall (λ _ v, as_string v ≠ None) (map_field (map_field c "metadata") "annotations");
}.

Lemma string_map_lookup (m : object) k :
  map_Forall (λ _ v, as_string v ≠ None) m → default ∅ (as_string_map (Map m)) !! k = m !! k ≫= as_string.
Proof. intros Hm. cbn. rewrite bool_decide_eq_true_2 by done. cbn. by rewrite lookup_omap. Qed.

Lemma annotations_lookup c k :
  map_Forall (λ _ v, as_string v ≠ None) (map_field (map_field c "metadata") "annotations") →
  (nested_as ∅ as_string_map c ["metadata"; "annotations"]).1.1 !! k
  = map_field (map_field c "metadata") "annotations" !! k ≫= as_string.
Proof.
  unfold nested_as, map_field. cbn. destruct (c !! "metadata") as [[]|]; cbn; try done.
  rename m into md. destruct (md !! "annotations") as [[]|]; cbn -[as_string_map]; try done.
  intros Hs. pose proof (string_map_lookup m k Hs) as <-. by destruct (as_string_map (Map m)).
Qed.

Section cluster.
Context `{TextLibrary, MapRange, !Unstructured, !UnstructuredLaws}.

(** Everything discovery reads of a Cluster. *)
Record same_reads (a b : object) : Prop := {
  reads_ref : clusterRef a = clusterRef b;
  reads_deletion : GetDeletionTimestamp a = GetDeletionTimestamp b;
  reads_primaries : primaryNames a = primaryNames b;
  reads_parameters : parameters a = parameters b;
  reads_fenced : GetAnnotations a !! fencedInstancesAnnotation = GetAnnotations b !! fencedInstancesAnnotation;
  reads_database : applicationDatabase a = applicationDatabase b;
  reads_secret : serverCASecret a = serverCASecret b;
  reads_certificates : default Nil (NestedFieldNoCopy a ["status"; "certificates"])
    = default Nil (NestedFieldNoCopy b ["status"; "certificates"]);
}.

Lemma project_string c name k path m' :
  project_cluster c !! name = Some (Map m') → m' !! k = map_field c name !! k →
  (NestedString (project_cluster c) (name :: k :: path)).1.1 = (NestedString c (name :: k :: path)).1.1.
Proof. intros Hn Hk. rewrite !NestedString_law. by eapply nested_through. Qed.

Lemma project_status_string c k path :
  k ∈ ["currentPrimary"; "targetPrimary"; "certificates"] →
  (NestedString (project_cluster c) ("status" :: k :: path)).1.1 = (NestedString c ("status" :: k :: path)).1.1.
Proof. intros Hk. eapply project_string; [apply project_cluster_status|by apply projectJSONFields_in]. Qed.

Lemma project_annotation c k :
  well_shaped c → k ∈ [EnabledAnnotation; ParametersAnnotation; fencedInstancesAnnotation] →
  GetAnnotations (project_cluster c) !! k = GetAnnotations c !! k.
Proof.
  intros Hw Hk. rewrite !GetAnnotations_law, !annotations_lookup.
  - cbn. unfold map_field at 1 2. rewrite project_cluster_metadata. unfold project_metadata at 1.
    rewrite lookup_insert_eq. by rewrite projectJSONFields_in.
  - apply Hw.
  - unfold map_field at 1 2. rewrite project_cluster_metadata. unfold project_metadata at 1. rewrite lookup_insert_eq.
    intros k' v. unfold projectJSONFields. rewrite collect_lookup. case_bool_decide; [|done]. apply (shaped_annotations _ Hw).
Qed.

(** ** Plugins *)

Lemma native_plugin_project v e :
  native_plugin v = Some e →
  native_plugin (Map (projectJSONFields e ["name"; "enabled"; "parameters"]))
  = Some (projectJSONFields e ["name"; "enabled"; "parameters"]).
Proof.
  unfold native_plugin. destruct v; try done. rewrite projectJSONFields_in by set_solver.
  destruct (m !! "name") as [[]|] eqn:Hn; try done. case_bool_decide; [|done]. intros [= <-]. rewrite Hn.
  by rewrite bool_decide_eq_true_2.
Qed.

Lemma find_select_plugin l :
  find_plugin (select_plugin l) = (λ e, projectJSONFields e ["name"; "enabled"; "parameters"]) <$> find_plugin l.
Proof.
  induction l as [|v l IH]; [done|]. cbn [select_plugin find_plugin].
  destruct (native_plugin v) as [e|] eqn:He; [|exact IH].
  cbn [find_plugin]. by rewrite (native_plugin_project v e He).
Qed.

Lemma plugin_parameters_project e :
  plugin_parameters (projectJSONFields e ["name"; "enabled"; "parameters"]) = plugin_parameters e.
Proof.
  unfold plugin_parameters. rewrite !NestedBool_law, !NestedStringMap_law. unfold nested_as. cbn [field_at].
  by rewrite !projectJSONFields_in by set_solver.
Qed.

(** The plugin list of the projection: the same error, the same first entry. *)
Lemma project_plugins_list c :
  mapped (c !! "spec") →
  let p' := NestedSlice (project_cluster c) ["spec"; "plugins"] in
  let p := NestedSlice c ["spec"; "plugins"] in
  p'.2 = p.2 ∧ (find_plugin p'.1.1 = (λ e, projectJSONFields e ["name"; "enabled"; "parameters"]) <$> find_plugin p.1.1).
Proof.
  intros Hm. cbv zeta. rewrite !NestedSlice_law. unfold nested_as. cbn [field_at]. rewrite project_cluster_spec.
  cbn [field_at]. unfold project_spec. rewrite lookup_insert_ne by done.
  unfold project_plugins, map_field. destruct (c !! "spec") as [[]|]; try done. cbn [field_at].
  destruct (m !! "plugins") as [[]|]; try done. cbn. split; [done|apply find_select_plugin].
Qed.
Lemma project_parameters c : well_shaped c → parameters (project_cluster c) = parameters c.
Proof.
  intros Hw. unfold parameters, map_value. rewrite project_annotation by (done || set_solver).
  case_bool_decide; [done|]. pose proof (project_plugins_list c (shaped_spec _ Hw)) as [Hbad Hfind].
  destruct (NestedSlice (project_cluster c) _) as [[l' f'] b'], (NestedSlice c _) as [[l f] b]. cbn in Hbad, Hfind. subst b'.
  destruct b; [done|]. rewrite Hfind. destruct (find_plugin l) as [e|]; cbn [fmap option_fmap option_map];
    [apply plugin_parameters_project|].
  unfold annotation_parameters, map_value. by rewrite project_annotation by (done || set_solver).
Qed.

Lemma project_database_method c method :
  method ∈ bootstrap_methods →
  (NestedString (project_cluster c) ["spec"; "bootstrap"; method; "database"]).1.1
  = (NestedString c ["spec"; "bootstrap"; method; "database"]).1.1.
Proof.
  intros Hm. rewrite !NestedString_law. unfold nested_as. cbn [field_at]. rewrite project_cluster_spec. cbn [field_at].
  unfold project_spec. rewrite lookup_insert_eq. cbn [field_at]. rewrite project_bootstrap_method by done.
  unfold map_field. destruct (c !! "spec") as [[| | | | | |spec]|]; try done. cbn [field_at].
  destruct (spec !! "bootstrap") as [[| | | | | |b]|]; try done. cbn [field_at].
  destruct (b !! method) as [[| | | | | |e]|]; try done. cbn [field_at]. by rewrite projectJSONFields_in by set_solver.
Qed.

Lemma first_database_ext a b methods :
  Forall (λ m, (NestedString a ["spec"; "bootstrap"; m; "database"]).1.1
             = (NestedString b ["spec"; "bootstrap"; m; "database"]).1.1) methods →
  first_database a methods = first_database b methods.
Proof.
  induction 1 as [|m methods Hm _ IH]; [done|]. cbn [first_database].
  destruct (NestedString a _) as [[x ?] ?], (NestedString b _) as [[y ?] ?]. cbn in Hm. subst y. by rewrite IH.
Qed.

Lemma project_metadata_string c k :
  k ∈ ["name"; "namespace"; "uid"; "resourceVersion"; "generation"; "deletionTimestamp"] →
  get_string (project_cluster c) ["metadata"; k] = get_string c ["metadata"; k].
Proof. intros Hk. eapply nested_through; [apply project_cluster_metadata|by apply project_metadata_field]. Qed.

(** The projection of a Cluster reads like the Cluster. *)
Lemma project_cluster_reads c : well_shaped c → same_reads (project_cluster c) c.
Proof.
  intros Hw. split.
  - unfold clusterRef. rewrite !GetNamespace_law, !GetName_law, !GetUID_law. by rewrite !project_metadata_string by set_solver.
  - apply GetDeletionTimestamp_law.
    apply field_through with (project_metadata c); [apply Hw|apply project_cluster_metadata|].
    apply project_metadata_field. set_solver.
  - unfold primaryNames. pose proof (project_status_string c "currentPrimary" []) as Hc.
    pose proof (project_status_string c "targetPrimary" []) as Ht.
    do 4 destruct (NestedString _ _) as [[? ?] ?]. cbn in Hc, Ht. f_equal; set_solver.
  - by apply project_parameters.
  - apply project_annotation; [done|set_solver].
  - unfold applicationDatabase. apply first_database_ext. repeat constructor; apply project_database_method; set_solver.
  - unfold serverCASecret. apply project_status_string. set_solver.
  - rewrite !NestedFieldNoCopy_law. unfold nested. cbn [field_at]. rewrite project_cluster_status. cbn [field_at].
    rewrite projectJSONFields_in by set_solver. unfold map_field. by destruct (c !! "status") as [[]|].
Qed.

(** ** What follows from equal reads *)

Lemma same_reads_route a a' b b' :
  same_reads a' a → same_reads b' b → sameClusterRoute a' b' = sameClusterRoute a b.
Proof.
  intros [Hra Hda Hpa Hqa Hfa Hba _ Hca] [Hrb Hdb Hpb Hqb Hfb Hbb _ Hcb].
  unfold sameClusterRoute, fencedInstances_annotation, map_value.
  assert (GetUID a' = GetUID a) as -> by exact (f_equal cluster_UID Hra).
  assert (GetUID b' = GetUID b) as -> by exact (f_equal cluster_UID Hrb).
  unfold fencedInstancesAnnotation in *. by rewrite Hda, Hdb, Hpa, Hpb, Hqa, Hqb, Hfa, Hfb, Hba, Hbb, Hca, Hcb.
Qed.

Lemma same_reads_index a a' : same_reads a' a → indexServerCA a' = indexServerCA a.
Proof.
  intros [Hr Hd _ Hq _ _ Hs _]. unfold indexServerCA. rewrite Hd, Hq, Hs.
  by assert (GetNamespace a' = GetNamespace a) as -> by exact (f_equal cluster_Namespace Hr).
Qed.

Lemma same_reads_owned a a' items : same_reads a' a → ownedPods a' items = ownedPods a items.
Proof.
  intros [Hr _ _ _ _ _ _ _]. unfold ownedPods, owned_by.
  by assert (GetUID a' = GetUID a) as -> by exact (f_equal cluster_UID Hr).
Qed.

Lemma same_reads_snapshot a a' pods results params at_ ttl :
  same_reads a' a → buildSnapshot a' pods results params at_ ttl = buildSnapshot a pods results params at_ ttl.
Proof.
  intros [Hr _ Hp _ Hf _ _ _]. unfold buildSnapshot, fenced_instances, unavailable. unfold fencedInstancesAnnotation in Hf.
  assert (transitioning a' = transitioning a) as -> by (unfold transitioning; by rewrite Hp). rewrite Hf, Hr.
  assert (cluster_server_name a' params = cluster_server_name a params) as Hn.
  { unfold cluster_server_name. assert (GetName a' = GetName a) as -> by exact (f_equal cluster_Name Hr).
    by assert (GetNamespace a' = GetNamespace a) as -> by exact (f_equal cluster_Namespace Hr). }
  assert (∀ fenced i pods acc, scan_pods a' params fenced i pods results acc = scan_pods a params fenced i pods results acc) as Hscan.
  { intros fenced i ps. revert i. induction ps as [|p ps IH]; intros i acc; [done|]. cbn [scan_pods].
    destruct (results !! i) as [r|]; [|done]. cbn. rewrite IH. f_equal. unfold scan_pod, transitioning. by rewrite Hp, Hn. }
  destruct (match GetAnnotations a !! _ with Some raw => _ | None => _ end) as [fenced|]; [|done]. by rewrite Hscan.
Qed.
End cluster.

(** ** Pods *)

(** Kubernetes does not accept two containers of one name. *)
Definition distinct_containers (p : Pod) : Prop := NoDup (container_Name <$> pod_Containers p).

Lemma project_ready p : podReady (project_pod p) = podReady p.
Proof.
  unfold podReady. cbn [project_pod pod_DeletionTimestamp pod_Phase pod_PodIP pod_Conditions]. destruct (_ || _ || _); [done|].
  induction (pod_Conditions p) as [|c l IH]; [done|]. cbn. unfold ready_condition at 1.
  case_bool_decide as Ht; [|exact IH]. cbn. by rewrite bool_decide_eq_true_2.
Qed.

Lemma project_flag l : Contains (if Contains l "--status-port-tls" then ["--status-port-tls"] else []) "--status-port-tls"
  = Contains l "--status-port-tls".
Proof. by destruct (Contains l "--status-port-tls"). Qed.

Lemma project_scheme p : distinct_containers p → statusScheme (project_pod p) = statusScheme p.
Proof.
  unfold distinct_containers, statusScheme. cbn [project_pod pod_Containers]. intros Hnd. f_equal.
  set (tls := λ c, _). induction (pod_Containers p) as [|c l IH]; [done|]. rewrite fmap_cons, NoDup_cons in Hnd.
  destruct Hnd as [Hc Hnd]. cbn. unfold postgres_container at 1. case_bool_decide as Hp.
  - cbn. rewrite orb_false_r. assert (existsb tls l = false) as ->.
    { apply not_true_iff_false. intros (c' & Hin & Ht)%existsb_exists. apply Hc. rewrite Hp.
      unfold tls in Ht. boolify. rewrite <-H. by apply list_elem_of_fmap_2, list_elem_of_In. }
    rewrite orb_false_r. unfold tls. cbn. by rewrite !project_flag.
  - rewrite (IH Hnd). unfold tls at 2. by rewrite bool_decide_eq_false_2.
Qed.

Lemma project_containerID p : postgresContainerID (project_pod p) = postgresContainerID p.
Proof.
  unfold postgresContainerID. cbn [project_pod pod_ContainerStatuses]. f_equal.
  induction (pod_ContainerStatuses p) as [|s l IH]; [done|]. cbn. unfold postgres_status at 1.
  case_bool_decide as Hs; [|exact IH]. cbn. by rewrite bool_decide_eq_true_2.
Qed.

Lemma project_label p k :
  k ∈ cached_labels → map_value (pod_Labels (project_pod p)) k = map_value (pod_Labels p) k.
Proof. intros Hk. unfold map_value. cbn [project_pod pod_Labels]. unfold project_labels. by rewrite collect_lookup, bool_decide_eq_true_2. Qed.

Lemma project_route a b :
  distinct_containers a → distinct_containers b → samePodRoute (project_pod a) (project_pod b) = samePodRoute a b.
Proof.
  intros Ha Hb. apply eq_bool_prop_intro. rewrite !Is_true_true, !samePodRoute_spec.
  by rewrite !project_ready, !project_scheme, !project_containerID.
Qed.

(** Projecting again changes nothing. *)
Lemma first_match_idemp {A} (f : A → option A) l :
  (∀ x y, f x = Some y → f y = Some y) → first_match f (first_match f l) = first_match f l.
Proof. intros Hf. induction l as [|x l IH]; [done|]. cbn. destruct (f x) eqn:Hx; [|exact IH]. cbn. by erewrite Hf. Qed.

Lemma project_container_idemp c : project_container (project_container c) = project_container c.
Proof. unfold project_container. cbn [container_Name container_Command container_Args]. by rewrite !project_flag. Qed.

Lemma project_labels_idemp labels : project_labels (project_labels labels) = project_labels labels.
Proof.
  unfold project_labels. apply map_eq. intros k. rewrite collect_lookup. case_bool_decide as Hk; [done|].
  by rewrite collect_lookup, bool_decide_eq_false_2.
Qed.

Lemma project_pod_idemp p : project_pod (project_pod p) = project_pod p.
Proof.
  assert (∀ l, first_match postgres_container (first_match postgres_container l) = first_match postgres_container l) as Hc.
  { intros l. apply first_match_idemp. intros x y. unfold postgres_container. case_bool_decide; [|done]. intros [= <-].
    rewrite bool_decide_eq_true_2 by done. by rewrite project_container_idemp. }
  assert (∀ l, first_match ready_condition (first_match ready_condition l) = first_match ready_condition l) as Hr.
  { intros l. apply first_match_idemp. intros x y. unfold ready_condition. case_bool_decide; [|done]. intros [= <-].
    by rewrite bool_decide_eq_true_2. }
  assert (∀ l, first_match postgres_status (first_match postgres_status l) = first_match postgres_status l) as Hs.
  { intros l. apply first_match_idemp. intros x y. unfold postgres_status. case_bool_decide; [|done]. intros [= <-].
    by rewrite bool_decide_eq_true_2. }
  unfold project_pod at 1. cbn [pod_Labels pod_Containers pod_Conditions pod_ContainerStatuses project_pod].
  by rewrite Hc, Hr, Hs, project_labels_idemp.
Qed.

Section pods.
Context `{TextLibrary, MapRange, !Unstructured}.

Lemma project_owned c items : ownedPods c (project_pod <$> items) = project_pod <$> ownedPods c items.
Proof.
  unfold ownedPods. rewrite <-(sort_Slice_fmap pod_less pod_less) by done. f_equal.
  induction items as [|p items IH]; [done|]. rewrite fmap_cons, !filter_cons. cbn [project_pod pod_OwnerReferences].
  case_decide; [rewrite fmap_cons; by f_equal|exact IH].
Qed.

Lemma project_member params name p role reason timeline lsn :
  pod_member params name (project_pod p) role reason timeline lsn = pod_member params name p role reason timeline lsn.
Proof. unfold pod_member. rewrite !project_label by set_solver. done. Qed.

Lemma project_pods_snapshot c pods results params at_ ttl :
  buildSnapshot c (project_pod <$> pods) results params at_ ttl = buildSnapshot c pods results params at_ ttl.
Proof.
  unfold buildSnapshot. destruct (fenced_instances c) as [fenced|]; [|done].
  assert (∀ i acc, scan_pods c params fenced i (project_pod <$> pods) results acc
    = scan_pods c params fenced i pods results acc) as ->; [|done].
  induction pods as [|p pods IH]; intros i acc; [done|]. cbn. destruct (results !! i) as [r|]; [|done]. cbn.
  rewrite IH. f_equal. unfold scan_pod. by rewrite project_ready, !project_member.
Qed.
End pods.

Section claims.
Context `{TextLibrary, MapRange, !Unstructured, !UnstructuredLaws}.

(** C27: topology discovery over the caches is topology discovery over the objects: the
    projection of a Cluster has the same parameters, and with the projections of
    its Pods it yields the same owned Pods and the same snapshot. *)
Theorem cached_snapshot_equivalent c items results params at_ ttl :
  well_shaped c →
  parameters (project_cluster c) = parameters c
  ∧ ownedPods (project_cluster c) (project_pod <$> items) = project_pod <$> ownedPods c items
  ∧ buildSnapshot (project_cluster c) (ownedPods (project_cluster c) (project_pod <$> items)) results params at_ ttl
    = buildSnapshot c (ownedPods c items) results params at_ ttl.
Proof.
  intros Hw. pose proof (project_cluster_reads c Hw) as Hr.
  assert (ownedPods (project_cluster c) (project_pod <$> items) = project_pod <$> ownedPods c items) as Ho
    by (rewrite (same_reads_owned _ _ _ Hr); apply project_owned).
  split; [by apply project_parameters|]. split; [exact Ho|].
  rewrite Ho, (same_reads_snapshot _ _ _ _ _ _ _ Hr). apply project_pods_snapshot.
Qed.

(** The event handlers compare cached objects as they would compare the objects
    themselves: whether a Cluster or Pod route changed, which CA a Cluster uses and
    which Cluster owns a Pod do not depend on the projection, and projecting a Pod
    again changes nothing. *)
Theorem cached_comparisons_equivalent a b p q :
  well_shaped a → well_shaped b → distinct_containers p → distinct_containers q →
  sameClusterRoute (project_cluster a) (project_cluster b) = sameClusterRoute a b
  ∧ indexServerCA (project_cluster a) = indexServerCA a
  ∧ samePodRoute (project_pod p) (project_pod q) = samePodRoute p q
  ∧ same_pod (Some (project_pod p)) (Some (project_pod q)) = same_pod (Some p) (Some q)
  ∧ podCluster (Live (project_pod p)) = podCluster (Live p)
  ∧ transformPodCache (transformPodCache (Some p)) = transformPodCache (Some p).
Proof.
  intros Ha Hb Hp Hq. split_and!.
  - by apply same_reads_route; apply project_cluster_reads.
  - by apply same_reads_index, project_cluster_reads.
  - by apply project_route.
  - unfold same_pod, zone_label, region_label. rewrite project_route, !project_label by (done || set_solver). done.
  - done.
  - unfold transformPodCache. cbn [fmap option_fmap option_map]. by rewrite project_pod_idemp.
Qed.

(** A Cluster whose whole spec is not a map is rejected before the projection and
    enrolled after it. *)
Lemma malformed_spec_enrolled c s :
  c !! "spec" = Some (Str s) → map_value (GetAnnotations c) EnabledAnnotation ≠ "false" →
  (parameters c).1.1 = false ∧ (∃ l, NestedSlice (project_cluster c) ["spec"; "plugins"] = (l, false, false)).
Proof.
  intros Hs He. unfold parameters. rewrite bool_decide_eq_false_2 by done. rewrite !NestedSlice_law. unfold nested_as.
  cbn [field_at]. rewrite Hs. cbn. split; [done|]. rewrite project_cluster_spec. cbn [field_at].
  unfold project_spec, map_field. rewrite Hs. cbn. by exists [].
Qed.
End claims.

(** ** Concrete objects *)

Section example.
#[local] Existing Instances plain_access plain_text plain_range plain_access_laws.

(** A Cluster with unrelated annotations, plugins and configuration. *)
Definition obj (l : list (string * any)) : any := Map (list_to_map l).

Definition full_cluster : object := list_to_map [
  ("metadata", obj [("namespace", Str "app"); ("name", Str "db"); ("uid", Str "u-1"); ("managedFields", Slice [Nil]);
     ("annotations", obj [("note", Str "x"); (fencedInstancesAnnotation, Str "[]")])]);
  ("spec", obj [("instances", Int 3);
     ("plugins", Slice [obj [("name", Str "other")]; obj [("name", Str PluginName); ("enabled", Bool true)]]);
     ("bootstrap", obj [("initdb", obj [("database", Str "app"); ("owner", Str "app")])])]);
  ("status", obj [("currentPrimary", Str "db-1"); ("phase", Str "ok"); ("targetPrimary", Str "db-1")])].

Lemma full_cluster_shaped : well_shaped full_cluster.
Proof.
  split; [vm_compute; exact I..|]. apply map_Forall_to_list.
  apply (bool_decide_eq_true_1 _). vm_compute. reflexivity.
Qed.

Lemma cached_snapshot_equivalent_witness :
  buildSnapshot (project_cluster full_cluster) (ownedPods (project_cluster full_cluster) (project_pod <$> example_pods))
    example_results no_parameters 10 20
  = buildSnapshot full_cluster (ownedPods full_cluster example_pods) example_results no_parameters 10 20.
Proof. apply (cached_snapshot_equivalent full_cluster example_pods). exact full_cluster_shaped. Defined.

Lemma cached_comparisons_equivalent_witness :
  sameClusterRoute (project_cluster full_cluster) (project_cluster (example_cluster "db-1"))
  = sameClusterRoute full_cluster (example_cluster "db-1").
Proof.
  apply (cached_comparisons_equivalent full_cluster (example_cluster "db-1") (example_pod "db-1" "True") (example_pod "db-2" "True")).
  - exact full_cluster_shaped.
  - split; [vm_compute; exact I..|]. apply map_Forall_to_list. constructor.
  - constructor.
  - constructor.
Defined.
End example.
