(* ===== verification/Watch.v ===== *)
(** * Metadata watches (src/internal/observer/watch.go, observer.go)

    Each of the observer's three metadata watches has a health flag of its own.
    [startWatch] begins a watch, [trackWatch] forwards its events in a goroutine
    until the watch ends, and client-go starts the next one, possibly before the
    goroutine of the last has finished.  A watch is a position in that code; every
    atomic store and counter is a step of [watch_do]. *)

From S2P Require Import Prelude.

Inductive watch_phase :=
  | WatchStarting   (* begin was called; the request is in progress *)
  | WatchFailed     (* the request failed: startWatch returned an error *)
  | WatchRunning    (* the goroutine of trackWatch forwards events *)
  | WatchStopping   (* the loop returned; the source is being stopped *)
  | WatchEnded.     (* the goroutine is done *)

#[export] Instance watch_phase_eq_dec : EqDecision watch_phase.
Proof. solve_decision. Defined.

(** A watch with its health flag, and whether an error event was received. *)
Record watch := Watch {
  watch_phase_ : watch_phase;
  watch_healthy : bool; (* *atomic.Bool *)
  watch_errored : bool;
}.

(** [watchHealth]: the flag of the latest watch; watches are identified by the
    address of their flag.  The counters are the observer's. *)
Record watchHealth := {
  current : option positive;
  watches : gmap positive watch;
  watchStarts : Z; (* uint64 *)
  watchEnds : Z; (* uint64 *)
  watchErrors : Z; (* uint64 *)
}.

Definition no_watch : watchHealth := {|
  current := None; watches := ∅; watchStarts := 0; watchEnds := 0; watchErrors := 0;
|}.

(** [h.begin()]. *)
Definition begin (id : positive) (h : watchHealth) : watchHealth := {|
  current := Some id; watches := <[id := Watch WatchStarting false false]> (watches h);
  watchStarts := watchStarts h; watchEnds := watchEnds h; watchErrors := watchErrors h;
|}.

(** [h.Load()]. *)
Definition Load (h : watchHealth) : bool :=
  match current h with
  | Some id => match watches h !! id with Some w => watch_healthy w | None => false end
  | None => false
  end.

(** Replace a watch and advance the counters. *)
Definition set_watch (id : positive) (w : watch) (dstarts dends derrors : Z) (h : watchHealth) : watchHealth := {|
  current := current h; watches := <[id := w]> (watches h);
  watchStarts := wrap_u64 (watchStarts h + dstarts); watchEnds := wrap_u64 (watchEnds h + dends);
  watchErrors := wrap_u64 (watchErrors h + derrors);
|}.

(** The result of [start]: an error or an expired context, or a running watch,
    which [trackWatch] marks healthy. *)
Definition startWatch (id : positive) (w : watch) (failed : bool) (h : watchHealth) : option watchHealth :=
  match watch_phase_ w with
  | WatchStarting =>
      Some (if failed then set_watch id (Watch WatchFailed (watch_healthy w) (watch_errored w)) 0 0 1 h
            else set_watch id (Watch WatchRunning true (watch_errored w)) 1 0 0 h)
  | _ => None
  end.

(** An iteration of the loop that received an event; [errored] for [watch.Error]. *)
Definition watch_event (id : positive) (w : watch) (errored : bool) (h : watchHealth) : option watchHealth :=
  match watch_phase_ w with
  | WatchRunning =>
      Some (if errored then set_watch id (Watch WatchRunning false true) 0 0 1 h else h)
  | _ => None
  end.

(** The loop returns: the context is done, the consumer stopped, or the source
    closed.  The deferred calls up to [source.Stop] and [w.Stop] run. *)
Definition watch_return (id : positive) (w : watch) (h : watchHealth) : option watchHealth :=
  match watch_phase_ w with
  | WatchRunning => Some (set_watch id (Watch WatchStopping (watch_healthy w) (watch_errored w)) 0 0 0 h)
  | _ => None
  end.

(** The deferred [healthy.Store(false)] and [watchEnds.Add(1)]. *)
Definition watch_end (id : positive) (w : watch) (h : watchHealth) : option watchHealth :=
  match watch_phase_ w with
  | WatchStopping => Some (set_watch id (Watch WatchEnded false (watch_errored w)) 0 1 0 h)
  | _ => None
  end.

Inductive watch_action :=
  | DoBegin (id : positive)
  | DoStart (id : positive) (failed : bool)
  | DoEvent (id : positive) (errored : bool)
  | DoReturn (id : positive)
  | DoEnd (id : positive).

Definition watch_do (a : watch_action) (h : watchHealth) : option watchHealth :=
  match a with
  | DoBegin id => guard (watches h !! id = None) ;; Some (begin id h)
  | DoStart id failed => w ← watches h !! id; startWatch id w failed h
  | DoEvent id errored => w ← watches h !! id; watch_event id w errored h
  | DoReturn id => w ← watches h !! id; watch_return id w h
  | DoEnd id => w ← watches h !! id; watch_end id w h
  end.

Definition watch_run (l : list watch_action) (h : watchHealth) : option watchHealth :=
  foldl (λ h a, h ← h; watch_do a h) (Some h) l.

(** ** Readiness of the observer *)

Record health := {
  ready : bool; (* the caches have synced, and Run has not returned *)
  clusterWatch : watchHealth;
  podWatch : watchHealth;
  secretWatch : watchHealth;
}.

Definition Ready (o : health) : bool :=
  ready o && Load (clusterWatch o) && Load (podWatch o) && Load (secretWatch o).
