(* ===== verification/WatchProps.v ===== *)
(** * Correctness of the metadata watches

    The observer counts a watch as healthy exactly while the latest watch runs
    and has reported no error; what an older watch still does has no effect. *)

From S2P Require Import Prelude Watch.

(** The goroutine of the watch runs, and no error was received. *)
Definition live (w : watch) : bool :=
  (bool_decide (watch_phase_ w = WatchRunning) || bool_decide (watch_phase_ w = WatchStopping))
  && negb (watch_errored w).

(** The watch has been counted as started, or as ended. *)
Definition started (w : watch) : bool :=
  match watch_phase_ w with WatchRunning | WatchStopping | WatchEnded => true | _ => false end.
Definition ended (w : watch) : bool := bool_decide (watch_phase_ w = WatchEnded).

Record health_wf (h : watchHealth) : Prop := {
  health_current : ∀ id, current h = Some id → is_Some (watches h !! id);
  health_flags : map_Forall (λ _ w, watch_healthy w = live w) (watches h);
  health_errors : map_Forall (λ _ w, watch_errored w = true → started w = true) (watches h);
  health_starts : watchStarts h = wrap_u64 (count started (watches h));
  health_ends : watchEnds h = wrap_u64 (count ended (watches h));
}.

Lemma no_watch_wf : health_wf no_watch.
Proof. split; [done|apply map_Forall_empty..|done|done]. Qed.

Definition member (f : watch → bool) (w : watch) : Z := if f w then 1 else 0.

(** Replacing a watch keeps the invariant when the flag and the counters match. *)
Lemma set_watch_wf id w w' ds de dr h :
  health_wf h → watches h !! id = Some w → watch_healthy w' = live w' →
  (watch_errored w' = true → started w' = true) →
  ds = member started w' - member started w → de = member ended w' - member ended w →
  health_wf (set_watch id w' ds de dr h).
Proof.
  intros [Hc Hf He Hs Hn] Hw Hh Her -> ->. split; cbn.
  - intros i Hi. destruct (decide (id = i)) as [->|Hne]; [by rewrite lookup_insert_eq|].
    rewrite lookup_insert_ne by done. by apply Hc.
  - by apply map_Forall_insert_2.
  - by apply map_Forall_insert_2.
  - rewrite Hs, count_insert, Hw. unfold wrap_u64, member. rewrite Zplus_mod_idemp_l. f_equal. lia.
  - rewrite Hn, count_insert, Hw. unfold wrap_u64, member. rewrite Zplus_mod_idemp_l. f_equal. lia.
Qed.

Lemma begin_wf id h : health_wf h → watches h !! id = None → health_wf (begin id h).
Proof.
  intros [Hc Hf He Hs Hn] Hw. split; cbn [begin current watches watchStarts watchEnds].
  - intros i [= <-]. by rewrite lookup_insert_eq.
  - by apply map_Forall_insert_2.
  - by apply map_Forall_insert_2.
  - rewrite Hs, count_insert, Hw. f_equal. change (started (Watch WatchStarting false false)) with false. cbv iota. lia.
  - rewrite Hn, count_insert, Hw. f_equal. change (ended (Watch WatchStarting false false)) with false. cbv iota. lia.
Qed.

Lemma watch_do_wf a h h' : health_wf h → watch_do a h = Some h' → health_wf h'.
Proof.
  intros Hwf. destruct a as [id|id failed|id errored|id|id]; cbn.
  { case_guard; [|done]. intros [= <-]. by apply begin_wf. }
  all: destruct (watches h !! id) as [w|] eqn:Hw; [|done]; cbn.
  all: pose proof (health_flags _ Hwf _ _ Hw) as Hflag; pose proof (health_errors _ Hwf _ _ Hw) as Herr; cbn in Hflag, Herr.
  all: unfold live, started in Hflag, Herr.
  - unfold startWatch. destruct (watch_phase_ w) eqn:Hp; try done.
    assert (watch_errored w = false) as Hno by (destruct (watch_errored w); naive_solver).
    destruct failed; intros [= <-]; eapply set_watch_wf; eauto; unfold member, started, ended, live; rewrite ?Hno, ?Hp, ?Hflag; done.
  - unfold watch_event. destruct (watch_phase_ w) eqn:Hp; try done.
    destruct errored; intros [= <-]; [|done]. eapply set_watch_wf; eauto; unfold member, started, ended; by rewrite ?Hp.
  - unfold watch_return. destruct (watch_phase_ w) eqn:Hp; try done. intros [= <-].
    eapply set_watch_wf; eauto; unfold member, started, ended, live; rewrite ?Hp, ?Hflag; done.
  - unfold watch_end. destruct (watch_phase_ w) eqn:Hp; try done. intros [= <-].
    eapply set_watch_wf; eauto; unfold member, started, ended, live; rewrite ?Hp; done.
Qed.

Lemma watch_run_wf l h h' : health_wf h → watch_run l h = Some h' → health_wf h'.
Proof.
  intros Hwf. unfold watch_run. revert h'. induction l as [|a l IH] using rev_ind; intros h'; [by intros [= <-]|].
  rewrite foldl_snoc. destruct (foldl _ _ l) as [h1|]; [|done]. cbn. intros Hdo. eapply watch_do_wf; [|done]. by apply IH.
Qed.

(** The latest watch is running and has reported no error. *)
Definition current_live (h : watchHealth) : Prop :=
  ∃ id w, current h = Some id ∧ watches h !! id = Some w ∧ live w = true.

Lemma Load_exact h : health_wf h → (Load h = true ↔ current_live h).
Proof.
  intros Hwf. unfold Load, current_live. destruct (current h) as [id|] eqn:Hc; [|naive_solver].
  destruct (health_current _ Hwf _ Hc) as [w Hw]. rewrite Hw. rewrite (health_flags _ Hwf _ _ Hw). naive_solver.
Qed.

Definition action_watch (a : watch_action) : positive :=
  match a with DoBegin id | DoStart id _ | DoEvent id _ | DoReturn id | DoEnd id => id end.

(** A step of another watch than the latest does not change what is loaded. *)
Lemma retired_watch_silent a h h' :
  watch_do a h = Some h' → current h ≠ Some (action_watch a) → current h' = current h → Load h' = Load h.
Proof.
  intros Hdo Hne Hcur. unfold Load. rewrite Hcur. destruct (current h) as [c|] eqn:Hc; [|done].
  assert (∀ id w ds de dr, c ≠ id → watches (set_watch id w ds de dr h) !! c = watches h !! c) as Hset
    by (intros; cbn; by rewrite lookup_insert_ne).
  destruct a as [id|id failed|id errored|id|id]; cbn in Hdo, Hne; assert (c ≠ id) as Hid by congruence.
  { case_guard; [|done]. cbn in Hdo. injection Hdo as <-. exfalso. cbn in Hcur. congruence. }
  all: destruct (watches h !! id) as [w|]; [|done]; cbn in Hdo.
  all: revert Hdo; unfold startWatch, watch_event, watch_return, watch_end; repeat case_match; intros; simplify_eq;
    rewrite ?Hset in * by done; congruence.
Qed.

(** C28: however watches start, fail, report errors, end and overlap, the observer is
    ready exactly when its caches have synced and the latest Cluster, Pod and
    Secret watches each run without a reported error; a step of an older watch
    does not change this, and the counters count the watches started and ended. *)
Theorem readiness_exact synced lc lp ls hc hp hs :
  watch_run lc no_watch = Some hc → watch_run lp no_watch = Some hp → watch_run ls no_watch = Some hs →
  (Ready {| ready := synced; clusterWatch := hc; podWatch := hp; secretWatch := hs |} = true
   ↔ synced = true ∧ current_live hc ∧ current_live hp ∧ current_live hs)
  ∧ (∀ a h', watch_do a hc = Some h' → current hc ≠ Some (action_watch a) → current h' = current hc →
       Ready {| ready := synced; clusterWatch := h'; podWatch := hp; secretWatch := hs |}
       = Ready {| ready := synced; clusterWatch := hc; podWatch := hp; secretWatch := hs |})
  ∧ watchStarts hc = wrap_u64 (count started (watches hc)) ∧ watchEnds hc = wrap_u64 (count ended (watches hc)).
Proof.
  intros Hc Hp Hs. pose proof (watch_run_wf _ _ _ no_watch_wf Hc) as Wc.
  pose proof (watch_run_wf _ _ _ no_watch_wf Hp) as Wp. pose proof (watch_run_wf _ _ _ no_watch_wf Hs) as Ws.
  split_and!; [| |apply Wc..].
  - unfold Ready. cbn. rewrite !andb_true_iff, !Load_exact by done. tauto.
  - intros a h' Hdo Hne Hcur. unfold Ready. cbn. by rewrite (retired_watch_silent a hc h').
Qed.

(** A watch is replaced while its goroutine still runs; its end is not noticed. *)
Definition example_watches : list watch_action :=
  [DoBegin 1; DoStart 1 false; DoReturn 1; DoBegin 2; DoStart 2 false; DoEnd 1].

Lemma readiness_exact_witness :
  ∃ h, watch_run example_watches no_watch = Some h
    ∧ Ready {| ready := true; clusterWatch := h; podWatch := h; secretWatch := h |} = true.
Proof.
  destruct (watch_run example_watches no_watch) as [h|] eqn:E; [|vm_compute in E; discriminate E].
  exists h. split; [reflexivity|]. apply (readiness_exact true _ _ _ _ _ _ E E E).
  assert (current_live h) as Hl.
  { exists 2%positive, (Watch WatchRunning true false). vm_compute in E. injection E as <-. repeat split. }
  repeat split; exact Hl.
Defined.
