(* ===== verification/Requests.v ===== *)
(** * Requests to the Kubernetes API (src/internal/observer/watch.go, observer.go)

    The LIST and WATCH requests of the three informers: their resource, namespace
    and options.  client-go supplies the options it needs for paging and for
    resuming a watch; [initializeInformers] and [startWatch] add to them. *)

From S2P Require Import Prelude Settings SettingsProps.

Record GroupVersionResource := { gvr_Group : string; gvr_Version : string; gvr_Resource : string }.

Definition clusterResource : GroupVersionResource :=
  {| gvr_Group := "postgresql.cnpg.io"; gvr_Version := "v1"; gvr_Resource := "clusters" |}.
Definition podResource : GroupVersionResource := {| gvr_Group := ""; gvr_Version := "v1"; gvr_Resource := "pods" |}.
Definition secretResource : GroupVersionResource := {| gvr_Group := ""; gvr_Version := "v1"; gvr_Resource := "secrets" |}.

Record ListOptions := {
  LabelSelector : string;
  TimeoutSeconds : option Z; (* *int64 *)
  AllowWatchBookmarks : bool;
  ResourceVersion : string;
  Continue : string;
}.

Inductive verb := List | Watch.

Inductive watched := Clusters | Pods | Secrets.

(** A request; [req_metadata] for the client that reads metadata only, and
    [req_timeout] for the timeout of its context. *)
Record request := {
  req_verb : verb;
  req_resource : GroupVersionResource;
  req_metadata : bool;
  req_Namespace : string;
  req_options : ListOptions;
  req_timeout : option duration;
}.

Definition set_LabelSelector (v : string) (l : ListOptions) : ListOptions := {|
  LabelSelector := v; TimeoutSeconds := TimeoutSeconds l; AllowWatchBookmarks := AllowWatchBookmarks l;
  ResourceVersion := ResourceVersion l; Continue := Continue l;
|}.

Definition resource_of (w : watched) : GroupVersionResource :=
  match w with Clusters => clusterResource | Pods => podResource | Secrets => secretResource end.

Definition metadata_only (w : watched) : bool := match w with Secrets => true | Clusters | Pods => false end.

(** What the list and the watch function of an informer do to the selector. *)
Definition selected (w : watched) (l : ListOptions) : ListOptions :=
  match w with Pods => set_LabelSelector "cnpg.io/cluster" l | Clusters | Secrets => l end.

(** [ListWithContextFunc]. *)
Definition list_request (opts : Options) (w : watched) (l : ListOptions) : request := {|
  req_verb := List; req_resource := resource_of w; req_metadata := metadata_only w; req_Namespace := Namespace opts;
  req_options := selected w l; req_timeout := None;
|}.

(** [WatchFuncWithContext]: [watchClusters], [watchPods] or the function of the
    Secrets, then [startWatch] up to the call of [start]. *)
Definition watch_request (opts : Options) (w : watched) (l : ListOptions) : request := {|
  req_verb := Watch; req_resource := resource_of w; req_metadata := metadata_only w; req_Namespace := Namespace opts;
  req_options := {|
    LabelSelector := LabelSelector (selected w l); TimeoutSeconds := Some (watch_timeoutSeconds opts);
    AllowWatchBookmarks := true; ResourceVersion := ResourceVersion (selected w l); Continue := Continue (selected w l) |};
  req_timeout := Some (watch_lifetime opts);
|}.

(** ** Correctness

    A watch continues the list of its informer: it selects the same objects, and it
    is renewed before a snapshot can expire. *)

(** What a request selects: two requests with the same selection see the same objects. *)
Definition selection (r : request) : GroupVersionResource * bool * string * string :=
  (req_resource r, req_metadata r, req_Namespace r, LabelSelector (req_options r)).

(** With options that [New] accepted, the watch of an informer selects what its list
    selected, in the namespace of the observer and nowhere else, and resumes at the
    version it was given; Secrets are only read as metadata.  It lasts at most half
    of the validity of a snapshot and at most 30 seconds, and from a validity of two
    seconds the API server ends it no later than the client would. *)
Theorem watch_continues_list o opts w listed resumed :
  options_typed o → New_options o = inr opts → LabelSelector resumed = LabelSelector listed →
  let r := watch_request opts w resumed in
  selection r = selection (list_request opts w listed)
  ∧ req_Namespace r = Namespace opts ∧ ResourceVersion (req_options r) = ResourceVersion resumed
  ∧ (gvr_Resource (req_resource r) = "secrets" → req_metadata r = true)
  ∧ ∃ lifetime seconds, req_timeout r = Some lifetime ∧ TimeoutSeconds (req_options r) = Some seconds
      ∧ 2 * lifetime ≤ TTL opts ∧ lifetime ≤ 30 * second ∧ 1 ≤ seconds
      ∧ (2 * second ≤ TTL opts → seconds * second ≤ lifetime).
Proof.
  intros Hty Hnew Hsel. apply New_options_ok in Hnew as ([Hp Hr Ht _ _] & _); [|done]. cbv zeta. split_and!.
  - unfold selection. by destruct w; cbn; rewrite ?Hsel.
  - done.
  - by destruct w.
  - by destruct w.
  - exists (watch_lifetime opts), (watch_timeoutSeconds opts). split_and!; [done..| | | |];
      unfold watch_timeoutSeconds, watch_lifetime, second, millisecond, nanosecond in *; Z.to_euclidean_division_equations; lia.
Qed.

(** The default options and the Pods after a first list. *)
Definition no_options : ListOptions :=
  {| LabelSelector := ""; TimeoutSeconds := None; AllowWatchBookmarks := false; ResourceVersion := ""; Continue := "" |}.

Lemma watch_continues_list_witness :
  selection (watch_request (observer_options (insecure_settings (5 * second) (15 * second) (2 * second))) Pods no_options)
  = selection (list_request (observer_options (insecure_settings (5 * second) (15 * second) (2 * second))) Pods no_options).
Proof.
  eapply (watch_continues_list (observer_options (insecure_settings (5 * second) (15 * second) (2 * second)))).
  - apply insecure_typed; vm_compute; split; discriminate.
  - reflexivity.
  - reflexivity.
Defined.
