(* ===== verification/Probing.v ===== *)
(** * Probing the instances (src/internal/observer/collection.go, work.go)

    [probeInstances] walks over the Pods, acquires a probe slot for each and starts
    a goroutine that stores the instance's status at the Pod's index and then gives
    the slot back.  The first Pod is the expected primary: when it cannot be
    verified, the remaining probes are stopped.  The loop, its goroutines and the
    other callers of [acquireProbe] are steps of [probing_do] on the shared
    semaphores of [Work]: a full semaphore blocks the loop. *)

From S2P Require Import Prelude Api Config Kube Topology Work.

(** The caller of [acquireProbe] for the Pod at index [i], and the callers of other
    observations. *)
Definition own (i : nat) : positive := (Pos.of_succ_nat i)~0.

Definition other (p : positive) : bool := match p with (_~0)%positive => false | _ => true end.

Definition action_caller (a : probe_action) : positive :=
  match a with ProbeCall p _ | ProbeStep p | ProbeCancel p | ProbeRelease p => p end.

Record probing := {
  pr_next : nat;              (* the loop variable i *)
  pr_acquiring : bool;        (* the loop is in acquireProbe *)
  pr_running : gset nat;      (* goroutines that have not stored their result *)
  pr_releasing : gset nat;    (* goroutines that have, and run release *)
  pr_results : list statusResult;
  pr_stopped : bool;          (* probeContext is done *)
  pr_probes : probes;         (* the semaphores, shared with other observations *)
}.

Definition zero_result : statusResult := {| result_status := no_status; result_err := None |}.

Definition failed_result (err : error) : statusResult := {| result_status := no_status; result_err := Some err |}.

(** The error of [probeContext]. *)
Definition ErrContextDone : error := ErrProbe "context canceled".

(** The test on the first result: the expected primary is verified. *)
Definition primary_verified (r : statusResult) : bool :=
  bool_decide (result_err r = None) && bool_decide (IsPrimary (result_status r) = Some true)
  && negb (Unavailable (result_status r)) && negb (Rewinding (result_status r)).

Definition probing_init (pods : list Pod) (P : probes) : probing := {|
  pr_next := 0; pr_acquiring := false; pr_running := ∅; pr_releasing := ∅;
  pr_results := replicate (length pods) zero_result; pr_stopped := false; pr_probes := P;
|}.

Inductive probing_action :=
  | LoopNext                              (* the head of the loop up to the test of the context in acquireProbe *)
  | AcquireStep                           (* the next channel operation of acquireProbe *)
  | AcquireCancel                         (* acquireProbe was blocked and returns the context's error *)
  | Probed (i : nat) (r : statusResult)   (* goroutine i stored its result *)
  | ReleaseStep (i : nat)                 (* the next channel operation of its release *)
  | Interrupted                           (* the observation's context is done *)
  | Others (a : probe_action).            (* a step of another observation *)

(** Store the result of the current Pod and go on to the next. *)
Definition advance (r : option statusResult) (running : gset nat) (stopped : bool) (P : probes) (s : probing) : probing := {|
  pr_next := S (pr_next s); pr_acquiring := false; pr_running := running; pr_releasing := pr_releasing s;
  pr_results := match r with Some r => <[pr_next s := r]> (pr_results s) | None => pr_results s end;
  pr_stopped := stopped; pr_probes := P;
|}.

(** The loop stays at the current Pod. *)
Definition acquiring (P : probes) (s : probing) : probing := {|
  pr_next := pr_next s; pr_acquiring := true; pr_running := pr_running s; pr_releasing := pr_releasing s;
  pr_results := pr_results s; pr_stopped := pr_stopped s; pr_probes := P;
|}.

Definition loop_next (urgent : bool) (pods : list Pod) (s : probing) : option probing :=
  pod ← pods !! pr_next s;
  if negb (podReady pod)
  then Some (advance (Some (failed_result ErrPodNotReady)) (pr_running s)
               (pr_stopped s || (pr_next s =? 0)%nat) (pr_probes s) s)
  else
    P ← probe_do (ProbeCall (own (pr_next s)) urgent) (pr_probes s);
    if pr_stopped s
    then P ← probe_do (ProbeCancel (own (pr_next s))) P;
         Some (advance (Some (failed_result ErrContextDone)) (pr_running s) (pr_stopped s) P s)
    else Some (acquiring P s).

(** The phase of a caller. *)
Definition in_phase (ph : phase) (p : positive) (P : probes) : bool :=
  match callers P !! p with Some c => bool_decide (caller_phase c = ph) | None => false end.

(** [acquireProbe] goes on; when it returns its release function the goroutine is
    started. *)
Definition acquire_next (s : probing) : option probing :=
  P ← probe_do (ProbeStep (own (pr_next s))) (pr_probes s);
  Some (if in_phase Holding (own (pr_next s)) P
        then advance None ({[pr_next s]} ∪ pr_running s) (pr_stopped s) P s else acquiring P s).

(** The context is tested once at entry and afterwards only while blocked. *)
Definition acquire_cancel (s : probing) : option probing :=
  if in_phase Entered (own (pr_next s)) (pr_probes s) then None
  else P ← probe_do (ProbeCancel (own (pr_next s))) (pr_probes s);
       Some (advance (Some (failed_result ErrContextDone)) (pr_running s) (pr_stopped s) P s).

Definition probe_finished (i : nat) (r : statusResult) (s : probing) : probing := {|
  pr_next := pr_next s; pr_acquiring := pr_acquiring s; pr_running := pr_running s ∖ {[i]};
  pr_releasing := {[i]} ∪ pr_releasing s; pr_results := <[i := r]> (pr_results s);
  pr_stopped := pr_stopped s || ((i =? 0)%nat && negb (primary_verified r)); pr_probes := pr_probes s;
|}.

(** [defer release()]: the goroutine has ended when both channels were received from. *)
Definition release_next (i : nat) (s : probing) : option probing :=
  P ← probe_do (ProbeRelease (own i)) (pr_probes s);
  Some {| pr_next := pr_next s; pr_acquiring := pr_acquiring s; pr_running := pr_running s;
          pr_releasing := if in_phase Finished (own i) P then pr_releasing s ∖ {[i]} else pr_releasing s;
          pr_results := pr_results s; pr_stopped := pr_stopped s; pr_probes := P |}.

Definition set_probing (stopped : bool) (P : probes) (s : probing) : probing := {|
  pr_next := pr_next s; pr_acquiring := pr_acquiring s; pr_running := pr_running s; pr_releasing := pr_releasing s;
  pr_results := pr_results s; pr_stopped := stopped; pr_probes := P;
|}.

Definition probing_do (urgent : bool) (pods : list Pod) (a : probing_action) (s : probing) : option probing :=
  match a with
  | LoopNext => if pr_acquiring s then None else loop_next urgent pods s
  | AcquireStep => if pr_acquiring s then acquire_next s else None
  | AcquireCancel => if pr_acquiring s && pr_stopped s then acquire_cancel s else None
  | Probed i r => if bool_decide (i ∈ pr_running s) then Some (probe_finished i r s) else None
  | ReleaseStep i => if bool_decide (i ∈ pr_releasing s) then release_next i s else None
  | Interrupted => Some (set_probing true (pr_probes s) s)
  | Others a =>
      if other (action_caller a) then P ← probe_do a (pr_probes s); Some (set_probing (pr_stopped s) P s) else None
  end.

Definition probing_run (urgent : bool) (pods : list Pod) (l : list probing_action) (P : probes) : option probing :=
  foldl (λ s a, s ← s; probing_do urgent pods a s) (Some (probing_init pods P)) l.

(** [probes.Wait()] returned. *)
Definition probing_returned (pods : list Pod) (s : probing) : bool :=
  (length pods <=? pr_next s)%nat && negb (pr_acquiring s)
  && bool_decide (pr_running s = ∅) && bool_decide (pr_releasing s = ∅).
