(* ===== verification/ProbingProps.v ===== *)
(** * Correctness of probing

    Every Pod gets exactly one result, the call returns after boundedly many steps
    of its own and gives back every slot it took, and it waits only for slots that
    other observations hold, however the goroutines, their probes, cancellations
    and the other observations interleave. *)

From S2P Require Import Prelude Api Config Kube Topology TopologyProps Work WorkProps Probing.

(** ** Results *)

(** What the result of Pod [i] may be after the actions [l]. *)
Definition settled_result (l : list probing_action) (stopped : bool) (pods : list Pod) (i : nat) (r : statusResult) : Prop :=
  ∃ pod, pods !! i = Some pod ∧
    (podReady pod = false ∧ r = failed_result ErrPodNotReady
     ∨ podReady pod = true ∧ (r = failed_result ErrContextDone ∧ stopped = true ∨ Probed i r ∈ l)).

Record probing_wf (pods : list Pod) (l : list probing_action) (s : probing) : Prop := {
  probing_length : length (pr_results s) = length pods;
  probing_next : (pr_next s ≤ length pods)%nat;
  probing_acquiring : pr_acquiring s = true → ∃ pod, pods !! pr_next s = Some pod ∧ podReady pod = true;
  probing_running : ∀ i, i ∈ pr_running s → (i < pr_next s)%nat ∧ ∃ pod, pods !! i = Some pod ∧ podReady pod = true;
  probing_releasing : ∀ i, i ∈ pr_releasing s → (i < pr_next s)%nat ∧ i ∉ pr_running s;
  probing_settled : ∀ i r, (i < pr_next s)%nat → i ∉ pr_running s → pr_results s !! i = Some r →
    settled_result l (pr_stopped s) pods i r;
  probing_primary : ∀ r, (0 < pr_next s)%nat → 0%nat ∉ pr_running s → pr_results s !! 0%nat = Some r →
    primary_verified r = false → pr_stopped s = true;
}.

Lemma settled_snoc l b b' pods i r a :
  settled_result l b pods i r → (b = true → b' = true) → settled_result (l ++ [a]) b' pods i r.
Proof. intros (pod & Hp & Hor) Hb. exists pod. set_solver. Qed.

Lemma probing_init_wf pods P : probing_wf pods [] (probing_init pods P).
Proof. split; cbn; [apply length_replicate|lia|done|set_solver|set_solver|lia|lia]. Qed.

(** Storing a failure for the current Pod. *)
Lemma advance_failed_wf pods l s a err stopped pod P :
  probing_wf pods l s → pods !! pr_next s = Some pod →
  (podReady pod = false ∧ err = ErrPodNotReady ∨ podReady pod = true ∧ err = ErrContextDone ∧ stopped = true) →
  (pr_stopped s = true ∨ pr_next s = 0%nat → stopped = true) →
  probing_wf pods (l ++ [a]) (advance (Some (failed_result err)) (pr_running s) stopped P s).
Proof.
  intros [Hl Hn Ha Hr Hre Hs Hp] Hpod Herr Hst. pose proof (lookup_lt_Some _ _ _ Hpod) as Hlt.
  split; cbn; [by rewrite length_insert|lia|done| | | |].
  - intros i Hi. destruct (Hr i Hi) as [? ?]. split; [lia|done].
  - intros i Hi. destruct (Hre i Hi) as [? ?]. split; [lia|done].
  - intros i r Hi Hni Hri. destruct (decide (i = pr_next s)) as [->|Hne].
    + rewrite list_lookup_insert_eq in Hri by lia. injection Hri as <-. exists pod. naive_solver.
    + rewrite list_lookup_insert_ne in Hri by done. eapply settled_snoc; [apply Hs; [lia|done..]|auto].
  - intros r _ H0 Hr0 Hv. destruct (decide (pr_next s = 0%nat)) as [Hz|Hz]; [auto|].
    rewrite list_lookup_insert_ne in Hr0 by done. apply Hst. left. eapply Hp; [lia|done..].
Qed.

(** A step that neither passes a Pod nor stores a result. *)
Lemma same_wf pods l s s' a :
  probing_wf pods l s → pr_next s' = pr_next s → pr_running s' = pr_running s → pr_releasing s' ⊆ pr_releasing s →
  pr_results s' = pr_results s → (pr_stopped s = true → pr_stopped s' = true) →
  (pr_acquiring s' = true → ∃ pod, pods !! pr_next s = Some pod ∧ podReady pod = true) →
  probing_wf pods (l ++ [a]) s'.
Proof.
  intros [Hl Hn Ha Hr Hre Hs Hp] Hnx Hru Hrl Hrs Hst Hac. split; rewrite ?Hnx, ?Hru, ?Hrs; auto.
  - intros i r Hi Hni Hri. by eapply settled_snoc; [apply Hs|].
  - intros r H0 Hn0 Hr0 Hv. by apply Hst, (Hp r).
Qed.

Lemma probing_do_wf urgent pods l s a s' :
  probing_wf pods l s → probing_do urgent pods a s = Some s' → probing_wf pods (l ++ [a]) s'.
Proof.
  intros Hwf. pose proof Hwf as [Hl Hn Ha Hr Hre Hs Hp]. destruct a as [| | |i r|i| |a]; cbn [probing_do].
  - destruct (pr_acquiring s) eqn:Hacq; [done|]. unfold loop_next. destruct (pods !! pr_next s) as [pod|] eqn:Hpod; [|done].
    cbn [mbind option_bind]. destruct (podReady pod) eqn:Hready; cbn [negb].
    + intros (P & _ & Hdo)%bind_Some. destruct (pr_stopped s) eqn:Hstop.
      * apply bind_Some in Hdo as (P' & _ & [= <-]). by eapply advance_failed_wf; eauto.
      * injection Hdo as <-. eapply same_wf; try done. by eauto.
    + intros [= <-]. eapply advance_failed_wf; eauto. rewrite orb_true_iff, Nat.eqb_eq. tauto.
  - destruct (pr_acquiring s) eqn:Hacq; [|done]. destruct (Ha eq_refl) as (pod & Hpod & Hready).
    unfold acquire_next. intros (P & _ & [= <-])%bind_Some. pose proof (lookup_lt_Some _ _ _ Hpod).
    destruct (in_phase _ _ _); [|eapply same_wf; try done; by eauto]. split; cbn; [done|lia|done| | | |].
    + intros i [->%elem_of_singleton|Hi]%elem_of_union; [split; [lia|by eauto]|]. destruct (Hr i Hi). split; [lia|done].
    + intros i Hi. destruct (Hre i Hi). split; [lia|]. intros [->%elem_of_singleton|?]%elem_of_union; [lia|done].
    + intros i r Hi Hni Hri. eapply settled_snoc; [apply Hs; [|set_solver|done]|done]. assert (i ≠ pr_next s) by set_solver. lia.
    + intros r _ H0 Hr0. apply Hp; [|set_solver|done]. assert (0%nat ≠ pr_next s) by set_solver. lia.
  - destruct (pr_acquiring s) eqn:Hacq; [|done]. destruct (pr_stopped s) eqn:Hstop; [|done].
    destruct (Ha eq_refl) as (pod & Hpod & Hready). cbn [andb]. unfold acquire_cancel. case_match; [done|].
    intros (P & _ & [= <-])%bind_Some. by eapply advance_failed_wf; eauto.
  - case_bool_decide as Hin; [|done]. intros [= <-]. destruct (Hr i Hin) as [Hlt (pod & Hpod & Hready)].
    split; cbn; [by rewrite length_insert|done|done| | | |].
    + intros j Hj. apply Hr. set_solver.
    + intros j [->%elem_of_singleton|Hj]%elem_of_union; [split; [done|set_solver]|]. destruct (Hre j Hj). set_solver.
    + intros j r' Hj Hnj Hrj. destruct (decide (j = i)) as [->|Hne].
      * rewrite list_lookup_insert_eq in Hrj by lia. injection Hrj as <-. exists pod. set_solver.
      * rewrite list_lookup_insert_ne in Hrj by done.
        eapply settled_snoc; [apply Hs; [done|set_solver|done]|by intros ->].
    + intros r' H0 Hn0 Hr0 Hv. destruct (decide (i = 0%nat)) as [->|Hne].
      * rewrite list_lookup_insert_eq in Hr0 by lia. injection Hr0 as <-. rewrite Hv. by rewrite orb_true_r.
      * rewrite list_lookup_insert_ne in Hr0 by done. rewrite (Hp r' H0); [done|set_solver|done..].
  - case_bool_decide as Hin; [|done]. unfold release_next. intros (P & _ & [= <-])%bind_Some.
    eapply same_wf; try done. cbn. destruct (in_phase _ _ _); set_solver.
  - intros [= <-]. by eapply same_wf.
  - destruct (other _); [|done]. intros (P & _ & [= <-])%bind_Some. by eapply same_wf.
Qed.

(** ** Slots *)

(** Where the work for the Pod at index [i] is. *)
Inductive pod_stage := Ahead | InAcquire | InProbe | InRelease | Past.

Definition stage_of (s : probing) (i : nat) : pod_stage :=
  if decide (i ∈ pr_running s) then InProbe
  else if decide (i ∈ pr_releasing s) then InRelease
  else if (i <? pr_next s)%nat then Past
  else if (i =? pr_next s)%nat && pr_acquiring s then InAcquire else Ahead.

Definition slot_of (s : probing) (i : nat) : option caller := callers (pr_probes s) !! own i.

(** The caller of [acquireProbe] that belongs to a Pod. *)
Definition caller_ok (urgent : bool) (st : pod_stage) (c : option caller) : Prop :=
  match st, c with
  | Ahead, None | Past, None => True
  | Past, Some c => caller_phase c = Finished
  | InAcquire, Some c =>
      caller_urgent c = urgent ∧ Contains [Entered; AwaitBackground; TryProbe; AwaitProbe] (caller_phase c) = true
  | InProbe, Some c => c = Caller urgent Holding
  | InRelease, Some c => caller_urgent c = urgent ∧ (caller_phase c = Holding ∨ caller_phase c = Releasing)
  | _, _ => False
  end.

(** The steps that are left for a Pod, at most. *)
Definition pod_cost (st : pod_stage) (c : option caller) : nat :=
  match st with
  | Ahead => 8
  | InAcquire =>
      match caller_phase <$> c with Some Entered => 7 | Some AwaitBackground => 6 | Some TryProbe => 5 | _ => 4 end
  | InProbe => 3
  | InRelease => match caller_phase <$> c with Some Holding => 2 | _ => 1 end
  | Past => 0
  end.

Definition own_step (a : probing_action) : bool := match a with Interrupted | Others _ => false | _ => true end.

(** A step moves one Pod on and leaves the others where they are. *)
Definition moves (urgent : bool) (n : nat) (s s' : probing) : Prop :=
  ∃ i, (i < n)%nat
    ∧ (∀ j, j ≠ i → stage_of s' j = stage_of s j ∧ slot_of s' j = slot_of s j)
    ∧ caller_ok urgent (stage_of s' i) (slot_of s' i)
    ∧ (pod_cost (stage_of s' i) (slot_of s' i) < pod_cost (stage_of s i) (slot_of s i))%nat.

Record slots_wf (limit : Z) (urgent : bool) (s : probing) : Prop := {
  slots_probes : probes_wf limit (pr_probes s);
  slots_own : ∀ i, caller_ok urgent (stage_of s i) (slot_of s i);
}.

Lemma own_inj i j : own i = own j → i = j.
Proof. unfold own. intros [= H]. lia. Qed.

(** A step of the caller for Pod [i] leaves the other callers. *)
Lemma probe_do_frame a P P' p : probe_do a P = Some P' → action_caller a ≠ p → callers P' !! p = callers P !! p.
Proof.
  intros Hdo Hne. destruct a as [q u|q|q|q]; cbn in Hdo, Hne; unfold acquire_step, cancel_step, release_step in Hdo;
    repeat (case_match || simplify_option_eq); cbn; by rewrite lookup_insert_ne.
Qed.

Lemma stage_at_next pods l s :
  probing_wf pods l s → stage_of s (pr_next s) = if pr_acquiring s then InAcquire else Ahead.
Proof.
  intros Hwf. unfold stage_of. rewrite decide_False by (intros []%(probing_running _ _ _ Hwf); lia).
  rewrite decide_False by (intros []%(probing_releasing _ _ _ Hwf); lia).
  rewrite (proj2 (Nat.ltb_ge _ _)), Nat.eqb_refl by lia. by destruct (pr_acquiring s).
Qed.

Lemma stage_acquiring P s j : j ≠ pr_next s → stage_of (acquiring P s) j = stage_of s j.
Proof. intros Hne. unfold stage_of. cbn. by rewrite (proj2 (Nat.eqb_neq j (pr_next s))) by done. Qed.

Lemma stage_waits pods l P s : probing_wf pods l s → stage_of (acquiring P s) (pr_next s) = InAcquire.
Proof.
  intros Hwf. unfold stage_of. cbn [acquiring pr_running pr_releasing pr_next pr_acquiring].
  rewrite decide_False by (intros []%(probing_running _ _ _ Hwf); lia).
  rewrite decide_False by (intros []%(probing_releasing _ _ _ Hwf); lia).
  by rewrite (proj2 (Nat.ltb_ge _ _)), Nat.eqb_refl by lia.
Qed.

(** The loop passes the current Pod: the others stay, and this one is left or
    probed. *)
Lemma stage_advance r running stopped P s j :
  j ≠ pr_next s → (j ∈ running ↔ j ∈ pr_running s) → stage_of (advance r running stopped P s) j = stage_of s j.
Proof.
  intros Hne Hin. unfold stage_of. cbn [advance pr_running pr_releasing pr_next pr_acquiring].
  rewrite (decide_ext _ _ _ _ Hin). repeat case_decide; try done. rewrite andb_false_r.
  rewrite (proj2 (Nat.eqb_neq j (pr_next s))) by done. cbn [andb].
  destruct (Nat.ltb_spec j (S (pr_next s))), (Nat.ltb_spec j (pr_next s)); (done || lia).
Qed.

Lemma stage_passed pods l r stopped P s :
  probing_wf pods l s → stage_of (advance r (pr_running s) stopped P s) (pr_next s) = Past.
Proof.
  intros Hwf. unfold stage_of. cbn [advance pr_running pr_releasing pr_next pr_acquiring].
  rewrite decide_False by (intros []%(probing_running _ _ _ Hwf); lia).
  rewrite decide_False by (intros []%(probing_releasing _ _ _ Hwf); lia).
  by rewrite (proj2 (Nat.ltb_lt _ _)) by lia.
Qed.

Lemma stage_probed r running stopped P s i : stage_of (advance r ({[i]} ∪ running) stopped P s) i = InProbe.
Proof. unfold stage_of. cbn [advance pr_running]. by rewrite decide_True by set_solver. Qed.

Lemma stage_finished i r s j : j ≠ i → stage_of (probe_finished i r s) j = stage_of s j.
Proof.
  intros Hne. unfold stage_of. cbn [probe_finished pr_running pr_releasing pr_next pr_acquiring].
  rewrite (decide_ext (j ∈ pr_running s ∖ {[i]}) (j ∈ pr_running s)) by set_solver.
  by rewrite (decide_ext (j ∈ {[i]} ∪ pr_releasing s) (j ∈ pr_releasing s)) by set_solver.
Qed.

Lemma stage_released i s : i ∈ pr_releasing s → i ∉ pr_running s → stage_of s i = InRelease.
Proof. intros. unfold stage_of. by rewrite decide_False, decide_True. Qed.

Lemma probe_call_fresh p u P :
  callers P !! p = None → probe_do (ProbeCall p u) P = Some (move p (Caller u Entered) Entered 0 0 false false P).
Proof. intros Hp. cbn. by case_guard. Qed.

(** ** Every step of the call moves one Pod on *)

Section moves.
Context (limit : Z) (urgent : bool) (pods : list Pod) (l : list probing_action) (s s' : probing).
Context (Hwf : probing_wf pods l s) (Hsl : slots_wf limit urgent s).

Lemma loop_moves : pr_acquiring s = false → loop_next urgent pods s = Some s' → moves urgent (length pods) s s'.
Proof.
  intros Hacq. unfold loop_next. destruct (pods !! pr_next s) as [pod|] eqn:Hpod; [|done]. cbn [mbind option_bind].
  pose proof (stage_at_next _ _ _ Hwf) as Hst. rewrite Hacq in Hst. pose proof (slots_own _ _ _ Hsl (pr_next s)) as Hok.
  rewrite Hst in Hok. destruct (slot_of s (pr_next s)) as [c|] eqn:Hc; [done|]. intros Hdo. exists (pr_next s).
  split; [by eapply lookup_lt_Some|]. rewrite Hst. destruct (podReady pod); cbn [negb] in Hdo.
  - unfold slot_of in Hc. rewrite (probe_call_fresh _ _ _ Hc) in Hdo. cbn in Hdo.
    destruct (pr_stopped s).
    + rewrite lookup_insert_eq in Hdo. cbn in Hdo. injection Hdo as <-. rewrite (stage_passed pods l) by done.
      unfold slot_of. cbn. rewrite lookup_insert_eq. split_and!; [|done|lia]. intros j Hj. rewrite stage_advance by done.
      split; [done|]. by rewrite !lookup_insert_ne by (intros ?%own_inj; done).
    + injection Hdo as <-. rewrite (stage_waits pods l) by done.
      unfold slot_of. cbn. rewrite lookup_insert_eq. split_and!; [|done..|cbn; lia]. intros j Hj. rewrite stage_acquiring by done.
      split; [done|]. by rewrite !lookup_insert_ne by (intros ?%own_inj; done).
  - injection Hdo as <-. rewrite (stage_passed pods l) by done. unfold slot_of in *. cbn. rewrite Hc. split_and!; [|done|lia].
    intros j Hj. by rewrite stage_advance.
Qed.

(** The caller of the Pod the loop is at. *)
Lemma acquiring_caller :
  pr_acquiring s = true →
  ∃ ph, slot_of s (pr_next s) = Some (Caller urgent ph) ∧ stage_of s (pr_next s) = InAcquire
    ∧ Contains [Entered; AwaitBackground; TryProbe; AwaitProbe] ph = true ∧ (pr_next s < length pods)%nat.
Proof.
  intros Hacq. pose proof (stage_at_next _ _ _ Hwf) as Hst. rewrite Hacq in Hst. pose proof (slots_own _ _ _ Hsl (pr_next s)) as Hok.
  rewrite Hst in Hok. destruct (slot_of s (pr_next s)) as [[u ph]|]; [|done]. destruct Hok as [Hu Hph]. cbn in Hu, Hph. subst u.
  exists ph. split_and!; [done..|]. destruct (probing_acquiring _ _ _ Hwf Hacq) as (pod & Hpod & _). by eapply lookup_lt_Some.
Qed.

Lemma acquire_moves : pr_acquiring s = true → acquire_next s = Some s' → moves urgent (length pods) s s'.
Proof.
  intros Hacq Hdo. destruct (acquiring_caller Hacq) as (ph & Hc & Hst & Hph & Hlt). exists (pr_next s). split; [done|].
  unfold acquire_next in Hdo. apply bind_Some in Hdo as (P & HP & [= <-]).
  assert (∀ j, j ≠ pr_next s → callers P !! own j = callers (pr_probes s) !! own j) as Hframe.
  { intros j Hj. eapply probe_do_frame; [exact HP|]. by intros ?%own_inj. }
  unfold slot_of in *. assert (∃ ph', callers P !! own (pr_next s) = Some (Caller urgent ph')
    ∧ ((pod_cost InAcquire (Some (Caller urgent ph')) < pod_cost InAcquire (Some (Caller urgent ph)))%nat
       ∧ Contains [AwaitBackground; TryProbe; AwaitProbe] ph' = true ∨ ph' = Holding)) as (ph' & HP' & Hph').
  { cbn [probe_do] in HP. rewrite Hc in HP. cbn in HP. unfold acquire_step in HP. cbn in HP.
    destruct ph; try done; repeat case_match; try done; injection HP as <-; cbn; rewrite lookup_insert_eq; cbn;
      (eexists; split; [done|]; first [right; done|left; split; [lia|done]]). }
  unfold in_phase. rewrite HP'. cbn [caller_phase]. destruct Hph' as [[Hlt' Hin]|Hh]; [|subst ph'].
  - rewrite bool_decide_eq_false_2 by (intros ->; done).
    rewrite (stage_waits pods l) by done.
    cbn [acquiring pr_probes]. rewrite HP', Hc, Hst. split_and!; [| |done].
    + intros j Hj. rewrite stage_acquiring by done. split; [done|by apply Hframe].
    + split; [done|]. by destruct ph'.
  - rewrite bool_decide_eq_true_2 by done. rewrite stage_probed. cbn [advance pr_probes]. rewrite HP', Hst. split_and!; [|done|].
    + intros j Hj. rewrite stage_advance by (done || set_solver). split; [done|by apply Hframe].
    + cbn. rewrite Hc. cbn. destruct ph; lia.
Qed.

Lemma cancel_moves : pr_acquiring s = true → acquire_cancel s = Some s' → moves urgent (length pods) s s'.
Proof.
  intros Hacq Hdo. destruct (acquiring_caller Hacq) as (ph & Hc & Hst & Hph & Hlt). exists (pr_next s). split; [done|].
  unfold acquire_cancel in Hdo. case_match; [done|]. apply bind_Some in Hdo as (P & HP & [= <-]).
  rewrite (stage_passed pods l) by done. rewrite Hst. cbn [pod_cost]. split_and!.
  - intros j Hj. rewrite stage_advance by done. split; [done|]. unfold slot_of. cbn. eapply probe_do_frame; [exact HP|]. by intros ?%own_inj.
  - unfold slot_of in *. cbn [advance pr_probes]. cbn [probe_do] in HP. rewrite Hc in HP. cbn in HP. unfold cancel_step in HP. cbn in HP.
    destruct ph; try done; repeat case_match; try done; injection HP as <-; cbn; by rewrite lookup_insert_eq.
  - repeat case_match; lia.
Qed.

Lemma probed_moves i r : i ∈ pr_running s → moves urgent (length pods) s (probe_finished i r s).
Proof.
  intros Hi. pose proof (slots_own _ _ _ Hsl i) as Hok. destruct (probing_running _ _ _ Hwf i Hi) as [Hlt _].
  pose proof (probing_next _ _ _ Hwf). assert (stage_of s i = InProbe) as Hst by (unfold stage_of; by rewrite decide_True).
  rewrite Hst in Hok. destruct (slot_of s i) as [c|] eqn:Hc; [|done]. cbn in Hok. subst c. exists i. split; [lia|].
  assert (stage_of (probe_finished i r s) i = InRelease) as -> by (apply stage_released; set_solver).
  rewrite Hst. unfold slot_of in *. cbn [probe_finished pr_probes]. rewrite Hc. split_and!; [|by split; [|left]|cbn; lia].
  intros j Hj. by rewrite stage_finished.
Qed.

Lemma release_moves i : i ∈ pr_releasing s → release_next i s = Some s' → moves urgent (length pods) s s'.
Proof.
  intros Hi Hdo. destruct (probing_releasing _ _ _ Hwf i Hi) as [Hlt Hni]. pose proof (probing_next _ _ _ Hwf).
  pose proof (stage_released i s Hi Hni) as Hst. pose proof (slots_own _ _ _ Hsl i) as Hok. rewrite Hst in Hok.
  destruct (slot_of s i) as [[u ph]|] eqn:Hc; [|done]. destruct Hok as [Hu Hph]. cbn in Hu, Hph. subst u. exists i. split; [lia|].
  unfold release_next in Hdo. apply bind_Some in Hdo as (P & HP & [= <-]). unfold slot_of in *. cbn [pr_probes].
  assert (∀ j, j ≠ i → callers P !! own j = callers (pr_probes s) !! own j) as Hframe.
  { intros j Hj. eapply probe_do_frame; [exact HP|]. by intros ?%own_inj. }
  rewrite Hst, Hc. unfold in_phase.
  assert (∃ ph', callers P !! own i = Some (Caller urgent ph') ∧ (ph' = Finished ∨ ph' = Releasing ∧ ph = Holding)) as (ph' & HP' & Hph').
  { cbn [probe_do] in HP. rewrite Hc in HP. cbn in HP. unfold release_step in HP. cbn in HP.
    destruct Hph as [-> | ->]; case_match; try done; injection HP as <-; cbn; rewrite lookup_insert_eq; destruct urgent; eauto. }
  rewrite HP'. cbn [caller_phase]. destruct Hph' as [->|[-> ->]].
  - rewrite bool_decide_eq_true_2 by done. split_and!.
    + intros j Hj. split; [|by apply Hframe]. unfold stage_of. cbn.
      by rewrite (decide_ext (j ∈ pr_releasing s ∖ {[i]}) (j ∈ pr_releasing s)) by set_solver.
    + unfold stage_of. cbn [pr_running pr_releasing pr_next]. rewrite decide_False, decide_False, (proj2 (Nat.ltb_lt _ _)) by (lia || set_solver). done.
    + unfold stage_of. cbn [pr_running pr_releasing pr_next]. rewrite decide_False, decide_False, (proj2 (Nat.ltb_lt _ _)) by (lia || set_solver).
      cbn. destruct ph; lia.
  - rewrite bool_decide_eq_false_2 by done. split_and!.
    + intros j Hj. split; [done|by apply Hframe].
    + change (caller_ok urgent (stage_of s i) (Some (Caller urgent Releasing))). rewrite Hst. by split; [|right].
    + change (pod_cost (stage_of s i) (Some (Caller urgent Releasing)) < 2)%nat. rewrite Hst. cbn. lia.
Qed.

Lemma own_step_moves a : own_step a = true → probing_do urgent pods a s = Some s' → moves urgent (length pods) s s'.
Proof.
  intros Ha. destruct a as [| | |i r|i| |a]; try done; cbn [probing_do].
  - destruct (pr_acquiring s) eqn:Hacq; [done|]. by apply loop_moves.
  - destruct (pr_acquiring s) eqn:Hacq; [|done]. by apply acquire_moves.
  - destruct (pr_acquiring s) eqn:Hacq; [|done]. destruct (pr_stopped s); [|done]. by apply cancel_moves.
  - case_bool_decide; [|done]. intros [= <-]. by apply probed_moves.
  - case_bool_decide; [|done]. by apply release_moves.
Qed.
End moves.

(** ** The invariant of a run *)

Lemma probing_do_probes limit urgent pods a s s' :
  probes_wf limit (pr_probes s) → probing_do urgent pods a s = Some s' → probes_wf limit (pr_probes s').
Proof.
  intros HP Hdo. destruct a as [| | |i r|i| |a]; cbn [probing_do] in Hdo; repeat (case_match; try done); simplify_eq; try done.
  - unfold loop_next in Hdo. apply bind_Some in Hdo as (pod & _ & Hdo). case_match; simplify_eq; [done|].
    apply bind_Some in Hdo as (P & HP1 & Hdo). case_match; simplify_eq; [|cbn; by eapply probe_do_wf].
    apply bind_Some in Hdo as (P' & HP2 & [= <-]). cbn. by eapply probe_do_wf; [eapply probe_do_wf|].
  - unfold acquire_next in Hdo. apply bind_Some in Hdo as (P & HP1 & [= <-]). destruct (in_phase _ _ _); cbn; by eapply probe_do_wf.
  - unfold acquire_cancel in Hdo. case_match; [done|]. apply bind_Some in Hdo as (P & HP1 & [= <-]). cbn. by eapply probe_do_wf.
  - unfold release_next in Hdo. apply bind_Some in Hdo as (P & HP1 & [= <-]). cbn. by eapply probe_do_wf.
  - apply bind_Some in Hdo as (P & HP1 & [= <-]). cbn. by eapply probe_do_wf.
Qed.

(** What happens outside leaves the Pods where they are. *)
Lemma outside_stays urgent pods a s s' i :
  own_step a = false → probing_do urgent pods a s = Some s' → stage_of s' i = stage_of s i ∧ slot_of s' i = slot_of s i.
Proof.
  intros Ha. destruct a as [| | |j r|j| |a]; try done; cbn [probing_do]; [by intros [= <-]|]. destruct (other _) eqn:Ho; [|done].
  intros (P & HP & [= <-])%bind_Some. split; [done|]. unfold slot_of. cbn. eapply probe_do_frame; [exact HP|]. by intros Heq; rewrite Heq in Ho.
Qed.

Lemma probing_do_slots limit urgent pods l a s s' :
  probing_wf pods l s → slots_wf limit urgent s → probing_do urgent pods a s = Some s' → slots_wf limit urgent s'.
Proof.
  intros Hwf Hsl Hdo. split; [eapply probing_do_probes; [apply Hsl|done]|]. intros j. pose proof (slots_own _ _ _ Hsl j) as Hj.
  destruct (own_step a) eqn:Ha.
  - destruct (own_step_moves limit urgent pods l s s' Hwf Hsl a Ha Hdo) as (i & _ & Hframe & Hok & _).
    destruct (decide (j = i)) as [->|Hne]; [done|]. by destruct (Hframe j Hne) as [-> ->].
  - by destruct (outside_stays urgent pods a s s' j Ha Hdo) as [-> ->].
Qed.

(** Where the call starts: nothing is acquired for its Pods. *)
Definition no_own (P : probes) : Prop := ∀ i, callers P !! own i = None.

Lemma probing_run_inv limit urgent pods l P s :
  probes_wf limit P → no_own P → probing_run urgent pods l P = Some s → probing_wf pods l s ∧ slots_wf limit urgent s.
Proof.
  intros HP Hno. unfold probing_run. revert s. induction l as [|a l IH] using rev_ind; intros s.
  - intros [= <-]. split; [apply probing_init_wf|]. split; [done|]. intros i. unfold slot_of. cbn. rewrite Hno.
    unfold stage_of. cbn. rewrite !decide_False by set_solver. by rewrite andb_false_r.
  - rewrite foldl_snoc. destruct (foldl _ _ l) as [s1|]; [|done]. cbn [mbind option_bind]. intros Hdo.
    destruct (IH s1 eq_refl) as [Hwf Hsl]. split; [by eapply probing_do_wf|by eapply probing_do_slots].
Qed.

(** ** Termination *)

Definition steps_left (pods : list Pod) (s : probing) : nat :=
  sum_list_with (λ i, pod_cost (stage_of s i) (slot_of s i)) (seq 0 (length pods)).

Lemma sum_list_le {A} (f g : A → nat) (l : list A) :
  (∀ x, x ∈ l → (f x ≤ g x)%nat) → (sum_list_with f l ≤ sum_list_with g l)%nat.
Proof.
  intros Hle. induction l as [|x l IH]; cbn; [lia|].
  specialize (IH ltac:(intros; apply Hle; by right)). pose proof (Hle x ltac:(by left)). lia.
Qed.

Lemma sum_list_lt {A} (f g : A → nat) (l : list A) y :
  (∀ x, x ∈ l → (f x ≤ g x)%nat) → y ∈ l → (f y < g y)%nat → (sum_list_with f l < sum_list_with g l)%nat.
Proof.
  intros Hle Hy Hlt. induction l as [|x l IH]; [by apply not_elem_of_nil in Hy|]. cbn. apply elem_of_cons in Hy as [->|Hy].
  - pose proof (sum_list_le f g l ltac:(intros; apply Hle; by right)). lia.
  - specialize (IH ltac:(intros; apply Hle; by right) Hy). pose proof (Hle x ltac:(by left)). lia.
Qed.

Lemma probing_do_decreases limit urgent pods l a s s' :
  probing_wf pods l s → slots_wf limit urgent s → probing_do urgent pods a s = Some s' →
  (steps_left pods s' + (if own_step a then 1 else 0) ≤ steps_left pods s)%nat.
Proof.
  intros Hwf Hsl Hdo. unfold steps_left. destruct (own_step a) eqn:Ha.
  - destruct (own_step_moves limit urgent pods l s s' Hwf Hsl a Ha Hdo) as (i & Hi & Hframe & _ & Hlt).
    rewrite Nat.add_1_r. apply Nat.le_succ_l. apply sum_list_lt with i; [|apply elem_of_seq; lia|done].
    intros j _. destruct (decide (j = i)) as [->|Hne]; [lia|]. by destruct (Hframe j Hne) as [-> ->].
  - rewrite Nat.add_0_r. apply sum_list_le. intros j _. by destruct (outside_stays urgent pods a s s' j Ha Hdo) as [-> ->].
Qed.

(** The number of steps of the loop and its goroutines in a run. *)
Definition steps (l : list probing_action) : nat := length (filter (λ a, own_step a = true) l).

Lemma probing_steps_bounded limit urgent pods l P s :
  probes_wf limit P → no_own P → probing_run urgent pods l P = Some s → (steps l + steps_left pods s ≤ 8 * length pods)%nat.
Proof.
  intros HP Hno. revert s. induction l as [|a l IH] using rev_ind; intros s; unfold probing_run.
  - intros [= <-]. unfold steps, steps_left. cbn [filter list_filter length].
    assert (∀ n i, sum_list_with (λ i, pod_cost (stage_of (probing_init pods P) i) (slot_of (probing_init pods P) i)) (seq i n) ≤ 8 * n)%nat as Hs;
      [|apply Hs]. induction n as [|n IHn]; intros i; cbn [seq sum_list_with]; [lia|]. specialize (IHn (S i)).
    unfold pod_cost at 1. repeat case_match; lia.
  - rewrite foldl_snoc. fold (probing_run urgent pods l P). destruct (probing_run urgent pods l P) as [s1|] eqn:E; [|done].
    cbn [mbind option_bind]. intros Hdo. destruct (probing_run_inv limit _ _ _ _ _ HP Hno E) as [Hwf Hsl].
    pose proof (probing_do_decreases _ _ _ _ _ _ _ Hwf Hsl Hdo) as Hd. specialize (IH s1 eq_refl).
    unfold steps in *. rewrite filter_app, length_app. cbn [filter list_filter]. destruct (own_step a) eqn:Ha.
    + rewrite decide_True by done. cbn [length]. lia.
    + rewrite decide_False by done. cbn [length]. lia.
Qed.

(** ** Progress *)

Definition holds_slot (c : caller) : bool := holds_probe c || holds_background c.

Lemma count_exists {A} (f : A → bool) (m : gmap positive A) : 0 < count f m → ∃ p x, m !! p = Some x ∧ f x = true.
Proof.
  intros Hpos. destruct (decide (map_Forall (λ _ x, f x = false) m)) as [Hall|Hno].
  - rewrite count_none in Hpos; [lia|exact Hall].
  - apply map_not_Forall in Hno as (p & x & Hp & Hx); [|apply _]. exists p, x. split; [done|]. by destruct (f x).
Qed.

Section progress.
Context (limit : Z) (urgent : bool) (pods : list Pod) (l : list probing_action) (s : probing).
Context (Hwf : probing_wf pods l s) (Hsl : slots_wf limit urgent s) (Hlimit : 1 ≤ limit).

(** Some step of another observation that holds a slot is enabled. *)
Definition others_move : Prop :=
  ∃ p c a, other p = true ∧ callers (pr_probes s) !! p = Some c ∧ holds_slot c = true
    ∧ (a = ProbeStep p ∨ a = ProbeRelease p) ∧ is_Some (probing_do urgent pods (Others a) s).

(** A caller with property [f] is another's, when no goroutine runs. *)
Lemma holder_other f p c :
  pr_running s = ∅ → pr_releasing s = ∅ → (∀ c, caller_phase c = Finished → f c = false) →
  (∀ c, slot_of s (pr_next s) = Some c → f c = false) → callers (pr_probes s) !! p = Some c → f c = true → other p = true.
Proof.
  intros Hru Hre Hfin Hcur Hp Hf. destruct p as [q|q|]; [done| |done]. exfalso.
  assert (own (Nat.pred (Pos.to_nat q)) = (q~0)%positive) as Hq by (unfold own; f_equal; lia). rewrite <-Hq in Hp.
  set (i := Nat.pred (Pos.to_nat q)) in *. pose proof (slots_own _ _ _ Hsl i) as Hok. unfold slot_of in *. rewrite Hp in Hok.
  unfold stage_of in Hok. rewrite Hru, Hre, !decide_False in Hok by set_solver. destruct (_ <? _)%nat.
  - cbn in Hok. by rewrite Hfin in Hf.
  - destruct (i =? pr_next s)%nat eqn:Hi; [|done]. apply Nat.eqb_eq in Hi. rewrite <-Hi in Hcur. by rewrite (Hcur _ Hp) in Hf.
Qed.

(** Without room for a probe another observation holds a slot and gives it back. *)
Lemma full_probes :
  pr_running s = ∅ → pr_releasing s = ∅ → (∀ c, slot_of s (pr_next s) = Some c → holds_probe c = false) →
  probe_room (pr_probes s) = false → others_move.
Proof.
  intros Hru Hre Hcur Hroom. pose proof (slots_probes _ _ _ Hsl) as [Hs _ Hsc _ Hcap _ _].
  unfold probe_room in Hroom. apply Z.ltb_ge in Hroom. destruct (count_exists holds_probe (callers (pr_probes s))) as (p & c & Hp & Hc); [lia|].
  assert (other p = true) as Ho.
  { eapply (holder_other holds_probe); try done. intros c' Hc'. unfold holds_probe. by rewrite Hc'. }
  exists p, c, (ProbeRelease p). split_and!; [done..|unfold holds_slot; by rewrite Hc|by right|].
  cbn [probing_do action_caller]. rewrite Ho. unfold holds_probe in Hc. apply bool_decide_eq_true in Hc.
  destruct (release_enabled limit (pr_probes s) p c) as [P ->]; [apply Hsl|done|by left|]. by eexists.
Qed.

Lemma full_background :
  pr_running s = ∅ → pr_releasing s = ∅ → (∀ c, slot_of s (pr_next s) = Some c → holds_slot c = false) →
  background_room (pr_probes s) = false → others_move.
Proof.
  intros Hru Hre Hcur Hroom. pose proof (slots_probes _ _ _ Hsl) as [_ Hb _ Hbc _ Hcap Hrel].
  pose proof (reservedCapacity_bounds limit Hlimit). unfold background_room in Hroom. apply Z.ltb_ge in Hroom.
  assert (∀ c, slot_of s (pr_next s) = Some c → holds_probe c = false ∧ holds_background c = false) as Hcur'
    by (intros c [? ?]%Hcur%orb_false_iff; done).
  destruct (count_exists holds_background (callers (pr_probes s))) as (p & c & Hp & Hc); [lia|].
  assert (other p = true) as Ho.
  { eapply (holder_other holds_background); try done; [|by intros c' []%Hcur'].
    intros c' Hc'. unfold holds_background. rewrite Hc'. apply andb_false_r. }
  destruct (probe_room (pr_probes s)) eqn:Hpr; [|by apply full_probes; [..|intros c' []%Hcur'|]].
  assert (∃ a, (a = ProbeStep p ∨ a = ProbeRelease p) ∧ is_Some (probe_do a (pr_probes s))) as (a & Ha & [P HP]).
  { destruct (caller_phase c) eqn:Hph; try (by unfold holds_background in Hc; rewrite Hph, andb_false_r in Hc).
    - exists (ProbeStep p). split; [by left|]. cbn. rewrite Hp. cbn. unfold acquire_step. rewrite Hph, Hpr. by eexists.
    - exists (ProbeStep p). split; [by left|]. cbn. rewrite Hp. cbn. unfold acquire_step. rewrite Hph, Hpr. by eexists.
    - exists (ProbeRelease p). split; [by right|]. eapply release_enabled; [apply Hsl|done|by left].
    - exists (ProbeRelease p). split; [by right|]. eapply release_enabled; [apply Hsl|done|by right]. }
  exists p, c, a. split_and!; [done..|unfold holds_slot; by rewrite Hc, orb_true_r|done|].
  cbn [probing_do]. assert (action_caller a = p) as -> by (by destruct Ha as [-> | ->]). rewrite Ho, HP. by eexists.
Qed.

(** The loop can go on from the head of its body. *)
Lemma loop_enabled : pr_acquiring s = false → (pr_next s < length pods)%nat → is_Some (probing_do urgent pods LoopNext s).
Proof.
  intros Hacq Hlt. destruct (lookup_lt_is_Some_2 pods (pr_next s) Hlt) as [pod Hpod]. cbn [probing_do]. rewrite Hacq.
  unfold loop_next. rewrite Hpod. cbn [mbind option_bind]. destruct (podReady pod); cbn [negb]; [|by eexists].
  pose proof (slots_own _ _ _ Hsl (pr_next s)) as Hok. rewrite (stage_at_next _ _ _ Hwf), Hacq in Hok.
  destruct (slot_of s (pr_next s)) eqn:Hc; [done|]. rewrite (probe_call_fresh _ _ _ Hc). cbn. rewrite lookup_insert_eq. cbn.
  destruct (pr_stopped s); by eexists.
Qed.

(** While it waits for a slot it goes on, is cancelled, or others hold the slots. *)
Lemma acquire_enabled :
  pr_acquiring s = true → pr_running s = ∅ → pr_releasing s = ∅ →
  is_Some (probing_do urgent pods AcquireStep s) ∨ is_Some (probing_do urgent pods AcquireCancel s) ∨ pr_stopped s = false ∧ others_move.
Proof.
  intros Hacq Hru Hre. destruct (acquiring_caller limit urgent pods l s Hwf Hsl Hacq) as (ph & Hc & Hst & Hph & Hlt).
  assert (acquire_step (own (pr_next s)) (Caller urgent ph) (pr_probes s) ≠ None → is_Some (probing_do urgent pods AcquireStep s)) as Hgo.
  { intros Hne. cbn [probing_do]. rewrite Hacq. unfold acquire_next. cbn [probe_do]. unfold slot_of in Hc. rewrite Hc. cbn.
    destruct (acquire_step _ _ _); [|done]. by eexists. }
  assert (ph ≠ Entered → pr_stopped s = true → is_Some (probe_do (ProbeCancel (own (pr_next s))) (pr_probes s)) →
    is_Some (probing_do urgent pods AcquireCancel s)) as Hcan.
  { intros Hne Hstop [P HP]. cbn [probing_do]. rewrite Hacq, Hstop. cbn [andb]. unfold acquire_cancel, in_phase.
    unfold slot_of in Hc. rewrite Hc. cbn [caller_phase]. rewrite bool_decide_eq_false_2 by done. rewrite HP. by eexists. }
  unfold acquire_step in Hgo. cbn in Hgo. destruct ph; try done.
  - left. apply Hgo. by repeat case_match.
  - destruct (background_room (pr_probes s)) eqn:Hroom; [left; by apply Hgo|]. right. destruct (pr_stopped s) eqn:Hstop.
    + left. apply Hcan; [done..|]. cbn. unfold slot_of in Hc. rewrite Hc. by eexists.
    + right. split; [done|]. apply full_background; try done. intros c. rewrite Hc. intros [= <-].
      unfold holds_slot, holds_probe, holds_background. cbn. apply andb_false_r.
  - left. apply Hgo. by case_match.
  - destruct (probe_room (pr_probes s)) eqn:Hroom; [left; by apply Hgo|]. right. destruct (pr_stopped s) eqn:Hstop.
    + left. apply Hcan; [done..|]. by eapply cancel_enabled; [apply Hsl|exact Hc|].
    + right. split; [done|]. apply full_probes; try done. intros c. rewrite Hc. by intros [= <-].
Qed.

(** An unfinished call can go on, with whatever a probe returns, unless it waits for
    slots that others hold and can give back; once stopped it never waits. *)
Lemma probing_progress (r : statusResult) :
  probing_returned pods s = false →
  (∃ a, own_step a = true ∧ is_Some (probing_do urgent pods a s) ∧ ∀ i r', a = Probed i r' → r' = r)
  ∨ pr_stopped s = false ∧ others_move.
Proof.
  intros Hret. destruct (decide (pr_running s = ∅)) as [Hru|(i & Hi)%set_choose_L].
  2:{ left. exists (Probed i r). split_and!; [done| |by intros ?? [= _ ->]]. cbn. rewrite bool_decide_eq_true_2 by done. by eexists. }
  destruct (decide (pr_releasing s = ∅)) as [Hre|(i & Hi)%set_choose_L].
  2:{ left. exists (ReleaseStep i). split_and!; [done| |done]. cbn [probing_do]. rewrite bool_decide_eq_true_2 by done.
      unfold release_next. pose proof (slots_own _ _ _ Hsl i) as Hok.
      rewrite (stage_released i s Hi ltac:(by apply (probing_releasing _ _ _ Hwf))) in Hok.
      destruct (slot_of s i) as [c|] eqn:Hc; [|done]. destruct Hok as [_ Hph].
      destruct (release_enabled limit (pr_probes s) (own i) c) as [P HP]; [apply Hsl|done|done|]. rewrite HP. by eexists. }
  destruct (pr_acquiring s) eqn:Hacq.
  - destruct (acquire_enabled Hacq Hru Hre) as [?|[?|?]]; [left; by exists AcquireStep|left; by exists AcquireCancel|by right].
  - left. exists LoopNext. split_and!; [done| |done]. apply loop_enabled; [done|]. unfold probing_returned in Hret.
    rewrite Hacq, Hru, Hre in Hret. rewrite !bool_decide_eq_true_2, !andb_true_r in Hret by done. by apply Nat.leb_gt in Hret.
Qed.
End progress.

(** ** Theorem *)

(** C26: probing on the semaphores it shares with the other observations takes at most
    eight steps of its own per Pod; until it returns one of them is enabled whatever
    a probe returns, unless it waits for slots which other observations hold and one
    of these can go on, and once it is stopped it never waits.  On return every Pod
    has exactly one result, in the order of the Pods: the error of an unready Pod,
    the error of a probe that was stopped, or what its own probe returned; every
    slot the call took is given back; and when the first Pod is not verified as
    primary, the remaining probes were stopped. *)
Theorem probing_complete limit urgent pods l P s :
  1 ≤ limit → probe_reachable limit P → no_own P → probing_run urgent pods l P = Some s →
  (steps l ≤ 8 * length pods)%nat
  ∧ (probing_returned pods s = false → ∀ r : statusResult,
      (∃ a, own_step a = true ∧ is_Some (probing_do urgent pods a s) ∧ ∀ i r', a = Probed i r' → r' = r)
      ∨ pr_stopped s = false ∧ others_move urgent pods s)
  ∧ (probing_returned pods s = true → length (pr_results s) = length pods
      ∧ (∀ i r, pr_results s !! i = Some r → settled_result l (pr_stopped s) pods i r)
      ∧ (∀ i c, callers (pr_probes s) !! own i = Some c → caller_phase c = Finished)
      ∧ ∀ r, pr_results s !! 0%nat = Some r → primary_verified r = false → pr_stopped s = true).
Proof.
  intros Hl HP%probe_reachable_wf Hno Hrun; [|done]. destruct (probing_run_inv limit _ _ _ _ _ HP Hno Hrun) as [Hwf Hsl]. split_and!.
  - pose proof (probing_steps_bounded _ _ _ _ _ _ HP Hno Hrun). lia.
  - intros Hret r. by eapply probing_progress.
  - unfold probing_returned. rewrite !andb_true_iff, !bool_decide_eq_true, Nat.leb_le, negb_true_iff.
    intros [[[Hn Hacq] Hru] Hre]. pose proof Hwf as [Hlen Hnext _ _ _ Hs Hp]. rewrite Hru in *. split_and!; [done| | |].
    + intros i r Hi. apply Hs; [|set_solver|done]. apply lookup_lt_Some in Hi. lia.
    + intros i c Hc. pose proof (slots_own _ _ _ Hsl i) as Hok. unfold slot_of, stage_of in Hok.
      rewrite Hc, Hru, Hre, Hacq, !decide_False, andb_false_r in Hok by set_solver. by destruct (_ <? _)%nat.
    + intros r Hr. apply Hp; [|set_solver|done]. apply lookup_lt_Some in Hr. lia.
Qed.

(** Three Pods and one slot, which another observation holds at first: the primary is
    verified, a standby answers, one Pod is not ready. *)
Definition example_slots : option probes := probe_run [ProbeCall 1 true; ProbeStep 1; ProbeStep 1] (configureProbeLimits 1).

Definition example_probing : list probing_action :=
  [LoopNext; AcquireStep; AcquireStep; Others (ProbeRelease 1); AcquireStep; LoopNext; AcquireStep;
   Probed 0 (example_status true []); ReleaseStep 0; ReleaseStep 0; AcquireStep; AcquireStep;
   Probed 1 (example_status false []); LoopNext; ReleaseStep 1; ReleaseStep 1].

Lemma probing_complete_witness :
  ∃ P s, example_slots = Some P ∧ probing_run false example_pods example_probing P = Some s ∧ length (pr_results s) = 3%nat
    ∧ ∀ i c, callers (pr_probes s) !! own i = Some c → caller_phase c = Finished.
Proof.
  destruct example_slots as [P|] eqn:EP; [|vm_compute in EP; discriminate EP].
  assert (probing_returned example_pods <$> probing_run false example_pods example_probing P = Some true) as Hret
    by (vm_compute in EP; injection EP as <-; vm_compute; reflexivity).
  destruct (probing_run false example_pods example_probing P) as [s|] eqn:E; [|discriminate Hret]. injection Hret as Hret.
  exists P, s. split; [reflexivity|]. split; [exact E|].
  destruct (probing_complete 1 false example_pods example_probing P s) as (_ & _ & Hdone).
  - lia.
  - by eapply probe_run_reachable; [apply probe_init|exact EP].
  - intros i. vm_compute in EP. injection EP as <-. reflexivity.
  - exact E.
  - destruct (Hdone Hret) as (Hlen & _ & Hfin & _). split; [exact Hlen|exact Hfin].
Defined.
