(* ===== verification/Observe.v ===== *)
(** * One observation and its worker (src/internal/observer/collection.go, work.go)

    [observe] composes the sections of [Collection], the CA cache and the probes;
    [workNext] runs it for a key of the observation queue and schedules what comes
    next.  The lock is free between two sections: [env] says what the rest of the
    process does to the observer meanwhile. *)

From S2P Require Import Prelude Api Mailbox Store Queue Config Kube Topology Evidence Settings.
From S2P Require Import Observer Collection Events Connection.

Section observe.
Context `{TextLibrary, MapRange, Unstructured, RoutingDigest, KeyRange}.
Context (opts : Options).

(** What [observe] meets: the process between its sections, the contexts and the
    clock. [io_done] is [ioCtx.Err()] when the CA is looked up and [ctx_done]
    [ctx.Err()] when the result is published. *)
Record surroundings := {
  env_pods : Observer → Observer;      (* before the Pods are read *)
  env_ca : Observer → Observer;        (* before the CA is looked up *)
  env_publish : Observer → Observer;   (* while the instances are probed *)
  io_done : bool;
  ctx_done : bool;
  time_started : time;
  time_publish : clock;
}.

(** [return o.publishFailure(ctx, key, reason, started)]. *)
Definition observe_failure (key : clusterKey) (w : surroundings) (reason : string) (o : Observer) :
    option ((bool * list pendingDeliveries) * Observer) :=
  let '((ok, pending), o) := publishFailure opts (ctx_done w) key reason
    (clk_now (time_publish w)) (clk_put1 (time_publish w)) (clk_put2 (time_publish w)) (env_publish w o) in
  Some ((ok, [pending]), o).

(** [probe] is [probeInstances] with its Pods, connection defaults and server name. *)
Definition observe (key : clusterKey) (w : surroundings)
    (probe : list Pod → ConnectionParameters → string → list statusResult) (o : Observer) :
    option ((bool * list pendingDeliveries) * Observer) :=
  let '(plan, o) := observe_begin key o in
  match plan with
  | ObserveGone pending => Some ((true, [pending]), o)
  | ObserveFailure reason => observe_failure key w reason o
  | ObserveCollect c params =>
      let o := env_pods w o in
      let pods := observe_pods c o in
      let '(connection, o) := cachedConnection (io_done w) c (env_ca w o) in
      match connection with
      | inr _ => observe_failure key w "connection_defaults_unavailable" o
      | inl connection =>
          let results := probe pods (info_connection connection) (cluster_server_name c params) in
          '((ok, pending), o) ← publishObservation opts (ctx_done w) key c pods results params connection (time_started w)
            (clk_now (time_publish w)) (clk_put1 (time_publish w)) (clk_put2 (time_publish w)) (clk_demand (time_publish w))
            (env_publish w o);
          Some ((ok, [pending]), o)
      end
  end.

(** ** The worker *)

Definition needsObservation (key : clusterKey) (now : time) : State Observer bool :=
  demand ← on_store (HasDemand key now);
  o ← get_state;
  mret ((demand : bool) && bool_decide (is_Some (ClusterIdentity key (obs_store o)))).

Definition queue_calls (l : list (queue_call clusterKey)) : State Observer () :=
  modify (λ o, set_obs_calls (obs_calls o ++ l) o).

Definition promote_if (urgent : bool) (key : clusterKey) : State Observer () :=
  if urgent then modify (λ o, set_obs_queue (promote key (obs_queue o)).1 o) else mret ().

(** After the observation: [superseded] is the cause of its context. *)
Definition reschedule (key : clusterKey) (urgent superseded observed : bool) (now : time) : State Observer () :=
  needed ← (if superseded then mret false else needsObservation key now);
  if negb needed then queue_calls [CallForget key]
  else if observed then queue_calls [CallForget key; CallAddAfter key (PollInterval opts)]
  else
    promote_if urgent key ;;
    queue_calls [CallAddRateLimited key].

(** The rest of [workNext] for a key that the queue handed out; [observation] is
    [observe] with everything that happens while it runs, and [ctxErr] whether the
    worker is being stopped. *)
Definition work_key (key : clusterKey) (ctxErr : bool) (now1 now2 : time) (observation : State Observer bool) :
    State Observer bool :=
  continue ←
    (if ctxErr then mret false
     else
       needed ← needsObservation key now1;
       if negb needed then queue_calls [CallForget key] ;; mret true
       else
         o ← get_state;
         let urgent := IsUrgent key (obs_queue o) in
         if negb (obs_ready o) then
           promote_if urgent key ;;
           queue_calls [CallAddAfter key (PollInterval opts)] ;;
           mret true
         else
           beginObservation key ;;
           observed ← observation;
           o ← get_state;
           let superseded := bool_decide (obs_observations o !! key = Some true) in
           finishObservation key ;;
           reschedule key urgent superseded observed now2 ;;
           mret true);
  modify (λ o, set_obs_queue (Done key (obs_queue o)).1 o) ;;
  mret continue.

(** [workNext]: [None] while it waits for a key; [env] is what happens after it got
    one. *)
Definition workNext (urgentOnly ctxErr : bool) (now1 now2 : time) (env : Observer → Observer)
    (observation : clusterKey → State Observer bool) (o : Observer) : option (bool * Observer) :=
  let '(r, q) := get urgentOnly (obs_queue o) in
  match r with
  | GetWait => None
  | GetShutdown => Some (false, set_obs_queue q o)
  | GetItem key => Some (work_key key ctxErr now1 now2 (observation key) (env (set_obs_queue q o)))
  end.
End observe.
