(* ===== verification/ObserveProps.v ===== *)
(** * Correctness of observations and their workers

    An observation always returns and routes only to what it verified, whatever
    the process does while the lock is free; and a worker keeps every Cluster that
    is in demand scheduled. *)

From S2P Require Import Prelude Api Mailbox Store StoreFacts StoreProps Queue QueueFacts Config Kube Topology TopologyProps.
From S2P Require Import Evidence Settings Observer ObserverFacts Collection CollectionProps Events EventsFacts EventsProps.
From S2P Require Import Connection ConnectionProps Observe.

Section claims.
Context `{TextLibrary, MapRange, Unstructured, RoutingDigest, KeyRange}.
Context (opts : Options).

Lemma find_pod_bound name i l j : find_pod name i l = Some j → (i ≤ j < i + length l)%nat.
Proof.
  revert i. induction l as [|p l IH]; intros i; cbn; [done|]. case_bool_decide; [intros [= <-]; lia|].
  intros Hj%IH. lia.
Qed.

(** Publishing a failure leaves the Cluster unroutable, or as it was. *)
Lemma failure_closed ctxErr key reason now now1 now2 o r :
  clusters_keyed o →
  record_at key (publishFailure opts ctxErr key reason now now1 now2 o).2 = Some r →
  snapshot_Available (record_snapshot r) = true → record_at key o = Some r.
Proof.
  intros Hk. unfold publishFailure. rewrite State_bind_run. cbn [get_state fst snd]. destruct ctxErr; [done|].
  destruct (observed_cluster key o) as [latest|] eqn:Hl; rewrite State_bind_run; cbn [mret State_ret fst snd].
  - intros Hr Hav. pose proof (observed_cluster_some _ _ _ Hl) as Hcl.
    set (s := set_Transitioning _ _) in Hr. assert (fail_closed s) as Hf by by split_and!.
    pose proof (commit_closed s now1 now2 o key latest r (Hk _ _ Hcl) eq_refl Hf Hr). congruence.
  - destruct (delete_cluster_run key o) as [-> _]. done.
Qed.

Lemma observe_failure_closed key w reason o :
  (∀ o, clusters_keyed (env_publish w o)) →
  ∃ ok pendings o', observe_failure opts key w reason o = Some ((ok, pendings), o')
    ∧ ∀ r, record_at key o' = Some r → snapshot_Available (record_snapshot r) = true → record_at key (env_publish w o) = Some r.
Proof.
  intros Hkeyed. unfold observe_failure. pose proof (failure_closed (ctx_done w) key reason (clk_now (time_publish w))
    (clk_put1 (time_publish w)) (clk_put2 (time_publish w)) (env_publish w o)) as Hc.
  destruct (publishFailure _ _ _ _ _ _ _ _) as [[ok pending] o2]. exists ok, [pending], o2. split; [done|].
  intros r Hr Hav. by apply (Hc r (Hkeyed _)).
Qed.

(** How an observation begins; unless the Cluster is gone nothing has changed. *)
Lemma observe_begin_cases key o :
  (∃ pending o1, observe_begin key o = (ObserveGone pending, o1) ∧ record_at key o1 = None)
  ∨ (∃ reason, observe_begin key o = (ObserveFailure reason, o))
  ∨ (∃ c params, observe_begin key o = (ObserveCollect c params, o)).
Proof.
  unfold observe_begin. rewrite State_bind_run. cbn [get_state fst snd]. destruct (observed_cluster key o) as [c|].
  2: { left. rewrite !State_bind_run. cbn [modify mret State_ret fst snd]. eexists _, _. split; [done|].
       destruct (delete_cluster_run key o) as [Hd _]. exact Hd. }
  right. destruct (parameters c) as [[enabled params] perr]. case_bool_decide; [left; by eexists|].
  destruct (primaryNames c) as [cur tgt]. destruct (bool_decide (cur = "") || _); [left; by eexists|right; by eexists _, _].
Qed.

(** The state in which an observation publishes its result: whatever the process did
    until then. *)
Definition publication_state (key : clusterKey) (w : surroundings) (o : Observer) : Observer :=
  let '(plan, o1) := observe_begin key o in
  match plan with
  | ObserveGone _ => o1
  | ObserveFailure _ => env_publish w o1
  | ObserveCollect c _ => env_publish w (cachedConnection (io_done w) c (env_ca w (env_pods w o1))).2
  end.

(** The record [r] routes to what this observation verified: the Cluster it began
    with, the Pods it read, the CA that was current when it looked it up, and the
    answers of its probes to exactly these. *)
Definition observed_route (key : clusterKey) (w : surroundings)
    (probe : list Pod → ConnectionParameters → string → list statusResult) (o : Observer) (r : record) : Prop :=
  ∃ c params ca,
    let o1 := env_pods w (observe_begin key o).2 in
    let pods := observe_pods c o1 in
    let connection := {| connection_Database := applicationDatabase c; connection_ServerCAPEM := ca_public ca |} in
    (observe_begin key o).1 = ObserveCollect c params
    ∧ obs_cas (env_ca w o1) !! ca_secret_key c = Some ca ∧ currentCA (Some ca) (env_ca w o1) = true
    ∧ verified_route key c pods (probe pods connection (cluster_server_name c params))
        {| info_connection := connection; info_ca := Some ca |} (publication_state key w o) r.

(** C3: an observation returns for every process around it, given a result for every
    Pod it probes; afterwards a routable record of the Cluster is the one that was
    there when the result was published, or its context was not done and the
    record routes to what this observation verified: the answers of its probes to
    the Pods it read, for the Cluster it began with, with the database of that
    Cluster and the public part of the CA that was current when it looked it up. *)
Theorem observation_safe key (w : surroundings) probe o :
  (∀ pods c n, length (probe pods c n) = length pods) → (∀ o, clusters_keyed (env_publish w o)) →
  ∃ ok pendings o', observe opts key w probe o = Some ((ok, pendings), o')
    ∧ ∀ r, record_at key o' = Some r → snapshot_Available (record_snapshot r) = true →
      record_at key (publication_state key w o) = Some r
      ∨ ctx_done w = false ∧ observed_route key w probe o r.
Proof.
  intros Hprobe Hkeyed. unfold observe, observed_route, publication_state.
  destruct (observe_begin_cases key o) as [(pending & o1 & -> & Hgone)|[(reason & ->)|(c & params & ->)]].
  - eexists _, _, _. split; [done|]. intros r Hr. congruence.
  - cbn [fst snd]. destruct (observe_failure_closed key w reason o Hkeyed) as (ok & p & o' & Hf & Hr).
    exists ok, p, o'. split; [exact Hf|]. intros r Hro Hav. left. by apply Hr.
  - cbn [fst snd]. pose proof (cached_connection_current (io_done w) c (env_ca w (env_pods w o))) as Hconn.
    destruct (cachedConnection (io_done w) c (env_ca w (env_pods w o))) as [[connection|err] o1]; cbn [snd].
    2: { destruct (observe_failure_closed key w "connection_defaults_unavailable" o1 Hkeyed) as (ok & p & o' & Hf & Hr).
         exists ok, p, o'. split; [exact Hf|]. intros r Hro Hav. left. by apply Hr. }
    destruct Hconn as (_ & Hcur & _ & ca & Hcas & Hca & Hinfo). destruct connection as [info oca].
    cbn [info_ca info_connection] in *. subst oca info.
    set (probed := observe_pods c (env_pods w o)). set (results := probe probed _ _).
    destruct (publication_total opts (ctx_done w) key c probed results params
      {| info_connection := {| connection_Database := applicationDatabase c; connection_ServerCAPEM := ca_public ca |}; info_ca := Some ca |}
      (time_started w) (clk_now (time_publish w)) (clk_put1 (time_publish w)) (clk_put2 (time_publish w))
      (clk_demand (time_publish w)) (env_publish w o1)) as [[[ok pending] o'] Hpub].
    { subst results. by rewrite Hprobe. }
    rewrite Hpub. cbn [mbind option_bind]. exists ok, [pending], o'. split; [done|]. intros r Hr Hav.
    destruct (publication_current opts _ _ _ _ _ _ _ _ _ _ _ _ _ _ _ _ _ (Hkeyed o1) Hpub Hr Hav) as [Hold|[Hctx Hver]]; [by left|].
    right. split; [done|]. by exists c, params, ca.
Qed.

(** ** The worker *)

Definition needed (key : clusterKey) (now : time) (o : Observer) : bool := (needsObservation key now o).1.

(** Asking for demand changes nothing but expired leases in the store. *)
Lemma needsObservation_state key now o : ∃ s, (needsObservation key now o).2 = set_obs_store s o.
Proof.
  unfold needsObservation. rewrite !State_bind_run. unfold on_store. destruct (HasDemand key now (obs_store o)) as [d s].
  by exists s.
Qed.

Lemma Done_idle key p : processing (Done key p).1 !! key = None.
Proof.
  unfold Done. destruct (processing p !! key) eqn:Hp; [|done]. cbn.
  case_bool_decide; [unfold push; case_match|]; cbn; by rewrite lookup_delete_eq.
Qed.

Lemma Done_promoted key p k : is_promoted (Done key p).1 k = is_promoted p k.
Proof.
  unfold Done. destruct (processing p !! key); [|done]. cbn. case_bool_decide; [unfold push; case_match|]; done.
Qed.

(** The calls of [reschedule]. *)
Definition next_calls (key : clusterKey) (now : time) (observed : bool) (o : Observer) : list (queue_call clusterKey) :=
  if bool_decide (obs_observations o !! key = Some true) || negb (needed key now (finishObservation key o).2)
  then [CallForget key]
  else if observed then [CallForget key; CallAddAfter key (PollInterval opts)]
  else [CallAddRateLimited key].

Lemma promote_if_spec urgent key o :
  obs_calls (promote_if urgent key o).2 = obs_calls o
  ∧ obs_observations (promote_if urgent key o).2 = obs_observations o
  ∧ (urgent = true → shuttingDown (obs_queue o) = false → is_promoted (obs_queue (promote_if urgent key o).2) key = true).
Proof.
  unfold promote_if. destruct urgent; cbn; split_and!; try done. intros _ Hs. by apply promote_promoted.
Qed.

Lemma reschedule_spec key urgent now observed o :
  let superseded := bool_decide (obs_observations o !! key = Some true) in
  let o' := (reschedule opts key urgent superseded observed now (finishObservation key o).2).2 in
  obs_observations o' !! key = None ∧ obs_calls o' = obs_calls o ++ next_calls key now observed o
  ∧ (next_calls key now observed o = [CallAddRateLimited key] → urgent = true → shuttingDown (obs_queue o) = false →
       is_promoted (obs_queue o') key = true).
Proof.
  cbv zeta. unfold reschedule, next_calls, needed. set (o1 := (finishObservation key o).2).
  assert (obs_observations o1 !! key = None ∧ obs_calls o1 = obs_calls o ∧ obs_queue o1 = obs_queue o) as (Ho1 & Hc1 & Hq1)
    by (split_and!; [cbn; by rewrite lookup_delete_eq|done..]).
  rewrite State_bind_run. destruct (bool_decide (obs_observations o !! key = Some true)); cbn [orb mret State_ret fst snd negb].
  { split_and!; [exact Ho1|done|done]. }
  destruct (needsObservation_state key now o1) as [s Hs].
  destruct (needsObservation key now o1) as [d o2]. cbn [fst snd] in *. subst o2.
  destruct d; cbn [negb]; [|split_and!; [exact Ho1|done..]].
  destruct observed; [split_and!; [exact Ho1|done..]|]. rewrite State_bind_run.
  destruct (promote_if_spec urgent key (set_obs_store s o1)) as (Hpc & Hpo & Hpp).
  set (o3 := (promote_if urgent key (set_obs_store s o1)).2) in *. unfold queue_calls, modify. cbn [snd].
  split_and!.
  - cbn. rewrite Hpo. exact Ho1.
  - cbn. rewrite Hpc. done.
  - intros _ Hu Hsd. apply (Hpp Hu). exact Hsd.
Qed.

(** When the queue hands nothing out. *)
Lemma get_outcome u p :
  match (get u p).1 with
  | GetWait => get_empty u p = true ∧ shuttingDown p = false
  | GetShutdown => get_empty u p = true ∧ shuttingDown p = true
  | GetItem _ => True
  end.
Proof.
  destruct (get_cases u p) as [Hu Hb| |]; cbn [fst]; [|done..]. assert (get_empty u p = true) as He.
  { unfold get_empty. rewrite Hu. cbn. destruct Hb as [-> | ->]; [done|]. apply orb_true_r. }
  by destruct (shuttingDown p).
Qed.

(** What becomes of a key: a key without demand or record is forgotten, one found
    while the watches are unhealthy is tried again after a poll interval, and
    otherwise its observation is finished and what follows is [next_calls]. *)
Definition rescheduled (key : clusterKey) (now1 now2 : time) (observation : State Observer bool) (o o' : Observer) : Prop :=
  if negb (needed key now1 o) then obs_calls o' = obs_calls o ++ [CallForget key]
  else if negb (obs_ready o) then
    obs_calls o' = obs_calls o ++ [CallAddAfter key (PollInterval opts)]
    ∧ (IsUrgent key (obs_queue o) = true → shuttingDown (obs_queue o) = false → is_promoted (obs_queue o') key = true)
  else
    let r := observation (beginObservation key (needsObservation key now1 o).2).2 in
    obs_observations o' !! key = None ∧ obs_calls o' = obs_calls r.2 ++ next_calls key now2 r.1 r.2
    ∧ (next_calls key now2 r.1 r.2 = [CallAddRateLimited key] → IsUrgent key (obs_queue o) = true →
         shuttingDown (obs_queue r.2) = false → is_promoted (obs_queue o') key = true).

Lemma work_key_spec key now1 now2 observation o :
  let m := work_key opts key false now1 now2 observation o in
  m.1 = true ∧ processing (obs_queue m.2) !! key = None ∧ rescheduled key now1 now2 observation o m.2.
Proof.
  cbv zeta. unfold rescheduled. unfold work_key, needed. rewrite !State_bind_run. cbn [modify mret State_ret fst snd].
  destruct (needsObservation_state key now1 o) as [s Hs]. set (n := needsObservation key now1 o) in *.
  destruct (negb n.1); [rewrite State_bind_run; cbn; by rewrite Hs, Done_idle|].
  rewrite State_bind_run. cbn [get_state fst snd]. assert (obs_ready n.2 = obs_ready o) as -> by by rewrite Hs.
  assert (obs_queue n.2 = obs_queue o) as Hq by by rewrite Hs.
  destruct (negb (obs_ready o)); rewrite !State_bind_run; cbn [mret State_ret fst snd].
  - destruct (promote_if_spec (IsUrgent key (obs_queue n.2)) key n.2) as (Hc & _ & Hp).
    split; [done|]. split; [apply Done_idle|]. split; [cbn; rewrite Hc; by rewrite Hs|].
    intros Hu Hsd. cbn. rewrite Done_promoted. apply Hp; by rewrite Hq.
  - cbn [get_state fst snd]. set (r := observation _).
    destruct (reschedule_spec key (IsUrgent key (obs_queue n.2)) now2 r.1 r.2) as (Ho & Hc & Hp).
    split; [done|]. split; [apply Done_idle|]. split; [exact Ho|]. split; [exact Hc|].
    intros Hn Hu Hsd. cbn. rewrite Done_promoted. apply (Hp Hn); [by rewrite Hq|done].
Qed.

(** A worker waits only while the queue has nothing for it and stops only with the
    queue.  A worker that is not being stopped gives the key it got back to the
    queue and goes on; a key without demand or record is forgotten, one found while
    the watches are unhealthy is tried again after a poll interval, and otherwise,
    whatever the observation did, it is finished and its key is forgotten if it was
    superseded or is no longer needed, refreshed after a poll interval if it
    succeeded, and retried with backoff, keeping its urgency, if it failed. *)
Theorem worker_reschedules urgentOnly now1 now2 env observation o :
  match workNext opts urgentOnly false now1 now2 env observation o with
  | None => get_empty urgentOnly (obs_queue o) = true ∧ shuttingDown (obs_queue o) = false
  | Some (false, _) => get_empty urgentOnly (obs_queue o) = true ∧ shuttingDown (obs_queue o) = true
  | Some (true, o') => ∃ key q, get urgentOnly (obs_queue o) = (GetItem key, q)
      ∧ processing (obs_queue o') !! key = None
      ∧ rescheduled key now1 now2 (observation key) (env (set_obs_queue q o)) o'
  end.
Proof.
  unfold workNext. pose proof (get_outcome urgentOnly (obs_queue o)) as Hget.
  destruct (get urgentOnly (obs_queue o)) as [[| |key] q]; cbn [fst] in Hget; [done|done|].
  pose proof (work_key_spec key now1 now2 (observation key) (env (set_obs_queue q o))) as (Hc & Hp & Hr).
  destruct (work_key _ _ _ _ _ _ _) as [c o']. cbn [fst snd] in *. subst c. by exists key, q.
Qed.
End claims.


(** ** A concrete observation *)

Section example.
#[local] Existing Instances identity_digest plain_access plain_text plain_range plain_keys.

Definition observed_key : clusterKey := ClusterKey "app" "db".

Definition example_surroundings : surroundings := {|
  env_pods o := o; env_ca o := o; env_publish _ := quiet_observer "7";
  io_done := false; ctx_done := false; time_started := second; time_publish := example_clock;
|}.

(** [db-1] says that it is the primary. *)
Definition example_probe (pods : list Pod) (_ : ConnectionParameters) (_ : string) : list statusResult :=
  (λ p, example_status (bool_decide (pod_Name p = "db-1")) []) <$> pods.

Definition example_observe : option ((bool * list pendingDeliveries) * Observer) :=
  observe example_options observed_key example_surroundings example_probe (quiet_observer "7").

Definition observed_available (x : option ((bool * list pendingDeliveries) * Observer)) : bool :=
  match x with
  | Some (_, o) => default false ((λ r, snapshot_Available (record_snapshot r)) <$> record_at observed_key o)
  | None => false
  end.

Lemma observation_safe_witness :
  ∃ ok pendings o' r, example_observe = Some ((ok, pendings), o') ∧ record_at observed_key o' = Some r
    ∧ observed_route observed_key example_surroundings example_probe (quiet_observer "7") r.
Proof.
  assert (∀ o, clusters_keyed (env_publish example_surroundings o)) as Hk.
  { intros o k c. cbn. by intros [<- <-]%lookup_singleton_Some. }
  assert (observed_available example_observe = true) as Hav by (vm_compute; reflexivity).
  assert (record_at observed_key (publication_state observed_key example_surroundings (quiet_observer "7")) = None) as Hnone
    by (vm_compute; reflexivity).
  destruct (observation_safe example_options observed_key example_surroundings example_probe (quiet_observer "7"))
    as (ok & pendings & o' & Ho & Hr); [intros pods c n; apply length_fmap|exact Hk|].
  change (example_observe = Some (ok, pendings, o')) in Ho. unfold observed_available in Hav. rewrite Ho in Hav.
  destruct (record_at observed_key o') as [r|] eqn:E; [|discriminate Hav]. exists ok, pendings, o', r.
  split; [exact Ho|]. split; [exact E|].
  destruct (Hr r eq_refl Hav) as [Hold|[_ Hv]]; [rewrite Hnone in Hold; discriminate Hold|exact Hv].
Defined.
End example.
