(* ===== verification/Informers.v ===== *)
(** * Informers (src/internal/observer/watch.go)

    What [initializeInformers] installs on the three shared informers: the
    handlers of additions, updates and deletions, the projection of Secrets and
    the index of Pods.  The informers are client-go's: an informer changes its
    cache and then calls the handlers with what it changed, in that order. *)

From S2P Require Import Prelude Api Mailbox Store Queue Config Kube Topology Evidence Settings Observer Events.

(** The calls of [cache.ResourceEventHandlerFuncs]. *)
Inductive informer_event (A : Type) :=
  | Added (obj : event_object A)
  | Updated (old new : event_object A)
  | Deleted (obj : event_object A).
Arguments Added {A} obj.
Arguments Updated {A} old new.
Arguments Deleted {A} obj.

(** The part of a Secret's metadata that the API sends; the transform keeps only
    what identifies a version of it. *)
Record PartialObjectMetadata := {
  meta_Namespace : string;
  meta_Name : string;
  meta_UID : string;
  meta_ResourceVersion : string;
  meta_Labels : gmap string string;
  meta_Annotations : gmap string string;
}.

Definition transformSecretCache (m : PartialObjectMetadata) : SecretMetadata := {|
  secret_Namespace := meta_Namespace m; secret_Name := meta_Name m;
  secret_UID := meta_UID m; secret_ResourceVersion := meta_ResourceVersion m;
|}.

(** [indexPodCluster]. *)
Definition indexPodCluster (obj : event_object Pod) : list clusterKey := option_list (podCluster obj).

Section handlers.
Context `{TextLibrary, MapRange, Unstructured, RoutingDigest, KeyRange}.
Context (opts : Options).

Definition cluster_handler (ev : informer_event object) (clk1 clk2 : clock) : State Observer pendingDeliveries :=
  match ev with
  | Added obj => clusterEvent opts Foreign obj clk1 clk2
  | Updated old new => clusterEvent opts old new clk1 clk2
  | Deleted obj => clusterDeleted obj
  end.

Definition pod_handler (ev : informer_event Pod) (clk : clusterKey → clock) : State Observer pendingDeliveries :=
  match ev with
  | Added obj => podEvent opts Foreign obj clk
  | Updated old new => podEvent opts old new clk
  | Deleted obj => podEvent opts obj Foreign clk
  end.

Definition secret_handler (ev : informer_event SecretMetadata) (clk : clusterKey → clock) : State Observer pendingDeliveries :=
  match ev with
  | Added obj => secretEvent opts obj clk
  | Updated _ new => secretEvent opts new clk
  | Deleted obj => secretEvent opts obj clk
  end.
End handlers.
