(* ===== verification/System.v ===== *)
(** * The running observer (src/internal/observer)

    The composition of the observer's parts: the state of [Observer], the
    notifications of the Cluster informer that its handler has not seen yet, the
    calls of the store's demand handler in flight, and the observation workers.
    An action is one section of a lock (or one call on a queue) of one goroutine;
    any goroutine may act next.  [sys_sent] lists the notifications that the
    sections hand to [deliver] once they have released their lock; how these reach
    the mailboxes is the subject of [Whole].  The delayed calls [AddAfter] and
    [AddRateLimited] of client-go stay in [obs_calls] until they fire. *)

From S2P Require Import Prelude Api Mailbox Store Queue Config Kube Topology Evidence Settings.
From S2P Require Import Observer Collection Events Connection Observe Informers.

(** ** Delayed calls *)

(** The key a delayed call will add to the queue. *)
Definition delayed_key (c : queue_call clusterKey) : option clusterKey :=
  match c with
  | CallAddAfter key _ | CallAddRateLimited key => Some key
  | CallAdd _ | CallForget _ | CallDone _ => None
  end.

(** The delaying queue keeps one pending entry per key: when it fires, the
    delayed calls for the key are spent. *)
Definition spend (key : clusterKey) (l : list (queue_call clusterKey)) : list (queue_call clusterKey) :=
  filter (λ c, delayed_key c ≠ Some key) l.

Fixpoint take_key (key : clusterKey) (l : list clusterKey) : option (list clusterKey) :=
  match l with
  | [] => None
  | k :: l => if decide (k = key) then Some l else cons k <$> take_key key l
  end.

Section system.
Context `{TextLibrary, MapRange, Unstructured, RoutingDigest, KeyRange}.
Context (opts : Options).

(** ** Workers *)

(** Where a worker is in [workNext]: it got a key; it is in [observe] (before the
    first section, before reading the Pods, before the CA lookup, probing, or about
    to publish a failure); [observe] returned; it read the cause of its context; it
    finished the observation; it is about to call [Done]. *)
Inductive worker :=
  | WGot (key : clusterKey)
  | WBegin (key : clusterKey) (urgent : bool) (started : time)
  | WPods (key : clusterKey) (urgent : bool) (started : time) (c : object) (params : Parameters)
  | WConnect (key : clusterKey) (urgent : bool) (started : time) (c : object) (params : Parameters) (pods : list Pod)
  | WProbe (key : clusterKey) (urgent : bool) (started : time) (c : object) (params : Parameters) (pods : list Pod)
      (connection : connectionInfo)
  | WFail (key : clusterKey) (urgent : bool) (reason : string)
  | WEnd (key : clusterKey) (urgent observed : bool)
  | WFinish (key : clusterKey) (urgent superseded observed : bool)
  | WDecide (key : clusterKey) (urgent superseded observed : bool)
  | WDone (key : clusterKey).

(** What the step of a worker takes from outside: the clock, whether its contexts
    are done and the results of the probes. *)
Record step_input := {
  in_clock : clock;
  in_ioErr : bool;
  in_ctxErr : bool;
  in_results : list statusResult;
}.

(** A superseded context is done. *)
Definition context_done (i : step_input) (key : clusterKey) (o : Observer) : bool :=
  in_ctxErr i || bool_decide (obs_observations o !! key = Some true).

(** [workNext] after it got a key, with a context that is not done. *)
Definition worker_check (key : clusterKey) (now : time) (o : Observer) : worker * Observer :=
  let '(needed, o) := needsObservation key now o in
  if negb needed then (WDone key, (queue_calls [CallForget key] o).2)
  else
    let urgent := IsUrgent key (obs_queue o) in
    if negb (obs_ready o) then
      (WDone key, (queue_calls [CallAddAfter key (PollInterval opts)] (promote_if urgent key o).2).2)
    else (WBegin key urgent now, (beginObservation key o).2).

(** What [pending.deliver()] hands to the watchers. *)
Definition handed (pending : pendingDeliveries) : list notification :=
  omap (λ x, match x with inl n => Some n | inr _ => None end) (deliver_pending pending).

(** The next step of a worker: where it is then ([None]: waiting for a key) and what
    it delivers.  [None] in place of a result is a run-time panic. *)
Definition worker_step (i : step_input) (w : worker) (o : Observer) :
    option (option worker * list notification * Observer) :=
  match w with
  | WGot key => let '(w, o) := worker_check key (clk_now (in_clock i)) o in Some (Some w, [], o)
  | WBegin key urgent started =>
      let '(plan, o) := observe_begin key o in
      Some match plan with
           | ObserveGone pending => (Some (WEnd key urgent true), handed pending, o)
           | ObserveFailure reason => (Some (WFail key urgent reason), [], o)
           | ObserveCollect c params => (Some (WPods key urgent started c params), [], o)
           end
  | WPods key urgent started c params => Some (Some (WConnect key urgent started c params (observe_pods c o)), [], o)
  | WConnect key urgent started c params pods =>
      let '(connection, o) := cachedConnection (in_ioErr i || context_done i key o) c o in
      Some (Some match connection with
                 | inl connection => WProbe key urgent started c params pods connection
                 | inr _ => WFail key urgent "connection_defaults_unavailable"
                 end, [], o)
  | WProbe key urgent started c params pods connection =>
      '((ok, pending), o) ← publishObservation opts (context_done i key o) key c pods (in_results i) params connection
        started (clk_now (in_clock i)) (clk_put1 (in_clock i)) (clk_put2 (in_clock i)) (clk_demand (in_clock i)) o;
      Some (Some (WEnd key urgent ok), handed pending, o)
  | WFail key urgent reason =>
      let '((ok, pending), o) := publishFailure opts (context_done i key o) key reason
        (clk_now (in_clock i)) (clk_put1 (in_clock i)) (clk_put2 (in_clock i)) o in
      Some (Some (WEnd key urgent ok), handed pending, o)
  | WEnd key urgent observed =>
      Some (Some (WFinish key urgent (bool_decide (obs_observations o !! key = Some true)) observed), [], o)
  | WFinish key urgent superseded observed =>
      Some (Some (WDecide key urgent superseded observed), [], (finishObservation key o).2)
  | WDecide key urgent superseded observed =>
      Some (Some (WDone key), [], (reschedule opts key urgent superseded observed (clk_now (in_clock i)) o).2)
  | WDone key => Some (None, [], set_obs_queue (Done key (obs_queue o)).1 o)
  end.

(** ** The system *)

Record System := {
  sys_observer : Observer;
  sys_notices : list (informer_event object);
  sys_demands : list clusterKey;
  sys_workers : gmap positive worker;
  sys_sent : list notification;
  sys_now : time;
}.

Inductive action :=
  (* clients of the store *)
  | RefreshCall (key : clusterKey) (t : time)
  | RegisterCall (key : clusterKey) (requireExisting : bool) (watcher : sid) (t1 t2 : time)
  | UnregisterCall (key : clusterKey) (watcher : sid)
  | ReadCall (key : clusterKey) (t : time)
  | ActiveCall (t : time)
  | DemandHandler (key : clusterKey) (t : time)
  (* the operator, timers and the expiry ticker *)
  | HookCall (key : clusterKey) (t : time)
  | TimerFires (key : clusterKey)
  | ExpiryTick (ks : list clusterKey) (t : time)
  (* informers *)
  | ClusterChanged (c : object)
  | ClusterRemoved (obj : event_object object)
  | ClusterNotice (clk1 clk2 : clock)
  | CachesChanged (pods : gmap clusterKey (list Pod)) (secrets : gmap clusterKey SecretMetadata) (ready : bool)
  | PodNotice (ev : informer_event Pod) (clk : clusterKey → clock)
  | SecretNotice (ev : informer_event SecretMetadata) (clk : clusterKey → clock)
  (* workers *)
  | FetchBegin (now : clusterKey → time) (key : clusterKey)
  | FetchEnd (now : clusterKey → time) (key : clusterKey) (meta : SecretMetadata) (read : cachedCA + ca_error) (expired : bool)
  | WorkerGet (id : positive) (urgentOnly : bool)
  | WorkerStep (id : positive) (i : step_input).

(** The Cluster informer stores [c] and has a notification for the handler. *)
Definition informer_notice (c : object) (o : Observer) : informer_event object :=
  match obs_clusters o !! cluster_key c with
  | Some old => Updated (Live old) (Live c)
  | None => Added (Live c)
  end.

Definition set_obs_clusters (v : gmap clusterKey object) (o : Observer) : Observer := {|
  obs_store := obs_store o; obs_primaries := obs_primaries o; obs_clusters := v; obs_pods := obs_pods o;
  obs_secrets := obs_secrets o; obs_ready := obs_ready o; obs_observations := obs_observations o;
  obs_demandNext := obs_demandNext o; obs_queue := obs_queue o; obs_calls := obs_calls o;
  obs_cas := obs_cas o; obs_caReads := obs_caReads o; obs_caPending := obs_caPending o;
  obs_caCalls := obs_caCalls o;
|}.

Definition set_caches (pods : gmap clusterKey (list Pod)) (secrets : gmap clusterKey SecretMetadata) (ready : bool)
    (o : Observer) : Observer := {|
  obs_store := obs_store o; obs_primaries := obs_primaries o; obs_clusters := obs_clusters o; obs_pods := pods;
  obs_secrets := secrets; obs_ready := ready; obs_observations := obs_observations o;
  obs_demandNext := obs_demandNext o; obs_queue := obs_queue o; obs_calls := obs_calls o;
  obs_cas := obs_cas o; obs_caReads := obs_caReads o; obs_caPending := obs_caPending o;
  obs_caCalls := obs_caCalls o;
|}.

Definition with_observer (o : Observer) (s : System) : System := {|
  sys_observer := o; sys_notices := sys_notices s; sys_demands := sys_demands s; sys_workers := sys_workers s;
  sys_sent := sys_sent s; sys_now := sys_now s;
|}.

Definition with_notices (l : list (informer_event object)) (s : System) : System := {|
  sys_observer := sys_observer s; sys_notices := l; sys_demands := sys_demands s; sys_workers := sys_workers s;
  sys_sent := sys_sent s; sys_now := sys_now s;
|}.

Definition with_demands (l : list clusterKey) (s : System) : System := {|
  sys_observer := sys_observer s; sys_notices := sys_notices s; sys_demands := l; sys_workers := sys_workers s;
  sys_sent := sys_sent s; sys_now := sys_now s;
|}.

Definition with_workers (m : gmap positive worker) (s : System) : System := {|
  sys_observer := sys_observer s; sys_notices := sys_notices s; sys_demands := sys_demands s; sys_workers := m;
  sys_sent := sys_sent s; sys_now := sys_now s;
|}.

Definition with_now (t : time) (s : System) : System := {|
  sys_observer := sys_observer s; sys_notices := sys_notices s; sys_demands := sys_demands s;
  sys_workers := sys_workers s; sys_sent := sys_sent s; sys_now := t;
|}.

Definition with_sent (l : list notification) (s : System) : System := {|
  sys_observer := sys_observer s; sys_notices := sys_notices s; sys_demands := sys_demands s;
  sys_workers := sys_workers s; sys_sent := sys_sent s ++ l; sys_now := sys_now s;
|}.

(** A section of the observer that belongs to no worker. *)
Definition section {A} (m : State Observer A) (s : System) : System := with_observer (m (sys_observer s)).2 s.

(** A section with the deliveries that follow it. *)
Definition delivering {A} (out : A → list notification) (m : State Observer A) (s : System) : System :=
  with_sent (out (m (sys_observer s)).1) (section m s).

(** [None]: the action is not possible. *)
Definition sys_do (a : action) (s : System) : option System :=
  let o := sys_observer s in
  match a with
  | RefreshCall key t =>
      let '((_, call), o) := on_store (RequestRefresh key t) o in
      Some (with_demands (sys_demands s ++ option_list call) (with_observer o s))
  | RegisterCall key requireExisting watcher t1 t2 =>
      let '(r, o) := on_store (register key requireExisting watcher t1 t2) o in
      Some (with_demands (sys_demands s ++ option_list (registration_demand r))
              (with_sent [registration_expired r] (with_observer o s)))
  | UnregisterCall key watcher => Some (section (on_store (unregister key watcher)) s)
  | ReadCall key t => Some (delivering (λ r, [r.2]) (on_store (GetDeferred key t)) s)
  | ActiveCall t => Some (section (on_store (ActiveClusters t)) s)
  | DemandHandler key t =>
      demands ← take_key key (sys_demands s);
      Some (section (enqueue opts key false t) (with_demands demands s))
  | HookCall key t => Some (section (Notify opts key t) s)
  | TimerFires key =>
      guard (Some key ∈ (delayed_key <$> obs_calls o)) ;;
      Some (with_observer (set_obs_queue (Add key (obs_queue o)).1 (set_obs_calls (spend key (obs_calls o)) o)) s)
  | ExpiryTick ks t => Some (delivering id (on_store (Expire ks t)) s)
  | ClusterChanged c =>
      Some (with_notices (sys_notices s ++ [informer_notice c o])
              (with_observer (set_obs_clusters (<[cluster_key c := c]> (obs_clusters o)) o) s))
  | ClusterRemoved obj =>
      c ← cached obj;
      Some (with_notices (sys_notices s ++ [Deleted obj])
              (with_observer (set_obs_clusters (delete (cluster_key c) (obs_clusters o)) o) s))
  | ClusterNotice clk1 clk2 =>
      match sys_notices s with
      | [] => None
      | ev :: rest => Some (delivering handed (cluster_handler opts ev clk1 clk2) (with_notices rest s))
      end
  | CachesChanged pods secrets ready => Some (with_observer (set_caches pods secrets ready o) s)
  | PodNotice ev clk => Some (delivering handed (pod_handler opts ev clk) s)
  | SecretNotice ev clk => Some (delivering handed (secret_handler opts ev clk) s)
  | FetchBegin now key => Some (section (fetch_begin now key) s)
  | FetchEnd now key meta read expired => Some (section (fetch_end opts now key meta read expired) s)
  | WorkerGet id urgentOnly =>
      guard (sys_workers s !! id = None) ;;
      match get urgentOnly (obs_queue o) with
      | (GetItem key, q) =>
          Some (with_workers (<[id := WGot key]> (sys_workers s)) (with_observer (set_obs_queue q o) s))
      | _ => None
      end
  | WorkerStep id i =>
      w ← sys_workers s !! id;
      '(w', sent, o') ← worker_step i w o;
      Some (with_workers (match w' with Some w' => <[id := w']> (sys_workers s) | None => delete id (sys_workers s) end)
              (with_sent sent (with_observer o' s)))
  end.

(** ** Time *)

Definition clock_within (t t' : time) (clk : clock) : Prop :=
  t ≤ clk_get clk ≤ t' ∧ t ≤ clk_now clk ≤ t' ∧ t ≤ clk_put1 clk ≤ t' ∧ t ≤ clk_put2 clk ≤ t' ∧ t ≤ clk_demand clk ≤ t'.

(** The clock readings of an action that runs between [t] and [t']. *)
Definition timely (t t' : time) (a : action) : Prop :=
  match a with
  | RefreshCall _ r | ReadCall _ r | ActiveCall r | DemandHandler _ r | HookCall _ r | ExpiryTick _ r => t ≤ r ≤ t'
  | RegisterCall _ _ _ r1 r2 => t ≤ r1 ≤ t' ∧ t ≤ r2 ≤ t'
  | ClusterNotice clk1 clk2 => clock_within t t' clk1 ∧ clock_within t t' clk2
  | PodNotice _ clk | SecretNotice _ clk => ∀ key, clock_within t t' (clk key)
  | FetchBegin now _ | FetchEnd now _ _ _ _ => ∀ key, t ≤ now key ≤ t'
  | WorkerStep _ i => clock_within t t' (in_clock i)
  | UnregisterCall _ _ | TimerFires _ | ClusterChanged _ | ClusterRemoved _ | CachesChanged _ _ _ | WorkerGet _ _ => True
  end.

(** The clock does not go back: an action takes place from one time to a later one. *)
Definition sys_step (a : action) (t' : time) (s s' : System) : Prop :=
  sys_now s ≤ t' ∧ timely (sys_now s) t' a ∧ ∃ s1, sys_do a s = Some s1 ∧ s' = with_now t' s1.

(** [observer.New] installs the demand handler before anything runs. *)
Definition new_observer (id : string) (lease : duration) : Observer := {|
  obs_store := SetDemandHandler lease (NewStore id); obs_primaries := ∅; obs_clusters := ∅; obs_pods := ∅;
  obs_secrets := ∅; obs_ready := false; obs_observations := ∅; obs_demandNext := ∅; obs_queue := newPriorityQueue;
  obs_calls := []; obs_cas := ∅; obs_caReads := ∅; obs_caPending := ∅; obs_caCalls := [];
|}.

Definition initial (id : string) (t : time) : System := {|
  sys_observer := new_observer id (TTL opts); sys_notices := []; sys_demands := []; sys_workers := ∅;
  sys_sent := []; sys_now := t;
|}.

Inductive sys_reachable : System → Prop :=
  | sys_init id t : 0 ≤ t → sys_reachable (initial id t)
  | sys_next a t s s' : sys_reachable s → sys_step a t s s' → sys_reachable s'.
End system.
