(* ===== verification/SystemFacts.v ===== *)
(** * Facts about the running observer

    [keeps]: what a section of the observer may do to the Clusters in demand.  It
    may queue more, lose demand and expire leases, but it neither forgets queued
    work nor the identity of a Cluster, and it cancels an observation only when
    the Cluster is queued again.  The relation is a preorder that every section
    but the Cluster handler satisfies. *)

From S2P Require Import Prelude Api Mailbox Store StoreFacts Queue QueueFacts.
From S2P Require Import Config Kube Topology Evidence Settings Observer ObserverFacts Collection CollectionProps.
From S2P Require Import Events EventsFacts EventsProps Connection Observe ObserveProps Informers System.

Section facts.
Context `{TextLibrary, MapRange, Unstructured, RoutingDigest, KeyRange}.
Context (opts : Options).

(** ** Demand *)

(** Somebody watches the Cluster, or a unary client asked for it recently. *)
Definition in_demand (k : clusterKey) (now : time) (s : Store) : Prop :=
  watchers_of s k ≠ ∅ ∨ ∃ deadline, unaryDemand s !! k = Some deadline ∧ now < deadline.

(** The names the observer may enqueue. *)
Definition in_scope (k : clusterKey) : Prop :=
  key_namespace k ≠ "" ∧ key_name k ≠ "" ∧ (Namespace opts = "" ∨ key_namespace k = Namespace opts).

(** A known Cluster that clients are waiting for. *)
Definition pursued (k : clusterKey) (now : time) (o : Observer) : Prop :=
  in_scope k ∧ in_demand k now (obs_store o) ∧ is_Some (obs_clusters o !! k).

(** The Cluster is in the queue, or a timer will put it there. *)
Definition queued (k : clusterKey) (o : Observer) : Prop :=
  k ∈ dirty (obs_queue o) ∨ Some k ∈ (delayed_key <$> obs_calls o).

(** The UID the store knows the Cluster by. *)
Definition known_as (k : clusterKey) (o : Observer) : option string :=
  cluster_UID <$> ClusterIdentity k (obs_store o).

Lemma hasDemand_true k t now s : 0 ≤ t ≤ now → in_demand k now s → (hasDemand k t s).1 = true.
Proof.
  intros Ht [Hw|(d & Hd & Hlt)]; rewrite hasDemand_value.
  - by rewrite bool_decide_eq_true_2.
  - rewrite Hd. cbn. rewrite (proj2 (Before_spec t d)) by lia. apply orb_true_r.
Qed.

Lemma hasDemand_sound k t s : 0 ≤ t → (hasDemand k t s).1 = true → in_demand k t s.
Proof.
  intros Ht. rewrite hasDemand_value. intros [Hw%bool_decide_eq_true|Hb%Before_spec]%orb_true_iff; [by left|].
  right. destruct (unaryDemand s !! k) as [d|]; cbn in Hb; [by eauto|]. unfold time_zero in Hb. lia.
Qed.

Lemma in_demand_antitone k t now s : t ≤ now → in_demand k now s → in_demand k t s.
Proof. intros Ht [Hw|(d & Hd & Hlt)]; [by left|right; exists d; split; [done|lia]]. Qed.

Lemma pursued_wanted k t now o : 0 ≤ t ≤ now → pursued k now o → wanted opts k t o = true.
Proof.
  intros Ht ((Hns & Hn & Hscope) & Hd & Hc). unfold wanted. rewrite (hasDemand_true k t now) by done.
  rewrite !(bool_decide_eq_false_2 (_ = "")), (bool_decide_eq_true_2 (is_Some _)) by done. cbn.
  destruct Hscope as [Hs|Hs]; rewrite (bool_decide_eq_true_2 _ Hs); by rewrite ?orb_true_r.
Qed.

(** ** The preorder *)

(** Sections that read no time after [now]; nothing is said about the identity of
    the Clusters in [X] and about the observations of those in [Y]. *)
Record keeps (now : time) (X Y : gset clusterKey) (o o' : Observer) : Prop := {
  keeps_clusters : obs_clusters o' = obs_clusters o;
  keeps_handler : onDemand (obs_store o') = onDemand (obs_store o);
  keeps_open : shuttingDown (obs_queue o') = shuttingDown (obs_queue o);
  keeps_keyed : records_keyed o → records_keyed o';
  keeps_processing : processing (obs_queue o') = processing (obs_queue o);
  keeps_wf : queue_wf (obs_queue o) → queue_wf (obs_queue o');
  keeps_queued k : queued k o → queued k o';
  keeps_demand k : in_demand k now (obs_store o') → in_demand k now (obs_store o);
  keeps_known k c : k ∉ X → obs_clusters o !! k = Some c → cluster_gone c = false →
    known_as k o = Some (GetUID c) → known_as k o' = Some (GetUID c);
  keeps_observing k : k ∉ Y → obs_observations o !! k = Some false →
    obs_observations o' !! k = Some false ∨ (pursued k now o' → queued k o');
}.

#[export] Instance keeps_refl now X Y : Reflexive (keeps now X Y).
Proof. split; auto. Qed.

#[export] Instance keeps_trans now X Y : Transitive (keeps now X Y).
Proof.
  intros o1 o2 o3 [Hc1 Hh1 Ho1 ? ? ? Hq1 Hd1 Hk1 He1] [Hc2 Hh2 Ho2 ? ? ? Hq2 Hd2 Hk2 He2].
  split; [congruence..|auto|congruence|auto|auto|auto| |].
  - intros k c Hx Hc Hg Hk. apply Hk2; [done|congruence|done|by apply Hk1].
  - intros k Hx Ho. destruct (He1 k Hx Ho) as [Hf|Hp]; [by apply He2|].
    right. intros (Hs & Hd & Hc). apply Hq2, Hp. split_and!; [done|by apply Hd2|by rewrite <-Hc2].
Qed.

(** A Cluster that is queued whenever it is pursued needs no observation. *)
Definition secured (k : clusterKey) (now : time) (o : Observer) : Prop := pursued k now o → queued k o.

Lemma keeps_secured now X Y k o o' : keeps now X Y o o' → secured k now o → secured k now o'.
Proof.
  intros [Hc _ _ _ _ _ Hq Hd _ _] Hs (Hsc & Hdm & Hcl). apply Hq, Hs. split_and!; [done|by apply Hd|by rewrite <-Hc].
Qed.

(** Cancelling is made good by queueing the Cluster. *)
Lemma keeps_close now X k o o' : keeps now X {[k]} o o' → secured k now o' → keeps now X ∅ o o'.
Proof.
  intros [? ? ? ? ? ? ? ? ? He] Hs. split; [done..|]. intros k'. destruct (decide (k' = k)) as [->|Hne].
  - intros _ _. by right.
  - intros _. apply He. set_solver.
Qed.

(** Fields that no clause mentions. *)
Lemma keeps_frame now X Y o o' :
  obs_clusters o' = obs_clusters o → obs_store o' = obs_store o → obs_queue o' = obs_queue o →
  (∃ l, obs_calls o' = obs_calls o ++ l) → obs_observations o' = obs_observations o → keeps now X Y o o'.
Proof.
  intros Hc Hs Hq [l Hl] Ho. split.
  - done.
  - by rewrite Hs.
  - by rewrite Hq.
  - unfold records_keyed. by rewrite Hs.
  - by rewrite Hq.
  - by rewrite Hq.
  - unfold queued. intros k. rewrite Hq, Hl, fmap_app. set_solver.
  - by rewrite Hs.
  - unfold known_as. by rewrite Hs.
  - rewrite Ho. auto.
Qed.

Lemma keeps_same now X Y o o' :
  obs_clusters o' = obs_clusters o → obs_store o' = obs_store o → obs_queue o' = obs_queue o →
  obs_calls o' = obs_calls o → obs_observations o' = obs_observations o → keeps now X Y o o'.
Proof. intros ??? Hc ?. apply keeps_frame; try done. exists []. by rewrite app_nil_r. Qed.

(** ** Sections of the store *)

(** The store forgets nothing but leases. *)
Record calm (s s' : Store) : Prop := {
  calm_handler : onDemand s' = onDemand s;
  calm_watchers : ∀ k, watchers_of s' k ⊆ watchers_of s k;
  calm_leases : unaryDemand s' ⊆ unaryDemand s;
  calm_identity : ∀ k, ClusterIdentity k s' = ClusterIdentity k s;
}.

#[export] Instance calm_refl : Reflexive calm.
Proof. done. Qed.

#[export] Instance calm_trans : Transitive calm.
Proof. intros s1 s2 s3 [] []. split; [congruence|set_solver|by etrans|congruence]. Qed.

Lemma in_demand_calm k now s s' :
  (∀ k, watchers_of s' k ⊆ watchers_of s k) → unaryDemand s' ⊆ unaryDemand s → in_demand k now s' → in_demand k now s.
Proof.
  intros Hw Hl [Hne|(d & Hd & Hlt)]; [left; specialize (Hw k); set_solver|].
  right. exists d. split; [|done]. by eapply lookup_weaken.
Qed.

Lemma keeps_store {A} now X Y (m : State Store A) o : calm (obs_store o) (m (obs_store o)).2 → keeps now X Y o (on_store m o).2.
Proof.
  intros [Hh Hw Hl Hi]. unfold on_store. destruct (m (obs_store o)) as [x s]. cbn [snd] in *. split; cbn; auto.
  - intros Hk k r Hr. specialize (Hi k). unfold ClusterIdentity in Hi. cbn in Hr. rewrite Hr in Hi. cbn in Hi.
    destruct (records (obs_store o) !! k) as [r'|] eqn:Hr'; [|done]. injection Hi as Hi. rewrite Hi. by apply Hk.
  - intros k. by apply in_demand_calm.
  - intros k c _ _ _. unfold known_as. cbn. by rewrite Hi.
Qed.

Lemma hasDemand_calm k now s : calm s (hasDemand k now s).2.
Proof. rewrite hasDemand_state. case_goal; [done|]. split; cbn; try done. apply delete_subseteq. Qed.

Lemma keeps_HasDemand now X Y key t o : keeps now X Y o (on_store (HasDemand key t) o).2.
Proof. apply keeps_store, hasDemand_calm. Qed.

Lemma readPublication_calm k now s : calm s (readPublication k now s).2.
Proof.
  destruct (readPublication_state k now s) as [[-> _]|(r & Hr & -> & _)]; [done|].
  destruct (expireRecord_cases r now) as [Hskip|[He Hle]]; [by rewrite expireRecord_skip|].
  rewrite expireRecord_fire by done. split; cbn; try done. intros k'. unfold ClusterIdentity. cbn.
  rewrite lookup_insert. case_decide; [subst|done]. by rewrite Hr.
Qed.

Lemma GetDeferred_calm k now s : calm s (GetDeferred k now s).2.
Proof. unfold GetDeferred. rewrite State_bind_run. apply readPublication_calm. Qed.

Lemma Expire_calm ks now s : calm s (Expire ks now s).2.
Proof.
  rewrite Expire_state. trans (expire_all now ks s).2; [|split; cbn; try done; apply map_filter_subseteq].
  revert s. induction ks as [|k ks IH]; intros s; [done|]. rewrite expire_all_cons, expire_one_read. cbn [fst snd].
  etrans; [apply readPublication_calm|apply IH].
Qed.

Lemma ActiveClusters_calm now s : calm s (ActiveClusters now s).2.
Proof. unfold ActiveClusters. run_state. split; cbn; try done. apply map_filter_subseteq. Qed.

Lemma unregister_calm key w s : calm s (unregister key w s).2.
Proof.
  unfold unregister. cbn. split; cbn; try done. intros k. unfold watchers_of. cbn.
  case_bool_decide; (destruct (decide (k = key)) as [->|Hne];
    [rewrite ?lookup_delete_eq, ?lookup_insert_eq|rewrite ?lookup_delete_ne, ?lookup_insert_ne by done]); set_solver.
Qed.

(** ** Operations *)

Lemma queue_add_queued k key p : k ∈ dirty p → k ∈ dirty (Add key p).1.
Proof.
  intros Hk. unfold Add. destruct (shuttingDown p); [done|]. case_bool_decide; [done|].
  destruct (processing _ !! key); cbn; [set_solver|]. unfold push. case_match; cbn; set_solver.
Qed.

Lemma Add_shuttingDown key p : shuttingDown (Add key p).1 = shuttingDown p.
Proof. unfold Add. repeat case_match; try done. cbn. unfold push. by case_match. Qed.

Lemma promote_dirty key p : dirty (promote key p).1 = dirty p.
Proof. unfold promote. by repeat case_match. Qed.

Lemma Add_processing key p : processing (Add key p).1 = processing p.
Proof. unfold Add. repeat case_match; try done. cbn. unfold push. by case_match. Qed.

Lemma promote_processing key p : processing (promote key p).1 = processing p.
Proof. unfold promote. by repeat case_match. Qed.

Lemma keeps_queue now X Y p o :
  shuttingDown p = shuttingDown (obs_queue o) → processing p = processing (obs_queue o) →
  (queue_wf (obs_queue o) → queue_wf p) → dirty (obs_queue o) ⊆ dirty p → keeps now X Y o (set_obs_queue p o).
Proof. intros Hs Hp Hw Hd. split; cbn; auto. unfold queued. cbn. set_solver. Qed.

Lemma keeps_promote_if now X Y urgent key o : keeps now X Y o (promote_if urgent key o).2.
Proof.
  unfold promote_if. destruct urgent; [|done]. apply keeps_queue; [apply promote_shuttingDown|apply promote_processing|by apply promote_wf|by rewrite promote_dirty].
Qed.

Lemma keeps_calls now X Y l o : keeps now X Y o (queue_calls l o).2.
Proof. apply keeps_frame; cbn; eauto. Qed.

Lemma queue_calls_queued l k o : Some k ∈ (delayed_key <$> l) → queued k (queue_calls l o).2.
Proof. intros Hk. right. cbn. rewrite fmap_app. set_solver. Qed.

Lemma keeps_enqueue now X Y key urgent t o : keeps now X Y o (enqueue opts key urgent t o).2.
Proof.
  unfold enqueue. case_goal; [done|]. rewrite State_bind_run.
  etrans; [apply (keeps_HasDemand now X Y key t)|]. set (o1 := (on_store (HasDemand key t) o).2). rewrite State_bind_run. cbn [get_state fst snd].
  destruct (negb _ || _); [done|]. destruct urgent.
  { apply keeps_queue; [by rewrite Add_shuttingDown, promote_shuttingDown|by rewrite Add_processing, promote_processing| |].
    { intros Hw. by apply Add_wf, promote_wf. }
    intros k Hk. apply queue_add_queued. by rewrite promote_dirty. }
  assert (keeps now X Y o1 (set_obs_queue (Add key (obs_queue o1)).1
    (set_obs_demandNext (<[key := t + PollInterval opts]> (obs_demandNext o1)) o1))) as Hadd.
  { etrans; [|apply keeps_queue; [by rewrite Add_shuttingDown|by rewrite Add_processing|by apply Add_wf|]]; [by apply keeps_same|].
    intros k. apply queue_add_queued. }
  destruct (obs_demandNext o1 !! key); [|exact Hadd]. case_goal; [|exact Hadd]. apply keeps_frame; cbn; eauto.
Qed.

(** A pursued Cluster is queued by a call that reads the clock before [now]. *)
Lemma enqueue_secures now key (urgent : bool) t o :
  0 ≤ t ≤ now → shuttingDown (obs_queue o) = false → secured key now (enqueue opts key urgent t o).2.
Proof.
  intros Ht Hs Hp. pose proof (keeps_enqueue now ∅ ∅ key urgent t o) as [Hcl _ _ _ _ _ _ Hd _ _].
  assert (wanted opts key t o = true) as Hw.
  { apply (pursued_wanted _ _ now); [done|]. destruct Hp as (? & Hdm & Hc). rewrite Hcl in Hc. split_and!; auto. }
  rewrite enqueue_wanted by done. unfold on_store. destruct (HasDemand key t (obs_store o)) as [d st]. cbn [snd].
  destruct urgent; [left; cbn; apply Add_dirty; by rewrite promote_shuttingDown|].
  destruct (cooling key t o); [right; cbn; rewrite fmap_app; set_solver|]. left. cbn. by apply Add_dirty.
Qed.

Lemma keeps_cancel now key o : keeps now ∅ {[key]} o (cancelObservationLocked key o).2.
Proof.
  unfold cancelObservationLocked. cbn. destruct (obs_observations o !! key); [|done].
  split; cbn; auto. intros k Hk Ho. left. rewrite lookup_insert_ne by set_solver. done.
Qed.

(** The store's identity of a Cluster after a commit. *)
Lemma commit_known s now1 now2 o k :
  known_as k (commitPublication s now1 now2 o).2
  = if decide (k = ref_key (snapshot_Cluster s)) then Some (cluster_UID (snapshot_Cluster s)) else known_as k o.
Proof.
  unfold known_as, ClusterIdentity. rewrite commit_records, lookup_insert.
  case_decide as Hd; case_decide; try congruence. cbn. f_equal. f_equal.
  apply (narrows_cluster _ _ (committed_record_narrows s now1 now2 o)).
Qed.

Lemma keeps_commit now X Y s now1 now2 o :
  (ref_key (snapshot_Cluster s) ∉ X → ∀ c, obs_clusters o !! ref_key (snapshot_Cluster s) = Some c →
    cluster_gone c = false → cluster_UID (snapshot_Cluster s) = GetUID c) →
  keeps now X Y o (commitPublication s now1 now2 o).2.
Proof.
  intros Hid. assert (∀ k c, k ∉ X → obs_clusters o !! k = Some c → cluster_gone c = false → known_as k o = Some (GetUID c) →
    known_as k (commitPublication s now1 now2 o).2 = Some (GetUID c)) as Hk.
  { intros k c Hx Hc Hg Hk. rewrite commit_known. case_decide; [subst|done]. f_equal. by apply Hid. }
  pose proof (touches_keyed _ _ _ (commit_touches s now1 now2 o)) as Hkd.
  revert Hk Hkd. rewrite commit_run. unfold put_state. intros Hk Hkd.
  split; cbn; try done; try (by destruct (put_changed _ _)). auto.
Qed.

(** A commit for the Cluster in the cache. *)
Lemma keeps_commit_cached now X Y s now1 now2 o key c :
  clusters_keyed o → obs_clusters o !! key = Some c → snapshot_Cluster s = clusterRef c →
  keeps now X Y o (commitPublication s now1 now2 o).2.
Proof.
  intros Hck Hc Hs. apply keeps_commit. intros _ c'. rewrite Hs.
  change (ref_key (clusterRef c)) with (ClusterKey (GetNamespace c) (GetName c)).
  rewrite (Hck _ _ Hc), Hc. by intros [= <-].
Qed.

(** Deleting the record of a Cluster that is gone from the cache. *)
Lemma keeps_delete now X Y key o :
  (key ∉ X → ∀ c, obs_clusters o !! key = Some c → cluster_gone c = true) → keeps now X Y o (delete_cluster key o).2.
Proof.
  intros Hid. destruct (delete_cluster_run key o) as (_ & _ & _ & _ & [_ _ Hkd]). revert Hkd.
  unfold delete_cluster. rewrite State_bind_run. unfold on_store.
  pose proof (DeleteDeferred_run key (obs_store o)) as Hr. rewrite Hr. clear Hr.
  assert (∀ k c, k ∉ X → obs_clusters o !! k = Some c → cluster_gone c = false → k ≠ key) as Hne.
  { intros k c Hx Hc Hg ->. by rewrite (Hid Hx c Hc) in Hg. }
  destruct (records (obs_store o) !! key) eqn:E; cbn; intros Hkd; split; cbn; auto.
  - intros k. apply in_demand_calm; cbn; [done|apply delete_subseteq].
  - intros k c Hx Hc Hg. unfold known_as, ClusterIdentity. cbn. by rewrite lookup_delete_ne by (by eapply not_eq_sym, Hne).
  - intros k. apply in_demand_calm; cbn; [done|apply delete_subseteq].
Qed.

Lemma observed_none_gone key o c :
  observed_cluster key o = None → obs_clusters o !! key = Some c → cluster_gone c = true.
Proof.
  unfold observed_cluster, cluster_gone. intros Hn Hc. rewrite Hc in Hn. cbn in Hn. by case_match.
Qed.

Lemma keeps_primaries now X Y f o : keeps now X Y o (set_obs_primaries f o).
Proof. by apply keeps_same. Qed.

(** ** Sections of the handlers and workers *)

(** The caches and the store file Clusters under their names; the queue is open. *)
Record running (o : Observer) : Prop := {
  running_clusters : clusters_keyed o;
  running_records : records_keyed o;
  running_open : shuttingDown (obs_queue o) = false;
  running_queue : queue_wf (obs_queue o);
}.

Lemma keeps_running now X Y o o' : keeps now X Y o o' → running o → running o'.
Proof.
  intros [Hc _ Ho Hk _ Hwf _ _ _ _] [Hck Hrk Hs Hq]. split; [unfold clusters_keyed; by rewrite Hc|auto|congruence|auto].
Qed.

Lemma keeps_notify now X key t o o1 :
  0 ≤ t ≤ now → running o → keeps now X {[key]} o o1 → keeps now X ∅ o (Notify opts key t o1).2.
Proof.
  intros Ht Hr Hk. apply (keeps_close _ _ key); [etrans; [exact Hk|apply keeps_enqueue]|].
  apply enqueue_secures; [done|]. by eapply running_open, keeps_running.
Qed.

(** Invalidating the Cluster in the cache. *)
Lemma keeps_unavailable now X key c reason clk o :
  running o → obs_clusters o !! key = Some c → keeps now X ∅ o (commit_unavailable opts c reason clk o).2.
Proof. intros Hr Hc. eapply keeps_commit_cached; [apply Hr|exact Hc|done]. Qed.

Lemma keeps_known_weaken now X Y o o' : keeps now ∅ Y o o' → keeps now X Y o o'.
Proof. intros [? ? ? ? ? ? ? ? Hk ?]. split; [done..| |done]. intros k c _. apply Hk. set_solver. Qed.

Lemma keeps_observing_weaken now X Y o o' : keeps now X ∅ o o' → keeps now X Y o o'.
Proof. intros [? ? ? ? ? ? ? ? ? He]. split; [done..|]. intros k _. apply He. set_solver. Qed.

Lemma keeps_cancelled now key c reason clk o :
  running o → obs_clusters o !! key = Some c →
  keeps now ∅ {[key]} o (commit_unavailable opts c reason clk (cancelObservationLocked key o).2).2.
Proof.
  intros Hr Hc. pose proof (keeps_cancel now key o) as Hk. etrans; [exact Hk|].
  apply keeps_observing_weaken, (keeps_unavailable _ _ key); [by eapply keeps_running|].
  by rewrite (keeps_clusters _ _ _ _ _ Hk).
Qed.

Lemma keeps_get now X Y key t o : keeps now X Y o (on_store (GetDeferred key t) o).2.
Proof. apply keeps_store, GetDeferred_calm. Qed.

Lemma keeps_withdraw now key c old clk o :
  running o → obs_clusters o !! key = Some c → keeps now ∅ ∅ o (withdraw_member key c old clk o).2.
Proof.
  intros Hr Hc. unfold withdraw_member. rewrite State_bind_run.
  pose proof (keeps_get now ∅ ∅ key (clk_get clk) o) as Hk. etrans; [exact Hk|].
  destruct (get_deferred_run key (clk_get clk) o) as (Hg & _). set (m := on_store (GetDeferred key (clk_get clk)) o) in *.
  destruct m.1.1 as [snapshot|]; [|done]. case_bool_decide as Hu; [|done]. rewrite State_bind_run.
  apply keeps_commit. intros _ c' Hc' _. cbn in *. revert Hg. destruct (record_at key m.2) as [r|] eqn:Hrec; [|done].
  intros [= ->]. pose proof (keeps_running _ _ _ _ _ Hk Hr) as [_ Hrk _ _]. rewrite (Hrk key r Hrec) in Hc'.
  rewrite (keeps_clusters _ _ _ _ _ Hk), Hc in Hc'. by injection Hc' as <-.
Qed.

Lemma keeps_pod_changed now old new clk key o :
  0 ≤ clk_demand clk ≤ now → running o → keeps now ∅ ∅ o (pod_changed opts old new clk key o).2.
Proof.
  intros Ht Hr. unfold pod_changed. rewrite !State_bind_run. cbn [get_state mret State_ret fst snd].
  apply keeps_notify; [done..|]. destruct (obs_clusters o !! key) as [c|] eqn:Hc; [|done].
  destruct (route_changed old new) as [p|]; [|done]. case_bool_decide.
  - rewrite !State_bind_run. cbn [mret State_ret fst snd]. by apply keeps_cancelled.
  - by apply keeps_observing_weaken, keeps_withdraw.
Qed.

(** A loop of sections is a section. *)
Lemma for_pending_keeps {A} now (body : A → State Observer pendingDeliveries) l o :
  (∀ x o1, x ∈ l → keeps now ∅ ∅ o o1 → keeps now ∅ ∅ o1 (body x o1).2) → keeps now ∅ ∅ o (for_pending body l o).2.
Proof.
  revert o. induction l as [|x l IH]; intros o Hb; [done|]. rewrite for_pending_cons.
  assert (keeps now ∅ ∅ o (body x o).2) as Hx by (apply Hb; [by left|done]). etrans; [exact Hx|]. apply IH.
  intros y o1 Hy Hk. apply Hb; [by right|by etrans].
Qed.

Lemma keeps_pod_event now oldObj newObj clk o :
  (∀ key, 0 ≤ clk_demand (clk key) ≤ now) → running o → keeps now ∅ ∅ o (podEvent opts oldObj newObj clk o).2.
Proof.
  intros Ht Hr. unfold podEvent. case_goal; [done|]. apply for_pending_keeps.
  intros key o1 _ Hk. apply keeps_pod_changed; [done|by eapply keeps_running].
Qed.

Lemma keeps_ca_changed now clk c o :
  0 ≤ clk_demand clk ≤ now → running o → obs_clusters o !! cluster_key c = Some c →
  keeps now ∅ ∅ o (ca_changed opts clk c o).2.
Proof.
  intros Ht Hr Hc. unfold ca_changed. rewrite !State_bind_run. cbn [mret State_ret fst snd].
  apply keeps_notify; [done..|]. pose proof (keeps_cancel now (cluster_key c) o) as Hk1.
  pose proof (keeps_get now ∅ {[cluster_key c]} (cluster_key c) (clk_get clk) (cancelObservationLocked (cluster_key c) o).2) as Hk2.
  assert (keeps now ∅ {[cluster_key c]} o
    (on_store (GetDeferred (cluster_key c) (clk_get clk)) (cancelObservationLocked (cluster_key c) o).2).2) as Hk by by etrans.
  etrans; [exact Hk|]. destruct (on_store _ _).1.1 as [snapshot|]; [|done]. case_goal; [|done].
  rewrite State_bind_run. cbn [mret State_ret fst snd].
  apply keeps_observing_weaken, (keeps_unavailable _ _ (cluster_key c)); [by eapply keeps_running|].
  by rewrite (keeps_clusters _ _ _ _ _ Hk).
Qed.

Lemma keeps_secret_event now obj clk o :
  (∀ key, 0 ≤ clk_demand (clk key) ≤ now) → running o → keeps now ∅ ∅ o (secretEvent opts obj clk o).2.
Proof.
  intros Ht Hr. unfold secretEvent. destruct (cached obj) as [meta|]; [|done]. rewrite State_bind_run.
  cbn [get_state fst snd]. set (key := ClusterKey _ _). case_goal; [done|]. rewrite !State_bind_run.
  cbn [modify get_state fst snd]. match goal with |- context [for_pending _ _ ?x] => set (o1 := x) end.
  assert (keeps now ∅ ∅ o o1) as Hk1.
  { subst o1. cbn. destruct (obs_caReads o !! key); cbn; case_bool_decide;
      by apply keeps_same. }
  pose proof (keeps_running _ _ _ _ _ Hk1 Hr) as Hr1. etrans; [exact Hk1|]. apply for_pending_keeps.
  intros c o2 [Hc _]%clustersUsingCA_spec Hk2; [|apply Hr1].
  apply keeps_ca_changed; [done|by eapply keeps_running|]. by rewrite (keeps_clusters _ _ _ _ _ Hk2).
Qed.

(** *** Observations *)

Lemma keeps_gone now key o :
  observed_cluster key o = None → keeps now ∅ ∅ o (delete_cluster key o).2.
Proof. intros Hn. apply keeps_delete. intros _ c. by apply observed_none_gone. Qed.

Lemma keeps_observe_begin now key o : keeps now ∅ ∅ o (observe_begin key o).2.
Proof.
  unfold observe_begin. rewrite State_bind_run. cbn [get_state fst snd].
  destruct (observed_cluster key o) as [c|] eqn:Hc.
  - destruct (parameters c) as [[? params] err]. case_bool_decide; [done|]. destruct (primaryNames c). by case_goal.
  - rewrite !State_bind_run. cbn [modify mret State_ret fst snd]. etrans; [by apply keeps_gone|apply keeps_primaries].
Qed.

Lemma keeps_connection now ctxErr c o : keeps now ∅ ∅ o (cachedConnection ctxErr c o).2.
Proof.
  unfold cachedConnection. destruct ctxErr; [done|]. rewrite State_bind_run. cbn [get_state fst snd].
  destruct (currentCA _ o); [done|]. case_bool_decide; [done|]. rewrite State_bind_run.
  case_bool_decide; [done|]. rewrite State_bind_run. cbn. by apply keeps_same.
Qed.

Lemma keeps_failure now ctxErr key reason t t1 t2 o :
  running o → keeps now ∅ ∅ o (publishFailure opts ctxErr key reason t t1 t2 o).2.
Proof.
  intros Hr. unfold publishFailure. rewrite State_bind_run. cbn [get_state fst snd]. destruct ctxErr; [done|].
  destruct (observed_cluster key o) as [c|] eqn:Hc; rewrite State_bind_run; [|by apply keeps_gone].
  eapply keeps_commit_cached; [apply Hr|by apply observed_cluster_some|done].
Qed.

Lemma record_evidence_keeps now observed latest probed latestPods results o conflict o1 :
  record_evidence observed latest probed latestPods results o = Some (conflict, o1) → keeps now ∅ ∅ o o1.
Proof.
  unfold record_evidence. case_bool_decide; [|by intros [= <- <-]].
  destruct (conflictingPrimary _ _ _ _ _ _) as [[]|]; cbn; [|done]. intros [= <- <-]. apply keeps_primaries.
Qed.

Lemma keeps_publication now ctxErr key observed probed results params connection started t t1 t2 td o r o' :
  running o →
  publishObservation opts ctxErr key observed probed results params connection started t t1 t2 td o = Some (r, o') →
  keeps now ∅ ∅ o o'.
Proof.
  intros Hr. unfold publishObservation. destruct (observed_cluster key o) as [latest|] eqn:Hl.
  - destruct (record_evidence _ _ _ _ _ _) as [[conflict o1]|] eqn:He; [|done]. cbn.
    pose proof (record_evidence_keeps now _ _ _ _ _ _ _ _ He) as Hk1. apply observed_cluster_some in Hl.
    assert (∀ s now1 now2 o2, keeps now ∅ ∅ o o2 → snapshot_Cluster s = clusterRef latest →
      keeps now ∅ ∅ o (commitPublication s now1 now2 o2).2) as Hcommit.
    { intros s now1 now2 o2 Hk Hs. etrans; [exact Hk|].
      eapply keeps_commit_cached; [by eapply running_clusters, keeps_running| |exact Hs].
      by rewrite (keeps_clusters _ _ _ _ _ Hk). }
    assert (keeps now ∅ ∅ o (Notify opts key td o1).2) as Hk2 by (etrans; [exact Hk1|apply keeps_enqueue]).
    destruct (ctxErr || _); [by intros [= _ <-]|].
    destruct (negb (sameClusterRoute _ _)); [|destruct (negb (currentCA _ _))].
    + rewrite (surjective_pairing (commitPublication _ _ _ _)). intros [= _ <-]. by apply Hcommit.
    + rewrite (surjective_pairing (commitPublication _ _ _ _)). intros [= _ <-]. by apply Hcommit.
    + destruct (observation_snapshot _ _ _ _ _ _ _ _ _) as [s|] eqn:Hs; [|done]. cbn.
      apply observation_snapshot_cluster in Hs as [Hs _].
      rewrite (surjective_pairing (commitPublication _ _ _ _)). intros [= _ <-]. by apply Hcommit.
  - pose proof (keeps_gone now key o Hl) as Hk. destruct (delete_cluster key o) as [pending o1]. intros [= _ <-].
    etrans; [exact Hk|apply keeps_primaries].
Qed.

(** *** CA workers *)

Lemma keeps_demanded now times l o : keeps now ∅ ∅ o (demanded times l o).2.
Proof.
  revert o. induction l as [|c l IH]; intros o; [done|]. cbn. rewrite !State_bind_run. cbn.
  etrans; [apply (keeps_HasDemand now ∅ ∅ (cluster_key c) (times (cluster_key c)))|apply IH].
Qed.

Lemma keeps_demandedCA now times key o : keeps now ∅ ∅ o (demandedCAClusters times key o).2.
Proof. unfold demandedCAClusters. rewrite State_bind_run. apply keeps_demanded. Qed.

Lemma keeps_fetch_begin now times key o : keeps now ∅ ∅ o (fetch_begin times key o).2.
Proof.
  unfold fetch_begin. rewrite State_bind_run. cbn [get_state fst snd].
  destruct (obs_secrets o !! key) as [meta|]; [|by apply keeps_same].
  rewrite State_bind_run. etrans; [apply (keeps_demandedCA now times key)|].
  destruct (demandedCAClusters times key o) as [clusters o1]. cbn [fst snd]. rewrite State_bind_run.
  cbn [get_state fst snd]. case_goal; by apply keeps_same.
Qed.

Lemma keeps_notify_all now times (l : list object) o :
  keeps now ∅ ∅ o (for_each (λ c, Notify opts (cluster_key c) (times (cluster_key c))) l o).2.
Proof. apply (for_each_inv (keeps now ∅ ∅ o)); [|done]. intros c o1 _ Hs. etrans; [exact Hs|apply keeps_enqueue]. Qed.

Lemma keeps_fetch_end now times key meta read expired o :
  keeps now ∅ ∅ o (fetch_end opts times key meta read expired o).2.
Proof.
  unfold fetch_end. rewrite !State_bind_run. cbn [get_state modify fst snd]. set (o1 := set_obs_caReads _ o).
  assert (keeps now ∅ ∅ o o1) as Hk1 by by apply keeps_same.
  destruct read as [ca|err]; [|exact Hk1]. rewrite State_bind_run. cbn [get_state fst snd].
  destruct (obs_secrets o1 !! key) as [current|]; [|exact Hk1]. destruct (_ || _ || _ || _ || _ || _); [exact Hk1|].
  rewrite State_bind_run. etrans; [exact Hk1|]. etrans; [apply (keeps_demandedCA now times key)|].
  destruct (demandedCAClusters times key o1) as [clusters o2]. cbn [fst snd].
  case_bool_decide; [rewrite State_bind_run; by apply keeps_same|].
  rewrite !State_bind_run. cbn [modify mret State_ret drop_pending fst snd].
  etrans; [|apply keeps_notify_all]. by apply keeps_same.
Qed.

(** *** Rescheduling *)

Lemma keeps_needs now key t o : keeps now ∅ ∅ o (needsObservation key t o).2.
Proof. unfold needsObservation. rewrite !State_bind_run. apply keeps_HasDemand. Qed.

(** An identified Cluster in demand needs an observation. *)
Lemma needed_true now key t o :
  0 ≤ t ≤ now → in_demand key now (obs_store o) → is_Some (known_as key o) → needed key t o = true.
Proof.
  intros Ht Hd Hk.
  unfold needed, needsObservation. rewrite !State_bind_run. cbn [get_state mret State_ret fst snd].
  pose proof (hasDemand_true key t now _ Ht Hd) as Ht1. pose proof (hasDemand_calm key t (obs_store o)) as [_ _ _ Hi].
  unfold on_store, HasDemand. destruct (hasDemand key t (obs_store o)) as [d s]. cbn in *. subst d. cbn.
  apply bool_decide_eq_true. rewrite Hi. by apply fmap_is_Some in Hk.
Qed.

Lemma keeps_reschedule now key urgent superseded observed t o :
  keeps now ∅ ∅ o (reschedule opts key urgent superseded observed t o).2.
Proof.
  unfold reschedule. rewrite State_bind_run. destruct superseded; cbn [mret State_ret fst snd].
  { cbn [negb]. apply keeps_calls. }
  etrans; [apply (keeps_needs now key t)|]. destruct (needsObservation key t o) as [d o1]. cbn [fst snd].
  destruct d; cbn [negb]; [|apply keeps_calls]. destruct observed; [apply keeps_calls|]. rewrite State_bind_run.
  etrans; [apply (keeps_promote_if now ∅ ∅ urgent key)|apply keeps_calls].
Qed.

Lemma reschedule_queued key urgent observed t o :
  needed key t o = true → queued key (reschedule opts key urgent false observed t o).2.
Proof.
  unfold needed, reschedule. rewrite State_bind_run. destruct (needsObservation key t o) as [d o1]. cbn [fst snd].
  intros ->. cbn [negb]. destruct observed; [apply queue_calls_queued; set_solver|].
  rewrite State_bind_run. apply queue_calls_queued. set_solver.
Qed.
End facts.
