(* ===== verification/SystemNotices.v ===== *)
(** * Cluster notifications of the running observer

    The handler of Cluster changes runs after the cache was changed, possibly
    several changes later.  The notifications of one Cluster form a chain from the
    last state that was handled to the one in the cache.  A notification that
    [renews] queues a Cluster in demand; without one in the chain, the Cluster
    whose state is in the cache is the one the store knows. *)

From S2P Require Import Prelude Api Mailbox Store StoreFacts Queue QueueFacts.
From S2P Require Import Config Kube Topology Evidence Settings Observer ObserverFacts.
From S2P Require Import Events EventsFacts EventsProps Connection Observe Informers System SystemFacts.

Section notices.
Context `{TextLibrary, MapRange, Unstructured, RoutingDigest, KeyRange}.
Context (opts : Options).

(** ** Chains *)

(** The Cluster a notification is about, and its state afterwards. *)
Definition event_key (ev : informer_event object) : option clusterKey :=
  cluster_key <$> cached (match ev with Added obj | Updated _ obj | Deleted obj => obj end).

Definition event_after (ev : informer_event object) : option object :=
  match ev with
  | Added obj | Updated _ obj => cached obj
  | Deleted _ => None
  end.

(** The state before it that a notification claims. *)
Definition event_follows (h : option object) (ev : informer_event object) : Prop :=
  match ev with
  | Added _ => h = None
  | Updated old _ => is_Some h ∧ cached old = h
  | Deleted _ => True
  end.

(** The handler will queue the Cluster if there is demand for it. *)
Definition renews (ev : informer_event object) : bool :=
  match event_after ev with
  | None => false
  | Some c =>
      negb (cluster_gone c)
      && match ev with
         | Updated old _ => match cached old with Some old => negb (sameClusterRoute old c) | None => true end
         | _ => true
         end
  end.

(** The notifications about [k] lead from the state [h] to the state [cur]. *)
Fixpoint chain (k : clusterKey) (h : option object) (l : list (informer_event object)) (cur : option object) : Prop :=
  match l with
  | [] => h = cur
  | ev :: l =>
      if decide (event_key ev = Some k) then event_follows h ev ∧ chain k (event_after ev) l cur
      else chain k h l cur
  end.

(** No pending notification will queue [k]. *)
Definition quiet_notices (k : clusterKey) (l : list (informer_event object)) : Prop :=
  ∀ ev, ev ∈ l → event_key ev = Some k → renews ev = false.

Lemma chain_snoc k h l cur ev :
  chain k h l cur → event_key ev = Some k → event_follows cur ev → chain k h (l ++ [ev]) (event_after ev).
Proof.
  intros Hch Hk Hf. revert h Hch. induction l as [|e l IH]; intros h; cbn.
  - intros ->. by rewrite decide_True.
  - case_decide; [|apply IH]. intros [? ?]. auto.
Qed.

Lemma chain_snoc_other k h l cur ev : chain k h l cur → event_key ev ≠ Some k → chain k h (l ++ [ev]) cur.
Proof.
  intros Hch Hk. revert h Hch. induction l as [|e l IH]; intros h; cbn.
  - intros ->. by rewrite decide_False.
  - case_decide; [|apply IH]. intros [? ?]. auto.
Qed.

Lemma quiet_app k l1 l2 : quiet_notices k (l1 ++ l2) ↔ quiet_notices k l1 ∧ quiet_notices k l2.
Proof. unfold quiet_notices. setoid_rewrite elem_of_app. naive_solver. Qed.

Lemma quiet_cons k ev l :
  quiet_notices k (ev :: l) ↔ (event_key ev = Some k → renews ev = false) ∧ quiet_notices k l.
Proof. unfold quiet_notices. setoid_rewrite elem_of_cons. naive_solver. Qed.

(** The same route is that of the same Cluster, enrolled or not. *)
Lemma sameClusterRoute_gone a b :
  sameClusterRoute a b = true → GetUID a = GetUID b ∧ cluster_gone a = cluster_gone b.
Proof.
  unfold sameClusterRoute, cluster_gone. destruct (_ || _ || _) eqn:E1; [done|]. boolify.
  destruct (_ || _); [done|]. destruct (parameters a) as [[ea pa] ra], (parameters b) as [[eb pb] rb]. cbn.
  destruct (_ || _ || _ || _) eqn:E2; [done|]. boolify. intros _.
  rewrite !(bool_decide_eq_false_2 (is_Some _)) by done. by subst.
Qed.

(** An enrolled Cluster in the cache that no pending notification renews was
    enrolled, under the same UID, in every state since the last handled one. *)
Lemma chain_quiet k h l c :
  chain k h l (Some c) → quiet_notices k l → cluster_gone c = false →
  ∃ c0, h = Some c0 ∧ cluster_gone c0 = false ∧ GetUID c0 = GetUID c.
Proof.
  intros Hch Hq Hg. revert h Hch. induction l as [|ev l IH]; intros h; cbn; [intros ->; by exists c|].
  apply quiet_cons in Hq as [Hr Hq]. case_decide as Hk; [|by apply IH].
  intros [Hf Hch]. destruct (IH Hq _ Hch) as (c1 & Ha & Hg1 & Hu1). specialize (Hr Hk).
  unfold renews in Hr. rewrite Ha, Hg1 in Hr. cbn in Hr.
  destruct ev as [new|old new|]; cbn in *; [done| |done]. destruct Hf as [[c0 ->] Ho]. rewrite Ho in Hr.
  apply negb_false_iff, sameClusterRoute_gone in Hr as [Hu0 Hg0]. exists c0. split_and!; [done|congruence|congruence].
Qed.

(** ** The handler *)

Lemma keeps_forget now X key o : keeps opts now X {[key]} o (forget_cluster key o).2.
Proof.
  unfold forget_cluster. rewrite !State_bind_run. cbn [modify fst snd].
  trans (cancelObservationLocked key o).2; [|by apply keeps_same].
  apply keeps_known_weaken, keeps_cancel.
Qed.

(** The notification at the end of [clusterEvent]. *)
Definition notify_demand (key : clusterKey) (t1 t2 : time) : State Observer () :=
  demand ← on_store (HasDemand key t1);
  if (demand : bool) then Notify opts key t2 else mret ().

Lemma keeps_notify_demand now X Y key t1 t2 o : keeps opts now X Y o (notify_demand key t1 t2 o).2.
Proof.
  unfold notify_demand. rewrite State_bind_run. etrans; [apply (keeps_HasDemand opts now X Y key t1)|].
  destruct (on_store _ _).1; [apply keeps_enqueue|done].
Qed.

Lemma notify_demand_secures now key t1 t2 o :
  0 ≤ t1 ≤ now → 0 ≤ t2 ≤ now → shuttingDown (obs_queue o) = false → secured opts key now (notify_demand key t1 t2 o).2.
Proof.
  intros Ht1 Ht2 Hs Hp.
  assert (in_demand key now (obs_store o)) as Hd.
  { apply (keeps_demand _ _ _ _ _ _ (keeps_notify_demand now ∅ ∅ key t1 t2 o)). apply Hp. }
  revert Hp. unfold notify_demand. rewrite State_bind_run. pose proof (hasDemand_true key t1 now _ Ht1 Hd) as Hv.
  assert ((on_store (HasDemand key t1) o).1 = true) as ->.
  { unfold on_store, HasDemand. by destruct (hasDemand key t1 (obs_store o)). }
  apply enqueue_secures; [done|]. by rewrite (keeps_open _ _ _ _ _ _ (keeps_HasDemand opts now ∅ ∅ key t1 o)).
Qed.

(** [clusterEvent] after the checks on the new object. *)
Definition live_event (old : option object) (c : object) (clk1 clk2 : clock) : State Observer pendingDeliveries :=
  o ← get_state;
  pending ← (if new_identity c o then placeholder opts c clk1 else mret nothing_pending);
  match old with
  | Some old =>
      if sameClusterRoute old c then mret pending
      else
        cancelObservationLocked (cluster_key c) ;;
        changed ← commit_unavailable opts c "topology_changed" clk2;
        notify_demand (cluster_key c) (clk_get clk2) (clk_demand clk2) ;;
        mret (pending_add pending changed)
  | None => notify_demand (cluster_key c) (clk_get clk2) (clk_demand clk2) ;; mret pending
  end.

Lemma clusterEvent_live oldObj newObj clk1 clk2 c o :
  cached newObj = Some c → cluster_gone c = false →
  clusterEvent opts oldObj newObj clk1 clk2 o = live_event (cached oldObj) c clk1 clk2 o.
Proof. unfold clusterEvent, cluster_gone. by intros -> ->. Qed.

(** Publishing [c] under its own name. *)
Lemma keeps_own_commit now c reason clk o :
  keeps opts now {[cluster_key c]} {[cluster_key c]} o (commit_unavailable opts c reason clk o).2.
Proof. apply keeps_commit. intros Hx. exfalso. apply Hx. by apply elem_of_singleton. Qed.

Lemma own_commit_known c reason clk o : known_as (cluster_key c) (commit_unavailable opts c reason clk o).2 = Some (GetUID c).
Proof. unfold commit_unavailable. rewrite commit_known. by rewrite decide_True. Qed.

Lemma new_identity_known c o : new_identity c o = false → known_as (cluster_key c) o = Some (GetUID c).
Proof.
  unfold new_identity, known_as. destruct (ClusterIdentity _ _) as [p|]; [|done]. cbn. intros Hn. boolify. by f_equal.
Qed.

(** The placeholder makes the store know the Cluster. *)
Lemma placeholder_keeps now c clk1 o :
  let o' := ((if new_identity c o then placeholder opts c clk1 else mret nothing_pending) o).2 in
  keeps opts now {[cluster_key c]} {[cluster_key c]} o o' ∧ known_as (cluster_key c) o' = Some (GetUID c).
Proof.
  cbv zeta. destruct (new_identity c o) eqn:Hn; [|split; [done|by apply new_identity_known]].
  unfold placeholder. rewrite !State_bind_run. cbn [mret State_ret fst snd].
  split; [|apply own_commit_known]. etrans; [apply keeps_forget|apply keeps_own_commit].
Qed.

(** Asking for demand and enqueueing leave the store's identities. *)
Lemma notify_demand_known k key t1 t2 o : known_as k (notify_demand key t1 t2 o).2 = known_as k o.
Proof.
  pose proof (notify_steady opts key t1 t2 o) as (_ & Hr & _). unfold known_as, ClusterIdentity, notify_demand.
  by rewrite Hr.
Qed.

(** The handler touches no other Cluster. *)
Lemma keeps_live_event now old c clk1 clk2 o :
  keeps opts now {[cluster_key c]} {[cluster_key c]} o (live_event old c clk1 clk2 o).2.
Proof.
  unfold live_event. rewrite !State_bind_run. cbn [get_state fst snd].
  etrans; [apply (placeholder_keeps now c clk1 o)|]. set (o1 := (_ o).2).
  destruct old as [old|]; [destruct (sameClusterRoute old c); [done|]|]; rewrite !State_bind_run; cbn [mret State_ret fst snd].
  - etrans; [apply keeps_known_weaken, (keeps_cancel opts now (cluster_key c))|]. etrans; [|apply keeps_notify_demand].
    apply keeps_own_commit.
  - apply keeps_notify_demand.
Qed.

Lemma keeps_gone_event now key o :
  keeps opts now {[key]} {[key]} o ((forget_cluster key ;; delete_cluster key) o).2.
Proof.
  rewrite State_bind_run. etrans; [apply keeps_forget|]. apply keeps_delete. intros Hx. exfalso. apply Hx. set_solver.
Qed.

Lemma keeps_deleted_event now obj c o :
  cached obj = Some c → keeps opts now {[cluster_key c]} {[cluster_key c]} o (clusterDeleted obj o).2.
Proof.
  unfold clusterDeleted. intros ->. rewrite State_bind_run. cbn [get_state fst snd]. case_goal; [done|].
  rewrite !State_bind_run. cbn [modify mret State_ret fst snd].
  etrans; [apply keeps_known_weaken, (keeps_cancel opts now (cluster_key c))|].
  etrans; [apply (keeps_delete opts now _ _ (cluster_key c)); set_solver|]. by apply keeps_same.
Qed.

(** Handling a notification about [key] leaves the other Clusters alone. *)
Lemma keeps_cluster_handler now ev clk1 clk2 key o :
  event_key ev = Some key → keeps opts now {[key]} {[key]} o (cluster_handler opts ev clk1 clk2 o).2.
Proof.
  assert (∀ oldObj newObj, cluster_key <$> cached newObj = Some key →
    keeps opts now {[key]} {[key]} o (clusterEvent opts oldObj newObj clk1 clk2 o).2) as Hev.
  { intros oldObj newObj. destruct (cached newObj) as [c|] eqn:Hc; [|done]. intros [= <-].
    destruct (cluster_gone c) eqn:Hg.
    - unfold clusterEvent. rewrite Hc. unfold cluster_gone in Hg. rewrite Hg. apply keeps_gone_event.
    - rewrite (clusterEvent_live _ _ _ _ c) by done. apply keeps_live_event. }
  unfold event_key. destruct ev as [new|old new|obj]; cbn; [by apply Hev..|].
  destruct (cached obj) as [c|] eqn:Hc; [|done]. intros [= <-]. by apply keeps_deleted_event.
Qed.

(** A notification about no Cluster does nothing. *)
Lemma cluster_handler_foreign ev clk1 clk2 o : event_key ev = None → (cluster_handler opts ev clk1 clk2 o).2 = o.
Proof.
  unfold event_key. destruct ev as [new|old new|obj]; cbn; unfold clusterEvent, clusterDeleted;
    match goal with |- context [cached ?x] => by destruct (cached x) end.
Qed.

(** Handling a notification that renews leaves the Cluster known and, if it is
    pursued, queued. *)
Lemma renewing_event now ev clk1 clk2 c o :
  event_after ev = Some c → renews ev = true → shuttingDown (obs_queue o) = false →
  clock_within 0 now clk2 →
  let o' := (cluster_handler opts ev clk1 clk2 o).2 in
  known_as (cluster_key c) o' = Some (GetUID c) ∧ secured opts (cluster_key c) now o'.
Proof.
  intros Ha Hr Hs (Hg & _ & _ & _ & Hd). unfold renews in Hr. rewrite Ha in Hr. apply andb_true_iff in Hr as [Hl Hr].
  apply negb_true_iff in Hl. cbv zeta.
  assert (∃ old, (cluster_handler opts ev clk1 clk2 o).2 = (live_event old c clk1 clk2 o).2
    ∧ match old with Some old => sameClusterRoute old c = false | None => True end) as (old & -> & Hold).
  { destruct ev as [new|old new|]; cbn in *; [| |done]; rewrite (clusterEvent_live _ _ _ _ c) by done.
    - by exists None.
    - exists (cached old). split; [done|]. destruct (cached old); [by apply negb_true_iff|done]. }
  unfold live_event. rewrite !State_bind_run. cbn [get_state fst snd].
  destruct (placeholder_keeps now c clk1 o) as [Hk1 Hn1]. set (o1 := (_ o).2) in *.
  pose proof (keeps_open _ _ _ _ _ _ Hk1) as Hs1.
  destruct old as [old|]; [rewrite Hold|]; rewrite !State_bind_run; cbn [mret State_ret fst snd];
    rewrite notify_demand_known; (split; [|apply notify_demand_secures; [done..|]]); try done.
  - apply own_commit_known.
  - rewrite (keeps_open _ _ _ _ _ _ (keeps_own_commit now c _ _ _)),
      (keeps_open _ _ _ _ _ _ (keeps_cancel opts now (cluster_key c) o1)). congruence.
  - congruence.
Qed.

(** A notification of an unchanged, known Cluster does nothing. *)
Lemma unchanged_event ev clk1 clk2 c o :
  event_after ev = Some c → cluster_gone c = false → renews ev = false → known_as (cluster_key c) o = Some (GetUID c) →
  (cluster_handler opts ev clk1 clk2 o).2 = o.
Proof.
  intros Ha Hl Hr Hn. unfold renews in Hr. rewrite Ha, Hl in Hr. cbn in Hr.
  destruct ev as [new|old new|]; cbn in *; [done| |done]. rewrite (clusterEvent_live _ _ _ _ c) by done.
  destruct (cached old) as [old'|]; [|done]. apply negb_false_iff in Hr. unfold live_event. rewrite !State_bind_run.
  cbn [get_state fst snd]. assert (new_identity c o = false) as ->; [|by rewrite Hr].
  unfold new_identity. unfold known_as in Hn. destruct (ClusterIdentity _ _); [|done]. injection Hn as Hn.
  apply negb_false_iff, bool_decide_eq_true. exact Hn.
Qed.
End notices.
