(* ===== verification/SystemProps.v ===== *)
(** * Correctness of the running observer

    The parts of the observer lose no demand together: in every reachable state an
    enrolled Cluster that clients wait for is queued, has a timer, is in the hands
    of a worker that will schedule it again, or is about to be queued by a call or
    notification in flight.  No two workers ever observe the same Cluster. *)

From S2P Require Import Prelude Api Mailbox Store StoreFacts Queue QueueFacts.
From S2P Require Import StoreProps Config ConfigProps Kube Topology TopologyProps Evidence EvidenceProps Settings Observer ObserverFacts Collection CollectionProps.
From S2P Require Import Events EventsFacts EventsProps Connection Observe ObserveProps Informers System SystemFacts SystemNotices.

Section claims.
Context `{TextLibrary, MapRange, Unstructured, RoutingDigest, KeyRange}.
Context (opts : Options).

(** ** The invariant *)

Definition worker_key (w : worker) : clusterKey :=
  match w with
  | WGot key | WBegin key _ _ | WPods key _ _ _ _ | WConnect key _ _ _ _ _ | WProbe key _ _ _ _ _ _ | WFail key _ _
  | WEnd key _ _ | WFinish key _ _ _ | WDecide key _ _ _ | WDone key => key
  end.

(** The worker will schedule the Cluster again if it is still in demand. *)
Definition will_reschedule (o : Observer) (w : worker) : Prop :=
  match w with
  | WGot _ => True
  | WBegin key _ _ | WPods key _ _ _ _ | WConnect key _ _ _ _ _ | WProbe key _ _ _ _ _ _ | WFail key _ _ | WEnd key _ _ =>
      obs_observations o !! key = Some false
  | WFinish _ _ superseded _ | WDecide _ _ superseded _ => superseded = false
  | WDone _ => False
  end.

Definition attended (k : clusterKey) (s : System) : Prop :=
  queued k (sys_observer s) ∨ k ∈ sys_demands s
  ∨ ∃ id w, sys_workers s !! id = Some w ∧ worker_key w = k ∧ will_reschedule (sys_observer s) w.

Record sys_inv (s : System) : Prop := {
  inv_running : running (sys_observer s);
  inv_handler : onDemand (obs_store (sys_observer s)) = true;
  inv_now : 0 ≤ sys_now s;
  inv_processing id w : sys_workers s !! id = Some w → is_Some (processing (obs_queue (sys_observer s)) !! worker_key w);
  inv_distinct id id' w w' : sys_workers s !! id = Some w → sys_workers s !! id' = Some w' →
    worker_key w = worker_key w' → id = id';
  inv_chain k : ∃ h, chain k h (sys_notices s) (obs_clusters (sys_observer s) !! k);
  inv_served k c : obs_clusters (sys_observer s) !! k = Some c → cluster_gone c = false → quiet_notices k (sys_notices s) →
    known_as k (sys_observer s) = Some (GetUID c)
    ∧ (in_scope opts k → in_demand k (sys_now s) (obs_store (sys_observer s)) → attended k s);
}.

Lemma initial_inv id t : 0 ≤ t → sys_inv (initial opts id t).
Proof.
  intros Ht. split; cbn; try done.
  - split; cbn; [intros k c; cbn; by rewrite lookup_empty|intros k r; cbn; by rewrite lookup_empty|done|apply newPriorityQueue_wf].
  - intros k. exists None. cbn. by rewrite lookup_empty.
Qed.

(** Time passes. *)
Lemma inv_tick t s : sys_inv s → sys_now s ≤ t → sys_inv (with_now t s).
Proof.
  intros [] Ht. split; cbn; try done; [lia|]. intros k c Hc Hg Hq. destruct (inv_served0 k c Hc Hg Hq) as [Hk Ha].
  split; [done|]. intros Hs Hd. apply Ha; [done|]. by eapply in_demand_antitone.
Qed.

(** A section that keeps all but the observation of one worker's key, which the
    worker's next position accounts for. *)
Lemma attended_keeps X Y k s o' :
  keeps opts (sys_now s) X Y (sys_observer s) o' → pursued opts k (sys_now s) o' → k ∉ Y →
  attended k s → attended k (with_observer o' s).
Proof.
  intros Hk Hp Hy [Hq|[Hd|(id & w & Hw & <- & Hr)]]; [left; by eapply keeps_queued|by right; left|].
  assert (obs_observations (sys_observer s) !! worker_key w = Some false → attended (worker_key w) (with_observer o' s) ∨
    obs_observations o' !! worker_key w = Some false) as Ho.
  { intros Ho. destruct (keeps_observing _ _ _ _ _ _ Hk _ Hy Ho) as [Ho'|Hs]; [by right|]. left. left. by apply Hs. }
  assert (will_reschedule o' w → attended (worker_key w) (with_observer o' s)) as Hkeep
    by (intros; right; right; by exists id, w).
  destruct w; cbn in *; try (by apply Hkeep); destruct (Ho Hr); auto.
Qed.

(** The deliveries of a section are not part of the invariant. *)
Lemma inv_sent l s : sys_inv s → sys_inv (with_sent l s).
Proof. by intros []. Qed.

Lemma inv_sent_workers m l s : sys_inv (with_workers m s) → sys_inv (with_workers m (with_sent l s)).
Proof. exact (inv_sent l (with_workers m s)). Qed.

Lemma inv_section s o' : sys_inv s → keeps opts (sys_now s) ∅ ∅ (sys_observer s) o' → sys_inv (with_observer o' s).
Proof.
  intros [] Hk. pose proof (keeps_clusters _ _ _ _ _ _ Hk) as Hcl. split; cbn; try done.
  - by eapply keeps_running.
  - by rewrite (keeps_handler _ _ _ _ _ _ Hk).
  - intros id w Hw. rewrite (keeps_processing _ _ _ _ _ _ Hk). eauto.
  - intros k. rewrite Hcl. eauto.
  - intros k c. rewrite Hcl. intros Hc Hg Hq. destruct (inv_served0 k c Hc Hg Hq) as [Hn Ha].
    split; [by eapply keeps_known|]. intros Hs Hd. eapply attended_keeps; [exact Hk| |set_solver|].
    + split_and!; [done..|]. by rewrite Hcl, Hc.
    + apply Ha; [done|]. by eapply keeps_demand.
Qed.

(** More handler calls in flight. *)
Lemma inv_demands l s : sys_inv s → sys_demands s ⊆ l → sys_inv (with_demands l s).
Proof.
  intros [] Hl. split; cbn; try done. intros k c Hc Hg Hq. destruct (inv_served0 k c Hc Hg Hq) as [Hk Ha].
  split; [done|]. intros Hs Hd. destruct (Ha Hs Hd) as [?|[?|?]]; [by left|right; left; cbn; set_solver|by right; right].
Qed.

(** Demand is raised for a Cluster whose handler call is in flight or that was in
    demand before. *)
Lemma inv_raise key st s :
  sys_inv s → let o := sys_observer s in
  records st = records (obs_store o) → onDemand st = onDemand (obs_store o) →
  (∀ k now, k ≠ key → in_demand k now st → in_demand k now (obs_store o)) →
  key ∈ sys_demands s ∨ in_demand key (sys_now s) (obs_store o) →
  sys_inv (with_observer (set_obs_store st o) s).
Proof.
  intros [] o Hr Hh Hothers Hkey. destruct inv_running0 as [? Hrk ? ?].
  assert (∀ k, known_as k (set_obs_store st o) = known_as k o) as Hkn
    by (intros k; unfold known_as, ClusterIdentity; cbn; by rewrite Hr).
  split; cbn; try done; [split; try done; intros k r; cbn; rewrite Hr; apply Hrk|by rewrite Hh|].
  intros k c Hc Hg Hq. rewrite Hkn. destruct (inv_served0 k c Hc Hg Hq) as [Hk Ha]. split; [done|].
  intros Hs Hd. destruct (decide (k = key)) as [->|Hne]; [destruct Hkey|]; [by right; left|by apply Ha|].
  apply Ha; [done|by apply Hothers].
Qed.

(** ** Clients *)

Lemma hasDemand_stays k t s : 0 ≤ t → (hasDemand k t s).1 = true → in_demand k t (hasDemand k t s).2.
Proof.
  intros Ht Hv. rewrite hasDemand_state. destruct (Before t _) eqn:Hb; [by apply hasDemand_sound|].
  rewrite hasDemand_value, Hb, orb_false_r in Hv. apply bool_decide_eq_true in Hv. by left.
Qed.

(** Asking for demand, then noting a call of the handler if there was none. *)
Lemma inv_ask key t s :
  sys_inv s → sys_now s ≤ t →
  let '(active, st) := hasDemand key t (obs_store (sys_observer s)) in
  let s1 := with_demands (sys_demands s ++ option_list (if negb active && onDemand st then Some key else None))
              (with_observer (set_obs_store st (sys_observer s)) s) in
  sys_inv s1 ∧ (key ∈ sys_demands s1 ∨ in_demand key (sys_now s) st).
Proof.
  intros Hi Ht. pose proof (inv_now _ Hi). pose proof (inv_handler _ Hi) as Hh.
  pose proof (hasDemand_stays key t (obs_store (sys_observer s)) ltac:(lia)) as Hst.
  pose proof (hasDemand_calm key t (obs_store (sys_observer s))) as Hc.
  pose proof (inv_section s _ Hi (keeps_HasDemand opts (sys_now s) ∅ ∅ key t (sys_observer s))) as Hs1. revert Hs1.
  unfold on_store, HasDemand. destruct (hasDemand key t (obs_store (sys_observer s))) as [active st]. cbn in *. intros Hs1.
  split; [apply (inv_demands _ _ Hs1); cbn; set_solver|]. rewrite (calm_handler _ _ Hc), Hh.
  destruct active; cbn; [right; by eapply in_demand_antitone, Hst|left; set_solver].
Qed.

Lemma inv_refresh key t s s' :
  sys_inv s → sys_now s ≤ t → sys_do opts (RefreshCall key t) s = Some s' → sys_inv s'.
Proof.
  intros Hi Ht. cbn. unfold on_store, RequestRefresh. rewrite State_bind_run. cbn [get_state fst snd].
  destruct (records (obs_store (sys_observer s)) !! key) as [r|] eqn:Hr.
  - rewrite State_bind_run. pose proof (inv_ask key t s Hi Ht) as Hask.
    destruct (hasDemand key t (obs_store (sys_observer s))) as [active st]. cbn [fst snd] in *. destruct Hask as [Hi1 Hd].
    rewrite !State_bind_run. cbn [get_state mret State_ret fst snd]. intros [= <-].
    destruct (0 <? unaryLease st); [|exact Hi1].
    refine (inv_raise key (set_unaryDemand <[key:=t + unaryLease st]> st) _ Hi1 _ _ _ Hd); [done..|].
    intros k now Hne. unfold in_demand, watchers_of. cbn. by rewrite lookup_insert_ne.
  - intros [= <-]. apply inv_demands; [|cbn; set_solver]. apply inv_section; [done|]. by apply keeps_same.
Qed.

Lemma inv_register key requireExisting watcher t1 t2 s s' :
  sys_inv s → sys_now s ≤ t2 → sys_do opts (RegisterCall key requireExisting watcher t1 t2) s = Some s' → sys_inv s'.
Proof.
  intros Hi Ht. cbn. unfold on_store, register. rewrite State_bind_run. cbn [get_state fst snd]. destruct (bool_decide _ && _).
  { intros [= <-]. apply inv_demands; [|cbn; set_solver]. apply inv_sent, inv_section; [done|]. by apply keeps_same. }
  rewrite !State_bind_run. cbn [get_state mret State_ret modify fst snd].
  set (st0 := (readPublication key t1 (obs_store (sys_observer s))).2).
  assert (sys_inv (with_observer (set_obs_store st0 (sys_observer s)) s)) as Hi0.
  { apply inv_section; [done|]. pose proof (keeps_store opts (sys_now s) ∅ ∅ (readPublication key t1) (sys_observer s)) as Hk.
    revert Hk. unfold on_store. rewrite (surjective_pairing (readPublication _ _ _)). cbn. intros Hk. apply Hk, readPublication_calm. }
  pose proof (inv_ask key t2 _ Hi0 Ht) as Hask. cbn [obs_store set_obs_store with_observer sys_observer sys_demands sys_now] in Hask.
  destruct (hasDemand key t2 st0) as [active st]. cbn [fst snd] in *. destruct Hask as [Hi1 Hd]. intros [= <-].
  refine (inv_sent _ _ (inv_raise key (set_subscribers _ st) _ Hi1 _ _ _ Hd)); [done..|].
  intros k now Hne. unfold in_demand, watchers_of. cbn. by rewrite lookup_insert_ne.
Qed.

Lemma take_key_elem key l l' k : take_key key l = Some l' → k ∈ l → k = key ∨ k ∈ l'.
Proof.
  revert l'. induction l as [|x l IH]; cbn; [done|]. intros l'. case_decide as Hx.
  - intros [= <-]. set_solver.
  - destruct (take_key key l) as [l1|]; [|done]. cbn. intros [= <-] [->|Hk]%elem_of_cons; [set_solver|].
    destruct (IH l1 eq_refl Hk); set_solver.
Qed.

(** The demand handler ran. *)
Lemma inv_demand_handler key t s s' :
  sys_inv s → 0 ≤ t ≤ sys_now s → sys_do opts (DemandHandler key t) s = Some s' → sys_inv s'.
Proof.
  intros Hi Ht. cbn. destruct (take_key key (sys_demands s)) as [l|] eqn:Hl; [|done]. intros [= <-]. unfold section. cbn.
  pose proof (enqueue_secures opts (sys_now s) key false t (sys_observer s) Ht (running_open _ (inv_running _ Hi))) as Hsec.
  pose proof (inv_section s _ Hi (keeps_enqueue opts (sys_now s) ∅ ∅ key false t (sys_observer s))) as [].
  cbn in *. split; cbn; try done. intros k c Hc Hg Hq. destruct (inv_served0 k c Hc Hg Hq) as [Hk Ha].
  split; [done|]. intros Hs Hd. destruct (Ha Hs Hd) as [?|[Hin|?]]; [by left| |by right; right].
  destruct (take_key_elem _ _ _ _ Hl Hin) as [->|?]; [|by right; left]. left. apply Hsec. split_and!; [done..|by rewrite Hc].
Qed.

Lemma keeps_timer now key o :
  shuttingDown (obs_queue o) = false →
  keeps opts now ∅ ∅ o (set_obs_queue (Add key (obs_queue o)).1 (set_obs_calls (spend key (obs_calls o)) o)).
Proof.
  intros Hs. split; cbn; auto.
  - apply Add_shuttingDown.
  - apply Add_processing.
  - apply Add_wf.
  - intros k. unfold queued. cbn. destruct (decide (k = key)) as [->|Hne]; [left; by apply Add_dirty|].
    intros [Hk|(c & Hc & Hin)%list_elem_of_fmap]; [left; by apply queue_add_queued|right].
    apply list_elem_of_fmap. exists c. split; [done|]. apply list_elem_of_filter. split; [congruence|done].
Qed.

(** ** Informers *)

Lemma inv_changed c s s' : sys_inv s → sys_do opts (ClusterChanged c) s = Some s' → sys_inv s'.
Proof.
  intros [[Hck Hrk Hop Hwf]] [= <-]. set (o := sys_observer s) in *.
  assert (event_key (informer_notice c o) = Some (cluster_key c) ∧ event_after (informer_notice c o) = Some c
    ∧ event_follows (obs_clusters o !! cluster_key c) (informer_notice c o)) as (Hek & Hea & Hef)
    by (unfold informer_notice; destruct (obs_clusters o !! cluster_key c); by split_and!).
  split; cbn; try done.
  - split; try done. intros k c'. cbn. intros [[<- <-]|[_ Hc']]%lookup_insert_Some; [done|by apply Hck].
  - intros k. destruct (inv_chain0 k) as [h Hh]. exists h. destruct (decide (k = cluster_key c)) as [->|Hne].
    + rewrite lookup_insert_eq, <-Hea. by eapply chain_snoc.
    + rewrite lookup_insert_ne by done. apply chain_snoc_other; [done|congruence].
  - intros k c' Hc' Hg [Hq Hq1]%quiet_app. apply lookup_insert_Some in Hc' as [[<- <-]|[_ Hc']]; [|by apply inv_served0].
    apply quiet_cons in Hq1 as [Hr _]. specialize (Hr Hek). unfold renews in Hr. rewrite Hea, Hg in Hr. cbn in Hr.
    unfold informer_notice in Hr. destruct (obs_clusters o !! cluster_key c) as [old|] eqn:Hold; [|done]. cbn in Hr.
    apply negb_false_iff, sameClusterRoute_gone in Hr as [<- Hgo]. apply (inv_served0 _ _ Hold); [congruence|done].
Qed.

Lemma inv_removed obj s s' : sys_inv s → sys_do opts (ClusterRemoved obj) s = Some s' → sys_inv s'.
Proof.
  intros [[Hck Hrk Hop Hwf]]. cbn. destruct (cached obj) as [c|] eqn:Hobj; [|done]. cbn. intros [= <-].
  set (o := sys_observer s) in *.
  assert (event_key (Deleted obj) = Some (cluster_key c)) as Hek by (unfold event_key; by rewrite Hobj).
  split; cbn; try done.
  - split; try done. intros k c'. cbn. intros [_ Hc']%lookup_delete_Some. by apply Hck.
  - intros k. destruct (inv_chain0 k) as [h Hh]. exists h. destruct (decide (k = cluster_key c)) as [->|Hne].
    + rewrite lookup_delete_eq. exact (chain_snoc _ _ _ _ (Deleted obj) Hh Hek I).
    + rewrite lookup_delete_ne by done. apply chain_snoc_other; [done|congruence].
  - intros k c' [_ Hc']%lookup_delete_Some Hg [Hq _]%quiet_app. by apply inv_served0.
Qed.

(** What the handler leaves for the Cluster of the notification it took, when the
    rest of the chain is quiet. *)
Lemma own_notice ev rest clk1 clk2 s k h c :
  sys_inv s → clock_within 0 (sys_now s) clk2 → sys_notices s = ev :: rest → event_key ev = Some k →
  chain k h (sys_notices s) (Some c) → obs_clusters (sys_observer s) !! k = Some c → cluster_gone c = false →
  quiet_notices k rest → let o' := (cluster_handler opts ev clk1 clk2 (sys_observer s)).2 in
  known_as k o' = Some (GetUID c) ∧ (secured opts k (sys_now s) o' ∨ (o' = sys_observer s ∧ quiet_notices k (sys_notices s))).
Proof.
  intros Hi Hclk Hn Hek Hh Hc Hg Hq. rewrite Hn in Hh. cbn in Hh. rewrite decide_True in Hh by done. destruct Hh as [_ Hh].
  destruct (chain_quiet _ _ _ _ Hh Hq Hg) as (c0 & Ha & Hg0 & Hu).
  assert (cluster_key c0 = k) as <-.
  { unfold event_key, event_after in *. destruct ev; [rewrite Ha in Hek; by injection Hek..|done]. }
  rewrite <-Hu. cbv zeta. destruct (renews ev) eqn:Hr.
  - destruct (renewing_event opts (sys_now s) ev clk1 clk2 c0 (sys_observer s) Ha Hr) as [Hkn Hsec]; auto.
    by apply running_open, inv_running.
  - assert (quiet_notices (cluster_key c0) (sys_notices s)) as Hqs by (rewrite Hn; by apply quiet_cons).
    destruct (inv_served _ Hi _ c Hc Hg Hqs) as [Hkn _].
    rewrite (unchanged_event opts ev clk1 clk2 c0) by (done || congruence). split; [congruence|by right].
Qed.

(** The handler takes the oldest notification. *)
Lemma inv_notice clk1 clk2 s s' :
  sys_inv s → clock_within 0 (sys_now s) clk2 → sys_do opts (ClusterNotice clk1 clk2) s = Some s' → sys_inv s'.
Proof.
  intros Hi Hclk. cbn. destruct (sys_notices s) as [|ev rest] eqn:Hn; [done|]. intros [= <-]. apply inv_sent. unfold section. cbn.
  set (o := sys_observer s) in *. set (o' := (cluster_handler opts ev clk1 clk2 o).2).
  assert (∃ X, keeps opts (sys_now s) X X o o' ∧ ∀ k, k ∈ X → event_key ev = Some k) as (X & Hk & HX).
  { destruct (event_key ev) as [key|] eqn:Hek; [exists {[key]}|exists ∅; subst o'; rewrite cluster_handler_foreign by done].
    - split; [by apply keeps_cluster_handler|set_solver].
    - split; [done|set_solver]. }
  pose proof (keeps_clusters _ _ _ _ _ _ Hk) as Hcl. pose proof Hi as [Hrun Hha]. split; cbn; try done.
  - by eapply keeps_running.
  - by rewrite (keeps_handler _ _ _ _ _ _ Hk).
  - intros id w Hw. rewrite (keeps_processing _ _ _ _ _ _ Hk). eauto.
  - intros k. rewrite Hcl. destruct (inv_chain0 k) as [h Hh]. rewrite Hn in Hh. cbn in Hh. case_decide; [|by eauto].
    destruct Hh. by eauto.
  - intros k c. rewrite Hcl. intros Hc Hg Hq. destruct (decide (event_key ev = Some k)) as [Hek|Hek].
    + destruct (inv_chain0 k) as [h Hh]. fold o in Hh. rewrite Hc in Hh.
      destruct (own_notice ev rest clk1 clk2 s k h c) as [Hkn Hsec]; try done. split; [exact Hkn|]. intros Hs Hd.
      destruct Hsec as [Hsec|[Heq Hqs]]; [left; apply Hsec; split_and!; [done..|fold o o'; by rewrite Hcl, Hc]|].
      fold o o' in Heq. rewrite Heq in *. by apply (inv_served0 k c Hc Hg).
    + assert (k ∉ X) as Hx by (intros ?%HX; done).
      destruct (inv_served0 k c Hc Hg) as [Hkn Hat]; [rewrite Hn; by apply quiet_cons|].
      split; [by eapply keeps_known|]. intros Hs Hd. apply (attended_keeps X X k s o' Hk); [|done|].
      * split_and!; [done..|]. by rewrite Hcl, Hc.
      * apply Hat; [done|]. by eapply keeps_demand.
Qed.

(** ** Workers *)

Lemma get_item u p key q :
  get u p = (GetItem key, q) → queue_wf p →
  is_Some (entries p !! key) ∧ dirty q = dirty p ∖ {[key]} ∧ shuttingDown q = shuttingDown p
  ∧ ∃ class, processing q = <[key := class]> (processing p).
Proof.
  intros Hg Hwf. pose proof (get_cases u p) as Hc. rewrite Hg in Hc. remember (GetItem key, q) as r eqn:Hr.
  destruct Hc as [_ _|k rest n Hu _ _|k rest _ Hb _]; [by destruct (shuttingDown p)|injection Hr as -> <-..].
  - split_and!; [|done..|by eexists]. exists Urgent. apply (queue_wf_urgent _ Hwf). rewrite Hu. by left.
  - split_and!; [|done..|by eexists]. exists Background. apply (queue_wf_background _ Hwf). rewrite Hb. by left.
Qed.

Lemma inv_get id u s s' : sys_inv s → sys_do opts (WorkerGet id u) s = Some s' → sys_inv s'.
Proof.
  intros [[Hck Hrk Hop Hwf]]. cbn. destruct (decide (sys_workers s !! id = None)) as [Hid|Hid]; [|by rewrite option_guard_False].
  rewrite option_guard_True by done. cbn. set (o := sys_observer s) in *. destruct (get u (obs_queue o)) as [[| |key] q] eqn:Hg; try done.
  intros [= <-]. destruct (get_item _ _ _ _ Hg Hwf) as (He & Hd & Hsd & class & Hpr).
  apply (queue_wf_dirty _ Hwf) in He as [_ Hidle].
  assert (∀ id' w, sys_workers s !! id' = Some w → worker_key w ≠ key) as Hfresh.
  { intros id' w Hw <-. destruct (inv_processing0 _ _ Hw) as [? Hp]. congruence. }
  split; cbn; try done.
  - split; try done; cbn; [congruence|]. pose proof (get_wf u _ Hwf) as Hq. by rewrite Hg in Hq.
  - intros id' w [[<- <-]|[_ Hw]]%lookup_insert_Some; rewrite Hpr; [cbn; by rewrite lookup_insert_eq|].
    rewrite lookup_insert_ne by (by apply not_eq_sym; eapply Hfresh). eauto.
  - intros id1 id2 w1 w2 [[<- <-]|[_ Hw1]]%lookup_insert_Some [[<- <-]|[_ Hw2]]%lookup_insert_Some; [done|..|by eauto].
    + intros Heq. by destruct (Hfresh _ _ Hw2).
    + intros Heq. by destruct (Hfresh _ _ Hw1).
  - intros k c Hc Hgone Hq. destruct (inv_served0 k c Hc Hgone Hq) as [Hk Ha]. split; [exact Hk|]. intros Hs Hdm.
    destruct (decide (k = key)) as [->|Hne]; [right; right; exists id, (WGot key); cbn; by rewrite lookup_insert_eq|].
    destruct (Ha Hs Hdm) as [[Hk'|Hk']|[Hk'|(id' & w & Hw & Hkey & Hr)]].
    + left. left. cbn. rewrite Hd. set_solver.
    + left. by right.
    + by right; left.
    + right. right. exists id', w. cbn. rewrite lookup_insert_ne by congruence. by split_and!.
Qed.

(** A worker moves; what its last position promised, its next one does. *)
Lemma inv_worker id w w' o' s :
  sys_inv s → sys_workers s !! id = Some w → worker_key w' = worker_key w →
  keeps opts (sys_now s) ∅ {[worker_key w]} (sys_observer s) o' →
  (is_Some (known_as (worker_key w) (sys_observer s)) → pursued opts (worker_key w) (sys_now s) o' →
    will_reschedule (sys_observer s) w → queued (worker_key w) o' ∨ will_reschedule o' w') →
  sys_inv (with_workers (<[id := w']> (sys_workers s)) (with_observer o' s)).
Proof.
  intros [] Hw Hkey Hk Hnext. pose proof (keeps_clusters _ _ _ _ _ _ Hk) as Hcl. split; cbn; try done.
  - by eapply keeps_running.
  - by rewrite (keeps_handler _ _ _ _ _ _ Hk).
  - intros id' w1. rewrite (keeps_processing _ _ _ _ _ _ Hk). intros [[<- <-]|[_ Hw1]]%lookup_insert_Some; [rewrite Hkey|]; eauto.
  - intros id1 id2 w1 w2 [[<- <-]|[_ Hw1]]%lookup_insert_Some [[<- <-]|[_ Hw2]]%lookup_insert_Some; [done|..|by eauto];
      rewrite Hkey; eauto.
  - intros k. rewrite Hcl. eauto.
  - intros k c. rewrite Hcl. intros Hc Hg Hq. destruct (inv_served0 k c Hc Hg Hq) as [Hn Ha].
    split; [eapply keeps_known; [exact Hk|set_solver|done..]|]. intros Hs Hd.
    assert (pursued opts k (sys_now s) o') as Hp by (split_and!; [done..|by rewrite Hcl, Hc]).
    assert (attended k s) as Hat by (apply Ha; [done|by eapply keeps_demand]).
    destruct (decide (k = worker_key w)) as [->|Hne].
    + destruct Hat as [Hat|[Hat|(id' & w1 & Hw1 & Hkey1 & Hr)]]; [left; by eapply keeps_queued|by right; left|].
      rewrite (inv_distinct0 _ _ _ _ Hw1 Hw Hkey1) in Hw1. simplify_eq.
      destruct (Hnext) as [?|?]; [by rewrite Hn|done..|by left|]. right. right. exists id, w'. cbn. by rewrite lookup_insert_eq.
    + destruct (attended_keeps ∅ {[worker_key w]} k s o' Hk Hp ltac:(set_solver) Hat) as [?|[?|(id' & w1 & Hw1 & Hkey1 & Hr)]];
        [by left|by right; left|]. right. right. exists id', w1. cbn in *. rewrite lookup_insert_ne by congruence. done.
Qed.

(** [Done]: the worker holds no promise any more. *)
Lemma inv_done id key s :
  sys_inv s → sys_workers s !! id = Some (WDone key) →
  sys_inv (with_workers (delete id (sys_workers s))
    (with_observer (set_obs_queue (Done key (obs_queue (sys_observer s))).1 (sys_observer s)) s)).
Proof.
  intros [[Hck Hrk Hop Hwf]] Hw. set (o := sys_observer s) in *.
  assert (dirty (Done key (obs_queue o)).1 = dirty (obs_queue o) ∧ shuttingDown (Done key (obs_queue o)).1 = shuttingDown (obs_queue o)
    ∧ ∀ k, k ≠ key → processing (Done key (obs_queue o)).1 !! k = processing (obs_queue o) !! k) as (Hd & Hsd & Hpr).
  { unfold Done. destruct (processing (obs_queue o) !! key); [|done]. cbn.
    case_bool_decide; [unfold push; case_match|]; cbn; (split_and!; [done..|]; intros; by rewrite lookup_delete_ne). }
  split; cbn; try done.
  - split; try done; cbn; [congruence|by apply Done_wf].
  - intros id' w [Hne Hw']%lookup_delete_Some. rewrite Hpr; [by eauto|].
    intros Heq. apply Hne. symmetry. by eapply inv_distinct0.
  - intros id1 id2 w1 w2 [_ ?]%lookup_delete_Some [_ ?]%lookup_delete_Some. by eauto.
  - intros k c Hc Hg Hq. destruct (inv_served0 k c Hc Hg Hq) as [Hn Ha]. split; [exact Hn|]. intros Hs Hdm.
    destruct (Ha Hs Hdm) as [[Hk'|Hk']|[Hk'|(id' & w & Hw' & Hkey & Hr)]].
    + left. left. cbn. by rewrite Hd.
    + left. by right.
    + by right; left.
    + right. right. exists id', w. cbn. rewrite lookup_delete_ne; [done|]. intros <-. by simplify_eq.
Qed.

(** While it observes, a worker's promise is its uncancelled context. *)
Lemma inv_observing id w w' o' s :
  sys_inv s → sys_workers s !! id = Some w → worker_key w' = worker_key w →
  keeps opts (sys_now s) ∅ ∅ (sys_observer s) o' →
  (will_reschedule (sys_observer s) w → obs_observations (sys_observer s) !! worker_key w = Some false) →
  (obs_observations o' !! worker_key w = Some false → will_reschedule o' w') →
  sys_inv (with_workers (<[id := w']> (sys_workers s)) (with_observer o' s)).
Proof.
  intros Hi Hw Hkey Hk Hbefore Hafter. eapply inv_worker; try done; [by apply keeps_observing_weaken|].
  intros _ Hp Hr. destruct (keeps_observing _ _ _ _ _ _ Hk (worker_key w)) as [Ho|Hs]; [set_solver|by apply Hbefore|auto|].
  left. by apply Hs.
Qed.

Lemma keeps_begin now key o : keeps opts now ∅ ∅ o (beginObservation key o).2.
Proof.
  split; cbn; auto. intros k _ Hk. left. destruct (decide (k = key)) as [->|]; [by rewrite lookup_insert_eq|by rewrite lookup_insert_ne].
Qed.

Lemma keeps_finish now key o : keeps opts now ∅ {[key]} o (finishObservation key o).2.
Proof. split; cbn; auto. intros k Hk Ho. left. by rewrite lookup_delete_ne by set_solver. Qed.

(** A worker that got a key drops it only when nobody waits for it. *)
Lemma worker_check_spec now key t o :
  0 ≤ t ≤ now → let m := worker_check opts key t o in
  worker_key m.1 = key ∧ keeps opts now ∅ ∅ o m.2
  ∧ (is_Some (known_as key o) → in_demand key now (obs_store o) → queued key m.2 ∨ will_reschedule m.2 m.1).
Proof.
  intros Ht. unfold worker_check. pose proof (keeps_needs opts now key t o) as Hk.
  assert (is_Some (known_as key o) → in_demand key now (obs_store o) → (needsObservation key t o).1 = true) as Hneed
    by (intros; by apply (needed_true now)).
  destruct (needsObservation key t o) as [needed o1]. cbn [fst snd] in *. destruct needed; cbn [negb].
  - destruct (obs_ready o1); cbn [negb fst snd]; (split; [done|]).
    + split; [etrans; [exact Hk|apply keeps_begin]|]. intros _ _. right. cbn. by rewrite lookup_insert_eq.
    + split; [etrans; [exact Hk|]; etrans; [apply (keeps_promote_if opts now ∅ ∅ (IsUrgent key (obs_queue o1)) key)|apply keeps_calls]|].
      intros _ _. left. apply queue_calls_queued. set_solver.
  - cbn [fst snd]. split; [done|]. split; [etrans; [exact Hk|apply keeps_calls]|]. intros Hn Hd. by specialize (Hneed Hn Hd).
Qed.

Lemma inv_step id i s s' :
  sys_inv s → clock_within 0 (sys_now s) (in_clock i) → sys_do opts (WorkerStep id i) s = Some s' → sys_inv s'.
Proof.
  intros Hi (_ & Hnow & _ & _ & Hdem). cbn. destruct (sys_workers s !! id) as [w|] eqn:Hw; [|done]. cbn.
  pose proof (inv_running _ Hi) as Hrun. destruct w as [key|key u st|key u st c params|key u st c params ps|key u st c params ps conn
    |key u reason|key u ok|key u sup ok|key u sup ok|key]; cbn.
  - destruct (worker_check_spec (sys_now s) key (clk_now (in_clock i)) (sys_observer s) Hnow) as (Hkey & Hk & Hnext).
    destruct (worker_check opts key (clk_now (in_clock i)) (sys_observer s)) as [w' o']. cbn in *. intros [= <-]. apply inv_sent_workers.
    eapply inv_worker; try done; [by apply keeps_observing_weaken|]. cbn. intros Hn (_ & Hd & _) _. apply Hnext; [done|].
    by eapply keeps_demand.
  - pose proof (keeps_observe_begin opts (sys_now s) key (sys_observer s)) as Hk.
    destruct (observe_begin key (sys_observer s)) as [plan o']. destruct plan; intros [= <-]; apply inv_sent_workers; by eapply inv_observing.
  - intros [= <-]. apply inv_sent_workers. by eapply inv_observing.
  - pose proof (keeps_connection opts (sys_now s) (in_ioErr i || context_done i key (sys_observer s)) c (sys_observer s)) as Hk.
    destruct (cachedConnection _ c (sys_observer s)) as [[conn|err] o']; intros [= <-]; apply inv_sent_workers; by eapply inv_observing.
  - destruct (publishObservation _ _ _ _ _ _ _ _ _ _ _ _ _ _) as [[[ok pending] o']|] eqn:Hp; [|done]. cbn. intros [= <-].
    apply (keeps_publication opts (sys_now s)) in Hp; [|done]. apply inv_sent_workers. by eapply inv_observing.
  - pose proof (keeps_failure opts (sys_now s) (context_done i key (sys_observer s)) key reason (clk_now (in_clock i))
      (clk_put1 (in_clock i)) (clk_put2 (in_clock i)) (sys_observer s) Hrun) as Hk.
    destruct (publishFailure _ _ _ _ _ _ _ _) as [[ok pending] o']. intros [= <-]. apply inv_sent_workers. by eapply inv_observing.
  - intros [= <-]. apply inv_sent_workers. eapply inv_observing; try done. cbn. intros ->. by rewrite bool_decide_eq_false_2.
  - intros [= <-]. apply inv_sent_workers. eapply inv_worker; try done; [apply keeps_finish|]. by right.
  - intros [= <-]. pose proof (keeps_reschedule opts (sys_now s) key u sup ok (clk_now (in_clock i)) (sys_observer s)) as Hk.
    apply inv_sent_workers. eapply inv_worker; try done; [by apply keeps_observing_weaken|]. cbn. intros Hn (_ & Hd & _) ->. left.
    apply reschedule_queued, (needed_true (sys_now s)); [done| |done]. by eapply keeps_demand.
  - intros [= <-]. by apply inv_sent_workers, inv_done.
Qed.

(** An action does not look at the system's clock. *)
Lemma sys_do_now a t s s1 :
  sys_do opts a s = Some s1 → sys_now s1 = sys_now s ∧ sys_do opts a (with_now t s) = Some (with_now t s1).
Proof.
  destruct a as [key r|key re wa r1 r2|key wa|key r|r|key r|key r|key|ks r|c|obj|clk1 clk2|ps ss rd|ev clk|ev clk|times key
    |times key meta read ex|id u|id i]; cbn -[on_store]; try (by intros [= <-]).
  - destruct (on_store _ _) as [[? ?] ?]. by intros [= <-].
  - destruct (on_store _ _) as [? ?]. by intros [= <-].
  - destruct (take_key _ _); [|done]. cbn. by intros [= <-].
  - destruct (guard _); [|done]. cbn. by intros [= <-].
  - destruct (cached obj); [|done]. cbn. by intros [= <-].
  - destruct (sys_notices s); [done|]. by intros [= <-].
  - destruct (guard _); [|done]. cbn. destruct (get _ _) as [[] ?]; try done. by intros [= <-].
  - destruct (sys_workers s !! id) as [w|]; [|done]. cbn. destruct (worker_step _ _ _ _) as [[[? ?] ?]|]; [|done]. cbn. by intros [= <-].
Qed.

(** Every action preserves the invariant. *)
Lemma sys_step_inv a t s s' : sys_inv s → sys_step opts a t s s' → sys_inv s'.
Proof.
  intros Hi (Hle & Htime & s1 & Hdo & ->). pose proof (inv_now _ Hi) as Hpos.
  destruct (sys_do_now a t s s1 Hdo) as [Hnow Hdo']. pose proof (inv_tick t s Hi Hle) as Hit.
  pose proof (inv_running _ Hit) as Hrun.
  assert (∀ clk, clock_within (sys_now s) t clk → clock_within 0 t clk) as Hclk by (intros clk; unfold clock_within; lia).
  assert (∀ clk, clock_within (sys_now s) t clk → 0 ≤ clk_demand clk ≤ t) as Hdem by (intros clk; unfold clock_within; lia).
  assert (∀ A (m : State Observer A), s1 = section m s → keeps opts t ∅ ∅ (sys_observer s) (m (sys_observer s)).2 →
    sys_inv (with_now t s1)) as Hsection by (intros A m -> Hk; exact (inv_section _ _ Hit Hk)).
  assert (∀ A out (m : State Observer A), s1 = delivering out m s → keeps opts t ∅ ∅ (sys_observer s) (m (sys_observer s)).2 →
    sys_inv (with_now t s1)) as Hdelivering by (intros A out m -> Hk; exact (inv_sent _ _ (inv_section _ _ Hit Hk))).
  destruct a as [key r|key re wa r1 r2|key wa|key r|r|key r|key r|key|ks r|c|obj|clk1 clk2|ps ss rd|ev clk|ev clk|times key
    |times key meta read ex|id u|id i]; cbn [timely] in Htime.
  - apply inv_tick; [|lia]. eapply inv_refresh; [exact Hi| |exact Hdo]; lia.
  - apply inv_tick; [|lia]. eapply inv_register; [exact Hi| |exact Hdo]; lia.
  - injection Hdo as <-. eapply Hsection; [done|]. apply keeps_store, unregister_calm.
  - injection Hdo as <-. eapply Hdelivering; [done|]. apply keeps_get.
  - injection Hdo as <-. eapply Hsection; [done|]. apply keeps_store, ActiveClusters_calm.
  - eapply inv_demand_handler; [exact Hit| |exact Hdo']. cbn. lia.
  - injection Hdo as <-. eapply Hsection; [done|]. apply keeps_enqueue.
  - cbn in Hdo. destruct (guard _) in Hdo; [|done]. injection Hdo as <-.
    refine (inv_section _ _ Hit _). apply keeps_timer, Hrun.
  - injection Hdo as <-. eapply Hdelivering; [done|]. apply keeps_store, Expire_calm.
  - by eapply inv_changed.
  - by eapply inv_removed.
  - eapply inv_notice; [exact Hit| |exact Hdo']. apply Hclk, Htime.
  - injection Hdo as <-. refine (inv_section _ (set_caches ps ss rd (sys_observer s)) Hit _). by apply keeps_same.
  - injection Hdo as <-. eapply Hdelivering; [done|]. destruct ev; apply keeps_pod_event; auto.
  - injection Hdo as <-. eapply Hdelivering; [done|]. destruct ev; apply keeps_secret_event; auto.
  - injection Hdo as <-. eapply Hsection; [done|]. apply keeps_fetch_begin.
  - injection Hdo as <-. eapply Hsection; [done|]. apply keeps_fetch_end.
  - by eapply inv_get.
  - eapply inv_step; [exact Hit| |exact Hdo']. by apply Hclk.
Qed.

Lemma reachable_inv s : sys_reachable opts s → sys_inv s.
Proof. induction 1; [by apply initial_inv|by eapply sys_step_inv]. Qed.

(** ** Theorems *)

(** C4: in every reachable state of the running observer, an enrolled Cluster of the
    watched scope that clients wait for is attended: it is queued, has a timer that
    will queue it, is the subject of a demand call in flight or is held by a worker
    that will schedule it again; or a notification still to be handled will queue
    it.  Without such a notification the store knows the Cluster by its current
    UID. *)
Theorem demand_never_lost s k c :
  sys_reachable opts s → obs_clusters (sys_observer s) !! k = Some c → cluster_gone c = false →
  let pending := ∃ ev, ev ∈ sys_notices s ∧ event_key ev = Some k ∧ renews ev = true in
  (known_as k (sys_observer s) = Some (GetUID c) ∨ pending)
  ∧ (in_scope opts k → in_demand k (sys_now s) (obs_store (sys_observer s)) → attended k s ∨ pending).
Proof.
  intros Hr Hc Hg. apply reachable_inv in Hr. cbv zeta.
  destruct (decide (Exists (λ ev, event_key ev = Some k ∧ renews ev = true) (sys_notices s))) as [He|Hn].
  - apply Exists_exists in He as (ev & ? & ? & ?). split; [|intros _ _]; right; by exists ev.
  - assert (quiet_notices k (sys_notices s)) as Hq.
    { intros ev Hin Hk. apply not_true_is_false. intros Hrn. apply Hn, Exists_exists. by exists ev. }
    destruct (inv_served _ Hr k c Hc Hg Hq). split; [by left|]. intros. left. by auto.
Qed.

(** Whatever the interleaving, no two workers hold the same Cluster, so at most
    one observation of a Cluster is in progress. *)
Theorem one_worker_per_cluster s id id' w w' :
  sys_reachable opts s → sys_workers s !! id = Some w → sys_workers s !! id' = Some w' →
  worker_key w = worker_key w' → id = id'.
Proof. intros Hr. by apply inv_distinct, reachable_inv. Qed.
End claims.

(** ** A concrete run *)

Section example.
#[local] Existing Instances identity_digest plain_access plain_text plain_range plain_keys.

(** The state after an action. *)
Definition after (a : action) (t : time) (s : System) : System :=
  with_now t (default s (sys_do example_options a s)).

Definition possible (a : action) (s : System) : bool :=
  match sys_do example_options a s with Some _ => true | None => false end.

Lemma after_reachable a t s :
  sys_reachable example_options s → sys_now s ≤ t → timely (sys_now s) t a → possible a s = true →
  sys_reachable example_options (after a t s).
Proof.
  unfold possible. intros Hr Hle Ht Hp. destruct (sys_do example_options a s) as [s1|] eqn:Hs1; [|done].
  apply (sys_next _ a t s); [done|]. split_and!; [done..|]. exists s1. split; [done|]. unfold after. by rewrite Hs1.
Qed.

Lemma after_second a b s :
  sys_reachable example_options (after b second s) → timely second second a → possible a (after b second s) = true →
  sys_reachable example_options (after a second (after b second s)).
Proof. intros Hr Ht Hp. exact (after_reachable a second _ Hr (Z.le_refl _) Ht Hp). Qed.

Definition db_key : clusterKey := ClusterKey "app" "db".

(** A Cluster appears, its notification is handled, a client subscribes; then the
    demand handler runs and a worker takes the key. *)
Definition appeared : System := after (ClusterChanged (ca_cluster "db-1")) second (initial example_options "process" 0).
Definition noticed : System := after (ClusterNotice example_clock example_clock) second appeared.
Definition watched : System := after (RegisterCall db_key true 1 second second) second noticed.
Definition enqueued : System := after (DemandHandler db_key second) second watched.
Definition taken : System := after (WorkerGet 1 false) second enqueued.

Lemma watched_reachable : sys_reachable example_options watched.
Proof.
  assert (possible (ClusterNotice example_clock example_clock) appeared = true) as Hn by (vm_compute; reflexivity).
  assert (possible (RegisterCall db_key true 1 second second) noticed = true) as Hg by (vm_compute; reflexivity).
  apply after_second; [|repeat split; apply Z.le_refl|exact Hg].
  apply after_second; [|repeat split; apply Z.le_refl|exact Hn].
  apply after_reachable; [apply sys_init; lia|done..].
Qed.

(** What the theorem needs to know of the state. *)
Lemma watched_facts :
  sys_notices watched = [] ∧ obs_clusters (sys_observer watched) !! db_key = Some (ca_cluster "db-1")
  ∧ watchers_of (obs_store (sys_observer watched)) db_key = {[1%positive]} ∧ cluster_gone (ca_cluster "db-1") = false.
Proof.
  split; [vm_compute; reflexivity|]. split; [vm_compute; reflexivity|]. split; vm_compute; reflexivity.
Qed.

Lemma db_demand : in_scope example_options db_key ∧ in_demand db_key (sys_now watched) (obs_store (sys_observer watched)).
Proof.
  split; [split; [discriminate|]; split; [discriminate|by left]|]. left. destruct watched_facts as (_ & _ & -> & _).
  discriminate.
Qed.

Lemma demand_never_lost_witness : attended db_key watched.
Proof.
  destruct watched_facts as (Hn & Hc & _ & Hg). destruct db_demand as [Hs Hd].
  destruct (demand_never_lost example_options watched db_key (ca_cluster "db-1") watched_reachable Hc Hg) as [_ Ha].
  destruct (Ha Hs Hd) as [Hat|(ev & Hev & _)]; [exact Hat|]. rewrite Hn in Hev. destruct (not_elem_of_nil _ Hev).
Defined.

Lemma taken_reachable : sys_reachable example_options taken.
Proof.
  assert (possible (DemandHandler db_key second) watched = true) as Hd by (vm_compute; reflexivity).
  assert (possible (WorkerGet 1 false) enqueued = true) as Hg by (vm_compute; reflexivity).
  apply after_second; [|exact I|exact Hg].
  apply after_second; [apply watched_reachable|repeat split; apply Z.le_refl|exact Hd].
Qed.

Lemma taken_worker : sys_workers taken !! 1%positive = Some (WGot db_key).
Proof. vm_compute. reflexivity. Qed.

Lemma one_worker_per_cluster_witness : ∀ id, sys_workers taken !! id = Some (WGot db_key) → id = 1%positive.
Proof.
  intros id Hid.
  exact (one_worker_per_cluster example_options taken id 1 _ _ taken_reachable Hid taken_worker eq_refl).
Defined.
End example.
