(* ===== verification/Whole.v ===== *)
(** * The observer with its streams (src/internal/observer with src/internal/discovery)

    The observer of [System] and the watch streams of [Delivery] around one store.
    The observer's goroutines and the unary clients act on it section by section;
    what a section hands to [deliver] is what comes into flight on the side of the
    streams, and nothing else does.  A step of a stream that uses the store is a
    client's action of the observer's system; the other steps of streams, mailboxes
    and deliveries do not touch the store. *)

From S2P Require Import Prelude Api Mailbox Store StoreFacts StoreProps Watchers Queue Config Kube Topology Evidence Settings.
From S2P Require Import Grpc Delivery Observer Collection Events Connection Observe Informers System.

Section whole.
Context `{TextLibrary, MapRange, Unstructured, RoutingDigest, KeyRange, ServiceLibrary}.
Context (opts : Options).

(** Every action of the system but the registrations of watchers. *)
Definition is_section (a : System.action) : bool :=
  match a with RegisterCall _ _ _ _ _ | UnregisterCall _ _ => false | _ => true end.

(** What a step of the streams does to the store, as an action of the system:
    [Some None] when it does not use the store, [None] for a step that belongs to a
    section of the system. *)
Definition counterpart (a : delivery_action) (D : delivery) : option (option System.action) :=
  match a with
  | Elsewhere (ActCall _) => None
  | Elsewhere (ActSubscribe key requireExisting _ w now1 now2) => Some (Some (RegisterCall key requireExisting w now1 now2))
  | OpenWatch w key now1 now2 => Some (Some (RegisterCall key true w now1 now2))
  | Elsewhere (ActCancel w) | StreamCancel w =>
      x ← world_watchers (dl_world D) !! w;
      Some (Some (UnregisterCall (watcher_key x) w))
  | StreamLookup w now =>
      s ← dl_streams D !! w;
      match stream_phase_ s with
      | LookingUp p => Some (Some (ReadCall (ref_key (snapshot_Cluster (publication_snapshot p))) now))
      | _ => None
      end
  | Elsewhere (ActDeliver _ | ActReceive _ | ActClose _) | StreamReceive _ _ | StreamDone _ _ | StreamSend _ _ | StreamClose _ =>
      Some None
  end.

(** The publications among the notifications; an empty one delivers nothing. *)
Definition posted (ns : list notification) : list notification := ns ≫= notifications.

Definition with_world (W : World) (D : delivery) : delivery :=
  {| dl_world := W; dl_streams := dl_streams D; dl_wire := dl_wire D |}.

(** One step of the process.  A section of the observer leaves the streams with the
    deliveries [ns] that it added to [sys_sent], while the commit counter lasts. *)
Inductive whole_step (s : System) (D : delivery) : System → delivery → Prop :=
  | whole_section a t s' ns :
      is_section a = true → sys_step opts a t s s' → sys_sent s' = sys_sent s ++ ns →
      headroom (obs_store (sys_observer s)) (Z.of_nat (length (posted ns))) →
      whole_step s D s' (with_world (commit ns (obs_store (sys_observer s')) (dl_world D)) D)
  | whole_client da a t s' D' :
      counterpart da D = Some (Some a) → sys_step opts a t s s' → delivery_do da D = Some D' → whole_step s D s' D'
  | whole_quiet da D' :
      counterpart da D = Some None → delivery_do da D = Some D' → whole_step s D s D'.

(** A process at its start: [observer.New] has installed the demand handler. *)
Definition whole_start (id : string) (t : time) : delivery :=
  with_world (commit [] (obs_store (sys_observer (initial opts id t))) (NewWorld id)) (NewDelivery id).

Inductive whole_reachable (id : string) : System → delivery → Prop :=
  | whole_init t : 0 ≤ t → whole_reachable id (initial opts id t) (whole_start id t)
  | whole_next s D s' D' : whole_reachable id s D → whole_step s D s' D' → whole_reachable id s' D'.
End whole.
