(* ===== verification/WholeFacts.v ===== *)
(** * Facts about the observer as a client of the store

    [delivers]: what a section of the observer does to the store is a sequence of
    calls on it that keep its watchers, and the notifications it returns are those
    of the calls, in their order; nothing is published as deleted that still
    routes.  The property is closed under the constructs of the state monad, so
    that it holds for every handler. *)

From S2P Require Import Prelude Api Mailbox Store StoreFacts StoreProps Watchers WatcherFacts Queue Config Kube Topology Evidence Settings.
From S2P Require Import Grpc Delivery Observer ObserverFacts Collection Events Connection Observe Informers System Whole.

Create HintDb delivers.

(** ** Snapshots published as deleted *)

Definition closed_snapshot (s : Snapshot) : Prop := snapshot_Reason s = "deleted" → fail_closed s.

(** A notification of such a publication, if of any. *)
Definition closed_notification (n : notification) : Prop :=
  ∀ p, notification_publication n = Some p → closed_snapshot (publication_snapshot p).

Section store.
Context `{RoutingDigest}.

Definition closed_store (s : Store) : Prop := ∀ k r, records s !! k = Some r → closed_snapshot (record_snapshot r).

(** The calls that keep the watcher sets. *)
Definition keeps_watchers (c : store_call) : bool :=
  match c with CallRegister _ _ _ _ _ | CallUnregister _ _ => false | _ => true end.

Definition closed_call (c : store_call) : Prop :=
  match c with CallPut snapshot _ _ => closed_snapshot snapshot | _ => True end.

Lemma closed_view snapshot now1 now2 : closed_snapshot snapshot → closed_snapshot (put_view snapshot now1 now2).
Proof. intros Hc. unfold put_view. destruct (put_expired _ _ _); [intros [=]|exact Hc]. Qed.

Lemma closed_put snapshot now1 now2 s :
  closed_snapshot snapshot → closed_store s →
  closed_store (PutDeferred snapshot now1 now2 s).2 ∧ closed_notification (PutDeferred snapshot now1 now2 s).1.2.
Proof.
  intros Hc Hs. pose proof (closed_view snapshot now1 now2 Hc) as Hv. rewrite PutDeferred_run.
  assert (∀ b, closed_snapshot (record_snapshot (put_record s (put_view snapshot now1 now2) b))) as Hrec by (intros b; exact Hv).
  split.
  - intros k r. unfold put_state. cbn. intros [[_ <-]|[_ Hk]]%lookup_insert_Some; [apply Hrec|].
    destruct (put_changed _ _); by apply Hs in Hk.
  - intros p [= <-]. exact Hv.
Qed.

Lemma closed_read k now s :
  closed_store s →
  closed_store (readPublication k now s).2 ∧ closed_notification (readPublication k now s).1.2.
Proof.
  intros Hs. destruct (records s !! k) as [r|] eqn:Hr.
  - destruct (expireRecord_cases r now) as [Hskip|[He Hle]].
    + rewrite (readPublication_live k r) by done. by split.
    + rewrite (readPublication_expire k r) by done. rewrite expireRecord_fire by done. cbn. split.
      * intros k' r'. cbn. intros [[_ <-]|[_ Hk]]%lookup_insert_Some; [by intros [=]|by eapply Hs].
      * intros p [= <-]. intros [=].
  - rewrite readPublication_unknown by done. by split.
Qed.

Lemma closed_notifications n : closed_notification n → Forall closed_notification (notifications n).
Proof. intros Hn. unfold notifications. destruct (notification_publication n); [by apply Forall_singleton|constructor]. Qed.

Lemma closed_expire ks now s :
  closed_store s → closed_store (Expire ks now s).2 ∧ Forall closed_notification (Expire ks now s).1.
Proof.
  rewrite Expire_state, Expire_notifications. intros Hs. enough (closed_store (expire_all now ks s).2
    ∧ Forall closed_notification (expire_all now ks s).1) as [? ?] by done.
  revert s Hs. induction ks as [|k ks IH]; intros s Hs; [done|]. rewrite expire_all_cons, expire_one_read. cbn [fst snd].
  destruct (closed_read k now s Hs) as [Hs1 Hn]. destruct (IH _ Hs1) as [Hs2 Hns]. split; [done|]. apply Forall_app. split; [|done].
  by apply closed_notifications.
Qed.

Lemma store_run_closed c s ns :
  closed_store s → closed_call c → store_notes c s = Some ns → closed_store (store_run c s) ∧ Forall closed_notification ns.
Proof.
  intros Hs Hc. destruct c; cbn [store_notes store_run]; intros [= <-].
  - destruct (closed_put snap now1 now2 s Hc Hs). split; [done|by apply closed_notifications].
  - rewrite DeleteDeferred_run. cbv zeta. destruct (records s !! k) as [r|] eqn:Hr; cbn; [|done]. split.
    + intros k' r'. cbn. intros [_ Hk]%lookup_delete_Some. by eapply Hs.
    + apply Forall_singleton. intros p [= <-] _. apply tombstone_fail_closed.
  - destruct (closed_read k now s Hs). split; [done|by apply closed_notifications].
  - by apply closed_expire.
  - destruct (request_refresh_quiet k now s) as (Hr & _). unfold closed_store. by rewrite Hr.
  - destruct (hasDemand_quiet k now s) as (Hr & _). unfold closed_store, HasDemand. by rewrite Hr.
  - done.
  - done.
Qed.

(** ** Sequences of calls *)

Definition store_runs (calls : list store_call) (s : Store) : Store := foldl (λ s c, store_run c s) s calls.

(** The notifications of the calls. *)
Fixpoint calls_notes (calls : list store_call) (s : Store) : list notification :=
  match calls with
  | [] => []
  | c :: calls => default [] (store_notes c s) ++ calls_notes calls (store_run c s)
  end.

Lemma calls_notes_app l1 l2 s : calls_notes (l1 ++ l2) s = calls_notes l1 s ++ calls_notes l2 (store_runs l1 s).
Proof. revert s. induction l1 as [|c l1 IH]; intros s; [done|]. cbn. by rewrite IH, app_assoc. Qed.

(** A call of the observer or of a unary client. *)
Definition sound_call (c : store_call) : Prop := keeps_watchers c = true ∧ closed_call c.

Lemma store_runs_closed calls s :
  closed_store s → Forall sound_call calls → closed_store (store_runs calls s) ∧ Forall closed_notification (calls_notes calls s).
Proof.
  intros Hs Hc. revert s Hs. induction Hc as [|c calls [Hk Hc] _ IH]; intros s Hs; [done|]. cbn.
  destruct (store_notes c s) as [ns|] eqn:Hns; [|by destruct c]. destruct (store_run_closed c s ns Hs Hc Hns) as [Hs1 Hn].
  destruct (IH _ Hs1). split; [done|]. by apply Forall_app.
Qed.

Lemma posted_app ns1 ns2 : posted (ns1 ++ ns2) = posted ns1 ++ posted ns2.
Proof. apply bind_app. Qed.

Lemma posted_one n : posted [n] = notifications n.
Proof. unfold posted. cbn. apply app_nil_r. Qed.

Lemma notifications_posted n : Forall (λ n, is_Some (notification_publication n)) (notifications n).
Proof. unfold notifications. destruct (notification_publication n) eqn:E; [apply Forall_singleton; by rewrite E|constructor]. Qed.

Lemma expire_all_posted now ks s : Forall (λ n, is_Some (notification_publication n)) (expire_all now ks s).1.
Proof.
  revert s. induction ks as [|k ks IH]; intros s; [constructor|]. rewrite expire_all_cons. cbn [fst].
  apply Forall_app. split; [apply notifications_posted|apply IH].
Qed.

Lemma posted_posted ns : Forall (λ n, is_Some (notification_publication n)) ns → posted ns = ns.
Proof.
  induction 1 as [|n ns [p Hp] _ IH]; [done|]. change (n :: ns) with ([n] ++ ns). rewrite posted_app, IH, posted_one. unfold notifications.
  by rewrite Hp.
Qed.
End store.

Section facts.
Context `{TextLibrary, MapRange, Unstructured, RoutingDigest, KeyRange}.
Context (opts : Options).

(** From [o] to [o'] the observer has made calls whose notifications are [ns]. *)
Definition publishes (o : Observer) (ns : list notification) (o' : Observer) : Prop :=
  closed_store (obs_store o) →
  ∃ calls, Forall sound_call calls ∧ obs_store o' = store_runs calls (obs_store o) ∧ posted ns = calls_notes calls (obs_store o).

Lemma publishes_same o o' : obs_store o' = obs_store o → publishes o [] o'.
Proof. intros Hs _. by exists []. Qed.

Lemma publishes_trans o1 o2 o3 ns1 ns2 : publishes o1 ns1 o2 → publishes o2 ns2 o3 → publishes o1 (ns1 ++ ns2) o3.
Proof.
  intros H12 H23 Hc. destruct (H12 Hc) as (l1 & Hl1 & E1 & N1).
  destruct H23 as (l2 & Hl2 & E2 & N2); [rewrite E1; by apply store_runs_closed|].
  exists (l1 ++ l2). split_and!; [by apply Forall_app|by rewrite E2, E1; unfold store_runs; rewrite foldl_app|].
  by rewrite posted_app, N1, N2, calls_notes_app, E1.
Qed.

Lemma publishes_eq o o' ns ns' : posted ns' = posted ns → publishes o ns o' → publishes o ns' o'.
Proof. intros Hp Ho Hc. destruct (Ho Hc) as (l & ? & ? & ?). exists l. by rewrite Hp. Qed.

Lemma publishes_then o1 o2 o3 ns : publishes o1 ns o2 → obs_store o3 = obs_store o2 → publishes o1 ns o3.
Proof. intros Ho Hs. rewrite <-(app_nil_r ns). eapply publishes_trans; [exact Ho|by apply publishes_same]. Qed.
End facts.

(** ** Sections *)

(** The notifications in what a section returns. *)
Class Delivered (A : Type) := delivered : A → list notification.

#[export] Instance delivered_unit : Delivered () := λ _, [].
#[export] Instance delivered_bool : Delivered bool := λ _, [].
#[export] Instance delivered_objects {A} : Delivered (list A) | 10 := λ _, [].
#[export] Instance delivered_sum {A B} : Delivered (A + B) := λ _, [].
#[export] Instance delivered_option {A} : Delivered (option A) := λ _, [].
#[export] Instance delivered_observer `{RoutingDigest} : Delivered Observer := λ _, [].
#[export] Instance delivered_notification : Delivered notification := λ n, [n].
#[export] Instance delivered_notifications : Delivered (list notification) := λ l, l.
#[export] Instance delivered_pending : Delivered pendingDeliveries := pending_notifications.
#[export] Instance delivered_pair {A B} `{Delivered A, Delivered B} : Delivered (A * B) := λ x, delivered x.1 ++ delivered x.2.
#[export] Instance delivered_plan `{TextLibrary, Unstructured} : Delivered observe_plan :=
  λ plan, match plan with ObserveGone pending => delivered pending | _ => [] end.

Section judgement.
Context `{TextLibrary, MapRange, Unstructured, RoutingDigest, KeyRange}.

(** With [acc] pending before it, the section returns [acc] and its own. *)
Definition delivers {A} `{Delivered A} (acc : list notification) (m : State Observer A) : Prop :=
  ∀ o, ∃ ns, publishes o ns (m o).2 ∧ posted (delivered (m o).1) = posted (acc ++ ns).

Lemma delivers_publishes {A} `{Delivered A} (m : State Observer A) o : delivers [] m → publishes o (delivered (m o).1) (m o).2.
Proof. intros Hm. destruct (Hm o) as (ns & Hp & Hd). by eapply publishes_eq. Qed.

Lemma delivers_ret {A} `{Delivered A} acc (x : A) : posted (delivered x) = posted acc → delivers acc (mret x).
Proof. intros Hx o. exists []. split; [by apply publishes_same|]. by rewrite app_nil_r. Qed.

Lemma delivers_get : delivers [] get_state.
Proof. intros o. exists []. by split; [apply publishes_same|]. Qed.

Lemma delivers_modify f : (∀ o, obs_store (f o) = obs_store o) → delivers [] (modify f).
Proof. intros Hf o. exists []. split; [by apply publishes_same, Hf|done]. Qed.

Lemma delivers_acc {A} `{Delivered A} acc (m : State Observer A) : posted acc = [] → delivers [] m → delivers acc m.
Proof. intros Hacc Hm o. destruct (Hm o) as (ns & Hp & Hd). exists ns. split; [done|]. by rewrite Hd, !posted_app, Hacc. Qed.

Lemma delivers_bind {A B} `{Delivered A, Delivered B} acc (m : State Observer A) (f : A → State Observer B) :
  delivers [] m → (∀ x, delivers (acc ++ delivered x) (f x)) → delivers acc (m ≫= f).
Proof.
  intros Hm Hf o. rewrite State_bind_run. destruct (Hm o) as (ns1 & Hp1 & Hd1). destruct (Hf (m o).1 (m o).2) as (ns2 & Hp2 & Hd2).
  exists (ns1 ++ ns2). split; [by eapply publishes_trans|]. cbn [app] in Hd1.
  by rewrite Hd2, !posted_app, Hd1, app_assoc.
Qed.

(** The second part takes over what the first returns. *)
Lemma delivers_bind_acc {A B} `{Delivered A, Delivered B} acc (m : State Observer A) (f : A → State Observer B) :
  delivers acc m → (∀ x, delivers (delivered x) (f x)) → delivers acc (m ≫= f).
Proof.
  intros Hm Hf o. rewrite State_bind_run. destruct (Hm o) as (ns1 & Hp1 & Hd1). destruct (Hf (m o).1 (m o).2) as (ns2 & Hp2 & Hd2).
  exists (ns1 ++ ns2). split; [by eapply publishes_trans|]. by rewrite Hd2, !posted_app, Hd1, posted_app, app_assoc.
Qed.

(** One call on the store. *)
Lemma delivers_call {A} `{Delivered A} (m : State Store A) c :
  sound_call c → (∀ s, (m s).2 = store_run c s ∧ Some (posted (delivered (m s).1)) = store_notes c s) → delivers [] (on_store m).
Proof.
  intros Hc Hm o. destruct (Hm (obs_store o)) as [Hs Hn]. unfold on_store. destruct (m (obs_store o)) as [x s]. cbn in *. subst s.
  exists (delivered x). split; [|done]. intros _. exists [c]. split_and!; [by apply Forall_singleton|done|]. cbn.
  rewrite <-Hn. cbn. by rewrite app_nil_r.
Qed.

Lemma delivers_demand key now : delivers [] (on_store (HasDemand key now)).
Proof. by apply (delivers_call _ (CallHasDemand key now)). Qed.

Lemma delivers_put snapshot now1 now2 : closed_snapshot snapshot → delivers [] (on_store (PutDeferred snapshot now1 now2)).
Proof.
  intros Hc. apply (delivers_call _ (CallPut snapshot now1 now2)); [done|]. intros s. split; [done|]. cbn. f_equal.
  unfold delivered, delivered_pair, delivered. cbn. apply app_nil_r.
Qed.

Lemma delivers_delete key : delivers [] (on_store (DeleteDeferred key)).
Proof. apply (delivers_call _ (CallDelete key)); [done|]. intros s. split; [done|]. cbn. f_equal. apply app_nil_r. Qed.

Lemma delivers_read key now : delivers [] (on_store (GetDeferred key now)).
Proof.
  apply (delivers_call _ (CallRead key now)); [done|]. intros s. unfold GetDeferred. rewrite State_bind_run. split; [done|]. cbn. f_equal.
  apply app_nil_r.
Qed.

Lemma delivers_expire ks now : delivers [] (on_store (Expire ks now)).
Proof.
  apply (delivers_call _ (CallExpire ks now)); [done|]. intros s. split; [done|]. cbn [store_notes]. f_equal. apply posted_posted.
  unfold delivered, delivered_notifications. rewrite Expire_notifications. apply expire_all_posted.
Qed.

Lemma delivers_for_each {A} (body : A → State Observer ()) l : (∀ x, delivers [] (body x)) → delivers [] (for_each body l).
Proof. intros Hb. induction l as [|x l IH]; [by apply delivers_ret|]. cbn. apply delivers_bind; [apply Hb|]. intros u. exact IH. Qed.

Lemma delivers_for_pending {A} (body : A → State Observer pendingDeliveries) l :
  (∀ x, delivers [] (body x)) → delivers [] (for_pending body l).
Proof.
  intros Hb. induction l as [|x l IH]; [by apply delivers_ret|]. cbn. apply delivers_bind; [apply Hb|]. intros first.
  apply delivers_bind; [exact IH|]. intros rest. by apply delivers_ret.
Qed.
End judgement.

#[export] Hint Resolve delivers_get delivers_demand delivers_delete delivers_read delivers_expire : delivers.

(** What was collected is returned. *)
Ltac collected :=
  apply delivers_ret;
  unfold committed, pending_add, pending_join, nothing_pending, delivered, delivered_unit, delivered_bool, delivered_objects,
    delivered_sum, delivered_option, delivered_observer, delivered_notification, delivered_pending, delivered_plan, delivered_pair, delivered;
  cbn [app fst snd pending_notifications]; rewrite ?app_nil_r; cbn [app]; try reflexivity; by repeat case_match.

(** Follow the code of a section. *)
Ltac deliver :=
  repeat first
    [ progress intros
    | solve [auto with delivers]
    | solve [collected]
    | solve [apply delivers_acc; [reflexivity|auto with delivers]]
    | apply delivers_for_each
    | apply delivers_for_pending
    | apply delivers_modify; intros; by repeat case_match
    | match goal with
      | |- delivers _ (match ?x with _ => _ end) => destruct x
      end
    | progress cbv zeta
    | apply delivers_bind ].

Section sections.
Context `{TextLibrary, MapRange, Unstructured, RoutingDigest, KeyRange}.
Context (opts : Options).

Lemma delivers_commit snapshot now1 now2 : closed_snapshot snapshot → delivers [] (commitPublication snapshot now1 now2).
Proof. intros Hc. unfold commitPublication. apply delivers_bind; [by apply delivers_put|]. deliver. Qed.

Lemma delivers_delete_cluster key : delivers [] (delete_cluster key).
Proof. unfold delete_cluster. deliver. Qed.

Lemma delivers_enqueue key urgent now : delivers [] (enqueue opts key urgent now).
Proof. unfold enqueue. deliver. Qed.

Lemma delivers_cancel key : delivers [] (cancelObservationLocked key).
Proof. unfold cancelObservationLocked. deliver. Qed.
#[local] Hint Resolve delivers_delete_cluster delivers_enqueue delivers_cancel : delivers.

Lemma delivers_notify key now : delivers [] (Notify opts key now).
Proof. apply delivers_enqueue. Qed.

Lemma delivers_unavailable c reason clk : delivers [] (commit_unavailable opts c reason clk).
Proof. apply delivers_commit. intros _. apply unavailable_closed. Qed.

Lemma delivers_forget key : delivers [] (forget_cluster key).
Proof. unfold forget_cluster. deliver. Qed.
#[local] Hint Resolve delivers_notify delivers_unavailable delivers_forget : delivers.

Lemma delivers_clusterEvent old new clk1 clk2 : delivers [] (clusterEvent opts old new clk1 clk2).
Proof. unfold clusterEvent. deliver. Qed.

Lemma delivers_clusterDeleted obj : delivers [] (clusterDeleted obj).
Proof. unfold clusterDeleted. deliver. Qed.

(** What a read returns is a record of the store. *)
Lemma read_closed key now snapshot o :
  closed_store (obs_store o) → (on_store (GetDeferred key now) o).1.1 = Some snapshot → closed_snapshot snapshot.
Proof.
  intros Hs. destruct (closed_read key now (obs_store o) Hs) as [Hs1 _]. pose proof (readPublication_current key now (obs_store o)) as Hc.
  unfold on_store, GetDeferred. rewrite State_bind_run. cbn. rewrite Hc.
  destruct (records _ !! key) as [r|] eqn:Hr; [|done]. intros [= <-]. rewrite clone_id. by apply (Hs1 key).
Qed.

Lemma closed_drop id s : closed_snapshot s → closed_snapshot (set_members (drop_member id <$> snapshot_Members s) s).
Proof.
  intros Hs Hr. destruct (Hs Hr) as (Ha & Hp & Hm). split_and!; [done..|]. cbn. apply Forall_fmap. eapply Forall_impl; [exact Hm|].
  intros m Hready. unfold drop_member. cbn. by case_bool_decide.
Qed.

Lemma delivers_withdraw key c old clk : delivers [] (withdraw_member key c old clk).
Proof.
  intros o. unfold withdraw_member. rewrite State_bind_run.
  destruct (delivers_read key (clk_get clk) o) as (ns1 & Hp1 & Hd1). pose proof (λ s, read_closed key (clk_get clk) s o) as Hsnap.
  set (r := on_store (GetDeferred key (clk_get clk)) o) in *. clearbody r. destruct r as [[[snapshot|] n] o1]; cbn [fst snd] in *.
  - case_bool_decide.
    2: { exists ns1. split; [done|]. rewrite <-Hd1. reflexivity. }
    rewrite State_bind_run. cbn [mret State_ret fst snd]. set (m := commitPublication _ _ _).
    exists (ns1 ++ [(m o1).1.1]). split.
    + intros Hs. assert (publishes o1 [(m o1).1.1] (m o1).2) as Hp2; [|by apply (publishes_trans _ _ _ _ _ Hp1 Hp2)].
      pose proof (delivers_publishes m o1 (delivers_commit _ _ _ (closed_drop _ _ (Hsnap snapshot Hs eq_refl)))) as Hp2.
      unfold delivered, delivered_pair, delivered, delivered_notification, delivered_option in Hp2. by rewrite app_nil_r in Hp2.
    + cbn [app] in Hd1 |- *. rewrite posted_app, <-Hd1, <-posted_app. reflexivity.
  - exists ns1. split; [done|]. rewrite <-Hd1. reflexivity.
Qed.
#[local] Hint Resolve delivers_withdraw : delivers.

Lemma delivers_pod_changed old new clk key : delivers [] (pod_changed opts old new clk key).
Proof. unfold pod_changed. deliver. Qed.
#[local] Hint Resolve delivers_pod_changed : delivers.

Lemma delivers_podEvent old new clk : delivers [] (podEvent opts old new clk).
Proof. unfold podEvent. deliver. Qed.

Lemma delivers_ca_changed clk c : delivers [] (ca_changed opts clk c).
Proof.
  unfold ca_changed. cbv zeta. apply delivers_bind; [apply delivers_cancel|]. intros u. apply delivers_bind; [apply delivers_read|].
  intros r. apply delivers_bind_acc; deliver.
Qed.
#[local] Hint Resolve delivers_ca_changed : delivers.

Lemma delivers_secretEvent obj clk : delivers [] (secretEvent opts obj clk).
Proof. unfold secretEvent. deliver. Qed.

Lemma delivers_demanded now l : delivers [] (demanded now l).
Proof. induction l as [|c l IH]; cbn; deliver. Qed.
#[local] Hint Resolve delivers_demanded : delivers.

Lemma delivers_fetch_begin now key : delivers [] (fetch_begin now key).
Proof. unfold fetch_begin, demandedCAClusters, drop_pending. deliver. Qed.

Lemma delivers_fetch_end now key meta read expired : delivers [] (fetch_end opts now key meta read expired).
Proof. unfold fetch_end, demandedCAClusters, drop_pending. deliver. Qed.

Lemma delivers_begin key : delivers [] (observe_begin key).
Proof. unfold observe_begin. deliver. Qed.

Lemma delivers_connection ctxErr c : delivers [] (cachedConnection ctxErr c).
Proof. unfold cachedConnection. deliver. Qed.

Lemma delivers_needs key now : delivers [] (needsObservation key now).
Proof. unfold needsObservation. deliver. Qed.
#[local] Hint Resolve delivers_needs : delivers.

Lemma delivers_promote_if urgent key : delivers [] (promote_if urgent key).
Proof. unfold promote_if. deliver. Qed.
#[local] Hint Resolve delivers_promote_if : delivers.

Lemma delivers_reschedule key urgent superseded observed now : delivers [] (reschedule opts key urgent superseded observed now).
Proof. unfold reschedule, queue_calls. deliver. Qed.

Lemma delivers_failure ctxErr key reason now now1 now2 : delivers [] (publishFailure opts ctxErr key reason now now1 now2).
Proof.
  unfold publishFailure. apply delivers_bind; [apply delivers_get|]. intros o. destruct ctxErr; [deliver|].
  destruct (observed_cluster key o); [|deliver]. cbv zeta. apply delivers_bind; [|deliver]. apply delivers_commit.
  intros _. apply unavailable_closed.
Qed.

(** A verified snapshot is not published as deleted. *)
Lemma observation_closed latest latestPods probed results params connection conflict started snapshot :
  observation_snapshot opts latest latestPods probed results params connection conflict started = Some snapshot → closed_snapshot snapshot.
Proof.
  unfold observation_snapshot. intros (mapped & _ & (built & Hb & [= <-])%bind_Some)%bind_Some. destruct conflict; [by intros [=]|].
  unfold buildSnapshot in Hb. destruct (fenced_instances latest) as [fenced|]; [|injection Hb as <-; by intros [=]].
  apply bind_Some in Hb as (acc & _ & Hb). do 2 (case_match; [injection Hb as <-; by intros [=]|]).
  destruct (scan_primaryIndex acc) as [j|]; [|injection Hb as <-; by intros [=]].
  apply bind_Some in Hb as (primary & _ & (m & _ & (ms & _ & [= <-])%bind_Some)%bind_Some). by intros [=].
Qed.

Lemma evidence_store observed latest probed latestPods results o conflict o' :
  record_evidence observed latest probed latestPods results o = Some (conflict, o') → obs_store o' = obs_store o.
Proof.
  unfold record_evidence. case_bool_decide; [|by intros [= _ <-]]. intros ([] & _ & [= _ <-])%bind_Some. done.
Qed.

Lemma publishes_commit snapshot now1 now2 o :
  closed_snapshot snapshot →
  publishes o (pending_notifications (committed (commitPublication snapshot now1 now2 o).1)) (commitPublication snapshot now1 now2 o).2.
Proof.
  intros Hc. eapply publishes_eq; [|by apply delivers_publishes, delivers_commit]. unfold delivered, delivered_pair, delivered. by rewrite app_nil_r.
Qed.

Lemma publishes_notify key now o : publishes o [] (Notify opts key now o).2.
Proof. apply (delivers_publishes _ o (delivers_notify key now)). Qed.

Lemma publishes_observation ctxErr key observed probed results params connection started now now1 now2 nowDemand o ok pending o' :
  publishObservation opts ctxErr key observed probed results params connection started now now1 now2 nowDemand o = Some ((ok, pending), o') →
  publishes o (pending_notifications pending) o'.
Proof.
  unfold publishObservation. destruct (observed_cluster key o) as [latest|].
  2: { pose proof (delivers_publishes _ o (delivers_delete_cluster key)) as Hp. destruct (delete_cluster key o) as [p o1]. cbn in Hp.
       intros [= _ <- <-]. by apply (publishes_then _ _ _ _ Hp). }
  intros ([conflict o1] & He & Hrest)%bind_Some. apply evidence_store in He.
  change (pending_notifications pending) with ([] ++ pending_notifications pending). eapply publishes_trans; [by apply publishes_same|].
  clear He. revert Hrest. case_goal; [intros [= _ <- <-]; by apply publishes_same|].
  assert (∀ snapshot, closed_snapshot snapshot →
    publishes o1 (pending_notifications (committed (commitPublication snapshot now1 now2 (Notify opts key nowDemand o1).2).1))
      (commitPublication snapshot now1 now2 (Notify opts key nowDemand o1).2).2) as Hnotify.
  { intros snapshot Hc. apply (publishes_trans _ _ _ _ _ (publishes_notify key nowDemand o1)). by apply publishes_commit. }
  do 2 (case_goal;
    [cbv zeta; match goal with |- context [commitPublication ?snapshot _ _ ?o2] =>
       pose proof (Hnotify snapshot (λ _, unavailable_closed _ _ _ _)) as Hc; destruct (commitPublication snapshot _ _ o2) end;
     by intros [= _ <- <-]|]).
  intros (snapshot & Hsnap & Hc)%bind_Some. pose proof (publishes_commit snapshot now1 now2 o1 (observation_closed _ _ _ _ _ _ _ _ _ Hsnap)) as Hp.
  destruct (commitPublication snapshot _ _ o1). by injection Hc as _ <- <-.
Qed.

Lemma publishes_check key now o : publishes o [] (worker_check opts key now o).2.
Proof.
  unfold worker_check. pose proof (delivers_publishes _ o (delivers_needs key now)) as Hn. destruct (needsObservation key now o) as [needed o1].
  cbn in Hn. repeat case_goal; cbn [snd]; try by apply (publishes_then _ _ _ _ Hn).
  apply (publishes_trans _ _ _ [] [] Hn).
  set (m := promote_if _ key). pose proof (delivers_publishes m o1 (delivers_promote_if _ key)) as Hp. by apply (publishes_then _ _ _ _ Hp).
Qed.

Lemma handed_notifications pending : handed pending = pending_notifications pending.
Proof.
  unfold handed, deliver_pending. rewrite omap_app.
  assert (∀ l : list notification, omap (λ x : notification + Snapshot, match x with inl n => Some n | inr _ => None end) (inl <$> l) = l) as ->
    by (induction l as [|n l IH]; [done|]; cbn; by f_equal).
  assert (∀ l : list Snapshot, omap (λ x : notification + Snapshot, match x with inl n => Some n | inr _ => None end) (inr <$> l) = []) as ->
    by (by induction l). apply app_nil_r.
Qed.

Lemma publishes_worker i w o w' ns o' : worker_step opts i w o = Some (w', ns, o') → publishes o ns o'.
Proof.
  destruct w as [key|key urgent started| | | | | | | |]; cbn.
  - pose proof (publishes_check key (clk_now (in_clock i)) o) as Hp. destruct (worker_check _ _ _ _). by intros [= _ <- <-].
  - pose proof (delivers_publishes _ o (delivers_begin key)) as Hp. destruct (observe_begin key o) as [[pending|reason|c params] o1];
      intros [= _ <- <-]; [by rewrite handed_notifications|exact Hp..].
  - intros [= _ <- <-]. by apply publishes_same.
  - match goal with |- context [cachedConnection ?e ?c o] => pose proof (delivers_publishes _ o (delivers_connection e c)) as Hp; destruct (cachedConnection e c o) end.
    by intros [= _ <- <-].
  - intros ([[ok pending] o1] & Hp & [= _ <- <-])%bind_Some. rewrite handed_notifications. by eapply publishes_observation.
  - match goal with |- context [publishFailure opts ?e ?k ?r ?t ?t1 ?t2 o] =>
      pose proof (delivers_publishes _ o (delivers_failure e k r t t1 t2)) as Hp; destruct (publishFailure opts e k r t t1 t2 o) as [[ok pending] o1] end.
    intros [= _ <- <-]. rewrite handed_notifications. exact Hp.
  - intros [= _ <- <-]. by apply publishes_same.
  - intros [= _ <- <-]. by apply publishes_same.
  - intros [= _ <- <-]. apply (delivers_publishes _ o (delivers_reschedule _ _ _ _ _)).
  - intros [= _ <- <-]. by apply publishes_same.
Qed.

(** A section that hands over what it returns. *)
Lemma delivering_publishes {A} `{Delivered A} (out : A → list notification) (m : State Observer A) s :
  delivers [] m → (∀ x, posted (out x) = posted (delivered x)) →
  ∃ ns, sys_sent (delivering out m s) = sys_sent s ++ ns ∧ publishes (sys_observer s) ns (sys_observer (delivering out m s)).
Proof.
  intros Hm Hout. eexists. split; [reflexivity|]. eapply publishes_eq; [apply Hout|]. by apply (delivers_publishes m (sys_observer s)).
Qed.

Lemma section_publishes {A} `{Delivered A} (m : State Observer A) s :
  delivers [] m → (∀ x, posted (delivered x) = []) →
  ∃ ns, sys_sent (section m s) = sys_sent s ++ ns ∧ publishes (sys_observer s) ns (sys_observer (section m s)).
Proof.
  intros Hm Hout. exists []. split; [by rewrite app_nil_r|]. eapply publishes_eq; [|by apply (delivers_publishes m (sys_observer s))].
  by rewrite Hout.
Qed.

(** Every section of the running observer hands over the notifications of the calls
    that it has made on the store. *)
Lemma action_publishes a s s' :
  is_section a = true → sys_do opts a s = Some s' →
  ∃ ns, sys_sent s' = sys_sent s ++ ns ∧ publishes (sys_observer s) ns (sys_observer s').
Proof.
  assert (∀ o', obs_store o' = obs_store (sys_observer s) → ∃ ns, sys_sent s = sys_sent s ++ ns ∧ publishes (sys_observer s) ns o') as Hsame
    by (intros; exists []; split; [by rewrite app_nil_r|by apply publishes_same]).
  destruct a as [key t| | |key t|t|key t|key t|key|ks t|c|obj|clk1 clk2|pods secrets ready|ev clk|ev clk|
    now key|now key meta read expired|id urgentOnly|id i];
    cbn [is_section sys_do]; try done; intros _.
  - intros Hdo. exists []. rewrite app_nil_r. revert Hdo. unfold on_store. destruct (RequestRefresh key t _) as [[known call] st] eqn:E.
    intros [= <-]. split; [done|]. intros _. exists [CallRequestRefresh key t]. split_and!; [by apply Forall_singleton| |done]. cbn. by rewrite E.
  - intros [= <-]. apply (delivering_publishes (λ r, [r.2])); [apply delivers_read|done].
  - intros [= <-]. exists []. split; [by rewrite app_nil_r|]. intros _. exists [CallActiveClusters t].
    split_and!; [by apply Forall_singleton|done|done].
  - intros (l & _ & [= <-])%bind_Some. by apply (section_publishes _ (with_demands l s)); [apply delivers_enqueue|].
  - intros [= <-]. by apply section_publishes; [apply delivers_notify|].
  - intros (_ & _ & [= <-])%bind_Some. by apply Hsame.
  - intros [= <-]. by apply delivering_publishes; [apply delivers_expire|].
  - intros [= <-]. by apply Hsame.
  - intros (c & _ & [= <-])%bind_Some. by apply Hsame.
  - destruct (sys_notices s) as [|ev rest]; [done|]. intros [= <-]. apply (delivering_publishes handed _ (with_notices rest s)).
    + destruct ev; [apply delivers_clusterEvent..|apply delivers_clusterDeleted].
    + intros x. by rewrite handed_notifications.
  - intros [= <-]. by apply Hsame.
  - intros [= <-]. apply delivering_publishes; [destruct ev; apply delivers_podEvent|]. intros x. by rewrite handed_notifications.
  - intros [= <-]. apply delivering_publishes; [destruct ev; apply delivers_secretEvent|]. intros x. by rewrite handed_notifications.
  - intros [= <-]. by apply section_publishes; [apply delivers_fetch_begin|].
  - intros [= <-]. by apply section_publishes; [apply delivers_fetch_end|].
  - intros (_ & _ & Hget)%bind_Some. destruct (get _ _) as [[] q]; [done..|]. injection Hget as <-. by apply Hsame.
  - intros (w & _ & ([[w' ns] o'] & Hw & [= <-])%bind_Some)%bind_Some. exists ns. split; [done|]. by eapply publishes_worker.
Qed.
End sections.
