(* ===== verification/WholeProps.v ===== *)
(** * Correctness of the observer with its streams

    The observer and the streams agree on the store, every section of the observer
    hands over the notifications of the calls it makes, a stream sends nothing else,
    and one that waits shows what the observer has published. *)

From S2P Require Import Prelude Api Mailbox Store StoreFacts StoreProps Watchers WatcherFacts WatcherProps Queue Config Kube.
From S2P Require Import Topology Evidence Settings Grpc GrpcProps Delivery DeliveryFacts DeliveryProps Observer Collection Events EventsProps Connection.
From S2P Require Import TopologyProps CollectionProps ConnectionProps Observe Informers System SystemProps Whole WholeFacts.

Section props.
Context `{TextLibrary, MapRange, Unstructured, RoutingDigest, KeyRange, ServiceLibrary}.
Context (opts : Options).

(** ** The calls of a section *)

Lemma commit_app ns1 ns2 s1 s2 W : commit ns2 s2 (commit ns1 s1 W) = commit (ns1 ++ ns2) s2 W.
Proof. unfold commit at 2. rewrite commit_set_store. unfold commit. by rewrite foldl_app. Qed.

(** An empty notification commits nothing. *)
Lemma commit_posted ns s W : commit (posted ns) s W = commit ns s W.
Proof.
  revert W. induction ns as [|n ns IH]; intros W; [done|]. change (n :: ns) with ([n] ++ ns).
  rewrite posted_app, <-!(commit_app _ _ (world_store W)), IH. f_equal. rewrite posted_one. unfold notifications, commit. cbn.
  unfold post_notification, spread. destruct (notification_publication n) eqn:E; cbn; [by rewrite E|]. by rewrite app_nil_r.
Qed.

(** The streams see the calls of a section as long as the commit counter lasts. *)
Lemma calls_reachable id calls D :
  let s := world_store (dl_world D) in
  delivery_reachable id D → Forall sound_call calls → headroom s (Z.of_nat (length (calls_notes calls s))) →
  delivery_reachable id (with_world (commit (calls_notes calls s) (store_runs calls s) (dl_world D)) D).
Proof.
  intros s HD Hcalls. revert D s HD. induction Hcalls as [|c calls [Hc _] _ IH]; intros D s HD Hroom.
  { subst s. by destruct D as [[]]. }
  cbn [calls_notes] in *. destruct (store_notes c s) as [ns|] eqn:Hns; [|by destruct c]. unfold default, Datatypes.id in *. rewrite length_app in Hroom.
  pose proof (delivery_reachable_inv _ _ HD) as Hi. pose proof (inv_counter _ (di_world _ Hi)) as Hcount.
  unfold headroom in Hroom. fold s in Hcount.
  destruct (store_notes_effects c s ns (di_store _ Hi)) as [_ He]; [unfold headroom; lia|done|].
  pose proof (effects_order _ _ _ He ltac:(lia) ltac:(unfold headroom; lia)) as Ho.
  assert (delivery_do (Elsewhere (ActCall c)) D = Some (with_world (commit ns (store_run c s) (dl_world D)) D)) as Hdo.
  { cbn. fold s. rewrite Hns. cbn. rewrite option_guard_True by (unfold headroom; lia). done. }
  pose proof (delivery_next _ _ _ _ HD Hdo) as HD1. specialize (IH _ HD1). cbn [with_world dl_world commit set_store world_store] in IH.
  unfold headroom in IH. specialize (IH ltac:(lia)). unfold with_world in *. cbn [dl_world dl_streams dl_wire] in *.
  change (set_store ?st ?W) with (commit [] st W) in IH. by rewrite commit_app in IH.
Qed.

(** What a section hands over is committed among the publications. *)
Lemma commit_history ns s W n p :
  world_history (commit ns s W) !! n = Some p → world_history W !! n = Some p ∨ ∃ m, m ∈ ns ∧ notification_publication m = Some p.
Proof.
  revert W. induction ns as [|m ns IH]; intros W; [by left|]. change (m :: ns) with ([m] ++ ns). rewrite <-(commit_app _ _ (world_store W)).
  intros [Hp|(m' & ? & ?)]%IH; [|right; exists m'; set_solver]. revert Hp. unfold commit, post_notification. cbn.
  destruct (notification_publication m) as [q|] eqn:Hq; cbn; [|by left].
  intros [[_ <-]|[_ Hp]]%lookup_insert_Some; [right; exists m; set_solver|by left].
Qed.

(** ** Streams and the store *)

(** Steps of streams and mailboxes that have no counterpart leave the store and what
    was committed alone. *)
Definition same_commits (W W' : World) : Prop := world_store W' = world_store W ∧ world_history W' = world_history W.

Lemma world_quiet a W W' :
  world_do a W = Some W' → match a with ActDeliver _ | ActReceive _ | ActClose _ => True | _ => False end → same_commits W W'.
Proof.
  destruct a as [| |i|w| |w]; cbn; try done.
  - intros ([p w] & _ & (x & _ & [= <-])%bind_Some)%bind_Some _. unfold perform_delivery. by destruct (watcher_deliver _ _).
  - intros (x & _ & [= <-])%bind_Some _. done.
  - intros (x & _ & Hx)%bind_Some _. repeat (apply bind_Some in Hx as (? & _ & Hx)). by injection Hx as <-.
Qed.

(** One step on both sides: the observer's part hands [ns] over, the streams' part
    commits nothing else, and both end with the same store. *)
Definition agree (s s1 : System) (W W' : World) : Prop :=
  ∃ ns, sys_sent s1 = sys_sent s ++ ns
    ∧ (∀ n p, world_history W' !! n = Some p → world_history W !! n = Some p ∨ ∃ m, m ∈ ns ∧ notification_publication m = Some p)
    ∧ world_store W' = obs_store (sys_observer s1)
    ∧ (closed_store (obs_store (sys_observer s)) → closed_store (obs_store (sys_observer s1)) ∧ Forall closed_notification ns).

Lemma closed_register k req w n1 n2 st :
  closed_store st →
  closed_store (register k req w n1 n2 st).2 ∧ closed_notification (registration_expired (register k req w n1 n2 st).1).
Proof.
  intros Hs. destruct (decide (records st !! k = None ∧ req = true)) as [[Hn ->]|Hor]; [by rewrite register_refused|].
  rewrite register_run by (destruct (records st !! k), req; [left; by eexists|by right|naive_solver|by right]).
  destruct (closed_read k n1 st Hs) as [Hs1 Hn]. destruct (readPublication k n1 st) as [r st1]. cbn [fst snd] in *.
  pose proof (hasDemand_quiet k n2 st1) as (Hr & _). destruct (hasDemand k n2 st1) as [active st2]. cbn [fst snd] in *.
  split; [|done]. intros k' r'. cbn. rewrite Hr. apply Hs1.
Qed.

Lemma subscribe_agrees k req sh w n1 n2 W W' s s1 :
  world_do (ActSubscribe k req sh w n1 n2) W = Some W' → sys_do opts (RegisterCall k req w n1 n2) s = Some s1 →
  world_store W = obs_store (sys_observer s) → agree s s1 W W'.
Proof.
  cbn. intros (_ & _ & (_ & _ & Hreg)%bind_Some)%bind_Some. unfold on_store. intros Hs Heq. rewrite <-Heq in Hs.
  pose proof (closed_register k req w n1 n2 (world_store W)) as Hc.
  destruct (register k req w n1 n2 (world_store W)) as [reg st]. apply bind_Some in Hreg as (_ & _ & [= <-]).
  injection Hs as <-. exists [registration_expired reg]. split_and!; [done| |done|].
  - intros n p Hp. change (world_history (commit (notifications (registration_expired reg)) st W) !! n = Some p) in Hp.
    rewrite <-posted_one, commit_posted in Hp. by apply commit_history in Hp.
  - cbn. rewrite <-Heq, Forall_singleton. exact Hc.
Qed.

Lemma cancel_agrees w x W W' s s1 :
  world_watchers W !! w = Some x → world_do (ActCancel w) W = Some W' →
  sys_do opts (UnregisterCall (watcher_key x) w) s = Some s1 → world_store W = obs_store (sys_observer s) → agree s s1 W W'.
Proof.
  intros Hx. cbn. rewrite Hx. cbn. intros (_ & _ & [= <-])%bind_Some [= <-] Heq. exists [].
  split_and!; [by rewrite app_nil_r|by left|cbn; unfold on_store; by rewrite <-Heq|done].
Qed.

Lemma lookup_agrees w st p n D D' s s1 :
  stream_lookup w st p n D = Some D' → sys_do opts (ReadCall (ref_key (snapshot_Cluster (publication_snapshot p))) n) s = Some s1 →
  world_store (dl_world D) = obs_store (sys_observer s) → agree s s1 (dl_world D) (dl_world D').
Proof.
  unfold stream_lookup. set (k := ref_key _).
  intros (W & (ns & [= <-] & (_ & _ & [= <-])%bind_Some)%bind_Some & [= <-])%bind_Some [= <-] Heq.
  exists [(readPublication k n (world_store (dl_world D))).1.2]. unfold delivering, section, on_store, GetDeferred. rewrite State_bind_run.
  cbn [dl_world set_stream commit set_store world_store store_run with_sent with_observer sys_observer sys_sent fst snd mret State_ret].
  rewrite <-Heq. split_and!; [done| |done|].
  - intros i q Hq. set (r := (readPublication k n (world_store (dl_world D))).1.2) in *.
    change (world_history (commit (notifications r) (world_store (dl_world D)) (dl_world D)) !! i = Some q) in Hq.
    rewrite <-posted_one, commit_posted in Hq. by apply commit_history in Hq.
  - rewrite Forall_singleton. apply closed_read.
Qed.

(** A step of a stream that uses the store does what its counterpart does. *)
Lemma client_effect da a t s s' D D' :
  counterpart da D = Some (Some a) → sys_step opts a t s s' → delivery_do da D = Some D' →
  world_store (dl_world D) = obs_store (sys_observer s) → agree s s' (dl_world D) (dl_world D').
Proof.
  intros Hc (_ & _ & s1 & Hs1 & ->) Hdo Heq. change (agree s s1 (dl_world D) (dl_world D')).
  destruct da as [[c|k req sh w n1 n2|i|w|w|w]|w k n1 n2|w n|w e|w n|w e|w|w]; cbn in Hc; simplify_eq.
  - cbn [delivery_do] in Hdo. destruct (foreign _ D); [|done]. apply bind_Some in Hdo as (W & HW & [= <-]).
    by eapply subscribe_agrees.
  - destruct (world_watchers (dl_world D) !! w) as [x|] eqn:Hx; cbn in Hc; simplify_eq. cbn [delivery_do] in Hdo. destruct (foreign _ D); [|done].
    apply bind_Some in Hdo as (W & HW & [= <-]). by eapply cancel_agrees.
  - cbn [delivery_do] in Hdo. apply bind_Some in Hdo as (_ & _ & (W & HW & [= <-])%bind_Some). by eapply subscribe_agrees.
  - destruct (dl_streams D !! w) as [st|] eqn:Hst; cbn in Hc; [|done]. destruct (stream_phase_ st) as [|p| |] eqn:Hp; simplify_eq.
    cbn [delivery_do] in Hdo. rewrite Hst in Hdo. cbn [mbind option_bind] in Hdo. rewrite Hp in Hdo. by eapply lookup_agrees.
  - destruct (world_watchers (dl_world D) !! w) as [x|] eqn:Hx; cbn in Hc; simplify_eq. cbn [delivery_do] in Hdo. unfold stream_cancel in Hdo.
    apply bind_Some in Hdo as (st & _ & Hdo). destruct (stream_phase_ st); try done.
    apply bind_Some in Hdo as (W & HW & [= <-]). by eapply cancel_agrees.
Qed.

(** The other steps of streams do not change it. *)
Lemma quiet_store da D D' :
  counterpart da D = Some None → delivery_do da D = Some D' → same_commits (dl_world D) (dl_world D').
Proof.
  intros Hc. destruct da as [a|w k n1 n2|w n|w e|w n|w e|w|w]; cbn.
  - destruct (foreign a D); [|done]. intros (W & HW & [= <-])%bind_Some. cbn. eapply world_quiet; [done|].
    destruct a; cbn in Hc; try done. by destruct (world_watchers _ !! w).
  - done.
  - intros (st & _ & Hr)%bind_Some. destruct (stream_phase_ st); try done. unfold stream_receive in Hr.
    apply bind_Some in Hr as (x & _ & Hr). destruct (slot x).
    + apply bind_Some in Hr as (W & HW & [= <-]). cbn. by apply (world_quiet _ _ _ HW).
    + destruct (subscription_closed _); [|done]. by injection Hr as <-.
  - intros (st & _ & Hr)%bind_Some. destruct (stream_phase_ st); try done. by injection Hr as <-.
  - cbn in Hc. destruct (dl_streams D !! w) as [st|]; [|done]. cbn in Hc. by destruct (stream_phase_ st).
  - intros (st & _ & Hr)%bind_Some. destruct (stream_phase_ st); try done. injection Hr as <-.
    unfold stream_send. case_goal; [done|]. by destruct (protobuf _ _).
  - cbn in Hc. by destruct (world_watchers _ !! w).
  - unfold stream_cancel. intros (st & _ & Hr)%bind_Some. destruct (stream_phase_ st); try done.
    apply bind_Some in Hr as (W & HW & [= <-]). cbn. by apply (world_quiet _ _ _ HW).
Qed.

(** ** The whole *)

(** What holds in every state of the observer with its streams. *)
Record coherent (id : string) (s : System) (D : delivery) : Prop := {
  coherent_system : sys_reachable opts s;
  coherent_streams : delivery_reachable id D;
  coherent_store : world_store (dl_world D) = obs_store (sys_observer s);
  coherent_closed : closed_store (obs_store (sys_observer s));
  coherent_tombstones : tombstones_closed (dl_world D);
  coherent_sent : ∀ n p, world_history (dl_world D) !! n = Some p → ∃ ws, Notification (Some p) ws ∈ sys_sent s;
}.

(** The notifications [ns] of one step, on both sides. *)
Lemma coherent_history ns s s' D D' :
  (∀ n p, world_history (dl_world D') !! n = Some p → world_history (dl_world D) !! n = Some p ∨ ∃ m, m ∈ ns ∧ notification_publication m = Some p) →
  Forall closed_notification ns → sys_sent s' = sys_sent s ++ ns → tombstones_closed (dl_world D) →
  (∀ n p, world_history (dl_world D) !! n = Some p → ∃ ws, Notification (Some p) ws ∈ sys_sent s) →
  tombstones_closed (dl_world D')
  ∧ ∀ n p, world_history (dl_world D') !! n = Some p → ∃ ws, Notification (Some p) ws ∈ sys_sent s'.
Proof.
  intros Hh Hc Hs Ht Hall. rewrite Hs. split; intros n p [Hp|(m & Hm & Hp)]%Hh.
  - by apply (Ht n).
  - rewrite Forall_forall in Hc. by apply (Hc m Hm).
  - destruct (Hall n p Hp) as [ws ?]. exists ws. set_solver.
  - exists (notification_watchers m). destruct m as [q ws]. cbn in *. subst q. set_solver.
Qed.

(** A section of the observer. *)
Lemma coherent_section id a t s s' ns D :
  coherent id s D → is_section a = true → sys_step opts a t s s' → sys_sent s' = sys_sent s ++ ns →
  headroom (obs_store (sys_observer s)) (Z.of_nat (length (posted ns))) →
  coherent id s' (with_world (commit ns (obs_store (sys_observer s')) (dl_world D)) D).
Proof.
  intros [Hs HD Heq Hcl Ht Hh] Ha Hstep Hns Hroom. pose proof Hstep as (_ & _ & s1 & Hs1 & Hs').
  destruct (action_publishes opts a s s1 Ha Hs1) as (ns' & Hns' & Hp).
  assert (ns' = ns) as -> by (apply (app_inv_head (sys_sent s)); rewrite <-Hns', <-Hns; by rewrite Hs').
  destruct (Hp Hcl) as (calls & Hcalls & Hstore & Hnotes). destruct (store_runs_closed calls _ Hcl Hcalls) as [Hcl' Hnc].
  assert (obs_store (sys_observer s') = store_runs calls (obs_store (sys_observer s))) as Hst by by rewrite Hs'.
  assert (Forall closed_notification ns) as Hcn.
  { rewrite <-Hnotes in Hnc. rewrite Forall_forall in Hnc |- *. intros m Hm p Hp'. apply (Hnc m); [|done]. unfold posted.
    apply list_elem_of_bind. exists m. split; [|done]. unfold notifications. rewrite Hp'. by left. }
  destruct (coherent_history ns s s' D (with_world (commit ns (obs_store (sys_observer s')) (dl_world D)) D)) as [? ?]; try done.
  { intros n p. apply commit_history. }
  split; try done; [by eapply sys_next| |by rewrite Hst].
  rewrite <-commit_posted, Hst, Hnotes, <-Heq. apply calls_reachable; [done..|]. by rewrite Heq, <-Hnotes.
Qed.

Lemma whole_coherent id s D : whole_reachable opts id s D → coherent id s D.
Proof.
  induction 1 as [t Ht|s D s' D' _ Hco Hstep].
  - assert (closed_store (obs_store (sys_observer (initial opts id t)))) by (intros k r; cbn; by rewrite lookup_empty).
    split; [by apply sys_init| |done|done|intros n p; cbn; by rewrite lookup_empty..].
    apply (calls_reachable id [CallSetDemandHandler (TTL opts)] (NewDelivery id)); [constructor|by apply Forall_singleton|].
    unfold headroom. cbn. unfold u64_modulus. lia.
  - destruct Hstep as [a t s' ns Ha Hstep Hns Hroom|da a t s' D' Hc Hstep Hdo|da D' Hc Hdo].
    + by eapply coherent_section.
    + destruct Hco as [Hs HD Heq Hcl Ht Hh].
      destruct (client_effect da a t s s' D D' Hc Hstep Hdo Heq) as (ns & Hns & Hhist & Hstore & Hclosed).
      destruct (Hclosed Hcl) as [Hcl' Hcn]. destruct (coherent_history ns s s' D D') as [? ?]; try done.
      split; try done; [by eapply sys_next|by eapply delivery_next].
    + destruct Hco as [Hs HD Heq Hcl Ht Hh]. destruct (quiet_store da D D' Hc Hdo) as [Hst Hhist].
      split; try done; [by eapply delivery_next|by rewrite Hst|by intros n p; rewrite Hhist; apply Ht|by intros n p; rewrite Hhist; apply Hh].
Qed.

(** C11: the observer publishes to the streams through what its sections hand to
    [deliver].  In every state of the two together each is in a state it can reach
    on its own, with the same store; whatever the observer's goroutines do next is
    a sequence of calls that keep the store's watchers, and the notifications they
    hand over are exactly those of these calls, in their order.  All a stream has
    sent are messages of publications that were handed over for its Cluster, in
    commit order, each of which routes nowhere or was valid at the clock reading
    before it was sent; and when the stream waits with nothing outstanding, it has
    last sent the observer's record of its Cluster, or the tombstone of one that
    the observer has removed. *)
Theorem observer_feeds_streams id s D :
  whole_reachable opts id s D →
  sys_reachable opts s ∧ delivery_reachable id D ∧ world_store (dl_world D) = obs_store (sys_observer s)
  ∧ (∀ a t s', is_section a = true → sys_step opts a t s s' →
       ∃ ns calls, sys_sent s' = sys_sent s ++ ns ∧ Forall sound_call calls
         ∧ obs_store (sys_observer s') = store_runs calls (obs_store (sys_observer s))
         ∧ posted ns = calls_notes calls (obs_store (sys_observer s)))
  ∧ (∀ w st x, dl_streams D !! w = Some st → world_watchers (dl_world D) !! w = Some x →
       StronglySorted newer (sent_publication <$> stream_out st)
       ∧ Forall (λ o, faithful (dl_world D) (watcher_key x) o ∧ ∃ ws, Notification (Some (sent_publication o)) ws ∈ sys_sent s)
           (stream_out st)
       ∧ (idle D w st x → shows (obs_store (sys_observer s)) (watcher_key x) (stream_out st))).
Proof.
  intros [Hs HD Heq Hcl Ht Hh]%whole_coherent. split_and!; [done..| |].
  - intros a t s' Ha (_ & _ & s1 & Hs1 & ->). destruct (action_publishes opts a s s1 Ha Hs1) as (ns & Hns & Hp).
    destruct (Hp Hcl) as (calls & ? & ? & ?). by exists ns, calls.
  - intros w st x Hw Hx. split_and!.
    + destruct (di_streams _ (delivery_reachable_inv _ _ HD) w st Hw) as (x' & _ & Hok). apply Hok.
    + eapply Forall_impl; [by eapply stream_faithful|]. intros o Ho. split; [done|]. destruct Ho as [Ho _]. by eapply Hh.
    + intros Hidle. rewrite <-Heq. by eapply idle_shows.
Qed.
End props.

(** ** A concrete process

    A Cluster appears and its notification publishes a placeholder; a client opens a
    watch and receives it. *)

Section example.
#[local] Existing Instances identity_digest plain_access plain_text plain_range plain_keys plain_service.

Lemma after_step a t s :
  sys_now s ≤ t → timely (sys_now s) t a → possible a s = true → sys_step example_options a t s (after a t s).
Proof.
  unfold possible. intros Hle Ht Hp. destruct (sys_do example_options a s) as [s1|] eqn:Hs1; [|done].
  split_and!; [done..|]. exists s1. split; [done|]. unfold after. by rewrite Hs1.
Qed.

(** The deliveries of a step, and the streams after it. *)
Definition step_sent (s s' : System) : list notification := drop (length (sys_sent s)) (sys_sent s').
Definition after_section (s s' : System) (D : delivery) : delivery :=
  with_world (commit (step_sent s s') (obs_store (sys_observer s')) (dl_world D)) D.

Definition example_start : delivery := whole_start example_options "process" 0.
Definition example_noticed : delivery :=
  after_section appeared noticed (after_section (initial example_options "process" 0) appeared example_start).

Definition example_client : list delivery_action :=
  [OpenWatch 1 db_key second second; Elsewhere (ActDeliver 0); StreamReceive 1 second; StreamSend 1 None].
Definition example_watch (n : nat) : delivery := default example_noticed (delivery_run (take n example_client) example_noticed).

Definition defined {A} (o : option A) : bool := match o with Some _ => true | None => false end.

Lemma defined_default {A} (x : A) o : defined o = true → o = Some (default x o).
Proof. by destruct o. Qed.

Lemma noticed_whole : whole_reachable example_options "process" noticed example_noticed.
Proof.
  set (s0 := initial example_options "process" 0).
  apply (whole_next _ _ appeared (after_section s0 appeared example_start)); [apply (whole_next _ _ s0 example_start)|].
  - apply whole_init. lia.
  - apply (whole_section _ _ _ (ClusterChanged (ca_cluster "db-1")) second appeared); [exact eq_refl| |vm_compute; reflexivity..].
    apply after_step; [vm_compute; discriminate|exact I|vm_compute; reflexivity].
  - apply (whole_section _ _ _ (ClusterNotice example_clock example_clock) second noticed); [reflexivity| |vm_compute; reflexivity..].
    apply after_step; [apply Z.le_refl|repeat split; apply Z.le_refl|vm_compute; reflexivity].
Qed.

Lemma watched_whole : whole_reachable example_options "process" watched (example_watch 1).
Proof.
  apply (whole_next _ _ noticed example_noticed); [exact noticed_whole|].
  apply (whole_client _ _ _ (OpenWatch 1 db_key second second) (RegisterCall db_key true 1 second second) second); [reflexivity| |].
  - apply after_step; [apply Z.le_refl|repeat split; apply Z.le_refl|vm_compute; reflexivity].
  - apply defined_default. vm_compute. reflexivity.
Qed.

(** The quiet steps of the client. *)
Lemma sent_whole : whole_reachable example_options "process" watched (example_watch 4).
Proof.
  assert (∀ n da, example_client !! n = Some da → counterpart da (example_watch n) = Some None →
    defined (delivery_run (take (S n) example_client) example_noticed) = true →
    defined (delivery_run (take n example_client) example_noticed) = true →
    whole_reachable example_options "process" watched (example_watch n) →
    whole_reachable example_options "process" watched (example_watch (S n))) as Hnext.
  { intros n da Hda Hc Hd Hd0 Hr. pose proof (defined_default example_noticed _ Hd) as E. pose proof (defined_default example_noticed _ Hd0) as E0.
    fold (example_watch n) in E0. fold (example_watch (S n)) in E. rewrite (take_S_r _ _ _ Hda) in E. unfold delivery_run in E, E0.
    rewrite foldl_snoc, E0 in E. eapply whole_next; [exact Hr|]. by eapply whole_quiet. }
  apply (Hnext 3%nat (StreamSend 1 None)); [done|done|vm_compute; reflexivity..|].
  apply (Hnext 2%nat (StreamReceive 1 second)); [done|done|vm_compute; reflexivity..|].
  apply (Hnext 1%nat (Elsewhere (ActDeliver 0))); [done|done|vm_compute; reflexivity..|]. exact watched_whole.
Qed.

Definition watch_stream : stream := default (Stream Selecting 0 []) (dl_streams (example_watch 4) !! 1%positive).
Definition watch_consumer : watcher :=
  default (new_watcher db_key true 0) (world_watchers (dl_world (example_watch 4)) !! 1%positive).

Lemma observer_feeds_streams_witness :
  length (stream_out watch_stream) = 1%nat ∧ shows (obs_store (sys_observer watched)) db_key (stream_out watch_stream).
Proof.
  split; [vm_compute; reflexivity|].
  destruct (observer_feeds_streams example_options "process" watched (example_watch 4) sent_whole) as (_ & _ & _ & _ & Hstream).
  assert (watcher_key watch_consumer = db_key) as Hk by (vm_compute; reflexivity). rewrite <-Hk. apply (Hstream 1%positive).
  - apply lookup_default_eq. vm_compute. reflexivity.
  - apply lookup_default_eq. vm_compute. reflexivity.
  - split; [vm_compute; reflexivity|]. split; [vm_compute; reflexivity|]. apply backlog_settled. vm_compute. reflexivity.
Defined.
End example.
