(* ===== verification/Status.v ===== *)
(** * Instance status (src/internal/observer/status.go)

    The clients that read the status of an instance, their cache under
    [statusClientMu], and the reading and checking of one status document.  A
    definition in [State statusClients] is one critical section of that mutex;
    [sc_closed] lists the transports whose [CloseIdleConnections] was called.
    The network is an argument: what [client.Do] returns for a client and address. *)

From S2P Require Import Prelude Api Mailbox Store Queue Config Kube Topology Evidence Settings.
From S2P Require Import Observer Events Connection.

(** SHA-256, certificate pools and the JSON decoder.  [Decode_status] is the first
    [Decode]: the value as far as it was filled and, without an error, the input
    that is left; [Decode_eof] tells whether a further [Decode] returns [io.EOF]. *)
Class StatusLibrary := {
  Sum256 : string → string;
  AppendCertsFromPEM : string → bool;
  Decode_status : string → instanceStatus * option string;
  Decode_eof : string → bool;
}.

(** ** Reading one document *)

(** [io.LimitReader]: at most the first [n] bytes. *)
Definition LimitReader (n : Z) (s : string) : string :=
  if Z.of_nat (String.length s) <=? n then s else String.substring 0 (Z.to_nat n) s.

Definition status_limit : Z := Z.shiftl 4 20.

(** What [client.Do] returns. A body is the bytes it yields and whether it then
    fails instead of ending. *)
Inductive http_response :=
  | DoFailed
  | Response (StatusCode : Z) (Body : string) (BodyFails : bool).

(** [io.ReadAll (io.LimitReader body n)]: with [n] bytes read the end of the body is
    not looked at. *)
Definition ReadAll_limited (n : Z) (body : string) (fails : bool) : option string :=
  if fails && (Z.of_nat (String.length body) <? n) then None else Some (LimitReader n body).

Definition status_failed (status : instanceStatus) (message : string) : statusResult :=
  {| result_status := status; result_err := Some (ErrProbe message) |}.

Section status.
Context `{TextLibrary, MapRange, Unstructured, RoutingDigest, KeyRange, StatusLibrary}.
Context (opts : Options).

Definition decodeStatus (reader : string) : statusResult :=
  match Decode_status (LimitReader status_limit reader) with
  | (result, None) => status_failed result "decode instance status"
  | (result, Some rest) =>
      if negb (Decode_eof rest) then status_failed result "instance status contains trailing data"
      else if bool_decide (IsPrimary result = None) || bool_decide (SystemID result = "") || (Timeline result <=? 0)
      then status_failed result "instance status missing identity, role or timeline"
      else {| result_status := result; result_err := None |}
  end.

Definition readStatusHTTP (response : http_response) : statusResult :=
  match response with
  | DoFailed => status_failed no_status "instance status request"
  | Response code body fails =>
      if negb (code =? 200) then status_failed no_status "instance status HTTP"
      else
        match ReadAll_limited (status_limit + 1) body fails with
        | None => status_failed no_status "read body"
        | Some data =>
            if status_limit <? Z.of_nat (String.length data)
            then status_failed no_status "instance status exceeds size limit"
            else decodeStatus data
        end
  end.

(** ** Clients *)

(** The transport and its TLS configuration; [RootCAs] is the PEM text the pool was
    built from and no proxy is used. *)
Record Transport := {
  transport_address : positive;
  RootCAs : string;
  TLSServerName : string;
  MinVersion : Z;
  DialTimeout : duration;
  TLSHandshakeTimeout : duration;
  ResponseHeaderTimeout : duration;
  IdleConnTimeout : duration;
  MaxIdleConns : Z;
  MaxIdleConnsPerHost : Z;
}.

(** [CheckRedirect] is [ErrUseLastResponse]: no redirect is followed. *)
Record Client := { client_transport : Transport; follows_redirects : bool }.

Record statusClientEntry := {
  entry_digest : string;
  entry_client : Client;
  entry_transport : Transport;
  entry_lastUsed : time; (* Unix nanoseconds *)
}.

Definition use_entry (now : time) (e : statusClientEntry) : statusClientEntry := {|
  entry_digest := entry_digest e; entry_client := entry_client e;
  entry_transport := entry_transport e; entry_lastUsed := now;
|}.

(** A nil map reads as the empty one; [sc_next] is the next address to allocate. *)
Record statusClients := {
  sc_clients : gmap string statusClientEntry;
  sc_closed : list Transport;
  sc_next : positive;
}.

Definition VersionTLS12 : Z := 771.

Definition new_transport (address : positive) (roots serverName : string) : Transport := {|
  transport_address := address; RootCAs := roots; TLSServerName := serverName; MinVersion := VersionTLS12;
  DialTimeout := ProbeTimeout opts; TLSHandshakeTimeout := ProbeTimeout opts; ResponseHeaderTimeout := ProbeTimeout opts;
  IdleConnTimeout := 30 * second; MaxIdleConns := 16; MaxIdleConnsPerHost := 2;
|}.

Definition new_client (t : Transport) : Client := {| client_transport := t; follows_redirects := false |}.

(** The section under the read lock: the cached client of the same CA. *)
Definition lookup_client (digest serverName : string) (now : time) : State statusClients (option Client) := λ s,
  match sc_clients s !! serverName with
  | Some e =>
      if bool_decide (entry_digest e = digest)
      then (Some (entry_client e),
            {| sc_clients := <[serverName := use_entry now e]> (sc_clients s); sc_closed := sc_closed s; sc_next := sc_next s |})
      else (None, s)
  | None => (None, s)
  end.

(** Building the candidate and the section under the lock.  A replaced transport is
    closed after unlocking. *)
Definition install_client (digest roots serverName : string) (now : time) : State statusClients Client := λ s,
  let transport := new_transport (sc_next s) roots serverName in
  let client := new_client transport in
  let install retired :=
    (client,
     {| sc_clients := <[serverName := {| entry_digest := digest; entry_client := client;
                                         entry_transport := transport; entry_lastUsed := now |}]> (sc_clients s);
        sc_closed := sc_closed s ++ retired; sc_next := Pos.succ (sc_next s) |}) in
  match sc_clients s !! serverName with
  | Some existing =>
      if bool_decide (entry_digest existing = digest)
      then (entry_client existing,
            {| sc_clients := <[serverName := use_entry now existing]> (sc_clients s); sc_closed := sc_closed s;
               sc_next := Pos.succ (sc_next s) |})
      else install [entry_transport existing]
  | None => install []
  end.

(** [statusClient]; [env] is what happens between the two sections, and [None] the
    error of an invalid CA. *)
Definition statusClient (connection : ConnectionParameters) (serverName : string) (now1 now2 : time)
    (env : statusClients → statusClients) : State statusClients (option Client) :=
  let digest := Sum256 (connection_ServerCAPEM connection) in
  hit ← lookup_client digest serverName now1;
  match hit with
  | Some client => mret (Some client)
  | None =>
      if negb (AppendCertsFromPEM (connection_ServerCAPEM connection)) then mret None
      else
        modify env ;;
        client ← install_client digest (connection_ServerCAPEM connection) serverName now2;
        mret (Some client)
  end.

Definition closeStatusClients : State statusClients () := λ s,
  ((), {| sc_clients := ∅; sc_closed := sc_closed s ++ ((λ x, entry_transport x.2) <$> range (sc_clients s));
          sc_next := sc_next s |}).

(** [now.Sub(lastUsed) >= time.Minute]; that [Sub] saturates makes no difference. *)
Definition idle_entry (now : time) (e : statusClientEntry) : bool := minute <=? now - entry_lastUsed e.

Definition prune_clients (now : time) : State statusClients () := λ s,
  ((), {| sc_clients := filter (λ x, idle_entry now x.2 = false) (sc_clients s);
          sc_closed := sc_closed s ++ ((λ x, entry_transport x.2) <$> filter (λ x, idle_entry now x.2 = true) (range (sc_clients s)));
          sc_next := sc_next s |}).

(** The section of [pruneConnections] under [stateMu]: drop every CA that no Cluster
    in demand uses.  [clk] is the clock reading when a Cluster's demand is asked. *)
Definition prune_cas (clk : clusterKey → time) : State Observer () :=
  o ← get_state;
  for_each (λ key,
    clusters ← demandedCAClusters clk key;
    if bool_decide (clusters = []) then modify (λ o, set_obs_cas (delete key (obs_cas o)) o) else mret ())
    (range_keys (dom (obs_cas o))).

Definition pruneConnections (now : time) (clk : clusterKey → time) : State (Observer * statusClients) () := λ s,
  ((), ((prune_cas clk s.1).2, (prune_clients now s.2).2)).

(** [do] is [client.Do] on a GET request without a body. *)
Definition readStatus (do : Client → string → http_response) (pod : Pod) (connection : ConnectionParameters)
    (serverName : string) (now1 now2 : time) (env : statusClients → statusClients) : State statusClients statusResult :=
  if negb (ParseIP (pod_PodIP pod)) then mret (status_failed no_status "instance has no valid Pod IP")
  else
    client ← statusClient connection serverName now1 now2 env;
    match client with
    | None => mret (status_failed no_status "invalid PostgreSQL server CA")
    | Some client =>
        mret (readStatusHTTP (do client (statusScheme pod +:+ "://" +:+ JoinHostPort (pod_PodIP pod) 8000 +:+ "/pg/status")))
    end.

(** ** Interleavings *)

(** One critical section, as other goroutines run them. *)
Inductive client_action :=
  | Lookup (ca serverName : string) (now : time)
  | Install (ca serverName : string) (now : time)
  | PruneClients (now : time)
  | CloseClients.

(** The client a section hands out. *)
Definition client_do (a : client_action) : State statusClients (option Client) :=
  match a with
  | Lookup ca serverName now => lookup_client (Sum256 ca) serverName now
  | Install ca serverName now =>
      if AppendCertsFromPEM ca then client ← install_client (Sum256 ca) ca serverName now; mret (Some client) else mret None
  | PruneClients now => prune_clients now ;; mret None
  | CloseClients => closeStatusClients ;; mret None
  end.

(** The clients handed out, each with the action. *)
Fixpoint clients_run (l : list client_action) : State statusClients (list (client_action * Client)) :=
  match l with
  | [] => mret []
  | a :: l =>
      client ← client_do a;
      rest ← clients_run l;
      mret (match client with Some c => (a, c) :: rest | None => rest end)
  end.

Definition no_clients : statusClients := {| sc_clients := ∅; sc_closed := []; sc_next := 1 |}.
End status.
