(* ===== verification/StatusProps.v ===== *)
(** * Correctness of instance status

    A status without an error was read, through a client that verifies the right
    server against the right CA, from one complete document; every transport ever
    handed out is cached or closed; and the periodic sweep keeps exactly what is
    in use. *)

From S2P Require Import Prelude Api Mailbox Store StoreFacts StoreProps Queue QueueFacts Config ConfigProps Kube Topology TopologyProps Evidence Settings.
From S2P Require Import Observer ObserverFacts Events EventsFacts EventsProps CollectionProps Connection ConnectionProps Status.

(** ** Limited readers *)

Lemma length_substring n s : String.length (String.substring 0 n s) = Nat.min n (String.length s).
Proof. revert n. induction s as [|a s IH]; intros [|n]; cbn; [done..|]. by rewrite IH. Qed.

Lemma LimitReader_length n s : 0 ≤ n → Z.of_nat (String.length (LimitReader n s)) = Z.min n (Z.of_nat (String.length s)).
Proof.
  intros Hn. unfold LimitReader. destruct (Z.leb_spec (Z.of_nat (String.length s)) n); [lia|].
  rewrite length_substring. lia.
Qed.

Lemma LimitReader_id n s : Z.of_nat (String.length s) ≤ n → LimitReader n s = s.
Proof. intros Hn. unfold LimitReader. by rewrite (proj2 (Z.leb_le _ _) Hn). Qed.

Lemma list_filter_ext {A} (f g : A → bool) (l : list A) :
  (∀ x, x ∈ l → f x = g x) → filter (λ x, f x = true) l = filter (λ x, g x = true) l.
Proof.
  induction l as [|x l IH]; intros Hfg; [done|]. rewrite !filter_cons, IH by (intros y Hy; apply Hfg; by right).
  rewrite (Hfg x) by by left. by destruct (g x).
Qed.

Lemma existsb_congr {A} (f g : A → bool) (l : list A) : (∀ x, x ∈ l → f x = g x) → existsb f l = existsb g l.
Proof.
  induction l as [|x l IH]; intros Hfg; [done|]. cbn. rewrite (Hfg x), IH by (set_solver+Hfg). done.
Qed.

Section claims.
Context `{TextLibrary, MapRange, Unstructured, RoutingDigest, KeyRange, StatusLibrary}.
Context (opts : Options).

(** A response that is one complete and acceptable document for [st]. *)
Definition status_document (st : instanceStatus) (response : http_response) : Prop :=
  ∃ body rest, response = Response 200 body false
    ∧ Z.of_nat (String.length body) ≤ status_limit
    ∧ Decode_status body = (st, Some rest) ∧ Decode_eof rest = true
    ∧ is_Some (IsPrimary st) ∧ SystemID st ≠ "" ∧ 0 < Timeline st.

Lemma decodeStatus_exact data st :
  Z.of_nat (String.length data) ≤ status_limit →
  decodeStatus data = {| result_status := st; result_err := None |} ↔
  ∃ rest, Decode_status data = (st, Some rest) ∧ Decode_eof rest = true
    ∧ is_Some (IsPrimary st) ∧ SystemID st ≠ "" ∧ 0 < Timeline st.
Proof.
  intros Hlen. unfold decodeStatus, status_failed. rewrite LimitReader_id by done.
  destruct (Decode_status data) as [result [rest|]]; [|by split; [|intros (? & [=] & _)]].
  destruct (Decode_eof rest) eqn:Heof; cbn [negb]; [|split; [done|]; intros (? & [= <- <-] & ? & _); congruence].
  destruct (IsPrimary result) as [p|] eqn:Hp; cbn [bool_decide orb].
  2: { rewrite bool_decide_true by done. cbn. split; [done|]. intros (? & [= <- <-] & _ & [? ?] & _). congruence. }
  rewrite bool_decide_false by done. cbn [orb].
  destruct (bool_decide (SystemID result = "")) eqn:Hs; cbn [orb].
  { apply bool_decide_eq_true in Hs. split; [done|]. intros (? & [= <- <-] & _ & _ & ? & _). done. }
  apply bool_decide_eq_false in Hs. destruct (Z.leb_spec (Timeline result) 0) as [Ht|Ht].
  - split; [done|]. intros (? & [= <- <-] & _ & _ & _ & ?). lia.
  - split; [intros [= <-]|intros (? & [= <- <-] & _); done]. exists rest. by rewrite Hp.
Qed.

Lemma readStatusHTTP_exact response st :
  readStatusHTTP response = {| result_status := st; result_err := None |} ↔ status_document st response.
Proof.
  assert (0 ≤ status_limit) as Hpos by done.
  unfold readStatusHTTP, status_document. destruct response as [|code body fails]; [by split; [|intros (? & ? & [=] & _)]|].
  destruct (Z.eqb_spec code 200) as [->|Hcode]; cbn [negb]; [|by split; [|intros (? & ? & [=] & _)]].
  unfold ReadAll_limited. destruct (fails && _) eqn:Hf.
  { apply andb_true_iff in Hf as [-> _]. by split; [|intros (? & ? & [=] & _)]. }
  pose proof (LimitReader_length (status_limit + 1) body ltac:(lia)) as Hl.
  destruct (Z.ltb_spec status_limit (Z.of_nat (String.length (LimitReader (status_limit + 1) body)))) as [Hbig|Hsmall].
  { split; [done|]. intros (? & ? & [= <- ->] & ? & _). lia. }
  rewrite LimitReader_id by lia. rewrite decodeStatus_exact by lia. destruct fails.
  - cbn in Hf. apply Z.ltb_ge in Hf. lia.
  - split; [intros (rest & ?); exists body, rest; split_and!; naive_solver lia|].
    intros (? & rest & [= <-] & _ & ?). by exists rest.
Qed.

(** ** Clients *)

(** A client that verifies [serverName] against the roots of a CA with the digest of
    [ca], waits at most the probe timeout for each phase and follows no redirect. *)
Definition trusted (ca serverName : string) (c : Client) : Prop :=
  ∃ address roots, c = new_client (new_transport opts address roots serverName)
    ∧ Sum256 roots = Sum256 ca ∧ AppendCertsFromPEM roots = true.

Lemma trusted_digest ca ca' serverName c : Sum256 ca' = Sum256 ca → trusted ca serverName c → trusted ca' serverName c.
Proof. intros Hd (a & roots & Hc & Hr & Ha). exists a, roots. by rewrite Hd. Qed.

Definition entry_ok (serverName : string) (e : statusClientEntry) : Prop :=
  entry_client e = new_client (entry_transport e)
  ∧ ∀ ca, Sum256 ca = entry_digest e → trusted ca serverName (entry_client e).

Definition clients_ok (s : statusClients) : Prop := map_Forall entry_ok (sc_clients s).

Lemma lookup_client_ok ca serverName now s :
  clients_ok s →
  clients_ok (lookup_client (Sum256 ca) serverName now s).2
  ∧ ∀ c, (lookup_client (Sum256 ca) serverName now s).1 = Some c → trusted ca serverName c.
Proof.
  intros Hok. unfold lookup_client. destruct (sc_clients s !! serverName) as [e|] eqn:He; [|done].
  pose proof (Hok _ _ He) as Hec. case_bool_decide as Hd; [|done]. cbn. split.
  - by apply map_Forall_insert_2.
  - intros c [= <-]. by apply Hec.
Qed.

Lemma install_client_ok ca serverName now s :
  AppendCertsFromPEM ca = true → clients_ok s →
  clients_ok (install_client opts (Sum256 ca) ca serverName now s).2
  ∧ trusted ca serverName (install_client opts (Sum256 ca) ca serverName now s).1.
Proof.
  intros Hca Hok. unfold install_client.
  assert (trusted ca serverName (new_client (new_transport opts (sc_next s) ca serverName))) as Hnew by by eexists _, _.
  destruct (sc_clients s !! serverName) as [e|] eqn:He; [pose proof (Hok _ _ He) as Hec; case_bool_decide|]; cbn; split; try done.
  - by apply map_Forall_insert_2.
  - by apply Hec.
  - apply map_Forall_insert_2; [|done]. split; [done|]. intros ca' Hd. by apply (trusted_digest ca).
  - apply map_Forall_insert_2; [|done]. split; [done|]. intros ca' Hd. by apply (trusted_digest ca).
Qed.

Lemma client_do_ok a s : clients_ok s → clients_ok (client_do opts a s).2.
Proof.
  intros Hok. destruct a as [ca n now|ca n now|now|]; cbn [client_do].
  - by apply lookup_client_ok.
  - destruct (AppendCertsFromPEM ca) eqn:Hca; [|done]. rewrite State_bind_run. by apply install_client_ok.
  - intros k e Hke. apply map_lookup_filter_Some in Hke as [Hke _]. by apply Hok.
  - apply map_Forall_empty.
Qed.

Lemma clients_run_ok l s : clients_ok s → clients_ok (clients_run opts l s).2.
Proof.
  revert s. induction l as [|a l IH]; intros s Hs; [done|]. cbn [clients_run]. rewrite !State_bind_run. apply IH, client_do_ok, Hs.
Qed.

Lemma statusClient_ok connection serverName now1 now2 l s :
  clients_ok s →
  match (statusClient opts connection serverName now1 now2 (λ s, (clients_run opts l s).2) s).1 with
  | Some c => trusted (connection_ServerCAPEM connection) serverName c
  | None => AppendCertsFromPEM (connection_ServerCAPEM connection) = false
  end.
Proof.
  intros Hok. unfold statusClient. rewrite State_bind_run.
  destruct (lookup_client_ok (connection_ServerCAPEM connection) serverName now1 s Hok) as [Hl Hc].
  destruct (lookup_client _ _ _ s) as [[c|] s1]; cbn [fst snd] in *; [by apply Hc|].
  destruct (AppendCertsFromPEM _) eqn:Hca; cbn [negb]; [|done]. rewrite !State_bind_run. cbn [modify fst snd mret State_ret].
  by apply install_client_ok, clients_run_ok.
Qed.

Lemma no_clients_ok : clients_ok no_clients.
Proof. apply map_Forall_empty. Qed.

(** C14: whatever other goroutines do with the clients before and meanwhile, a status
    without an error comes from an instance with a valid IP address, was read
    through a client that verifies the server name against a CA with the digest of
    the connection's, and is the whole body of a response with status 200: one
    document of at most 4 MiB with a role, a system identifier and a timeline. *)
Theorem status_verified do pod connection serverName now1 now2 before meanwhile st :
  (readStatus opts do pod connection serverName now1 now2 (λ s, (clients_run opts meanwhile s).2)
     (clients_run opts before no_clients).2).1 = {| result_status := st; result_err := None |} →
  ParseIP (pod_PodIP pod) = true ∧
  ∃ c, trusted (connection_ServerCAPEM connection) serverName c
    ∧ status_document st (do c (statusScheme pod +:+ "://" +:+ JoinHostPort (pod_PodIP pod) 8000 +:+ "/pg/status")).
Proof.
  unfold readStatus. destruct (ParseIP (pod_PodIP pod)); cbn [negb]; [|done]. rewrite State_bind_run.
  pose proof (statusClient_ok connection serverName now1 now2 meanwhile _ (clients_run_ok before _ no_clients_ok)) as Hc.
  destruct (statusClient _ _ _ _ _ _ _) as [[c|] s1]; cbn [fst snd] in *; [|done].
  intros Hr%readStatusHTTP_exact. split; [done|]. by exists c.
Qed.

(** ** Transports *)

Definition live (m : gmap string statusClientEntry) : list Transport := (λ x, entry_transport x.2) <$> map_to_list m.

(** Every transport that was installed: cached or closed. *)
Definition transports (s : statusClients) : list Transport := live (sc_clients s) ++ sc_closed s.

Lemma live_delete k e m : m !! k = Some e → live m ≡ₚ entry_transport e :: live (delete k m).
Proof. intros Hk. unfold live. by rewrite <-(map_to_list_delete m k e Hk). Qed.

Lemma live_insert k e m : live (<[k := e]> m) ≡ₚ entry_transport e :: live (delete k m).
Proof. rewrite (live_delete k e) by by rewrite lookup_insert_eq. by rewrite delete_insert_eq. Qed.

Lemma live_range m : (λ x : string * statusClientEntry, entry_transport x.2) <$> range m ≡ₚ live m.
Proof. unfold live. by rewrite range_perm. Qed.

Lemma live_filter now m :
  live (filter (λ x, idle_entry now x.2 = false) m)
    ++ ((λ x : string * statusClientEntry, entry_transport x.2) <$> filter (λ x, idle_entry now x.2 = true) (range m)) ≡ₚ live m.
Proof.
  unfold live. rewrite range_perm, <-fmap_app. apply fmap_Permutation.
  rewrite map_filter_alt, map_to_list_to_map.
  2: { apply (sublist_NoDup _ (map_to_list m).*1); [apply NoDup_fst_map_to_list|]. apply fmap_sublist, sublist_filter. }
  rewrite (list_filter_iff (λ x, idle_entry now x.2 = false) (λ x, ¬ idle_entry now x.2 = true)).
  - rewrite Permutation_app_comm. apply filter_app_complement.
  - intros x. by rewrite not_true_iff_false.
Qed.

(** A section keeps the transports, or adds the one it hands out. *)
Definition grows (s s' : statusClients) (handed : option Client) : Prop :=
  transports s' ≡ₚ transports s
  ∨ ∃ t, handed = Some (new_client t) ∧ transport_address t = sc_next s ∧ sc_next s' = Pos.succ (sc_next s)
      ∧ transports s' ≡ₚ t :: transports s.

Lemma use_entry_transports k now e s s' :
  sc_clients s !! k = Some e → sc_clients s' = <[k := use_entry now e]> (sc_clients s) → sc_closed s' = sc_closed s →
  transports s' ≡ₚ transports s.
Proof. intros Hk Hc Hcl. unfold transports. by rewrite Hc, Hcl, live_insert, (live_delete k e (sc_clients s)) by done. Qed.

Lemma install_grows ca n now s : grows s (install_client opts (Sum256 ca) ca n now s).2 (Some (install_client opts (Sum256 ca) ca n now s).1).
Proof.
  unfold install_client. destruct (sc_clients s !! n) as [e|] eqn:He; [case_bool_decide|].
  - left. by apply (use_entry_transports n now e).
  - right. eexists. do 3 (split; [reflexivity|]). unfold transports. cbn [snd sc_clients sc_closed].
    rewrite live_insert, (live_delete n e (sc_clients s)) by done. cbn [entry_transport app]. apply perm_skip.
    rewrite app_assoc, Permutation_app_comm. done.
  - right. eexists. do 3 (split; [reflexivity|]). unfold transports. cbn [snd sc_clients sc_closed].
    by rewrite live_insert, delete_id, app_nil_r by done.
Qed.

Lemma client_do_grows a s : grows s (client_do opts a s).2 (client_do opts a s).1.
Proof.
  destruct a as [ca n now|ca n now|now|]; cbn [client_do].
  - left. unfold lookup_client. destruct (sc_clients s !! n) as [e|] eqn:He; [|done].
    case_bool_decide; [|done]. by apply (use_entry_transports n now e).
  - destruct (AppendCertsFromPEM ca); [|by left]. rewrite State_bind_run. apply install_grows.
  - left. rewrite State_bind_run. unfold transports. cbn [prune_clients mret State_ret fst snd sc_clients sc_closed].
    by rewrite (Permutation_app_comm (sc_closed s)), app_assoc, live_filter.
  - left. rewrite State_bind_run. unfold transports. cbn [closeStatusClients mret State_ret fst snd sc_clients sc_closed].
    rewrite live_range. unfold live at 1. rewrite map_to_list_empty. apply (Permutation_app_comm (sc_closed s)).
Qed.

Lemma client_do_next a s : (sc_next s ≤ sc_next (client_do opts a s).2)%positive.
Proof.
  destruct a as [ca n now|ca n now|now|]; cbn [client_do]; [|destruct (AppendCertsFromPEM ca); [|done]; rewrite State_bind_run|done..];
    cbn [mret State_ret fst snd]; [unfold lookup_client|unfold install_client]; repeat case_match; cbn; lia.
Qed.

(** Distinct transports, all allocated. *)
Definition transports_ok (s : statusClients) : Prop :=
  NoDup (transport_address <$> transports s) ∧ Forall (λ t, (transport_address t < sc_next s)%positive) (transports s).

Lemma client_do_transports a s : transports_ok s → transports_ok (client_do opts a s).2.
Proof.
  intros [Hnd Hlt]. pose proof (client_do_next a s) as Hn. destruct (client_do_grows a s) as [Hp|(t & _ & Ht & Hs & Hp)];
    unfold transports_ok; rewrite Hp.
  - split; [done|]. eapply Forall_impl; [exact Hlt|]. cbn. lia.
  - cbn. rewrite NoDup_cons, Forall_cons, Ht, Hs. split_and!; [|done|lia|].
    + intros (t' & Ht' & Hin)%list_elem_of_fmap. rewrite Forall_forall in Hlt. apply Hlt in Hin. lia.
    + eapply Forall_impl; [exact Hlt|]. cbn. lia.
Qed.

Lemma client_do_handed a s c :
  clients_ok s → (client_do opts a s).1 = Some c → client_transport c ∈ transports (client_do opts a s).2.
Proof.
  intros Hok. assert (∀ k e s', sc_clients s !! k = Some e → entry_client e = c → transports s' ≡ₚ transports s →
    client_transport c ∈ transports s') as Hold.
  { intros k e s' Hk Hc ->. unfold transports. rewrite (live_delete k e (sc_clients s)) by done.
    destruct (Hok _ _ Hk) as [He _]. rewrite <-Hc, He. by left. }
  pose proof (client_do_grows a s) as Hg. revert Hg.
  destruct a as [ca n now|ca n now|now|]; cbn [client_do]; [| |done..].
  - unfold lookup_client. destruct (sc_clients s !! n) as [e|] eqn:He; [|done].
    case_bool_decide; [|done]. intros _ [= Hc]. eapply (Hold n e); [done..|]. by apply (use_entry_transports n now e).
  - destruct (AppendCertsFromPEM ca); [|done]. rewrite State_bind_run. cbn [mret State_ret fst snd].
    intros [Hp|(t & Hh & _ & _ & Hp)] [= Hc].
    + revert Hp Hc. unfold install_client. destruct (sc_clients s !! n) as [e|] eqn:He; [case_bool_decide|]; cbn [fst snd].
      * intros Hp Hc. by apply (Hold n e).
      * intros Hp Hc. rewrite <-Hc. unfold transports. cbn [sc_clients]. rewrite live_insert. by left.
      * intros Hp Hc. rewrite <-Hc. unfold transports. cbn [sc_clients]. rewrite live_insert. by left.
    + rewrite Hp. injection Hh as Hh. rewrite Hh in Hc. rewrite <-Hc. by left.
Qed.

Lemma clients_run_transports l s : transports_ok s → transports_ok (clients_run opts l s).2.
Proof.
  revert s. induction l as [|a l IH]; intros s Hs; [done|]. cbn [clients_run]. rewrite !State_bind_run. apply IH, client_do_transports, Hs.
Qed.

Lemma clients_run_keeps l s t : t ∈ transports s → t ∈ transports (clients_run opts l s).2.
Proof.
  revert s. induction l as [|a l IH]; intros s Ht; [done|]. cbn [clients_run]. rewrite !State_bind_run. apply IH.
  destruct (client_do_grows a s) as [Hp|(t' & _ & _ & _ & Hp)]; rewrite Hp; [done|by right].
Qed.

Lemma clients_run_handed l s a c :
  clients_ok s → (a, c) ∈ (clients_run opts l s).1 → client_transport c ∈ transports (clients_run opts l s).2.
Proof.
  revert s. induction l as [|b l IH]; intros s Hok; [by intros ?%not_elem_of_nil|]. cbn [clients_run]. rewrite !State_bind_run.
  pose proof (client_do_ok b s Hok) as Hok1. pose proof (λ c, client_do_handed b s c Hok) as Hh.
  destruct (client_do opts b s) as [[c'|] s1]; cbn [fst snd mret State_ret] in *; [|by apply IH].
  intros [[= -> ->]|Hin]%elem_of_cons; [|by apply IH]. by apply clients_run_keeps, Hh.
Qed.

(** In every interleaving of the sections that look up, install, sweep and close
    the clients, no transport is closed twice or closed while it is cached, and a
    transport that was ever handed out is cached or closed; when the observer
    stops, all of them are closed. *)
Theorem transports_accounted l :
  let m := clients_run opts l no_clients in
  NoDup (sc_closed m.2)
  ∧ (∀ n e, sc_clients m.2 !! n = Some e → entry_transport e ∉ sc_closed m.2)
  ∧ ∀ a c, (a, c) ∈ m.1 →
      ((∃ n e, sc_clients m.2 !! n = Some e ∧ entry_transport e = client_transport c) ∨ client_transport c ∈ sc_closed m.2)
      ∧ client_transport c ∈ sc_closed (closeStatusClients m.2).2.
Proof.
  cbv zeta. assert (transports_ok no_clients) as Hinit by by split; [apply NoDup_nil_2|].
  destruct (clients_run_transports l no_clients Hinit) as [Hnd _]. pose proof (λ a c, clients_run_handed l no_clients a c no_clients_ok) as Hh.
  set (s := (clients_run opts l no_clients).2) in *. apply NoDup_fmap_1 in Hnd.
  apply NoDup_app in Hnd as (_ & Hdis & Hclosed). split; [done|]. split.
  - intros n e He. apply Hdis, list_elem_of_fmap. exists (n, e). split; [done|]. by apply elem_of_map_to_list.
  - intros a c Hin. apply Hh in Hin. split.
    + apply elem_of_app in Hin as [Hin|Hin]; [left|by right].
      apply list_elem_of_fmap in Hin as ([n e] & Ht & He%elem_of_map_to_list). by exists n, e.
    + cbn [closeStatusClients snd sc_closed]. rewrite live_range, elem_of_app. apply elem_of_app in Hin. tauto.
Qed.

(** ** The sweep *)

(** Whether the Cluster is in demand when asked. *)
Definition in_demand (clk : clusterKey → time) (s : Store) (c : object) : bool :=
  (hasDemand (cluster_key c) (clk (cluster_key c)) s).1.

Definition demand_same (k : clusterKey) (o o' : Observer) : Prop :=
  watchers_of (obs_store o') k = watchers_of (obs_store o) k
  ∧ unaryDemand (obs_store o') !! k = unaryDemand (obs_store o) !! k.

Lemma in_demand_same clk c o o' :
  demand_same (cluster_key c) o o' → in_demand clk (obs_store o') c = in_demand clk (obs_store o) c.
Proof. intros [Hw Hu]. unfold in_demand. by rewrite !hasDemand_value, Hw, Hu. Qed.

Lemma asked_same key now o k : k ≠ key → demand_same k o (on_store (HasDemand key now) o).2.
Proof.
  intros Hk. unfold on_store, HasDemand. pose proof (hasDemand_state key now (obs_store o)) as Hs.
  destruct (hasDemand key now (obs_store o)) as [d s]. cbn [fst snd] in *. subst s. destruct (Before _ _); [done|].
  split; [done|]. cbn. by rewrite lookup_delete_ne.
Qed.

Lemma demanded_run clk l o :
  NoDup (cluster_key <$> l) →
  (demanded clk l o).1 = filter (λ c, in_demand clk (obs_store o) c = true) l
  ∧ ∀ k, k ∉ cluster_key <$> l → demand_same k o (demanded clk l o).2.
Proof.
  revert o. induction l as [|c l IH]; intros o; [done|]. rewrite fmap_cons, NoDup_cons. intros [Hc Hnd].
  cbn [demanded]. rewrite !State_bind_run. cbn [mret State_ret fst snd].
  pose proof (asked_same (cluster_key c) (clk (cluster_key c)) o) as Hs. set (o1 := (on_store _ o).2) in *.
  destruct (IH o1 Hnd) as [Hl Hk]. split.
  - rewrite Hl, filter_cons. assert ((on_store (HasDemand (cluster_key c) (clk (cluster_key c))) o).1 = in_demand clk (obs_store o) c) as ->.
    { unfold on_store, in_demand, HasDemand. by destruct (hasDemand _ _ _). }
    assert (filter (λ c, in_demand clk (obs_store o1) c = true) l = filter (λ c, in_demand clk (obs_store o) c = true) l) as ->.
    { apply list_filter_ext. intros c' Hin. rewrite (in_demand_same clk c' o); [done|]. apply Hs. intros Heq. apply Hc.
      rewrite <-Heq. by apply list_elem_of_fmap_2. }
    by destruct (in_demand clk (obs_store o) c).
  - intros k [Hne Hnin]%not_elem_of_cons. destruct (Hs k Hne), (Hk k Hnin). split; congruence.
Qed.

(** One CA of the sweep. *)
Definition prune_ca (clk : clusterKey → time) (key : clusterKey) : State Observer () :=
  clusters ← demandedCAClusters clk key;
  if bool_decide (clusters = []) then modify (λ o, set_obs_cas (delete key (obs_cas o)) o) else mret ().

Definition used (clk : clusterKey → time) (key : clusterKey) (o : Observer) : bool :=
  existsb (in_demand clk (obs_store o)) (clustersUsingCA key o).

Lemma filter_nil_existsb {A} (f : A → bool) (l : list A) : bool_decide (filter (λ x, f x = true) l = []) = negb (existsb f l).
Proof.
  induction l as [|x l IH]; [done|]. rewrite filter_cons. cbn. by destruct (f x).
Qed.

Lemma prune_ca_run clk key o :
  clusters_keyed o →
  let o' := (prune_ca clk key o).2 in
  obs_clusters o' = obs_clusters o
  ∧ obs_cas o' = (if used clk key o then obs_cas o else delete key (obs_cas o))
  ∧ ∀ k, k ∉ cluster_key <$> clustersUsingCA key o → demand_same k o o'.
Proof.
  intros Hk. cbv zeta. unfold prune_ca. rewrite State_bind_run.
  pose proof (demandedCAClusters_steady clk key o) as [[Hcl _ _ _ Hcs] _].
  destruct (demanded_run clk (clustersUsingCA key o) o (clustersUsingCA_keys key o Hk)) as [Hl Hd].
  unfold demandedCAClusters in *. rewrite State_bind_run in *. cbn [get_state fst snd] in *. rewrite Hl, filter_nil_existsb.
  unfold used. destruct (existsb _ _); cbn [negb mret State_ret modify fst snd]; (split_and!; [done| |exact Hd]); [done|].
  cbn. by rewrite Hcs.
Qed.

Lemma used_same clk key key' o o' :
  clusters_keyed o → key' ≠ key → obs_clusters o' = obs_clusters o →
  (∀ k, k ∉ cluster_key <$> clustersUsingCA key o → demand_same k o o') → used clk key' o' = used clk key' o.
Proof.
  intros Hk Hne Hcl Hd. unfold used. assert (clustersUsingCA key' o' = clustersUsingCA key' o) as -> by (unfold clustersUsingCA; by rewrite Hcl).
  apply existsb_congr. intros c Hc. apply clustersUsingCA_spec in Hc as [Hc Hi]; [|done].
  apply in_demand_same, Hd. intros (c' & Heq & [Hc' Hi']%clustersUsingCA_spec)%list_elem_of_fmap; [|done]. rewrite <-Heq in Hc'. congruence.
Qed.

Lemma prune_loop clk l o :
  clusters_keyed o → NoDup l →
  ∀ key, obs_cas (for_each (prune_ca clk) l o).2 !! key =
    if bool_decide (key ∈ l) && negb (used clk key o) then None else obs_cas o !! key.
Proof.
  revert o. induction l as [|x l IH]; intros o Hk Hnd key; [by rewrite bool_decide_false by apply not_elem_of_nil|].
  apply NoDup_cons in Hnd as [Hx Hnd]. cbn [for_each]. rewrite State_bind_run.
  destruct (prune_ca_run clk x o Hk) as (Hcl & Hcas & Hd). set (o1 := (prune_ca clk x o).2) in *.
  assert (clusters_keyed o1) as Hk1 by (intros k c; rewrite Hcl; apply Hk). rewrite (IH o1 Hk1 Hnd), Hcas.
  destruct (decide (key = x)) as [->|Hne].
  - rewrite bool_decide_false, bool_decide_true by (done || by left). cbn. destruct (used clk x o); [done|]. apply lookup_delete_eq.
  - rewrite (used_same clk x key o o1) by done. rewrite (bool_decide_ext (key ∈ x :: l) (key ∈ l)) by set_solver.
    destruct (used clk x o); [done|]. by rewrite lookup_delete_ne.
Qed.

(** The sweep keeps exactly the CAs that a Cluster in demand uses and the clients
    that were used within the last minute, and closes the transports of the
    others. *)
Theorem sweep_exact now clk o s :
  clusters_keyed o →
  let s' := (pruneConnections now clk (o, s)).2 in
  (∀ key, obs_cas s'.1 !! key =
     if existsb (in_demand clk (obs_store o)) (clustersUsingCA key o) then obs_cas o !! key else None)
  ∧ (∀ n e, sc_clients s'.2 !! n = Some e ↔ sc_clients s !! n = Some e ∧ now - entry_lastUsed e < minute)
  ∧ (∀ t, t ∈ sc_closed s'.2 ↔
       t ∈ sc_closed s ∨ ∃ n e, sc_clients s !! n = Some e ∧ minute ≤ now - entry_lastUsed e ∧ t = entry_transport e).
Proof.
  intros Hk. cbn [pruneConnections snd fst prune_clients sc_clients sc_closed]. split_and!.
  - intros key. unfold prune_cas. rewrite State_bind_run. cbn [get_state fst snd].
    assert (NoDup (range_keys (dom (obs_cas o)))) as Hnd by (rewrite range_keys_perm; apply NoDup_elements).
    fold (prune_ca clk). rewrite (prune_loop clk _ o Hk Hnd key). unfold used.
    rewrite (bool_decide_ext (key ∈ range_keys (dom (obs_cas o))) (key ∈ dom (obs_cas o))) by by rewrite range_keys_perm, elem_of_elements.
    destruct (existsb _ _); cbn [negb]; [by rewrite andb_false_r|]. rewrite andb_true_r.
    case_bool_decide as Hin; [done|]. by apply not_elem_of_dom.
  - intros n e. rewrite map_lookup_filter_Some. unfold idle_entry. rewrite Z.leb_gt. done.
  - intros t. rewrite elem_of_app, list_elem_of_fmap. setoid_rewrite list_elem_of_filter. setoid_rewrite range_perm.
    apply or_iff_compat_l. split.
    + intros ([n e] & -> & [Hi He%elem_of_map_to_list]). exists n, e. split_and!; [done|by apply Z.leb_le|done].
    + intros (n & e & He & Hi & ->). exists (n, e). split; [done|]. split; [by apply Z.leb_le|by apply elem_of_map_to_list].
Qed.
End claims.

(** ** A concrete probe *)

Section example.
#[local] Existing Instances identity_digest plain_access plain_text plain_range plain_keys.

(** A decoder that knows one document. *)
Definition plain_status : StatusLibrary := {|
  Sum256 s := s; AppendCertsFromPEM s := negb (bool_decide (s = ""));
  Decode_status s := if bool_decide (s = "{}") then (result_status (example_status true []), Some "") else (no_status, None);
  Decode_eof s := bool_decide (s = "");
|}.
#[local] Existing Instance plain_status.

(** An instance that answers on its status port. *)
Definition example_do (c : Client) (address : string) : http_response :=
  if bool_decide (address = "http://10.0.0.1:8000/pg/status") then Response 200 "{}" false else DoFailed.

Definition any_ip : TextLibrary := {|
  Decode_endpoints := Decode_endpoints; Unmarshal_strings := Unmarshal_strings;
  Unmarshal_string_map := Unmarshal_string_map; ToLower := ToLower; ParseIP _ := true;
|}.

Lemma status_verified_witness :
  ∃ c, trusted example_options "PEM" "db-rw" c
    ∧ status_document (result_status (example_status true [])) (example_do c "http://10.0.0.1:8000/pg/status").
Proof.
  destruct (status_verified (H := any_ip) example_options example_do (owned_pod "db-1") (info_connection example_connection)
    "db-rw" second minute [Install "OLD" "db-rw" 0] [PruneClients second; Install "PEM" "db-rw" second]
    (result_status (example_status true []))) as [_ (c & Hc & Hd)]; [vm_compute; reflexivity|].
  exists c. split; [exact Hc|exact Hd].
Defined.

Lemma sweep_exact_witness :
  let s' := (pruneConnections minute (λ _, second)
    (quiet_observer "7", (clients_run example_options [Install "PEM" "db-rw" 0; Install "PEM" "pg-rw" second] no_clients).2)).2 in
  obs_cas s'.1 !! ClusterKey "app" "ca" = None ∧ is_Some (sc_clients s'.2 !! "pg-rw") ∧ sc_clients s'.2 !! "db-rw" = None.
Proof.
  cbv zeta. destruct (sweep_exact minute (λ _, second) (quiet_observer "7")
    (clients_run example_options [Install "PEM" "db-rw" 0; Install "PEM" "pg-rw" second] no_clients).2) as (Hcas & _ & _).
  { intros k c. cbn. by intros [<- <-]%lookup_singleton_Some. }
  split; [rewrite (Hcas (ClusterKey "app" "ca")); vm_compute; reflexivity|].
  split; [vm_compute; eexists; reflexivity|vm_compute; reflexivity].
Defined.
End example.
