(* ===== verification/Lifecycle.v ===== *)
(** * The life of the observer (src/internal/observer/observer.go, work.go, connection.go)

    [Run] starts the informers, waits for their caches, starts the workers and then
    serves two tickers until its context is done; its deferred calls shut the queues
    down, wait for every goroutine, close the status clients and withdraw
    readiness.  [time.NewTicker] panics on a period that is not positive: the panic
    unwinds [Run] through the same deferred calls, and [Run] does not return.
    The goroutine of [Run], the informers and the workers are
    interleaved as actions of [life_do].  What an observation publishes is the
    subject of [System]; here a worker takes keys from its queue, uses status
    clients while it is busy, and gives the key back. *)

From S2P Require Import Prelude Api Mailbox Store Queue Config Kube Topology Evidence Work Settings.
From S2P Require Import Observer Events Connection Status.

(** ** Goroutines *)

Inductive informer := ClusterInformer | PodInformer | SecretInformer.

Inductive task_kind :=
  | InformerTask (i : informer)
  | CATask
  | ObservationTask (urgentOnly : bool).

(** An informer runs until it ends.  A worker waits in [Get], has got a key and is
    about to look at its context, works on the key, or has returned. *)
Inductive task_phase :=
  | TaskWaiting
  | TaskGot (key : clusterKey)
  | TaskBusy (key : clusterKey)
  | TaskEnded.

Record task := Task { task_kind_ : task_kind; task_phase_ : task_phase }.

Definition started (k : task_kind) : task := Task k TaskWaiting.

Definition informer_tasks : list task :=
  started ∘ InformerTask <$> [ClusterInformer; PodInformer; SecretInformer].

(** The workers of [startCAWorkers]: [for range n] runs no iteration when [n] is not
    positive. *)
Definition startCAWorkers (opts : Options) : list task :=
  replicate (Z.to_nat (Z.min 32 (MaxConcurrentClusters opts))) (started CATask).

(** [startWorkers]: the first [reserved] observation workers are for urgent keys. *)
Definition startWorkers (opts : Options) : list task :=
  let reserved := reservedCapacity (MaxConcurrentClusters opts) in
  startCAWorkers opts
  ++ ((λ i, started (ObservationTask (i <? reserved))) <$> seqZ 0 (MaxConcurrentClusters opts)).

(** [caQueue] is client-go's: [Get] returns a key while there is one, even after
    [ShutDown], and otherwise waits or reports the shutdown. *)
Record ca_queue := CAQueue { ca_keys : list clusterKey; ca_shut : bool }.

(** ** The state of [Run] *)

(** Where [Run] is: waiting for the caches, in its loop, before each of the
    deferred calls, and at its end, which is a return or a panic. *)
Inductive life_phase :=
  | LifeSyncing
  | LifeLoop
  | LifeShutQueue
  | LifeShutCAQueue
  | LifeWait
  | LifeClose
  | LifeUnready
  | LifeReturned
  | LifePanicked.

#[export] Instance life_phase_eq_dec : EqDecision life_phase.
Proof. solve_decision. Defined.

Section lifecycle.
Context `{TextLibrary, MapRange, Unstructured, RoutingDigest, KeyRange, StatusLibrary}.
Context (opts : Options).

Record life := {
  life_phase_ : life_phase;
  life_ctx : bool;             (* ctx is done *)
  life_synced : bool;          (* the three informers have synced *)
  life_ready : bool;           (* o.ready *)
  life_after : bool;           (* context.AfterFunc is installed and has not run *)
  life_panic : bool;           (* a panic is unwinding Run, or has *)
  life_tasks : list task;      (* the goroutines of the wait group *)
  life_observer : Observer;
  life_ca : ca_queue;
  life_clients : statusClients;
}.

Definition set_life_phase (p : life_phase) (s : life) : life := {|
  life_phase_ := p; life_ctx := life_ctx s; life_synced := life_synced s; life_ready := life_ready s;
  life_after := life_after s; life_panic := life_panic s; life_tasks := life_tasks s;
  life_observer := life_observer s; life_ca := life_ca s; life_clients := life_clients s;
|}.

Definition set_life_ready (b : bool) (s : life) : life := {|
  life_phase_ := life_phase_ s; life_ctx := life_ctx s; life_synced := life_synced s; life_ready := b;
  life_after := life_after s; life_panic := life_panic s; life_tasks := life_tasks s;
  life_observer := life_observer s; life_ca := life_ca s; life_clients := life_clients s;
|}.

Definition set_life_after (b : bool) (s : life) : life := {|
  life_phase_ := life_phase_ s; life_ctx := life_ctx s; life_synced := life_synced s; life_ready := life_ready s;
  life_after := b; life_panic := life_panic s; life_tasks := life_tasks s; life_observer := life_observer s; life_ca := life_ca s;
  life_clients := life_clients s;
|}.

Definition set_life_tasks (l : list task) (s : life) : life := {|
  life_phase_ := life_phase_ s; life_ctx := life_ctx s; life_synced := life_synced s; life_ready := life_ready s;
  life_after := life_after s; life_panic := life_panic s; life_tasks := l; life_observer := life_observer s; life_ca := life_ca s;
  life_clients := life_clients s;
|}.

Definition set_life_observer (o : Observer) (s : life) : life := {|
  life_phase_ := life_phase_ s; life_ctx := life_ctx s; life_synced := life_synced s; life_ready := life_ready s;
  life_after := life_after s; life_panic := life_panic s; life_tasks := life_tasks s; life_observer := o; life_ca := life_ca s;
  life_clients := life_clients s;
|}.

Definition set_life_ca (q : ca_queue) (s : life) : life := {|
  life_phase_ := life_phase_ s; life_ctx := life_ctx s; life_synced := life_synced s; life_ready := life_ready s;
  life_after := life_after s; life_panic := life_panic s; life_tasks := life_tasks s;
  life_observer := life_observer s; life_ca := q; life_clients := life_clients s;
|}.

Definition set_life_clients (c : statusClients) (s : life) : life := {|
  life_phase_ := life_phase_ s; life_ctx := life_ctx s; life_synced := life_synced s; life_ready := life_ready s;
  life_after := life_after s; life_panic := life_panic s; life_tasks := life_tasks s;
  life_observer := life_observer s; life_ca := life_ca s; life_clients := c;
|}.

Definition set_life_panic (b : bool) (s : life) : life := {|
  life_phase_ := life_phase_ s; life_ctx := life_ctx s; life_synced := life_synced s; life_ready := life_ready s;
  life_after := life_after s; life_panic := b; life_tasks := life_tasks s; life_observer := life_observer s;
  life_ca := life_ca s; life_clients := life_clients s;
|}.

(** [Run] has started the informers. *)
Definition life_started (o : Observer) (c : statusClients) : life := {|
  life_phase_ := LifeSyncing; life_ctx := false; life_synced := false; life_ready := false; life_after := false;
  life_panic := false; life_tasks := informer_tasks; life_observer := o; life_ca := CAQueue [] false; life_clients := c;
|}.

(** ** Actions *)

Inductive life_action :=
  (* outside *)
  | LifeCancel                                          (* ctx is cancelled *)
  | LifeSync                                            (* the last cache has synced *)
  | LifeOffer (key : clusterKey)                        (* a key is added to the observation queue *)
  | LifeOfferCA (key : clusterKey)                      (* or to the CA queue *)
  (* Run *)
  | LifeSynced                                          (* WaitForCacheSync returns true *)
  | LifeAborted                                         (* WaitForCacheSync returns false *)
  | LifeExpiry (ks : list clusterKey) (now : time)      (* case now := <-expiry.C *)
  | LifeCleanup (now : time) (clk : clusterKey → time)  (* case now := <-cleanup.C *)
  | LifeDone                                            (* case <-ctx.Done() *)
  | LifeDefer                                           (* the next deferred call *)
  (* goroutines *)
  | LifeAfterFunc                                       (* context.AfterFunc(ctx, o.caQueue.ShutDown) *)
  | LifeTask (i : nat)                                  (* a goroutine of the wait group *)
  | LifeClient (i : nat) (a : client_action).           (* a busy worker uses a status client *)

Definition set_obs_queue' (q : priorityQueue) (s : life) : life := set_life_observer (set_obs_queue q (life_observer s)) s.

Definition set_task (i : nat) (p : task_phase) (t : task) (s : life) : life :=
  set_life_tasks (<[i := Task (task_kind_ t) p]> (life_tasks s)) s.

(** The deferred function and [defer o.ready.Store(false)]. *)
Definition life_defer (s : life) : option life :=
  match life_phase_ s with
  | LifeShutQueue =>
      Some (set_life_phase LifeShutCAQueue (set_obs_queue' (ShutDown (obs_queue (life_observer s))).1 s))
  | LifeShutCAQueue => Some (set_life_phase LifeWait (set_life_ca (CAQueue (ca_keys (life_ca s)) true) s))
  | LifeWait =>
      if forallb (λ t, match task_phase_ t with TaskEnded => true | _ => false end) (life_tasks s)
      then Some (set_life_phase LifeClose s) else None
  | LifeClose => Some (set_life_phase LifeUnready (set_life_clients (closeStatusClients (life_clients s)).2 s))
  | LifeUnready =>
      Some (set_life_phase (if life_panic s then LifePanicked else LifeReturned) (set_life_ready false s))
  | LifeSyncing | LifeLoop | LifeReturned | LifePanicked => None
  end.

(** The next step of a goroutine; [None] while it waits. *)
Definition life_task (i : nat) (t : task) (s : life) : option life :=
  match task_kind_ t, task_phase_ t with
  | _, TaskEnded => None
  | InformerTask _, _ => if life_ctx s then Some (set_task i TaskEnded t s) else None
  | ObservationTask urgentOnly, TaskWaiting =>
      match get urgentOnly (obs_queue (life_observer s)) with
      | (GetWait, _) => None
      | (GetShutdown, _) => Some (set_task i TaskEnded t s)
      | (GetItem key, q) => Some (set_task i (TaskGot key) t (set_obs_queue' q s))
      end
  | ObservationTask _, TaskGot key =>
      if life_ctx s
      then Some (set_task i TaskEnded t (set_obs_queue' (Done key (obs_queue (life_observer s))).1 s))
      else Some (set_task i (TaskBusy key) t s)
  | ObservationTask _, TaskBusy key =>
      Some (set_task i TaskWaiting t (set_obs_queue' (Done key (obs_queue (life_observer s))).1 s))
  | CATask, TaskWaiting =>
      match ca_keys (life_ca s) with
      | key :: rest => Some (set_task i (TaskGot key) t (set_life_ca (CAQueue rest (ca_shut (life_ca s))) s))
      | [] => if ca_shut (life_ca s) then Some (set_task i TaskEnded t s) else None
      end
  | CATask, TaskGot key => Some (set_task i (if life_ctx s then TaskEnded else TaskBusy key) t s)
  | CATask, TaskBusy _ => Some (set_task i TaskWaiting t s)
  end.

(** Observation workers use the status clients while they probe. *)
Definition uses_clients (t : task) : bool :=
  match task_kind_ t, task_phase_ t with
  | ObservationTask _, TaskBusy _ => true
  | _, _ => false
  end.

(** What follows [WaitForCacheSync]: ready, the workers, and the two tickers, of
    which [time.NewTicker (min time.Second (TTL / 4))] may panic. *)
Definition life_enter (s : life) : life :=
  let s := set_life_ready true (set_life_after true (set_life_tasks (life_tasks s ++ startWorkers opts) s)) in
  if 0 <? expiry_period opts then set_life_phase LifeLoop s
  else set_life_phase LifeShutQueue (set_life_panic true s).

Definition life_do (a : life_action) (s : life) : option life :=
  match a with
  | LifeCancel =>
      Some {| life_phase_ := life_phase_ s; life_ctx := true; life_synced := life_synced s; life_ready := life_ready s;
              life_after := life_after s; life_panic := life_panic s; life_tasks := life_tasks s;
              life_observer := life_observer s; life_ca := life_ca s; life_clients := life_clients s |}
  | LifeSync =>
      Some {| life_phase_ := life_phase_ s; life_ctx := life_ctx s; life_synced := true; life_ready := life_ready s;
              life_after := life_after s; life_panic := life_panic s; life_tasks := life_tasks s;
              life_observer := life_observer s; life_ca := life_ca s; life_clients := life_clients s |}
  | LifeOffer key => Some (set_obs_queue' (Add key (obs_queue (life_observer s))).1 s)
  | LifeOfferCA key =>
      Some (if ca_shut (life_ca s) then s else set_life_ca (CAQueue (ca_keys (life_ca s) ++ [key]) false) s)
  | LifeSynced =>
      if bool_decide (life_phase_ s = LifeSyncing) && life_synced s then Some (life_enter s) else None
  | LifeAborted =>
      if bool_decide (life_phase_ s = LifeSyncing) && life_ctx s then Some (set_life_phase LifeShutQueue s) else None
  | LifeExpiry ks now =>
      if bool_decide (life_phase_ s = LifeLoop)
      then Some (set_life_observer (on_store (Expire ks now) (life_observer s)).2 s) else None
  | LifeCleanup now clk =>
      if bool_decide (life_phase_ s = LifeLoop)
      then let '(_, (o, c)) := pruneConnections now clk (life_observer s, life_clients s) in
           Some (set_life_clients c (set_life_observer o s))
      else None
  | LifeDone =>
      if bool_decide (life_phase_ s = LifeLoop) && life_ctx s then Some (set_life_phase LifeShutQueue s) else None
  | LifeDefer => life_defer s
  | LifeAfterFunc =>
      if life_after s && life_ctx s
      then Some (set_life_after false (set_life_ca (CAQueue (ca_keys (life_ca s)) true) s)) else None
  | LifeTask i => t ← life_tasks s !! i; life_task i t s
  | LifeClient i a =>
      t ← life_tasks s !! i;
      if uses_clients t && match a with Lookup _ _ _ | Install _ _ _ => true | _ => false end
      then Some (set_life_clients (client_do opts a (life_clients s)).2 s) else None
  end.

Definition life_run (l : list life_action) (s : life) : option life :=
  foldl (λ s a, s ← s; life_do a s) (Some s) l.
End lifecycle.
