(* ===== verification/LifecycleProps.v ===== *)
(** * Correctness of the observer's life

    [Run] is over only after every goroutine has ended, with every key given back,
    every transport closed and readiness withdrawn; once its context is done it
    always comes to its end, which is a return unless its ticker panicked. *)

From S2P Require Import Prelude Api Mailbox Store StoreFacts StoreProps Queue QueueFacts Config Kube Topology TopologyProps Evidence Work Settings SettingsProps.
From S2P Require Import WorkProps Observer ObserverFacts CollectionProps Events EventsFacts EventsProps Connection Status StatusProps SystemFacts Lifecycle.

Section claims.
Context `{TextLibrary, MapRange, Unstructured, RoutingDigest, KeyRange, StatusLibrary}.
Context (opts : Options).

(** ** Invariant *)

Definition stage (p : life_phase) : nat :=
  match p with
  | LifeSyncing => 0 | LifeLoop => 1 | LifeShutQueue => 2 | LifeShutCAQueue => 3 | LifeWait => 4 | LifeClose => 5
  | LifeUnready => 6 | LifeReturned | LifePanicked => 7
  end.

Definition ended (t : task) : Prop := task_phase_ t = TaskEnded.

#[local] Instance ended_dec t : Decision (ended t).
Proof. unfold ended. destruct (task_phase_ t); (by left) || (by right). Defined.

(** The key an observation worker holds. *)
Definition holds (t : task) : option clusterKey :=
  match task_kind_ t, task_phase_ t with
  | ObservationTask _, TaskGot key | ObservationTask _, TaskBusy key => Some key
  | _, _ => None
  end.

Record life_inv (s : life) : Prop := {
  li_processing k : is_Some (processing (obs_queue (life_observer s)) !! k) →
    ∃ i t, life_tasks s !! i = Some t ∧ holds t = Some k;
  li_shut : (3 ≤ stage (life_phase_ s))%nat → shuttingDown (obs_queue (life_observer s)) = true;
  li_ca : (4 ≤ stage (life_phase_ s))%nat → ca_shut (life_ca s) = true;
  li_ended : (5 ≤ stage (life_phase_ s))%nat → Forall ended (life_tasks s);
  li_clients : (6 ≤ stage (life_phase_ s))%nat → sc_clients (life_clients s) = ∅;
  li_ready : life_ready s = true → life_synced s = true ∧ (1 ≤ stage (life_phase_ s) ≤ 6)%nat;
  li_transports : transports_ok (life_clients s);
  li_informer : ∃ i p, life_tasks s !! 0%nat = Some (Task (InformerTask i) p) ∧ (life_ctx s = false → p ≠ TaskEnded);
  li_loop : life_phase_ s = LifeLoop → 0 < expiry_period opts;
  li_return : life_phase_ s = LifeReturned → life_panic s = false;
  li_panic : life_panic s = true → expiry_period opts ≤ 0 ∧ (2 ≤ stage (life_phase_ s))%nat
    ∧ (life_ready s = false → (7 ≤ stage (life_phase_ s))%nat);
  li_panicked : life_phase_ s = LifePanicked → life_panic s = true;
}.

Lemma started_life o c : processing (obs_queue o) = ∅ → transports_ok c → life_inv (life_started o c).
Proof.
  intros Hp Hc. split; cbn; try done; try lia; [intros k; rewrite Hp, lookup_empty; by intros []|].
  by eexists _, _.
Qed.

(** The queue between two states: nothing is handed out, a shutdown stays. *)
Lemma li_queue s s' :
  life_inv s → (∀ k, is_Some (processing (obs_queue (life_observer s')) !! k) → is_Some (processing (obs_queue (life_observer s)) !! k)) →
  shuttingDown (obs_queue (life_observer s')) = shuttingDown (obs_queue (life_observer s)) →
  life_phase_ s' = life_phase_ s → life_tasks s' = life_tasks s → life_ctx s' = life_ctx s → life_synced s' = life_synced s →
  life_ready s' = life_ready s → life_panic s' = life_panic s → (ca_shut (life_ca s) = true → ca_shut (life_ca s') = true) →
  transports_ok (life_clients s') → ((6 ≤ stage (life_phase_ s))%nat → sc_clients (life_clients s') = ∅) → life_inv s'.
Proof.
  intros [] Hp Hs Hph Ht Hc Hy Hr Hpa Hca Htr Hcl. split; rewrite ?Hph, ?Ht, ?Hc, ?Hy, ?Hr, ?Hs, ?Hpa; auto.
Qed.

(** A step of the task at [i], which afterwards holds what is handed out for it. *)
Lemma li_task s s' i t p :
  life_inv s → life_tasks s !! i = Some t → ¬ ended t → (∀ j, task_kind_ t = InformerTask j → life_ctx s = true) →
  (∀ k, is_Some (processing (obs_queue (life_observer s')) !! k) →
    holds (Task (task_kind_ t) p) = Some k
    ∨ is_Some (processing (obs_queue (life_observer s)) !! k) ∧ (holds t = Some k → holds (Task (task_kind_ t) p) = Some k)) →
  shuttingDown (obs_queue (life_observer s')) = shuttingDown (obs_queue (life_observer s)) →
  life_tasks s' = <[i := Task (task_kind_ t) p]> (life_tasks s) → life_phase_ s' = life_phase_ s →
  life_ctx s' = life_ctx s → life_synced s' = life_synced s → life_ready s' = life_ready s →
  life_panic s' = life_panic s → ca_shut (life_ca s') = ca_shut (life_ca s) → life_clients s' = life_clients s → life_inv s'.
Proof.
  intros [] Hi Hne Hinf Hp Hs Ht Hph Hc Hy Hr Hpa Hca Hcl. pose proof (lookup_lt_Some _ _ _ Hi) as Hlen.
  split; rewrite ?Hph, ?Hc, ?Hy, ?Hr, ?Hs, ?Hpa, ?Hca, ?Hcl; auto; rewrite ?Ht.
  - intros k Hk. destruct (Hp k Hk) as [Hh|[Hk' Hh]].
    + exists i, (Task (task_kind_ t) p). by rewrite list_lookup_insert_eq.
    + destruct (li_processing0 k Hk') as (j & t' & Hj & Ht'). destruct (decide (j = i)) as [->|Hji].
      * rewrite Hi in Hj. injection Hj as <-. exists i, (Task (task_kind_ t) p). rewrite list_lookup_insert_eq by done. auto.
      * exists j, t'. by rewrite list_lookup_insert_ne.
  - intros Hst. specialize (li_ended0 Hst). exfalso. apply Hne. by eapply Forall_lookup_1 in li_ended0.
  - destruct li_informer0 as (j & p0 & Hj & Hp0). destruct i as [|i].
    + rewrite Hi in Hj. injection Hj as ->. cbn. rewrite (Hinf j eq_refl). rewrite list_lookup_insert_eq by done. by eexists _, _.
    + exists j, p0. by rewrite list_lookup_insert_ne.
Qed.

Lemma Done_processing key p k :
  is_Some (processing (Done key p).1 !! k) → is_Some (processing p !! k) ∧ k ≠ key.
Proof.
  unfold Done. destruct (processing p !! key) eqn:Hk; cbn; [|intros Hs; split; [done|]; intros ->; rewrite Hk in Hs; by destruct Hs].
  case_bool_decide; [unfold push; case_match|]; cbn; intros [x [Hne Hx]%lookup_delete_Some]; (split; [by eexists|done]).
Qed.

Lemma Done_shuttingDown key p : shuttingDown (Done key p).1 = shuttingDown p.
Proof. unfold Done. destruct (processing p !! key); [|done]. cbn. case_bool_decide; [unfold push; case_match|]; done. Qed.

Lemma life_task_inv i t s s' : life_inv s → life_tasks s !! i = Some t → life_task i t s = Some s' → life_inv s'.
Proof.
  intros Hi Ht Hdo. destruct t as [k p]. unfold life_task in Hdo. cbn [task_kind_ task_phase_] in Hdo.
  destruct k as [inf| |u].
  - destruct p; try done; (destruct (life_ctx s) eqn:Hcx; [|done]); injection Hdo as <-;
      (eapply (li_task s _ i _ TaskEnded); try done; [intros k Hk; by right]).
  - destruct p as [|key|key|]; try done.
    + destruct (ca_keys (life_ca s)) as [|key rest]; [destruct (ca_shut (life_ca s)); [|done]|]; injection Hdo as <-;
        [eapply (li_task s _ i _ TaskEnded)|eapply (li_task s _ i _ (TaskGot key))]; try done; intros k Hk; by right.
    + injection Hdo as <-. eapply (li_task s _ i _ (if life_ctx s then TaskEnded else TaskBusy key)); try done.
      intros k Hk. by right.
    + injection Hdo as <-. eapply (li_task s _ i _ TaskWaiting); try done. intros k Hk. by right.
  - destruct p as [|key|key|]; try done.
    + pose proof (get_cases u (obs_queue (life_observer s))) as Hg. destruct (get u (obs_queue (life_observer s))) as [r q].
      remember (r, q) as g eqn:Hr. destruct Hg as [_ _|key rest n _ _ _|key rest _ _ _].
      * destruct (shuttingDown _); injection Hr as <- <-; [|done]. injection Hdo as <-.
        eapply (li_task s _ i _ TaskEnded); try done. intros k Hk. by right.
      * injection Hr as <- <-. injection Hdo as <-. eapply (li_task s _ i _ (TaskGot key)); try done.
        cbn. intros k [x [[<- _]|[_ Hx]]%lookup_insert_Some]; [by left|right]. by split; [eexists|].
      * injection Hr as <- <-. injection Hdo as <-. eapply (li_task s _ i _ (TaskGot key)); try done.
        cbn. intros k [x [[<- _]|[_ Hx]]%lookup_insert_Some]; [by left|right]. by split; [eexists|].
    + destruct (life_ctx s); injection Hdo as <-.
      * eapply (li_task s _ i _ TaskEnded); try done; [|apply Done_shuttingDown].
        cbn. intros k [Hk Hne]%Done_processing. right. split; [done|]. by intros [= ->].
      * eapply (li_task s _ i _ (TaskBusy key)); try done. intros k Hk. by right.
    + injection Hdo as <-. eapply (li_task s _ i _ TaskWaiting); try done; [|apply Done_shuttingDown].
      cbn. intros k [Hk Hne]%Done_processing. right. split; [done|]. by intros [= ->].
Qed.

Lemma keeps_prune_cas now clk o : keeps opts now ∅ ∅ o (prune_cas clk o).2.
Proof.
  unfold prune_cas. rewrite State_bind_run. cbn [get_state fst snd]. apply (for_each_inv (keeps opts now ∅ ∅ o)); [|done].
  intros key o1 _ Hk. etrans; [exact Hk|]. rewrite State_bind_run.
  etrans; [apply (keeps_demandedCA opts now clk key)|]. case_bool_decide; [|done]. by apply keeps_same.
Qed.

(** The tickers leave the queue alone. *)
Lemma keeps_queue_inv s o c :
  life_inv s → keeps opts 0 ∅ ∅ (life_observer s) o → transports_ok c →
  ((6 ≤ stage (life_phase_ s))%nat → sc_clients c = ∅) → life_inv (set_life_clients c (set_life_observer o s)).
Proof.
  intros Hi Hk Hc Hcl. eapply (li_queue s); try done; cbn.
  - intros k. by rewrite (keeps_processing _ _ _ _ _ _ Hk).
  - apply (keeps_open _ _ _ _ _ _ Hk).
Qed.

(** The clauses of the invariant that follow from the old ones. *)
Ltac clauses :=
  split; cbn; try assumption; try done; try lia; try (intros _; split; [done|lia]);
  try match goal with
  | Hr : life_ready _ = true → _ |- life_ready _ = true → _ =>
      let Hs := fresh in intros Hs; destruct (Hr Hs); cbn in *; split; [done|lia]
  | Hp : life_panic _ = true → _ |- life_panic _ = true → _ =>
      let Hs := fresh in let Hr := fresh in
      intros Hs; destruct (Hp Hs) as (? & ? & Hr); split_and!; [done|cbn in *; lia|intros Hs'; specialize (Hr Hs'); cbn in *; lia]
  | Hc : (3 ≤ _)%nat → _ |- (3 ≤ _)%nat → shuttingDown _ = true => intros _; apply Hc; lia
  | Hc : (4 ≤ _)%nat → _ |- (4 ≤ _)%nat → ca_shut _ = true => intros _; apply Hc; lia
  | Hc : (5 ≤ _)%nat → _ |- (5 ≤ _)%nat → Forall _ _ => intros _; apply Hc; lia
  | Hc : (6 ≤ _)%nat → _ |- (6 ≤ _)%nat → sc_clients _ = ∅ => intros _; apply Hc; lia
  end.

Lemma life_defer_inv s s' : life_inv s → life_defer s = Some s' → life_inv s'.
Proof.
  intros [] Hdo. unfold life_defer in Hdo.
  destruct (life_phase_ s) eqn:Hp; try done; cbn [stage] in *; [..|destruct (forallb _ _) eqn:Hall; [|done]| |]; injection Hdo as <-.
  - clauses.
  - clauses.
  - clauses. intros _. apply Forall_forall. intros t Ht%list_elem_of_In. eapply forallb_forall in Hall; [|done].
    unfold ended. by destruct (task_phase_ t).
  - clauses. pose proof (client_do_transports opts CloseClients _ li_transports0) as Ht. cbn [client_do] in Ht.
    rewrite State_bind_run in Ht. exact Ht.
  - destruct (life_panic s) eqn:Hpa; clauses; cbn; rewrite ?Hpa; try done; intros _; by destruct (li_panic0 eq_refl) as (? & _).
Qed.

Lemma life_enter_inv s : life_inv s → life_phase_ s = LifeSyncing → life_synced s = true → life_inv (life_enter opts s).
Proof.
  intros [] Hg Hsy. rewrite Hg in *. unfold life_enter.
  assert (life_panic s = false) as Hpa by (destruct (life_panic s); [|done]; destruct (li_panic0 eq_refl) as (_ & ? & _); cbn in *; lia).
  destruct (Z.ltb_spec 0 (expiry_period opts)); clauses; rewrite ?Hpa; try done.
  all: try (intros k Hk; destruct (li_processing0 k Hk) as (j & t & Hj & Ht); exists j, t; split; [|done]; by apply lookup_app_l_Some).
  all: destruct li_informer0 as (i & p & Hi & Hp); exists i, p; split; [by apply lookup_app_l_Some|done].
Qed.

Lemma life_do_inv a s s' : life_inv s → life_do opts a s = Some s' → life_inv s'.
Proof.
  intros Hi Hdo. pose proof Hi as []. destruct a as [| |key|key| | |ks now|now clk| | | |i|i a]; cbn [life_do] in Hdo.
  - injection Hdo as <-. split; cbn; try done. destruct li_informer0 as (i & p & ? & _). by exists i, p.
  - injection Hdo as <-. clauses.
  - injection Hdo as <-. eapply (li_queue s); try done; cbn; [intros k; by rewrite Add_processing|apply Add_shuttingDown].
  - injection Hdo as <-. destruct (ca_shut (life_ca s)) eqn:Hca; [done|]. eapply (li_queue s); try done. congruence.
  - destruct (bool_decide _) eqn:Hg, (life_synced s) eqn:Hsy; try done. boolify. injection Hdo as <-. by apply life_enter_inv.
  - destruct (bool_decide _) eqn:Hg, (life_ctx s) eqn:Hcx; try done. boolify. injection Hdo as <-. rewrite Hg in *. clauses.
    by rewrite Hcx.
  - destruct (bool_decide _) eqn:Hg; [|done]. boolify. injection Hdo as <-.
    apply (keeps_queue_inv s _ (life_clients s)); try done. apply keeps_store, Expire_calm.
  - destruct (bool_decide _) eqn:Hg; [|done]. boolify. injection Hdo as <-.
    apply keeps_queue_inv; [done|apply keeps_prune_cas| |rewrite Hg; cbn; lia].
    pose proof (client_do_transports opts (PruneClients now) _ li_transports0) as Ht. cbn [client_do] in Ht.
    rewrite State_bind_run in Ht. exact Ht.
  - destruct (bool_decide _) eqn:Hg, (life_ctx s) eqn:Hcx; try done. boolify. injection Hdo as <-. rewrite Hg in *. clauses.
    by rewrite Hcx.
  - by eapply life_defer_inv.
  - destruct (_ && _) eqn:Hg; [|done]. injection Hdo as <-. by eapply (li_queue s).
  - destruct (life_tasks s !! i) as [t|] eqn:Ht; [|done]. by eapply life_task_inv.
  - destruct (life_tasks s !! i) as [t|] eqn:Ht; [|done]. cbn in Hdo. destruct (_ && _) eqn:Hg; [|done]. injection Hdo as <-.
    eapply (li_queue s); try done; [by apply client_do_transports|]. intros Hst. exfalso.
    assert (ended t) as He by (eapply Forall_lookup_1; [apply li_ended0; lia|done]).
    apply andb_true_iff in Hg as [Hu _]. unfold uses_clients in Hu. rewrite He in Hu. by destruct (task_kind_ t).
Qed.

Lemma life_run_inv l s s' : life_inv s → life_run opts l s = Some s' → life_inv s'.
Proof.
  revert s'. induction l as [|a l IH] using rev_ind; intros s' Hs; unfold life_run; cbn; [by intros [= <-]|].
  rewrite foldl_snoc. fold (life_run opts l s). destruct (life_run opts l s) as [s1|] eqn:E; [|done]. cbn. intros Hdo.
  eapply life_do_inv; [by apply IH|done].
Qed.

(** ** Cost *)

Lemma sum_list_insert {A} (f : A → nat) (l : list A) i x y :
  l !! i = Some x → (sum_list_with f (<[i := y]> l) + f x = sum_list_with f l + f y)%nat.
Proof.
  intros Hi. pose proof (lookup_lt_Some _ _ _ Hi) as Hlen. rewrite (insert_take_drop l i y Hlen).
  assert (sum_list_with f l = sum_list_with f (take i l ++ x :: drop (S i) l)) as -> by by rewrite take_drop_middle.
  rewrite !sum_list_with_app. cbn. lia.
Qed.

Definition task_cost (t : task) : nat :=
  match task_phase_ t with TaskEnded => 0 | TaskGot _ => 1 | TaskWaiting => 2 | TaskBusy _ => 3 end.

(** What is left of [Run] once its context is done; before the workers are started,
    they are counted too. *)
Definition phase_cost (p : life_phase) : nat :=
  match p with
  | LifeSyncing => 9 + sum_list_with task_cost (startWorkers opts)
  | p => 7 - stage p
  end.

Definition life_cost (s : life) : nat :=
  phase_cost (life_phase_ s) + sum_list_with task_cost (life_tasks s) + (if life_after s then 1 else 0).

(** Steps of [Run] and its goroutines, as opposed to ticks and what comes from
    outside. *)
Definition own_step (a : life_action) : bool :=
  match a with
  | LifeSynced | LifeAborted | LifeDone | LifeDefer | LifeAfterFunc | LifeTask _ => true
  | _ => false
  end.

Lemma life_task_cost i t s s' :
  life_ctx s = true → life_tasks s !! i = Some t → life_task i t s = Some s' → (life_cost s' < life_cost s)%nat.
Proof.
  intros Hc Ht Hdo.
  assert (∃ p, life_tasks s' = <[i := Task (task_kind_ t) p]> (life_tasks s) ∧ life_phase_ s' = life_phase_ s
    ∧ life_after s' = life_after s ∧ (task_cost (Task (task_kind_ t) p) < task_cost t)%nat) as (p & Hts & Hp & Ha & Hlt).
  { destruct t as [[inf| |u] [|key|key|]]; unfold life_task in Hdo; cbn [task_kind_ task_phase_] in Hdo; rewrite ?Hc in Hdo;
      repeat case_match; simplify_eq; (eexists; split_and!; [reflexivity|done|done|cbn; lia]). }
  unfold life_cost. rewrite Hts, Hp, Ha. pose proof (sum_list_insert task_cost _ _ _ (Task (task_kind_ t) p) Ht). lia.
Qed.

Lemma life_do_cost a s s' :
  life_ctx s = true → life_do opts a s = Some s' →
  if own_step a then (life_cost s' < life_cost s)%nat else life_cost s' = life_cost s.
Proof.
  intros Hc Hdo. destruct a as [| |key|key| | |ks now|now clk| | | |i|i a]; cbn [life_do own_step] in *; rewrite ?Hc in *.
  - by injection Hdo as <-.
  - by injection Hdo as <-.
  - by injection Hdo as <-.
  - destruct (ca_shut _); by injection Hdo as <-.
  - destruct (bool_decide _) eqn:Hg, (life_synced s); try done. boolify. injection Hdo as <-.
    unfold life_cost, life_enter. destruct (0 <? _); cbn; rewrite Hg, sum_list_with_app; cbn; destruct (life_after s); lia.
  - destruct (bool_decide _) eqn:Hg; [|done]. boolify. injection Hdo as <-. unfold life_cost. cbn. rewrite Hg. cbn. lia.
  - destruct (bool_decide _); [|done]. by injection Hdo as <-.
  - destruct (bool_decide _); [|done]. by injection Hdo as <-.
  - destruct (bool_decide _) eqn:Hg; [|done]. boolify. injection Hdo as <-. unfold life_cost. cbn. rewrite Hg. cbn. lia.
  - unfold life_defer in Hdo. unfold life_cost. destruct (life_phase_ s) eqn:Hp; try done; [..|destruct (forallb _ _); [|done]| |];
      injection Hdo as <-; cbn; try (destruct (life_panic s); cbn); lia.
  - destruct (life_after s) eqn:Ha; [|done]. injection Hdo as <-. unfold life_cost. cbn. rewrite Ha. lia.
  - destruct (life_tasks s !! i) as [t|] eqn:Ht; [|done]. by eapply life_task_cost.
  - destruct (life_tasks s !! i) as [t|]; [|done]. cbn in Hdo. destruct (_ && _); [|done]. by injection Hdo as <-.
Qed.

(** A goroutine that has not ended can act once the queues are shut down. *)
Lemma life_task_enabled i t s :
  life_ctx s = true → shuttingDown (obs_queue (life_observer s)) = true → ca_shut (life_ca s) = true →
  ¬ ended t → is_Some (life_task i t s).
Proof.
  intros Hc Hq Hca Hne. unfold life_task, ended in *. destruct t as [[inf| |u] [|key|key|]]; cbn [task_kind_ task_phase_] in *;
    rewrite ?Hc, ?Hca; try done; try (by destruct (ca_keys _)).
  pose proof (get_cases u (obs_queue (life_observer s))) as [_ _|k rest n _ _ _|k rest _ _ _]; [by rewrite Hq|done..].
Qed.

Lemma life_enabled s :
  life_inv s → life_ctx s = true → life_phase_ s ≠ LifeReturned → life_phase_ s ≠ LifePanicked → ∃ a, own_step a = true ∧ is_Some (life_do opts a s).
Proof.
  intros [] Hc Hp Hp'.
  destruct (life_phase_ s) eqn:Hph; try done; cbn [stage] in *; try (exists LifeDefer; split; [done|]; cbn; unfold life_defer; by rewrite Hph).
  - exists LifeAborted. split; [done|]. cbn. by rewrite Hph, Hc.
  - exists LifeDone. split; [done|]. cbn. by rewrite Hph, Hc.
  - destruct (decide (Forall ended (life_tasks s))) as [Hall|Hn].
    + exists LifeDefer. split; [done|]. cbn. unfold life_defer. rewrite Hph.
      assert (forallb (λ t, match task_phase_ t with TaskEnded => true | _ => false end) (life_tasks s) = true) as ->; [|done].
      apply forallb_forall. intros t Ht%list_elem_of_In. rewrite Forall_forall in Hall. by rewrite (Hall t Ht).
    + apply not_Forall_Exists in Hn; [|apply _]. apply Exists_exists in Hn as (t & [i Hi]%list_elem_of_lookup & Ht).
      exists (LifeTask i). split; [done|]. cbn. rewrite Hi. cbn. apply life_task_enabled; auto with lia.
Qed.

(** ** Transports *)

(** A run goes on from where it was. *)
Lemma life_run_app l1 l2 s : life_run opts (l1 ++ l2) s = s1 ← life_run opts l1 s; life_run opts l2 s1.
Proof.
  unfold life_run. rewrite foldl_app. destruct (foldl _ (Some s) l1) as [s1|]; [done|]. cbn. by induction l2.
Qed.

(** A status transport that is cached or closed stays one of these. *)
Lemma life_do_keeps a s s' t : life_do opts a s = Some s' → t ∈ transports (life_clients s) → t ∈ transports (life_clients s').
Proof.
  assert (∀ b c, t ∈ transports c → t ∈ transports (client_do opts b c).2) as Hstep.
  { intros b c Ht. destruct (client_do_grows opts b c) as [Hp|(t' & _ & _ & _ & Hp)]; rewrite Hp; [done|by right]. }
  intros Hdo Ht. destruct a as [| |key|key| | |ks now|now clk| | | |i|i a]; cbn [life_do] in Hdo.
  13: { apply bind_Some in Hdo as (k & _ & Hdo). destruct (_ && _); [|done]. injection Hdo as <-. by apply Hstep. }
  all: unfold life_enter, life_defer, life_task in Hdo; repeat (case_match || simplify_option_eq); try done.
  - unfold pruneConnections in *. simplify_eq. pose proof (Hstep (PruneClients now) _ Ht) as Hs. cbn [client_do] in Hs.
    by rewrite State_bind_run in Hs.
  - pose proof (Hstep CloseClients _ Ht) as Hs. cbn [client_do] in Hs. by rewrite State_bind_run in Hs.
Qed.

Lemma life_run_keeps l s s' t : life_run opts l s = Some s' → t ∈ transports (life_clients s) → t ∈ transports (life_clients s').
Proof.
  revert s. induction l as [|a l IH]; intros s; [by intros [= <-]|]. change (a :: l) with ([a] ++ l). rewrite life_run_app.
  intros (s1 & Hs1 & Hrun)%bind_Some Ht. eapply IH; [done|]. by eapply life_do_keeps.
Qed.

(** The end of [Run]: it has returned, or a panic has left it. *)
Definition over (s : life) : Prop := life_phase_ s = LifeReturned ∨ life_phase_ s = LifePanicked.

(** ** Theorems *)

(** C20: whatever the schedule of informers, workers, ticks and cancellation, [Run] is
    over only when every goroutine has ended, both queues are shut down, no key is
    held by a worker and the observer is not ready; every status transport that was
    cached at any time of the run has then been closed, none of them twice, and
    none is cached; the observer is ready only between the synchronisation of its
    caches and the end of [Run]. *)
Theorem run_returns_clean o c l s :
  processing (obs_queue o) = ∅ → transports_ok c → life_run opts l (life_started o c) = Some s →
  (life_ready s = true → life_synced s = true ∧ life_phase_ s ≠ LifeSyncing ∧ ¬ over s)
  ∧ (over s →
      Forall ended (life_tasks s) ∧ life_ready s = false
      ∧ shuttingDown (obs_queue (life_observer s)) = true ∧ ca_shut (life_ca s) = true
      ∧ processing (obs_queue (life_observer s)) = ∅
      ∧ sc_clients (life_clients s) = ∅ ∧ NoDup (transport_address <$> sc_closed (life_clients s))
      ∧ ∀ l1 l2 s1 name e, l = l1 ++ l2 → life_run opts l1 (life_started o c) = Some s1 →
          sc_clients (life_clients s1) !! name = Some e → entry_transport e ∈ sc_closed (life_clients s)).
Proof.
  intros Hp Hc Hrun. pose proof (life_run_inv l _ s (started_life o c Hp Hc) Hrun) as [].
  assert (over s → stage (life_phase_ s) = 7%nat) as Hover by by intros [-> | ->]. split.
  - intros Hr. destruct (li_ready0 Hr) as [? Hst]. split_and!; [done| |intros ?%Hover; lia].
    intros Hph. rewrite Hph in Hst. cbn in Hst. lia.
  - intros Ho. apply Hover in Ho. rewrite Ho in *. specialize (li_ended0 ltac:(lia)). specialize (li_clients0 ltac:(lia)).
    assert (transports (life_clients s) = sc_closed (life_clients s)) as Hcl
      by (unfold transports, live; by rewrite li_clients0, map_to_list_empty).
    split_and!; [done| |auto with lia..| |done| |].
    + destruct (life_ready s); [|done]. destruct (li_ready0 eq_refl) as [_ ?]. lia.
    + apply map_empty. intros k. destruct (processing _ !! k) eqn:Hk; [|done]. exfalso.
      destruct (li_processing0 k) as (i & t & Hi & Ht); [by eexists|]. eapply Forall_lookup_1 in li_ended0; [|done].
      unfold holds in Ht. rewrite li_ended0 in Ht. by destruct (task_kind_ t).
    + destruct li_transports0 as [Hnd _]. by rewrite Hcl in Hnd.
    + intros l1 l2 s1 name e -> Hl1 He. rewrite life_run_app, Hl1 in Hrun. rewrite <-Hcl. eapply life_run_keeps; [exact Hrun|].
      unfold transports. rewrite (live_delete name e) by done. by left.
Qed.

(** C19: once its context is done [Run] comes to its end, whatever else happens: until
    then one of its own steps is enabled, each of them lowers a cost that is bounded
    by the number of goroutines, and nothing raises it; the end is a return, unless
    the period of the expiry ticker is not positive. *)
Theorem run_stops o c l s :
  processing (obs_queue o) = ∅ → transports_ok c → life_run opts l (life_started o c) = Some s → life_ctx s = true →
  (over s ∨ ∃ a, own_step a = true ∧ is_Some (life_do opts a s))
  ∧ (∀ a s', life_do opts a s = Some s' → life_ctx s' = true ∧
      if own_step a then (life_cost s' < life_cost s)%nat else life_cost s' = life_cost s)
  ∧ (life_cost s ≤ 10 + 3 * length (life_tasks s) + 3 * length (startWorkers opts))%nat
  ∧ (0 < expiry_period opts → life_panic s = false ∧ life_phase_ s ≠ LifePanicked).
Proof.
  intros Hp Hc Hrun Hctx. pose proof (life_run_inv l _ s (started_life o c Hp Hc) Hrun) as Hi. split_and!.
  - unfold over. destruct (decide (life_phase_ s = LifeReturned)), (decide (life_phase_ s = LifePanicked)); auto.
    right. by apply life_enabled.
  - intros a s' Hdo. split; [|by apply life_do_cost].
    destruct a as [| |key|key| | |ks now|now clk| | | |i|i a]; cbn [life_do] in Hdo; unfold life_enter, life_defer, life_task in Hdo;
      rewrite ?Hctx in Hdo; repeat (case_match || simplify_option_eq); done.
  - assert (∀ ts : list task, sum_list_with task_cost ts ≤ 3 * length ts)%nat as Hsum.
    { induction ts as [|t ts IH]; cbn; [done|]. unfold task_cost at 1. destruct (task_phase_ t); lia. }
    pose proof (Hsum (life_tasks s)). pose proof (Hsum (startWorkers opts)). unfold life_cost, phase_cost.
    destruct (life_after s), (life_phase_ s); cbn; lia.
  - intros Hpos. assert (life_panic s = false) as Hpa.
    { destruct (life_panic s) eqn:E; [|done]. destruct (li_panic _ Hi E) as (? & _). lia. }
    split; [done|]. intros Hph. apply (li_panicked _ Hi) in Hph. congruence.
Qed.

(** A panic is raised where [Run] creates its tickers, and nowhere else. *)
Lemma life_do_panic a s s' :
  life_inv s → life_do opts a s = Some s' →
  (life_panic s' = true ↔ life_panic s = true ∨ a = LifeSynced ∧ expiry_period opts ≤ 0).
Proof.
  intros Hi Hdo. destruct a as [| |key|key| | |ks now|now clk| | | |i|i a]; cbn [life_do] in Hdo.
  5: { case_match; simplify_eq. unfold life_enter. destruct (Z.ltb_spec 0 (expiry_period opts)); cbn; [|naive_solver].
       split; [auto|]. intros [?|[_ ?]]; [done|lia]. }
  all: assert (life_panic s' = life_panic s) as ->; [|naive_solver];
    unfold life_defer, life_task in Hdo; by repeat (case_match || simplify_option_eq).
Qed.

Lemma life_run_panic o c l s :
  processing (obs_queue o) = ∅ → transports_ok c → life_run opts l (life_started o c) = Some s →
  (life_panic s = true ↔ LifeSynced ∈ l ∧ expiry_period opts ≤ 0).
Proof.
  intros Hp Hc. pose proof (started_life o c Hp Hc) as Hstart. revert s. induction l as [|a l IH] using rev_ind; intros s.
  { intros [= <-]. cbn. by split; [|intros [?%not_elem_of_nil _]]. }
  rewrite life_run_app. intros (s1 & Hs1 & Hdo)%bind_Some. apply (life_do_panic a) in Hdo; [|by eapply life_run_inv].
  rewrite Hdo, (IH _ Hs1), elem_of_app, list_elem_of_singleton. naive_solver.
Qed.

(** While its context is not done a panic cannot leave [Run]: it waits for the
    informers, and the ready flag is still set. *)
Lemma panic_hangs s : life_inv s → life_panic s = true → life_ctx s = false → life_ready s = true ∧ (stage (life_phase_ s) ≤ 4)%nat.
Proof.
  intros [] Hp Hc. destruct (decide (stage (life_phase_ s) ≤ 4)%nat) as [Hle|Hgt].
  - split; [|done]. destruct (life_ready s) eqn:Hr; [done|]. destruct (li_panic0 Hp) as (_ & _ & H7). specialize (H7 eq_refl). lia.
  - exfalso. destruct li_informer0 as (i & p & Hi & Hne). apply (Hne Hc). specialize (li_ended0 ltac:(lia)).
    by eapply Forall_lookup_1 in li_ended0; [|exact Hi].
Qed.

(** C39: the settings that validate, and which [New] accepts, do not exclude a panic of
    [Run]: it panics exactly when its caches have synced and the validity is below
    four nanoseconds, because the period of its expiry ticker is then zero.  From
    there on [Run] neither serves its tickers nor returns, and until its context is
    done it hangs in its deferred calls with the ready flag still set. *)
Theorem tiny_ttl_panics `{Float64} (cfg : settings) o c l s :
  options_typed (observer_options cfg) → validate cfg = None → opts = observer_options cfg →
  processing (obs_queue o) = ∅ → transports_ok c → life_run opts l (life_started o c) = Some s →
  New_options (observer_options cfg) = inr opts
  ∧ (life_panic s = true ↔ LifeSynced ∈ l ∧ ttl cfg < 4)
  ∧ (life_panic s = true →
       life_phase_ s ≠ LifeLoop ∧ life_phase_ s ≠ LifeReturned
       ∧ (life_ctx s = false → life_ready s = true ∧ ¬ over s)).
Proof.
  intros Hty Hv Heq Hp Hc Hrun. pose proof (life_run_inv l _ s (started_life o c Hp Hc) Hrun) as Hi.
  destruct (validated_settings_start cfg Hty Hv) as (Hnew & _). split_and!; [by rewrite Heq| |].
  - rewrite (life_run_panic o c l s Hp Hc Hrun), Heq. destruct (collection_budget _ _ Hty Hnew) as (_ & _ & _ & _ & _ & He & _).
    cbn [TTL observer_options] in He. destruct (decide (4 ≤ ttl cfg)); naive_solver lia.
  - intros Hpa. split_and!.
    + intros Hph. apply (li_loop _ Hi) in Hph. destruct (li_panic _ Hi Hpa) as (? & _). lia.
    + intros Hph. apply (li_return _ Hi) in Hph. congruence.
    + intros Hcx. destruct (panic_hangs s Hi Hpa Hcx) as [Hr Hst]. split; [done|]. intros [Ho|Ho]; rewrite Ho in Hst; cbn in Hst; lia.
Qed.
End claims.

(** ** The workers that are started *)

Lemma fmap_seqZ_const {A} (f : Z → A) m n x :
  (∀ i, m ≤ i < m + n → f i = x) → f <$> seqZ m n = replicate (Z.to_nat n) x.
Proof.
  intros Hf. apply list_eq_Forall2, Forall2_same_length_lookup. split; [by rewrite length_fmap, length_seqZ, length_replicate|].
  intros i a b Ha Hb. apply lookup_replicate in Hb as [-> _]. apply list_lookup_fmap_Some in Ha as (j & -> & Hj).
  apply lookup_seqZ in Hj as [-> Hj]. apply Hf. lia.
Qed.

(** As many observation workers as configured, the reserved part of them for urgent
    keys only, and at most 32 CA workers. *)
Lemma workers_started opts :
  1 ≤ MaxConcurrentClusters opts →
  startWorkers opts = startCAWorkers opts
    ++ replicate (Z.to_nat (urgent_workers opts)) (started (ObservationTask true))
    ++ replicate (Z.to_nat (general_workers opts)) (started (ObservationTask false)).
Proof.
  intros Hn. unfold startWorkers, urgent_workers, general_workers, urgent_workers.
  destruct (reservedCapacity_bounds (MaxConcurrentClusters opts) Hn) as [Hr0 Hr1]. set (r := reservedCapacity _) in *.
  f_equal. replace (MaxConcurrentClusters opts) with (r + (MaxConcurrentClusters opts - r)) at 1 by lia.
  rewrite seqZ_app, fmap_app by lia. f_equal; apply fmap_seqZ_const; intros i Hi.
  - by rewrite (proj2 (Z.ltb_lt i r)) by lia.
  - by rewrite (proj2 (Z.ltb_ge i r)) by lia.
Qed.

(** ** A concrete life *)

Section example.
#[local] Existing Instances identity_digest plain_access plain_text plain_range plain_keys plain_status integer_rates.

(** Two workers; the context is cancelled while one of them is busy. *)
Definition life_options : Options := Build_Options "" (5 * second) (15 * second) (2 * second) 128 2.

Definition life_schedule : list life_action :=
  [LifeSync; LifeSynced; LifeOffer (ClusterKey "app" "db"); LifeTask 6; LifeTask 6;
   LifeClient 6 (Install "PEM" "db-rw.app.svc" second); LifeExpiry [] second; LifeCancel; LifeDone; LifeDefer; LifeDefer;
   LifeTask 6; LifeTask 6; LifeTask 5; LifeTask 0; LifeTask 1; LifeTask 2; LifeTask 3; LifeTask 4; LifeDefer; LifeDefer; LifeDefer].

Definition life_of (l : list life_action) : option life :=
  life_run life_options l (life_started (example_observer) no_clients).

Definition life_summary (s : option life) : option (life_phase * bool * nat) :=
  s ← s; Some (life_phase_ s, life_ready s, length (sc_closed (life_clients s))).

Lemma life_schedule_returns : life_summary (life_of life_schedule) = Some (LifeReturned, false, 1%nat).
Proof. vm_compute. reflexivity. Qed.

Lemma no_clients_transports : transports_ok no_clients.
Proof. split; [apply NoDup_nil_2|constructor]. Qed.

Lemma run_returns_clean_witness :
  ∃ s, life_of life_schedule = Some s ∧ Forall ended (life_tasks s) ∧ sc_clients (life_clients s) = ∅.
Proof.
  pose proof life_schedule_returns as Hr. destruct (life_of life_schedule) as [s|] eqn:Hs; [|discriminate Hr].
  injection Hr as Hp _ _. exists s. split; [reflexivity|].
  destruct (run_returns_clean life_options example_observer no_clients life_schedule s eq_refl no_clients_transports Hs)
    as [_ Hret]. destruct (Hret (or_introl Hp)) as (He & _ & _ & _ & _ & Hc & _). split; [exact He|exact Hc].
Defined.

(** A validity of three nanoseconds, which validates. *)
Definition tiny_settings : settings := insecure_settings 1 3 1.

Lemma tiny_ttl_panics_witness :
  ∃ s, life_run (observer_options tiny_settings) [LifeSync; LifeSynced; LifeDefer; LifeDefer] (life_started example_observer no_clients) = Some s
    ∧ life_panic s = true ∧ life_ready s = true.
Proof.
  assert ((λ s, life_ctx s) <$> life_run (observer_options tiny_settings) [LifeSync; LifeSynced; LifeDefer; LifeDefer]
    (life_started example_observer no_clients) = Some false) as Hr by (vm_compute; reflexivity).
  destruct (life_run _ _ _) as [s|] eqn:Hs; [|discriminate Hr]. injection Hr as Hctx. exists s. split; [reflexivity|].
  destruct (tiny_ttl_panics (observer_options tiny_settings) tiny_settings example_observer no_clients
    [LifeSync; LifeSynced; LifeDefer; LifeDefer] s) as (_ & Hex & Hhang).
  - apply insecure_typed; split; vm_compute; discriminate.
  - vm_compute. reflexivity.
  - reflexivity.
  - reflexivity.
  - exact no_clients_transports.
  - exact Hs.
  - assert (life_panic s = true) as Hp by (apply Hex; split; [right; left|reflexivity]).
    split; [exact Hp|]. apply (Hhang Hp), Hctx.
Defined.

(** Right after the cancellation. *)
Lemma run_stops_witness :
  ∃ s, life_of (take 8 life_schedule) = Some s ∧ ∃ a, own_step a = true ∧ is_Some (life_do life_options a s).
Proof.
  assert ((λ s, (life_ctx s, life_phase_ s)) <$> life_of (take 8 life_schedule) = Some (true, LifeLoop)) as Hr
    by (vm_compute; reflexivity).
  destruct (life_of (take 8 life_schedule)) as [s|] eqn:Hs; [|discriminate Hr]. injection Hr as Hctx Hp.
  exists s. split; [reflexivity|].
  destruct (run_stops life_options example_observer no_clients (take 8 life_schedule) s eq_refl no_clients_transports Hs Hctx)
    as ([[Ho|Ho]|Ha] & _); [rewrite Hp in Ho; discriminate Ho..|exact Ha].
Defined.
End example.
