(* ===== verification/Plugin.v ===== *)
(** * The CNPG-I plugin service (src/internal/plugin/plugin.go)

    The operator's interface: identity, and the reconciliation hooks, which do no
    more than tell a notifier which Cluster changed.  [Notifier] is the Go
    interface; the observer implements it. *)

From S2P Require Import Prelude Api Mailbox Store StoreFacts StoreProps Queue QueueFacts Config Kube Topology Evidence Grpc GrpcProps.
From S2P Require Import Settings Observer ObserverFacts CollectionProps EventsProps.

(** Decoding the reference of a Cluster definition (namespace and name, empty when
    absent) and Kubernetes' check of a subdomain. *)
Class HookLibrary := {
  Unmarshal_reference : string → option (string * string);
  IsDNS1123Subdomain : string → bool; (* no message *)
}.

(** [Notify] on a state of type [S], at a time. *)
Class Notifier (S : Type) := notifier_Notify : string → string → time → State S ().

Record PluginMetadata := {
  metadata_Name : string;
  metadata_Version : string;
  metadata_DisplayName : string;
  metadata_Description : string;
  metadata_ProjectUrl : string;
  metadata_RepositoryUrl : string;
  metadata_License : string;
  metadata_LicenseUrl : string;
  metadata_Maturity : string;
}.

(** [service_notifies] is whether the notifier is not nil. *)
Record Service := { service_version : string; service_notifies : bool }.

Definition GetPluginMetadata (s : Service) : PluginMetadata := {|
  metadata_Name := PluginName; metadata_Version := service_version s; metadata_DisplayName := "CNPG Connect";
  metadata_Description := "PostgreSQL role and topology discovery for CloudNativePG";
  metadata_ProjectUrl := "https://github.com/nakiner/cnpg-connect-plugin";
  metadata_RepositoryUrl := "https://github.com/nakiner/cnpg-connect-plugin";
  metadata_License := "UNLICENSED"; metadata_LicenseUrl := "https://github.com/nakiner/cnpg-connect-plugin#license";
  metadata_Maturity := "alpha";
|}.

Inductive plugin_capability := TYPE_RECONCILER_HOOKS.
Inductive hook_capability := KIND_CLUSTER.
Inductive hook_behavior := BEHAVIOR_CONTINUE.

Definition GetPluginCapabilities (_ : Service) : list plugin_capability := [TYPE_RECONCILER_HOOKS].
Definition Probe (_ : Service) : bool := true.
Definition GetCapabilities (_ : Service) : list hook_capability := [KIND_CLUSTER].

Section hooks.
Context `{ServiceLibrary, HookLibrary} {S : Type} `{!Notifier S}.

Definition notify (srv : Service) (definition : string) (now : time) : State S hook_behavior :=
  (if service_notifies srv then
     match Unmarshal_reference definition with
     | Some (namespace, name) =>
         if IsDNS1123Label namespace && IsDNS1123Subdomain name then notifier_Notify namespace name now else mret ()
     | None => mret ()
     end
   else mret ()) ;;
  mret BEHAVIOR_CONTINUE.

Definition Pre (srv : Service) (definition : string) (now : time) : State S hook_behavior := notify srv definition now.
Definition Post (srv : Service) (definition : string) (now : time) : State S hook_behavior := notify srv definition now.
End hooks.

(** The observer as a notifier. *)
Definition observer_notifier `{RoutingDigest} (opts : Options) : Notifier Observer :=
  λ namespace name now, Notify opts (ClusterKey namespace name) now.

(** ** Correctness

    A hook never holds the operator up and never publishes: all it does is to queue
    a Cluster. *)

Section claims.
Context `{ServiceLibrary, HookLibrary, RoutingDigest, TextLibrary, MapRange, Unstructured}.
Context (opts : Options).
#[local] Instance the_observer : Notifier Observer := observer_notifier opts.

(** A definition that names a Cluster. *)
Definition names_cluster (definition namespace name : string) : Prop :=
  Unmarshal_reference definition = Some (namespace, name)
  ∧ IsDNS1123Label namespace = true ∧ IsDNS1123Subdomain name = true.

(** Urgent work. *)
Lemma Notify_run key now o :
  let o' := (Notify opts key now o).2 in
  steady o o' ∧ obs_calls o' = obs_calls o ∧ obs_demandNext o' = obs_demandNext o
  ∧ if wanted opts key now o
    then shuttingDown (obs_queue o) = false → key ∈ dirty (obs_queue o') ∧ is_promoted (obs_queue o') key = true
    else obs_queue o' = obs_queue o.
Proof.
  cbv zeta. unfold Notify. split; [apply enqueue_steady|]. destruct (wanted opts key now o) eqn:Hw.
  - rewrite enqueue_wanted by done. unfold on_store. destruct (HasDemand key now (obs_store o)) as [d s]. cbn.
    split_and!; [done..|]. intros Hs. rewrite Add_promoted, promote_promoted by done. split; [|done].
    apply Add_dirty. by rewrite promote_shuttingDown.
  - destruct (enqueue_unwanted opts key true now o Hw) as (-> & -> & ->). done.
Qed.

(** The Cluster a hook is about, if it is to be observed. *)
Definition hook_key (srv : Service) (definition : string) (now : time) (o : Observer) (key : clusterKey) : Prop :=
  service_notifies srv = true ∧ names_cluster definition (key_namespace key) (key_name key) ∧ wanted opts key now o = true.

(** A reconciliation hook lets the operator continue for every definition and
    state, publishes nothing and starts no timer; the Cluster it names is queued as
    urgent if it is enrolled and in demand, and otherwise the queue is
    unchanged. *)
Theorem hook_only_notifies srv definition now o :
  let m := Pre srv definition now o in
  m.1 = BEHAVIOR_CONTINUE ∧ Post srv definition now o = m
  ∧ steady o m.2 ∧ obs_calls m.2 = obs_calls o ∧ obs_demandNext m.2 = obs_demandNext o
  ∧ (∀ key, hook_key srv definition now o key → shuttingDown (obs_queue o) = false →
       key ∈ dirty (obs_queue m.2) ∧ is_promoted (obs_queue m.2) key = true)
  ∧ ((∀ key, ¬ hook_key srv definition now o key) → obs_queue m.2 = obs_queue o).
Proof.
  cbv zeta. unfold Pre, Post, notify, hook_key, names_cluster. rewrite !State_bind_run. cbn [mret State_ret fst snd].
  destruct (service_notifies srv); [|naive_solver]. destruct (Unmarshal_reference definition) as [[namespace name]|]; [|naive_solver].
  destruct (IsDNS1123Label namespace && IsDNS1123Subdomain name) eqn:Hv.
  2: { split_and!; try done. intros key (_ & ([= -> ->] & Hl & Hs) & _). by rewrite Hl, Hs in Hv. }
  apply andb_true_iff in Hv as [Hns Hn]. unfold notifier_Notify, the_observer, observer_notifier.
  destruct (Notify_run (ClusterKey namespace name) now o) as (Hs & Hc & Hd & Hq). do 5 (split; [done|]). split.
  - intros [ns n] (_ & ([= <- <-] & _) & Hw). rewrite Hw in Hq. exact Hq.
  - intros Hno. destruct (wanted opts (ClusterKey namespace name) now o) eqn:Hw; [|done]. exfalso. by apply (Hno (ClusterKey namespace name)).
Qed.
End claims.

(** ** A concrete hook *)

Section example.
#[local] Existing Instances identity_digest plain_service.

(** A decoder that knows one definition. *)
#[local] Instance plain_hooks : HookLibrary := {|
  Unmarshal_reference s := if bool_decide (s = "{}") then Some ("app", "db") else None;
  IsDNS1123Subdomain s := negb (bool_decide (s = ""));
|}.

(** With demand for the Cluster the hook queues it as urgent. *)
Example hook_queues :
  let o := set_obs_store (set_unaryDemand (<[ClusterKey "app" "db" := minute]>) (obs_store (quiet_observer "7"))) (quiet_observer "7") in
  let m := notify (Notifier0 := observer_notifier example_options) {| service_version := "dev"; service_notifies := true |} "{}" second o in
  m.1 = BEHAVIOR_CONTINUE ∧ urgent (obs_queue m.2) = [ClusterKey "app" "db"].
Proof. vm_compute. split; reflexivity. Qed.
End example.
