(* ===== verification/Metrics.v ===== *)
(** * Store metrics (src/internal/discovery/metrics.go)

    What [Store.WriteMetrics] collects under the lock: the loops visit the records and
    the subscriptions in the orders that Go's maps choose.  Ages are nanoseconds. *)

From S2P Require Import Prelude Api Mailbox Store StoreFacts StoreProps.

Section metrics.
Context `{RoutingDigest}.

Inductive snapshot_state := StateAvailable | StateUnavailable | StateExpired.

#[export] Instance snapshot_state_eq_dec : EqDecision snapshot_state.
Proof. solve_decision. Defined.

Definition record_state (now : time) (r : record) : snapshot_state :=
  if record_expired r || negb (Before now (snapshot_ValidUntil (record_snapshot r))) then StateExpired
  else if snapshot_Available (record_snapshot r) then StateAvailable
  else StateUnavailable.

Record store_metrics := {
  count_available : Z;
  count_unavailable : Z;
  count_expired : Z;
  watcher_count : Z;
  oldest_age : duration;
  publications_total : Z;
  expirations_total : Z;
}.

(** The body of the loop over the records. *)
Definition observe_record (now : time) (m : store_metrics) (r : record) : store_metrics :=
  let state := record_state now r in
  {| count_available := count_available m + Z.b2z (bool_decide (state = StateAvailable));
     count_unavailable := count_unavailable m + Z.b2z (bool_decide (state = StateUnavailable));
     count_expired := count_expired m + Z.b2z (bool_decide (state = StateExpired));
     watcher_count := watcher_count m;
     oldest_age := if bool_decide (snapshot_ObservedAt (record_snapshot r) = time_zero) then oldest_age m
                   else Z.max (oldest_age m) (now - snapshot_ObservedAt (record_snapshot r));
     publications_total := publications_total m; expirations_total := expirations_total m |}.

Definition observe_watchers (m : store_metrics) (subscriptions : gset sid) : store_metrics := {|
  count_available := count_available m; count_unavailable := count_unavailable m; count_expired := count_expired m;
  watcher_count := watcher_count m + Z.of_nat (size subscriptions); oldest_age := oldest_age m;
  publications_total := publications_total m; expirations_total := expirations_total m;
|}.

Definition no_metrics : store_metrics := {|
  count_available := 0; count_unavailable := 0; count_expired := 0; watcher_count := 0; oldest_age := 0;
  publications_total := 0; expirations_total := 0;
|}.

Definition WriteMetrics (now : time) (visited : list record) (watched : list (gset sid)) (s : Store) : store_metrics :=
  let m := foldl observe_watchers (foldl (observe_record now) no_metrics visited) watched in
  {| count_available := count_available m; count_unavailable := count_unavailable m; count_expired := count_expired m;
     watcher_count := watcher_count m; oldest_age := oldest_age m;
     publications_total := publicationOrder s; expirations_total := expirations s |}.
End metrics.

(** ** Correctness

    The states that are counted are those a client would read. *)

Section claims.
Context `{RoutingDigest}.

(** How many of [l] satisfy [f]. *)
Definition how_many {A} (f : A → bool) (l : list A) : Z := Z.of_nat (length (filter (λ x, f x = true) l)).

Lemma count_cons {A} (f : A → bool) x l : how_many f (x :: l) = Z.b2z (f x) + how_many f l.
Proof.
  unfold how_many. rewrite filter_cons. destruct (decide (f x = true)) as [Hf|Hf%not_true_iff_false]; rewrite Hf; cbn [length Z.b2z]; lia.
Qed.

Lemma count_perm {A} (f : A → bool) l l' : l ≡ₚ l' → how_many f l = how_many f l'.
Proof. intros Hl. unfold how_many. by rewrite Hl. Qed.

Lemma records_counted now l m :
  let m' := foldl (observe_record now) m l in
  count_available m' = count_available m + how_many (λ r, bool_decide (record_state now r = StateAvailable)) l
  ∧ count_unavailable m' = count_unavailable m + how_many (λ r, bool_decide (record_state now r = StateUnavailable)) l
  ∧ count_expired m' = count_expired m + how_many (λ r, bool_decide (record_state now r = StateExpired)) l
  ∧ watcher_count m' = watcher_count m.
Proof.
  revert m. induction l as [|r l IH]; intros m; cbn [foldl]; [unfold how_many; cbn; lia|]. rewrite !count_cons.
  destruct (IH (observe_record now m r)) as (-> & -> & -> & ->). cbn. lia.
Qed.

Lemma watchers_counted l m :
  let m' := foldl observe_watchers m l in
  count_available m' = count_available m ∧ count_unavailable m' = count_unavailable m ∧ count_expired m' = count_expired m
  ∧ watcher_count m' = watcher_count m + foldr (λ w n, Z.of_nat (size w) + n) 0 l.
Proof.
  revert m. induction l as [|w l IH]; intros m; cbn [foldl foldr]; [lia|].
  destruct (IH (observe_watchers m w)) as (-> & -> & -> & ->). cbn. lia.
Qed.

(** What a client that reads the Cluster would get. *)
Definition read_available (now : time) (s : Store) (k : clusterKey) : bool :=
  match (GetDeferred k now s).1.1 with Some snapshot => snapshot_Available snapshot | None => false end.

(** Whether the record has expired once it is read. *)
Definition read_expired (now : time) (s : Store) (k : clusterKey) : bool :=
  match records (GetDeferred k now s).2 !! k with Some r => record_expired r | None => false end.

Lemma read_state k r now s :
  store_wf s → records s !! k = Some r →
  read_available now s k = bool_decide (record_state now r = StateAvailable)
  ∧ read_expired now s k = bool_decide (record_state now r = StateExpired).
Proof.
  intros [Hrs _] Hr. unfold read_available, read_expired, GetDeferred, record_state. rewrite !State_bind_run. cbn [mret State_ret fst snd].
  pose proof (record_wf_expired _ _ _ _ _ (records_wf_each _ _ _ _ Hrs _ _ Hr)) as Hexp.
  destruct (expireRecord_cases r now) as [Hskip|[He Hle]].
  - rewrite (readPublication_live k r) by done. cbn [fst snd fmap option_fmap option_map]. rewrite Hr.
    destruct (record_expired r) eqn:He.
    + destruct (Hexp eq_refl) as (Hav & _). cbn. unfold record_snapshot in Hav. by rewrite Hav.
    + destruct Hskip as [|Hlt]; [done|]. rewrite (proj2 (Z.ltb_lt _ _) Hlt : Before now _ = true). cbn [orb negb].
      unfold record_snapshot. cbn. by destruct (snapshot_Available _).
  - rewrite (readPublication_expire k r) by done. rewrite expireRecord_fire by done. cbn [fst snd].
    apply Before_false in Hle. rewrite He, Hle. cbn. by rewrite lookup_insert_eq.
Qed.

(** Counting the values of a map is counting its keys. *)
Lemma count_keys {A} (f : A → bool) (g : clusterKey → bool) (m : gmap clusterKey A) l :
  l ≡ₚ (map_to_list m).*2 → (∀ k x, m !! k = Some x → g k = f x) → how_many f l = how_many g (elements (dom m)).
Proof.
  intros Hl Hfg. rewrite (count_perm f _ _ Hl). rewrite <-(count_perm g (map_to_list m).*1).
  2: { apply NoDup_Permutation; [apply NoDup_fst_map_to_list|apply NoDup_elements|]. intros k.
       rewrite elem_of_elements, elem_of_dom, list_elem_of_fmap. split.
       - intros ([k' x] & -> & Hx%elem_of_map_to_list). by exists x.
       - intros [x Hx%elem_of_map_to_list]. by exists (k, x). }
  assert (∀ k x, (k, x) ∈ map_to_list m → g k = f x) as Hin by (intros k x Hx; by apply Hfg, elem_of_map_to_list).
  clear Hl Hfg. induction (map_to_list m) as [|[k x] l' IH]; [done|]. rewrite !fmap_cons, !count_cons. cbn [fst snd].
  rewrite (Hin k x) by by left. f_equal. apply IH. intros k' x' Hx. apply Hin. by right.
Qed.

Lemma states_partition now l :
  how_many (λ r, bool_decide (record_state now r = StateAvailable)) l
  + how_many (λ r, bool_decide (record_state now r = StateUnavailable)) l
  + how_many (λ r, bool_decide (record_state now r = StateExpired)) l = Z.of_nat (length l).
Proof.
  induction l as [|r l IH]; [done|]. rewrite !count_cons. cbn [length]. destruct (record_state now r);
    repeat match goal with |- context [Z.b2z (bool_decide ?P)] =>
      let v := eval vm_compute in (Z.b2z (bool_decide P)) in change (Z.b2z (bool_decide P)) with v end; lia.
Qed.

(** Whatever the order in which the maps are visited, the snapshots counted as
    available are those that a client would read as available at that time, those
    counted as expired are those that would have expired once read, and every
    record is counted once. *)
Theorem metrics_match_reads now visited watched s :
  store_wf s → visited ≡ₚ (map_to_list (records s)).*2 →
  let m := WriteMetrics now visited watched s in
  count_available m = how_many (read_available now s) (elements (dom (records s)))
  ∧ count_expired m = how_many (read_expired now s) (elements (dom (records s)))
  ∧ count_available m + count_unavailable m + count_expired m = Z.of_nat (size (records s)).
Proof.
  intros Hwf Hv. cbv zeta. unfold WriteMetrics. cbn [count_available count_unavailable count_expired].
  destruct (watchers_counted watched (foldl (observe_record now) no_metrics visited)) as (-> & -> & -> & _).
  destruct (records_counted now visited no_metrics) as (-> & -> & -> & _). cbn [no_metrics count_available count_unavailable count_expired].
  rewrite !Z.add_0_l. split_and!.
  - apply count_keys; [done|]. intros k r Hr. by apply (read_state k r now s).
  - apply count_keys; [done|]. intros k r Hr. by apply (read_state k r now s).
  - rewrite states_partition, Hv, length_fmap, length_map_to_list. done.
Qed.
End claims.

(** ** A concrete scrape *)

Section example.
#[local] Existing Instance identity_digest.

(** The example's snapshot is no longer valid after a minute. *)
Lemma metrics_match_reads_witness :
  count_expired (WriteMetrics minute (map_to_list (records example_store)).*2 [] example_store) = 1
  ∧ count_available (WriteMetrics minute (map_to_list (records example_store)).*2 [] example_store)
    = how_many (read_available minute example_store) (elements (dom (records example_store))).
Proof.
  destruct (metrics_match_reads minute (map_to_list (records example_store)).*2 [] example_store) as (Ha & He & _).
  - exact (reachable_wf "process" _ example_reachable).
  - reflexivity.
  - split; [rewrite He; vm_compute; reflexivity|exact Ha].
Defined.
End example.
