(* ===== verification/Credentials.v ===== *)
(** * Credentials (src/internal/server/tls.go, token.go)

    The TLS configuration that is loaded again for every handshake, and the bearer
    token file.  The file system is an argument, from a path to the file's content;
    X.509 is an interface ([CertLibrary]). *)

From Stdlib Require Import Ascii.
From S2P Require Import Prelude.

Abbreviation filesystem := (string → option string).

(** ** TLS (tls.go) *)

(** [crypto/tls] and [crypto/x509] on PEM and DER text: a key pair is a leaf and the
    rest of its chain, [ParseValidity] reads [NotBefore] and [NotAfter] of a
    certificate, and [Verify_client] is [Verify] of a leaf with roots, intermediates
    and the client-auth usage at a time. *)
Class CertLibrary := {
  X509KeyPair : string → string → option (string * list string);
  ParseValidity : string → option (time * time);
  PoolAppend : string → bool;
  Verify_client : string → string → list string → time → bool;
}.

Inductive tls_error := ErrKeyPair | ErrLeaf | ErrValidity | ErrReadTrust | ErrNoTrust.

(** [tls_trust] is the pool of [VerifyConnection], set together with
    [ClientAuth = RequireAnyClientCert]. *)
Record tls_config := {
  tls_MinVersion : Z;
  tls_Certificate : string * list string;
  tls_NextProtos : list string;
  tls_SessionTicketsDisabled : bool;
  tls_trust : option string;
}.

Definition VersionTLS13 : Z := 772.

Section tls.
Context `{CertLibrary}.

(** [tls.LoadX509KeyPair]. *)
Definition LoadX509KeyPair (files : filesystem) (certFile keyFile : string) : option (string * list string) :=
  cert ← files certFile;
  key ← files keyFile;
  X509KeyPair cert key.

Definition load (files : filesystem) (now : time) (certFile keyFile clientTrust : string) : tls_error + tls_config :=
  match LoadX509KeyPair files certFile keyFile with
  | None => inl ErrKeyPair
  | Some cert =>
      match ParseValidity cert.1 with
      | None => inl ErrLeaf
      | Some (notBefore, notAfter) =>
          if Before now notBefore || negb (Before now notAfter) then inl ErrValidity
          else
            let cfg trust := {| tls_MinVersion := VersionTLS13; tls_Certificate := cert;
                                tls_NextProtos := ["h2"; "http/1.1"]; tls_SessionTicketsDisabled := true;
                                tls_trust := trust |} in
            if bool_decide (clientTrust = "") then inr (cfg None)
            else
              match files clientTrust with
              | None => inl ErrReadTrust
              | Some pem => if negb (PoolAppend pem) then inl ErrNoTrust else inr (cfg (Some pem))
              end
      end
  end.

(** The configuration [TLSConfig] returns: the initial one, and the paths that
    [GetConfigForClient] loads from. *)
Record server_tls := {
  st_initial : tls_config;
  st_certFile : string;
  st_keyFile : string;
  st_clientTrust : string;
}.

Definition TLSConfig (files : filesystem) (now : time) (certFile keyFile clientTrust : string) : tls_error + server_tls :=
  match load files now certFile keyFile clientTrust with
  | inl err => inl err
  | inr initial => inr {| st_initial := initial; st_certFile := certFile; st_keyFile := keyFile; st_clientTrust := clientTrust |}
  end.

Definition GetConfigForClient (st : server_tls) (files : filesystem) (now : time) : tls_error + tls_config :=
  load files now (st_certFile st) (st_keyFile st) (st_clientTrust st).

(** [VerifyConnection] on the certificates of the peer. *)
Definition VerifyConnection (pool : string) (peers : list string) (now : time) : bool :=
  match peers with
  | [] => false
  | leaf :: intermediates => Verify_client leaf pool intermediates now
  end.

(** Whether a handshake succeeds and with which certificate; [crypto/tls] asks for a
    configuration and checks the client against it. *)
Definition handshake (st : server_tls) (files : filesystem) (now : time) (peers : list string) : option (string * list string) :=
  match GetConfigForClient st files now with
  | inl _ => None
  | inr cfg =>
      match tls_trust cfg with
      | None => Some (tls_Certificate cfg)
      | Some pool => if VerifyConnection pool peers now then Some (tls_Certificate cfg) else None
      end
  end.
End tls.

(** ** The bearer token (token.go) *)

Abbreviation bytes := (list ascii).

Definition byte (n : N) : ascii := ascii_of_N n.

(** The UTF-8 encodings of the characters with [unicode.IsSpace]: tab to carriage
    return, space, U+0085, U+00A0, U+1680, U+2000 to U+200A, U+2028, U+2029, U+202F,
    U+205F and U+3000. *)
Definition space_encodings : list bytes :=
  ((λ n, [byte n]) <$> [9; 10; 11; 12; 13; 32]%N)
  ++ [[byte 194; byte 133]; [byte 194; byte 160]; [byte 225; byte 154; byte 128]]
  ++ ((λ n, [byte 226; byte 128; byte n]) <$> [128; 129; 130; 131; 132; 133; 134; 135; 136; 137; 138; 168; 169; 175]%N)
  ++ [[byte 226; byte 129; byte 159]; [byte 227; byte 128; byte 128]].

(** [l] after [prefix]. *)
Fixpoint strip_prefix (prefix l : bytes) : option bytes :=
  match prefix, l with
  | [], l => Some l
  | c :: prefix, d :: l => if bool_decide (c = d) then strip_prefix prefix l else None
  | _ :: _, [] => None
  end.

(** Without the first of [encs] that [l] starts with. *)
Fixpoint strip_one (encs : list bytes) (l : bytes) : option bytes :=
  match encs with
  | [] => None
  | e :: encs => match strip_prefix e l with Some l => Some l | None => strip_one encs l end
  end.

(** Strip as often as possible; every encoding has a byte, so [length l] rounds are
    enough. *)
Fixpoint strip_all (fuel : nat) (encs : list bytes) (l : bytes) : bytes :=
  match fuel with
  | O => l
  | S fuel => match strip_one encs l with Some l => strip_all fuel encs l | None => l end
  end.

Definition trim (encs : list bytes) (l : bytes) : bytes := strip_all (length l) encs l.

(** [strings.TrimSpace]: the left end, then the right end. *)
Definition TrimSpace (l : bytes) : bytes :=
  reverse (trim (reverse <$> space_encodings) (reverse (trim space_encodings l))).

(** A byte of a character that is not printable ASCII; a byte from 128 on belongs to a
    character above 0x7e. *)
Definition unprintable (c : ascii) : bool := (N_of_ascii c <? 33)%N || (126 <? N_of_ascii c)%N.

Inductive token_error := ErrReadToken | ErrTokenLength | ErrTokenBytes.

Definition ReadToken (files : filesystem) (path : string) : token_error + string :=
  match files path with
  | None => inl ErrReadToken
  | Some data =>
      let token := TrimSpace (String.list_ascii_of_string data) in
      if (length token <? 32)%nat then inl ErrTokenLength
      else if existsb unprintable token then inl ErrTokenBytes
      else inr (String.string_of_list_ascii token)
  end.
