(* ===== verification/CredentialsProps.v ===== *)
(** * Correctness of credentials

    The token is exactly the text between the white space of its file; and a
    handshake is decided by the files at that time alone. *)

From Stdlib Require Import Ascii.
From S2P Require Import Prelude Credentials.

(** ** Stripping *)

Lemma strip_prefix_spec p l r : strip_prefix p l = Some r ↔ l = p ++ r.
Proof.
  revert l. induction p as [|c p IH]; intros l; cbn; [naive_solver|]. destruct l as [|d l]; [naive_solver|].
  case_bool_decide; [rewrite IH|]; naive_solver.
Qed.

Lemma strip_one_some encs l r : strip_one encs l = Some r → ∃ e, e ∈ encs ∧ l = e ++ r.
Proof.
  induction encs as [|e encs IH]; [done|]. cbn. destruct (strip_prefix e l) as [r'|] eqn:E.
  - intros [= <-]. apply strip_prefix_spec in E. exists e. split; [by left|done].
  - intros (e' & ? & ?)%IH. exists e'. split; [by right|done].
Qed.

(** A set of codes none of which is a prefix of another. *)
Definition prefix_free (encs : list bytes) : bool :=
  forallb (λ e, forallb (λ e', bool_decide (e = e') || bool_decide (strip_prefix e e' = None)) encs) encs.

(** Every code starts with a byte that is not printable. *)
Definition unprintable_start (encs : list bytes) : bool :=
  forallb (λ e, match e with c :: _ => unprintable c | [] => false end) encs.

Section codes.
Context (encs : list bytes) (Hfree : prefix_free encs = true) (Hstart : unprintable_start encs = true).

Lemma prefix_unique e e' x y : e ∈ encs → e' ∈ encs → e ++ x = e' ++ y → e = e'.
Proof using Hfree.
  intros He He' Heq. unfold prefix_free in Hfree. rewrite forallb_forall in Hfree.
  assert (∀ a b r, a ∈ encs → b ∈ encs → b = a ++ r → a = b) as Hpre.
  { intros a b r Ha Hb Hr. apply list_elem_of_In in Ha, Hb. specialize (Hfree a Ha). rewrite forallb_forall in Hfree.
    specialize (Hfree b Hb). apply orb_true_iff in Hfree as [Hf|Hf]; apply bool_decide_eq_true in Hf; [done|].
    rewrite (proj2 (strip_prefix_spec a b r) Hr) in Hf. done. }
  apply app_eq_inv in Heq as [(k & -> & _)|(k & -> & _)]; [symmetry|]; eapply Hpre; done.
Qed.

Lemma strip_one_code e r : e ∈ encs → strip_one encs (e ++ r) = Some r.
Proof using Hfree.
  intros He. destruct (strip_one encs (e ++ r)) as [r'|] eqn:E.
  - apply strip_one_some in E as (e' & He' & Heq). pose proof (prefix_unique _ _ _ _ He He' Heq) as ->.
    by apply app_inv_head in Heq as ->.
  - exfalso. clear Hfree Hstart. induction encs as [|e' l IH]; [by apply not_elem_of_nil in He|]. cbn in E.
    destruct (strip_prefix e' (e ++ r)) eqn:E'; [done|]. apply elem_of_cons in He as [->|He]; [|by apply IH].
    by rewrite (proj2 (strip_prefix_spec e' (e' ++ r) r) eq_refl) in E'.
Qed.

Lemma strip_one_printable c l : unprintable c = false → strip_one encs (c :: l) = None.
Proof using Hstart.
  intros Hc. destruct (strip_one encs (c :: l)) as [r|] eqn:E; [|done].
  apply strip_one_some in E as (e & He & Heq). unfold unprintable_start in Hstart. rewrite forallb_forall in Hstart.
  apply list_elem_of_In in He. specialize (Hstart e He). destruct e as [|d e]; [done|]. injection Heq as -> _. congruence.
Qed.

Lemma code_length e : e ∈ encs → (0 < length e)%nat.
Proof using Hstart.
  intros He%list_elem_of_In. unfold unprintable_start in Hstart. rewrite forallb_forall in Hstart. specialize (Hstart e He).
  destruct e; [done|]. cbn. lia.
Qed.

Lemma strip_all_codes fuel pre mid :
  Forall (.∈ encs) pre → strip_one encs mid = None → (length pre ≤ fuel)%nat → strip_all fuel encs (concat pre ++ mid) = mid.
Proof using Hfree.
  revert fuel. induction pre as [|e pre IH]; intros fuel; cbn; [intros _ Hm _; destruct fuel; cbn; by rewrite ?Hm|].
  intros [He Hpre]%Forall_cons Hm Hf. destruct fuel as [|fuel]; [lia|]. cbn. rewrite <-app_assoc, strip_one_code by done.
  apply IH; [done..|lia].
Qed.

Lemma concat_length pre : Forall (.∈ encs) pre → (length pre ≤ length (concat pre))%nat.
Proof using Hstart.
  induction 1 as [|e pre He _ IH]; cbn; [lia|]. rewrite length_app. apply code_length in He. lia.
Qed.

(** Codes before a text that starts with none are stripped. *)
Lemma trim_codes pre mid : Forall (.∈ encs) pre → strip_one encs mid = None → trim encs (concat pre ++ mid) = mid.
Proof using Hfree Hstart.
  intros Hpre Hm. apply strip_all_codes; [done..|]. rewrite length_app. pose proof (concat_length pre Hpre). lia.
Qed.

(** Only codes are stripped. *)
Lemma trim_split l : ∃ pre, Forall (.∈ encs) pre ∧ l = concat pre ++ trim encs l.
Proof using.
  clear Hfree Hstart. unfold trim. generalize (length l) at 1. intros fuel. revert l. induction fuel as [|fuel IH]; intros l; [by exists []|]. cbn.
  destruct (strip_one encs l) as [r|] eqn:E; [|by exists []]. apply strip_one_some in E as (e & He & ->).
  destruct (IH r) as (pre & Hpre & Hr). exists (e :: pre). split; [by constructor|]. cbn. by rewrite <-app_assoc, <-Hr.
Qed.
End codes.

Lemma spaces_free : prefix_free space_encodings = true ∧ prefix_free (reverse <$> space_encodings) = true.
Proof. split; vm_compute; reflexivity. Qed.

Lemma spaces_start : unprintable_start space_encodings = true ∧ unprintable_start (reverse <$> space_encodings) = true.
Proof. split; vm_compute; reflexivity. Qed.

(** White space: encodings one after the other. *)
Definition white_space (l : bytes) : Prop := ∃ pre, Forall (.∈ space_encodings) pre ∧ l = concat pre.

Lemma reverse_concat (pre : list bytes) : reverse (concat pre) = concat (reverse <$> reverse pre).
Proof.
  induction pre as [|e pre IH]; [done|]. rewrite reverse_cons, fmap_app, concat_app, <-IH. cbn [concat fmap list_fmap]. by rewrite reverse_app, app_nil_r.
Qed.

Lemma white_space_reverse l : white_space l ↔ ∃ pre, Forall (.∈ reverse <$> space_encodings) pre ∧ reverse l = concat pre.
Proof.
  split.
  - intros (pre & Hpre & ->). exists (reverse <$> reverse pre). split; [|apply reverse_concat].
    apply Forall_fmap, Forall_reverse. eapply Forall_impl; [exact Hpre|]. intros e He. by apply list_elem_of_fmap_2.
  - intros (pre & Hpre & Hl). exists (reverse <$> reverse pre). split.
    + apply Forall_fmap, Forall_reverse. eapply Forall_impl; [exact Hpre|].
      intros e (e' & -> & He)%list_elem_of_fmap. cbn. by rewrite reverse_involutive.
    + by rewrite <-reverse_concat, <-Hl, reverse_involutive.
Qed.

Lemma TrimSpace_split l : ∃ pre post, white_space pre ∧ white_space post ∧ l = pre ++ TrimSpace l ++ post.
Proof.
  destruct (trim_split space_encodings l) as (pre & Hpre & Hl). set (m := trim space_encodings l) in *.
  destruct (trim_split (reverse <$> space_encodings) (reverse m)) as (post & Hpost & Hm).
  exists (concat pre), (reverse (concat post)). split; [by exists pre|]. split.
  - apply white_space_reverse. exists post. by rewrite reverse_involutive.
  - rewrite Hl at 1. f_equal. unfold TrimSpace. fold m. rewrite <-reverse_app, <-Hm. by rewrite reverse_involutive.
Qed.

Lemma TrimSpace_exact pre token post :
  white_space pre → white_space post → token ≠ [] → Forall (λ c, unprintable c = false) token →
  TrimSpace (pre ++ token ++ post) = token.
Proof.
  destruct spaces_free as [Hf Hf'], spaces_start as [Hs Hs']. intros (pres & Hpre & ->) Hpost Hne Hp. unfold TrimSpace.
  rewrite trim_codes; [|done..|].
  2: { destruct token as [|c token]; [done|]. apply Forall_cons in Hp as [Hc _]. by apply strip_one_printable. }
  rewrite reverse_app. apply white_space_reverse in Hpost as (posts & Hposts & ->). rewrite trim_codes; [by rewrite reverse_involutive|done..|].
  destruct token as [|c token _] using rev_ind; [done|]. apply Forall_app in Hp as [_ [Hc _]%Forall_cons].
  rewrite reverse_snoc. by apply strip_one_printable.
Qed.

(** A token is read if and only if the file is white space, a text of at least 32
    printable ASCII bytes and white space again, and it is that text. *)
Theorem token_exact files path token :
  ReadToken files path = inr token ↔
  ∃ data pre post, files path = Some data ∧ white_space pre ∧ white_space post
    ∧ String.list_ascii_of_string data = pre ++ String.list_ascii_of_string token ++ post
    ∧ (32 ≤ length (String.list_ascii_of_string token))%nat
    ∧ Forall (λ c, unprintable c = false) (String.list_ascii_of_string token).
Proof.
  unfold ReadToken. destruct (files path) as [data|]; [|naive_solver]. split.
  - destruct (Nat.ltb_spec (length (TrimSpace (String.list_ascii_of_string data))) 32) as [|Hlen]; [done|].
    destruct (existsb unprintable _) eqn:Hu; [done|]. intros [= <-]. rewrite !String.list_ascii_of_string_of_list_ascii.
    destruct (TrimSpace_split (String.list_ascii_of_string data)) as (pre & post & Hpre & Hpost & Hd).
    exists data, pre, post. split_and!; [done..|]. apply Forall_forall. intros c Hc. apply not_true_iff_false. intros Ht.
    apply not_true_iff_false in Hu. apply Hu, existsb_exists. exists c. by rewrite <-list_elem_of_In.
  - intros (d & pre & post & [= <-] & Hpre & Hpost & Hd & Hlen & Hp). rewrite Hd, TrimSpace_exact; [|done..| |done].
    2: { intros Hn. rewrite Hn in Hlen. cbn in Hlen. lia. }
    rewrite (proj2 (Nat.ltb_ge _ _) Hlen). replace (existsb unprintable _) with false.
    + by rewrite String.string_of_list_ascii_of_string.
    + symmetry. apply not_true_iff_false. intros (c & Hc & Ht)%existsb_exists. apply list_elem_of_In in Hc.
      rewrite Forall_forall in Hp. rewrite (Hp c Hc) in Ht. done.
Qed.

(** ** TLS *)

Section claims.
Context `{CertLibrary}.

(** The key pair of the files, with a leaf that is valid now. *)
Definition current_pair (files : filesystem) (now : time) (certFile keyFile : string) (cert : string * list string) : Prop :=
  LoadX509KeyPair files certFile keyFile = Some cert
  ∧ ∃ notBefore notAfter, ParseValidity cert.1 = Some (notBefore, notAfter) ∧ notBefore ≤ now < notAfter.

(** The trust of the files. *)
Definition current_trust (files : filesystem) (clientTrust : string) (trust : option string) : Prop :=
  if bool_decide (clientTrust = "") then trust = None
  else ∃ pem, trust = Some pem ∧ files clientTrust = Some pem ∧ PoolAppend pem = true.

Lemma load_exact files now certFile keyFile clientTrust cfg :
  load files now certFile keyFile clientTrust = inr cfg ↔
  current_pair files now certFile keyFile (tls_Certificate cfg) ∧ current_trust files clientTrust (tls_trust cfg)
  ∧ tls_MinVersion cfg = VersionTLS13 ∧ tls_NextProtos cfg = ["h2"; "http/1.1"] ∧ tls_SessionTicketsDisabled cfg = true.
Proof.
  unfold load, current_pair, current_trust. destruct (LoadX509KeyPair files certFile keyFile) as [cert|]; [|naive_solver].
  destruct (ParseValidity cert.1) as [[nb na]|] eqn:Hv.
  2: { split; [done|]. intros (([= <-] & ? & ? & ? & _) & _). congruence. }
  destruct (Before now nb || negb (Before now na)) eqn:Hb; unfold Before in Hb.
  { split; [done|]. intros (([= <-] & nb' & na' & Hv' & Hr) & _). rewrite Hv in Hv'. injection Hv' as <- <-.
    apply orb_true_iff in Hb as [?%Z.ltb_lt|?%negb_true_iff%Z.ltb_ge]; lia. }
  apply orb_false_iff in Hb as [?%Z.ltb_ge ?%negb_false_iff%Z.ltb_lt].
  assert (∃ notBefore notAfter, ParseValidity cert.1 = Some (notBefore, notAfter) ∧ notBefore ≤ now < notAfter) as Hok by by eexists _, _.
  destruct cfg as [mv c np st tr]. cbn [tls_MinVersion tls_Certificate tls_NextProtos tls_SessionTicketsDisabled tls_trust].
  case_bool_decide.
  { split; [intros [= <- <- <- <- <-]; by split_and!|]. by intros (([= <-] & _) & -> & -> & -> & ->). }
  destruct (files clientTrust) as [pem|]; [|split; [done|]; by intros (_ & (? & _ & ? & _) & _)].
  destruct (PoolAppend pem) eqn:Hp; cbn [negb].
  - split; [intros [= <- <- <- <- <-]; split_and!; try done; by exists pem|].
    by intros (([= <-] & _) & (? & -> & [= <-] & _) & -> & -> & ->).
  - split; [done|]. intros (_ & (? & _ & [= <-] & ?) & _). congruence.
Qed.

(** After a successful start a handshake succeeds exactly when the files at that
    time hold a key pair whose certificate is valid at that time, which is the one
    presented, and, for a server with client trust, the peer shows a certificate
    that verifies against the trust file at that time. *)
Theorem handshake_current files0 now0 certFile keyFile clientTrust st files now peers cert :
  TLSConfig files0 now0 certFile keyFile clientTrust = inr st →
  handshake st files now peers = Some cert ↔
  current_pair files now certFile keyFile cert
  ∧ ∃ trust, current_trust files clientTrust trust
    ∧ ∀ pem, trust = Some pem → ∃ leaf intermediates, peers = leaf :: intermediates ∧ Verify_client leaf pem intermediates now = true.
Proof.
  unfold TLSConfig. destruct (load files0 now0 certFile keyFile clientTrust) as [|initial]; [done|]. intros [= <-].
  unfold handshake, GetConfigForClient. cbn [st_certFile st_keyFile st_clientTrust].
  pose proof (load_exact files now certFile keyFile clientTrust) as Hload.
  destruct (load files now certFile keyFile clientTrust) as [err|cfg].
  - split; [done|]. intros (Hpair & trust & Htrust & _).
    destruct (Hload {| tls_MinVersion := VersionTLS13; tls_Certificate := cert; tls_NextProtos := ["h2"; "http/1.1"];
                       tls_SessionTicketsDisabled := true; tls_trust := trust |}) as [_ Hl]. by discriminate Hl.
  - destruct (Hload cfg) as [Hl _]. destruct (Hl eq_refl) as (Hpair & Htrust & _). split.
    + destruct (tls_trust cfg) as [pem|] eqn:Ht.
      * unfold VerifyConnection. destruct peers as [|leaf rest]; [done|]. destruct (Verify_client leaf pem rest now) eqn:Hv; [|done].
        intros [= <-]. split; [done|]. exists (Some pem). split; [done|]. intros ? [= <-]. by exists leaf, rest.
      * intros [= <-]. split; [done|]. exists None. by split.
    + intros (Hpair' & trust & Htrust' & Hpeers). assert (tls_Certificate cfg = cert) as Hc.
      { destruct Hpair as [Hp _], Hpair' as [Hp' _]. congruence. }
      assert (tls_trust cfg = trust) as -> by (unfold current_trust in *; case_bool_decide; naive_solver).
      destruct trust as [pem|]; [|by rewrite Hc]. destruct (Hpeers pem eq_refl) as (leaf & rest & -> & Hv). cbn. by rewrite Hv, Hc.
Qed.
End claims.

(** ** A rotation *)

Section example.

(** A library where a certificate names its issuer and a pool is a name. *)
Definition plain_certs : CertLibrary := {|
  X509KeyPair cert key := if bool_decide (cert = key) then Some (cert, []) else None;
  ParseValidity _ := Some (0, minute);
  PoolAppend pem := negb (bool_decide (pem = ""));
  Verify_client leaf pem _ _ := bool_decide (leaf = pem);
|}.
#[local] Existing Instance plain_certs.

Definition mounted (pair trust : string) : filesystem := λ path, Some (if bool_decide (path = "trust") then trust else pair).

(** After a rotation the old operator certificate is refused. *)
Lemma handshake_current_witness :
  ∃ st, TLSConfig (mounted "A" "old") second "cert" "key" "trust" = inr st
    ∧ handshake st (mounted "B" "new") second ["new"] = Some ("B", [])
    ∧ handshake st (mounted "B" "new") second ["old"] ≠ Some ("B", []).
Proof.
  eexists. split; [vm_compute; reflexivity|]. split.
  - apply (handshake_current (mounted "A" "old") second "cert" "key" "trust"); [vm_compute; reflexivity|]. split.
    + split; [vm_compute; reflexivity|]. exists 0, minute. split; [reflexivity|]. vm_compute. split; [discriminate|reflexivity].
    + exists (Some "new"). split; [|intros pem [= <-]; exists "new", []; split; vm_compute; reflexivity].
      exists "new". split; [reflexivity|]. split; vm_compute; reflexivity.
  - vm_compute. discriminate.
Defined.
End example.
