(* ===== verification/Command.v ===== *)
(** * The command (src/cmd/cnpg-connect-plugin/main.go)

    [parseSettings] with the scanning of [flag.FlagSet.Parse], and [run] up to the
    call of [server.Run], whose arguments are its outcome.  The text forms of
    numbers and durations are an interface ([FlagLibrary]). *)

From Stdlib Require Import Ascii.
From S2P Require Import Prelude Grpc Admission Settings Credentials.

(** [strconv] and [time.ParseDuration] as the flag package calls them, and the
    constant 100 of type float64. *)
Class FlagLibrary `{Float64} := {
  ParseInt : string → option Z;
  ParseDuration : string → option duration;
  ParseFloat : string → option float64;
  float_100 : float64;
}.

(** ** Flags *)

Inductive flag_kind := FlagString | FlagBool | FlagFloat | FlagInt | FlagDuration.

Definition flag_kinds : gmap string flag_kind := list_to_map [
  ("plugin-address", FlagString); ("discovery-address", FlagString); ("health-address", FlagString);
  ("server-cert", FlagString); ("server-key", FlagString); ("client-ca", FlagString);
  ("discovery-cert", FlagString); ("discovery-key", FlagString); ("discovery-plaintext", FlagBool);
  ("auth-token-file", FlagString); ("namespace", FlagString); ("kubeconfig", FlagString);
  ("kube-api-qps", FlagFloat); ("kube-api-burst", FlagInt); ("poll-interval", FlagDuration); ("ttl", FlagDuration);
  ("probe-timeout", FlagDuration); ("max-concurrency", FlagInt); ("max-concurrent-clusters", FlagInt);
  ("max-concurrent-streams", FlagInt); ("max-discovery-connections", FlagInt); ("max-discovery-rpcs", FlagInt);
  ("max-discovery-watches", FlagInt); ("initial-request-timeout", FlagDuration);
  ("insecure", FlagBool); ("version", FlagBool)].

(** [strconv.ParseBool]. *)
Definition ParseBool (s : string) : option bool :=
  if Contains ["1"; "t"; "T"; "true"; "TRUE"; "True"] s then Some true
  else if Contains ["0"; "f"; "F"; "false"; "FALSE"; "False"] s then Some false
  else None.

Inductive flag_error :=
  | ErrHelp
  | ErrBadSyntax (arg : string)
  | ErrUndefined (name : string)
  | ErrInvalidValue (name : string)
  | ErrNeedsArgument (name : string)
  | ErrPositional.

(** The text before and after the first [=]. *)
Fixpoint cut_value (s : string) : string * option string :=
  match s with
  | EmptyString => (EmptyString, None)
  | String c s =>
      if bool_decide (c = "="%char) then (EmptyString, Some s)
      else let '(name, value) := cut_value s in (String c name, value)
  end.

(** What one argument is. *)
Inductive flag_token :=
  | NotAFlag
  | Terminator
  | BadSyntax
  | Named (name : string) (value : option string).

Definition classify (arg : string) : flag_token :=
  let named name :=
    match name with
    | EmptyString => BadSyntax
    | String c _ => if bool_decide (c = "-"%char) || bool_decide (c = "="%char) then BadSyntax
                    else let '(n, v) := cut_value name in Named n v
    end in
  match arg with
  | String "-"%char (String "-"%char name) => if bool_decide (name = "") then Terminator else named name
  | String "-"%char (String c name) => named (String c name)
  | _ => NotAFlag
  end.

Section command.
Context `{FlagLibrary}.

Definition valid_value (kind : flag_kind) (v : string) : bool :=
  match kind with
  | FlagString => true
  | FlagBool => bool_decide (is_Some (ParseBool v))
  | FlagFloat => match ParseFloat v with Some _ => true | None => false end
  | FlagInt => bool_decide (is_Some (ParseInt v))
  | FlagDuration => bool_decide (is_Some (ParseDuration v))
  end.

(** [FlagSet.Parse]: the flags that were set, each with the text of its last value,
    and the remaining arguments. *)
Fixpoint parse_flags (args : list string) (set : gmap string string) : flag_error + (gmap string string * list string) :=
  match args with
  | [] => inr (set, [])
  | arg :: args =>
      match classify arg with
      | NotAFlag => inr (set, arg :: args)
      | Terminator => inr (set, args)
      | BadSyntax => inl (ErrBadSyntax arg)
      | Named name value =>
          match flag_kinds !! name with
          | None => inl (if Contains ["help"; "h"] name then ErrHelp else ErrUndefined name)
          | Some kind =>
              match (if bool_decide (is_Some value) then value else
                     match kind with FlagBool => Some "true" | _ => None end) with
              | Some v => if valid_value kind v then parse_flags args (<[name := v]> set) else inl (ErrInvalidValue name)
              | None =>
                  match args with
                  | [] => inl (ErrNeedsArgument name)
                  | v :: args => if valid_value kind v then parse_flags args (<[name := v]> set) else inl (ErrInvalidValue name)
                  end
              end
          end
      end
  end.

Section values.
Context (set : gmap string string).

Definition string_flag (name fallback : string) : string := default fallback (set !! name).
Definition bool_flag (name : string) : bool := default false (set !! name ≫= ParseBool).
Definition int_flag (name : string) (fallback : Z) : Z := default fallback (set !! name ≫= ParseInt).
Definition duration_flag (name : string) (fallback : duration) : duration := default fallback (set !! name ≫= ParseDuration).
Definition float_flag (name : string) (fallback : float64) : float64 := default fallback (set !! name ≫= ParseFloat).

(** The loopback default of an address that was not set explicitly. *)
Definition address_flag (name fallback loopback : string) : string :=
  if bool_flag "insecure" && bool_decide (set !! name = None) then loopback else string_flag name fallback.

Definition flag_settings : settings := {|
  pluginAddress := address_flag "plugin-address" ":9090" "127.0.0.1:9090";
  discoveryAddress := address_flag "discovery-address" ":8080" "127.0.0.1:8080";
  healthAddress := address_flag "health-address" ":8081" "127.0.0.1:8081";
  serverCert := string_flag "server-cert" ""; serverKey := string_flag "server-key" "";
  clientCA := string_flag "client-ca" "";
  discoveryCert := string_flag "discovery-cert" ""; discoveryKey := string_flag "discovery-key" "";
  discoveryPlaintext := bool_flag "discovery-plaintext";
  authTokenFile := string_flag "auth-token-file" "";
  settings_namespace := string_flag "namespace" ""; kubeconfig := string_flag "kubeconfig" "";
  kubeAPIQPS := float_flag "kube-api-qps" float_100; kubeAPIBurst := int_flag "kube-api-burst" 200;
  pollInterval := duration_flag "poll-interval" (5 * second); ttl := duration_flag "ttl" (15 * second);
  probeTimeout := duration_flag "probe-timeout" (2 * second);
  maxConcurrency := int_flag "max-concurrency" 128; maxConcurrentClusters := int_flag "max-concurrent-clusters" 32;
  limits := {|
    MaxConcurrentStreams := int_flag "max-concurrent-streams" (MaxConcurrentStreams DefaultLimits);
    MaxConnections := int_flag "max-discovery-connections" (MaxConnections DefaultLimits);
    MaxRPCs := int_flag "max-discovery-rpcs" (MaxRPCs DefaultLimits);
    MaxWatches := int_flag "max-discovery-watches" (MaxWatches DefaultLimits);
    InitialRequestTimeout := duration_flag "initial-request-timeout" (InitialRequestTimeout DefaultLimits) |};
  insecure := bool_flag "insecure"; showVersion := bool_flag "version";
|}.
End values.

Definition parseSettings (args : list string) : flag_error + settings :=
  match parse_flags args ∅ with
  | inl err => inl err
  | inr (set, rest) => if bool_decide (rest = []) then inr (flag_settings set) else inl ErrPositional
  end.

(** ** Running *)

Context `{CertLibrary, ServiceLibrary}.

Inductive command_error :=
  | CommandFlags (err : flag_error)
  | CommandSettings (err : settings_error)
  | CommandPluginTLS (err : tls_error)
  | CommandDiscoveryTLS (err : tls_error)
  | CommandToken (err : token_error)
  | CommandKubernetes
  | CommandObserver (err : options_error).

(** The arguments of [server.Run]. *)
Record served := {
  served_settings : settings; (* the addresses and limits *)
  PluginTLS : option server_tls;
  DiscoveryTLS : option server_tls;
  served_options : Options;
  served_server : Server; (* discovery.NewServer *)
}.

Inductive command_outcome :=
  | Helped
  | Versioned
  | Failed (err : command_error)
  | Served (c : served).

(** [token, err = ...]: no token without a file. *)
Definition read_token_file (files : filesystem) (path : string) : token_error + string :=
  if bool_decide (path = "") then inr "" else ReadToken files path.

(** The TLS configurations and the token. *)
Definition load_credentials (files : filesystem) (now1 now2 : time) (s : settings) :
    command_error + (option server_tls * option server_tls * string) :=
  if insecure s then inr (None, None, "")
  else
    match TLSConfig files now1 (serverCert s) (serverKey s) (clientCA s) with
    | inl err => inl (CommandPluginTLS err)
    | inr plugin =>
        match (if discoveryPlaintext s then inr None
               else match TLSConfig files now2 (discoveryCert s) (discoveryKey s) "" with
                    | inl err => inl err
                    | inr tls => inr (Some tls)
                    end) with
        | inl err => inl (CommandDiscoveryTLS err)
        | inr discovery =>
            match read_token_file files (authTokenFile s) with
            | inl err => inl (CommandToken err)
            | inr token => inr (Some plugin, discovery, token)
            end
        end
    end.

(** [kube] is whether the Kubernetes configuration and clients can be made from a
    kubeconfig path. *)
Definition run (files : filesystem) (now1 now2 : time) (kube : string → bool) (args : list string) : command_outcome :=
  match parseSettings args with
  | inl ErrHelp => Helped
  | inl err => Failed (CommandFlags err)
  | inr s =>
      if showVersion s then Versioned
      else
        match validate s with
        | Some err => Failed (CommandSettings err)
        | None =>
            match load_credentials files now1 now2 s with
            | inl err => Failed err
            | inr (plugin, discovery, token) =>
                if negb (kube (kubeconfig s)) then Failed CommandKubernetes
                else
                  match New_options (observer_options s) with
                  | inl err => Failed (CommandObserver err)
                  | inr options =>
                      Served {| served_settings := s; PluginTLS := plugin; DiscoveryTLS := discovery;
                                served_options := options; served_server := NewServer token |}
                  end
            end
        end
  end.
End command.
