(* ===== verification/CommandProps.v ===== *)
(** * Correctness of the command

    Flags that are written out are read back, and what the command serves is as
    secure as its settings say. *)

From Stdlib Require Import Ascii.
From S2P Require Import Prelude Grpc GrpcProps Admission Settings SettingsProps Credentials CredentialsProps Command.

(** ** Flags *)

Definition render_flag (x : string * string) : string := "--" +:+ x.1 +:+ "=" +:+ x.2.

(** A name that [classify] finds again. *)
Definition plain_name (name : string) : bool :=
  match name with
  | EmptyString => false
  | String c _ => negb (bool_decide (c = "-"%char)) && forallb (λ c, negb (bool_decide (c = "="%char))) (String.list_ascii_of_string name)
  end.

Lemma flag_names_plain : map_Forall (λ name _, plain_name name = true) flag_kinds.
Proof. apply map_Forall_to_list, Forall_forall. intros x Hx. revert x Hx. apply Forall_forall. vm_compute. repeat constructor. Qed.

Lemma cut_value_app name v :
  forallb (λ c, negb (bool_decide (c = "="%char))) (String.list_ascii_of_string name) = true →
  cut_value (name +:+ "=" +:+ v) = (name, Some v).
Proof.
  induction name as [|c name IH]; [done|]. cbn [String.list_ascii_of_string forallb]. intros [Hc Hn]%andb_true_iff.
  apply negb_true_iff in Hc. change (String c name +:+ "=" +:+ v) with (String c (name +:+ "=" +:+ v)).
  cbn [cut_value]. by rewrite Hc, IH.
Qed.

Lemma classify_flag name v : plain_name name = true → classify (render_flag (name, v)) = Named name (Some v).
Proof.
  destruct name as [|c name]; [done|]. unfold plain_name. intros [Hc Hn]%andb_true_iff. apply negb_true_iff in Hc.
  unfold render_flag. cbn [fst snd]. change ("--" +:+ String c name +:+ "=" +:+ v) with
    (String "-" (String "-" (String c name +:+ "=" +:+ v))).
  unfold classify. rewrite bool_decide_false by done. change (String c name +:+ "=" +:+ v) with (String c (name +:+ "=" +:+ v)) at 1.
  cbv iota. rewrite Hc. cbn [String.list_ascii_of_string forallb] in Hn. pose proof Hn as [He _]%andb_true_iff. apply negb_true_iff in He. rewrite He.
  cbn [orb]. change (String c (name +:+ "=" +:+ v)) with (String c name +:+ "=" +:+ v). by rewrite cut_value_app.
Qed.

Section claims.
Context `{FlagLibrary}.

(** A flag that exists, with a value of its kind. *)
Definition valid_flag (x : string * string) : Prop := ∃ kind, flag_kinds !! x.1 = Some kind ∧ valid_value kind x.2 = true.

(** Setting flags one after the other. *)
Definition set_flags (l : list (string * string)) (set : gmap string string) : gmap string string :=
  foldl (λ m x, <[x.1 := x.2]> m) set l.

(** Flags written as [--name=value] are read back: each with its last value, and
    no argument is left. *)
Theorem flags_roundtrip l :
  Forall valid_flag l → parse_flags (render_flag <$> l) ∅ = inr (set_flags l ∅, []).
Proof.
  generalize (∅ : gmap string string). induction l as [|[name v] l IH]; intros set; [done|].
  intros [(kind & Hk & Hv) Hl]%Forall_cons. rewrite fmap_cons. cbn [parse_flags fst snd] in *.
  rewrite classify_flag by exact (flag_names_plain _ _ Hk). rewrite Hk, bool_decide_true by done. cbv iota beta. rewrite Hv. by apply IH.
Qed.
End claims.

(** ** The command *)

Section command.
Context `{FlagLibrary, CertLibrary, ServiceLibrary}.

(** The address of a listener of a development setup: set explicitly, or loopback. *)
Definition address_private (set : gmap string string) (name loopback address : string) : Prop :=
  set !! name = None → address = loopback.

Lemma address_flag_private set name fallback loopback :
  bool_flag set "insecure" = true → address_private set name loopback (address_flag set name fallback loopback).
Proof. intros Hi Hs. unfold address_flag. by rewrite Hi, Hs, bool_decide_true. Qed.

Lemma parseSettings_flags args s :
  parseSettings args = inr s → ∃ set, parse_flags args ∅ = inr (set, []) ∧ s = flag_settings set.
Proof.
  unfold parseSettings. destruct (parse_flags args ∅) as [|[set rest]]; [done|]. case_bool_decide; [|done]. subst rest.
  intros [= <-]. by exists set.
Qed.

(** What [validate] says about the files. *)
Lemma validate_files s :
  validate s = None → insecure s = false →
  clientCA s ≠ "" ∧ (discoveryPlaintext s = false → discoveryCert s ≠ "").
Proof.
  unfold validate. intros Hv Hi. rewrite Hi in Hv. destruct (Validate (limits s)); [done|].
  repeat (match type of Hv with (if ?b then _ else _) = None => destruct b eqn:?; [done|] end).
  unfold empty in *. repeat match goal with H : _ || _ = false |- _ => apply orb_false_iff in H as [? ?] end.
  repeat match goal with H : bool_decide _ = false |- _ => apply bool_decide_eq_false in H end.
  split; [done|]. intros Hd. rewrite Hd in *. cbn [negb andb] in *. by case_bool_decide.
Qed.

Lemma TLSConfig_paths files now certFile keyFile clientTrust st :
  TLSConfig files now certFile keyFile clientTrust = inr st →
  st_certFile st = certFile ∧ st_keyFile st = keyFile ∧ st_clientTrust st = clientTrust
  ∧ current_pair files now certFile keyFile (tls_Certificate (st_initial st))
  ∧ (clientTrust ≠ "" → is_Some (tls_trust (st_initial st))).
Proof.
  unfold TLSConfig. destruct (load files now certFile keyFile clientTrust) as [|cfg] eqn:Hl; [done|]. intros [= <-].
  apply load_exact in Hl as (Hpair & Htrust & _). cbn. split_and!; [done..|]. intros Hne. unfold current_trust in Htrust.
  rewrite bool_decide_false in Htrust by done. destruct Htrust as (pem & -> & _). by eexists.
Qed.

Lemma ReadToken_nonempty files path token : ReadToken files path = inr token → token ≠ "".
Proof.
  unfold ReadToken. destruct (files path); [|done]. destruct (Nat.ltb_spec (length (TrimSpace (String.list_ascii_of_string s))) 32); [done|].
  destruct (existsb _ _); [done|]. intros [= <-] Heq. apply (f_equal String.list_ascii_of_string) in Heq.
  rewrite String.list_ascii_of_string_of_list_ascii in Heq. rewrite Heq in *. cbn in *. lia.
Qed.

(** The credentials of a run match its settings. *)
Lemma credentials_match files now1 now2 s plugin discovery token :
  validate s = None → load_credentials files now1 now2 s = inr (plugin, discovery, token) →
  if insecure s then plugin = None ∧ discovery = None ∧ token = ""
  else
    (∃ st, plugin = Some st ∧ st_clientTrust st = clientCA s ∧ is_Some (tls_trust (st_initial st))
       ∧ current_pair files now1 (serverCert s) (serverKey s) (tls_Certificate (st_initial st)))
    ∧ (discoveryPlaintext s = false → ∃ st, discovery = Some st
       ∧ current_pair files now2 (discoveryCert s) (discoveryKey s) (tls_Certificate (st_initial st)))
    ∧ (token = "" ↔ authTokenFile s = "").
Proof.
  intros Hv. unfold load_credentials. destruct (insecure s) eqn:Hi; [by intros [= <- <- <-]|].
  destruct (validate_files s Hv Hi) as [Hca Hdc].
  destruct (TLSConfig files now1 _ _ _) as [|st] eqn:Hp; [done|]. apply TLSConfig_paths in Hp as (_ & _ & Hct & Hpair & Htrust).
  destruct (if discoveryPlaintext s then _ else _) as [|disc] eqn:Hd; [done|].
  destruct (read_token_file files (authTokenFile s)) as [|tok] eqn:Ht; [done|]. intros [= <- <- <-]. split_and!.
  - exists st. split_and!; [done..|by apply Htrust|done].
  - intros Hpl. rewrite Hpl in Hd. destruct (TLSConfig files now2 _ _ _) as [|st2] eqn:Hp2; [done|]. injection Hd as <-.
    exists st2. split; [done|]. by apply TLSConfig_paths in Hp2 as (_ & _ & _ & ? & _).
  - unfold read_token_file in Ht. case_bool_decide as Hf; [injection Ht as <-; done|]. split; [|done].
    intros ->. by apply ReadToken_nonempty in Ht.
Qed.

(** C24: when the command serves, its settings are those of its flags and valid.  With
    [--insecure] there is no TLS and no token, and every listener address was set
    explicitly or is a loopback address.  Otherwise the operator interface
    requires a client certificate that its trust file verifies, discovery has a
    certificate unless it was asked to be plaintext, and requests need a token
    exactly when a token file was given. *)
Theorem command_secure files now1 now2 kube args c :
  Command.run files now1 now2 kube args = Served c →
  ∃ set, parse_flags args ∅ = inr (set, []) ∧ served_settings c = flag_settings set
    ∧ validate (served_settings c) = None ∧ New_options (observer_options (served_settings c)) = inr (served_options c)
    ∧ let s := served_settings c in
      if insecure s then
        PluginTLS c = None ∧ DiscoveryTLS c = None ∧ authenticated (served_server c) = false
        ∧ address_private set "plugin-address" "127.0.0.1:9090" (pluginAddress s)
        ∧ address_private set "discovery-address" "127.0.0.1:8080" (discoveryAddress s)
        ∧ address_private set "health-address" "127.0.0.1:8081" (healthAddress s)
      else
        (∃ st, PluginTLS c = Some st ∧ st_clientTrust st = clientCA s ∧ is_Some (tls_trust (st_initial st))
           ∧ current_pair files now1 (serverCert s) (serverKey s) (tls_Certificate (st_initial st)))
        ∧ (discoveryPlaintext s = false → ∃ st, DiscoveryTLS c = Some st
           ∧ current_pair files now2 (discoveryCert s) (discoveryKey s) (tls_Certificate (st_initial st)))
        ∧ (authenticated (served_server c) = true ↔ authTokenFile s ≠ "").
Proof.
  unfold Command.run. destruct (parseSettings args) as [err|s] eqn:Hs; [by destruct err|]. destruct (showVersion s); [done|].
  destruct (validate s) eqn:Hv; [done|]. destruct (load_credentials files now1 now2 s) as [|[[plugin discovery] token]] eqn:Hl; [done|].
  destruct (negb (kube (kubeconfig s))); [done|]. destruct (New_options (observer_options s)) as [|options] eqn:Ho; [done|].
  intros [= <-]. cbn [served_settings served_options PluginTLS DiscoveryTLS served_server NewServer authenticated].
  apply parseSettings_flags in Hs as (set & Hp & Hset). exists set. do 4 (split; [done|]). cbv zeta.
  apply credentials_match in Hl; [|done]. destruct (insecure s) eqn:Hi.
  - destruct Hl as (-> & -> & ->). split_and!; [done..| | |]; subst s; by apply address_flag_private.
  - destruct Hl as (Hplugin & Hdisc & Htok). split_and!; [done..|]. rewrite negb_true_iff, bool_decide_eq_false. by rewrite Htok.
Qed.
End command.

(** ** A concrete command line *)

Section example.
#[local] Existing Instances integer_rates plain_certs plain_service.

(** No numbers are parsed: the defaults are used. *)
#[local] Instance plain_flags : FlagLibrary := {|
  ParseInt _ := None; ParseDuration _ := None; ParseFloat _ := None; float_100 := 100 : @float64 integer_rates;
|}.

Lemma flags_roundtrip_witness :
  parse_flags ["--insecure=true"; "--plugin-address=:1=2"; "--insecure=0"] ∅
  = inr (set_flags [("insecure", "true"); ("plugin-address", ":1=2"); ("insecure", "0")] ∅, []).
Proof.
  apply (flags_roundtrip [("insecure", "true"); ("plugin-address", ":1=2"); ("insecure", "0")]).
  constructor; [exists FlagBool; split; vm_compute; reflexivity|].
  constructor; [exists FlagString; split; vm_compute; reflexivity|].
  constructor; [exists FlagBool; split; vm_compute; reflexivity|constructor].
Defined.

Definition example_args : list string :=
  ["--server-cert=cert"; "--server-key"; "key"; "-client-ca=trust"; "-discovery-plaintext"; "--auth-token-file=token"].

Definition example_files : filesystem := λ path,
  Some (if bool_decide (path = "token") then "  0123456789abcdef0123456789abcdef " else "PEM").

Lemma command_secure_witness :
  ∃ c, Command.run example_files second second (λ _, true) example_args = Served c
    ∧ authenticated (served_server c) = true ∧ is_Some (PluginTLS c).
Proof.
  destruct (Command.run example_files second second (λ _, true) example_args) as [| | |c] eqn:E; [vm_compute in E; discriminate E..|].
  exists c. split; [reflexivity|].
  assert (insecure (served_settings c) = false ∧ authTokenFile (served_settings c) ≠ "") as [Hi Hf].
  { vm_compute in E. injection E as <-. split; [reflexivity|discriminate]. }
  destruct (command_secure _ _ _ _ _ _ E) as (set & _ & _ & _ & _ & Hs). cbv zeta in Hs. rewrite Hi in Hs.
  destruct Hs as ((st & Hp & _) & _ & Ht). split; [apply Ht; exact Hf|]. exists st. exact Hp.
Defined.
End example.
