(* ===== verification/Http.v ===== *)
(** * The discovery HTTP layer (src/internal/server/discovery_http.go, metrics_connections.go, admission.go)

    What surrounds the admission of a request ([Admission]): the answer to a
    rejected one, the write deadline and the callbacks of an admitted one, and the
    accounting and maximal age of connections.  Callbacks registered with
    [context.AfterFunc] run in goroutines of their own: each is a series of actions
    that can be interleaved with the handler. *)

From Stdlib Require Import Ascii.
From S2P Require Import Prelude Config Grpc Admission.

(** ** Rejections *)

(** The numbers of [codes.Code]. *)
Definition code_number (c : code) : Z :=
  match c with
  | Canceled => 1
  | InvalidArgument => 3
  | DeadlineExceeded => 4
  | NotFound => 5
  | ResourceExhausted => 8
  | Unauthenticated => 16
  end.

(** [shouldEscape] of [net/url] for a path segment. *)
Definition unescaped (c : ascii) : bool :=
  let n := N_of_ascii c in
  ((97 <=? n) && (n <=? 122) || (65 <=? n) && (n <=? 90) || (48 <=? n) && (n <=? 57))%N
  || has_byte "-_.~$&+:=@" c.

(** An upper case hexadecimal digit. *)
Definition hex_digit (n : N) : ascii := ascii_of_N (if (n <? 10)%N then 48 + n else 55 + n)%N.

(** [url.PathEscape]. *)
Fixpoint PathEscape (s : string) : string :=
  match s with
  | EmptyString => EmptyString
  | String c s =>
      if unescaped c then String c (PathEscape s)
      else String "%" (String (hex_digit (N_of_ascii c / 16)) (String (hex_digit (N_of_ascii c mod 16)) (PathEscape s)))
  end.

Record http_reply := { reply_status : Z; reply_headers : gmap string string }.

Definition reject (st : status) : http_reply := {|
  reply_status := 200;
  reply_headers := <["Grpc-Message" := PathEscape (status_message st)]>
                  (<["Grpc-Status" := pretty (code_number (status_code st))]> {["Content-Type" := "application/grpc"]});
|}.

(** [metadata.MD] of the request's headers. *)
Definition incoming_metadata `{TextLibrary, MapRange} (header : gmap string (list string)) : gmap string (list string) :=
  foldl (λ md x, <[ToLower x.1 := x.2]> md) ∅ (range header).

(** ** The write deadline *)

Definition canceledResponseGrace : duration := 100 * millisecond.

(** [w_deadlines] are the calls of [SetWriteDeadline]. *)
Record responseWriteDeadline := {
  w_open : bool; (* controller is not nil *)
  w_armed : bool;
  w_deadlines : list time;
}.

Definition write_cancel (now : time) (w : responseWriteDeadline) : responseWriteDeadline :=
  if negb (w_open w) || w_armed w then w
  else {| w_open := w_open w; w_armed := true; w_deadlines := w_deadlines w ++ [now + canceledResponseGrace] |}.

Definition write_close (w : responseWriteDeadline) : responseWriteDeadline :=
  {| w_open := false; w_armed := w_armed w; w_deadlines := w_deadlines w |}.

(** ** An admitted request *)

(** A function registered with [context.AfterFunc]: it waits for its context, runs
    (with [n] statements left) or was stopped in time. *)
Inductive callback := Waiting | Running (n : nat) | Stopped.

#[export] Instance callback_eq_dec : EqDecision callback.
Proof. solve_decision. Defined.

(** Where the handler is: in [next.ServeHTTP], then its deferred calls. *)
Inductive handler_phase := InServe | StoppedIO | Fenced | Finished.

#[export] Instance handler_phase_eq_dec : EqDecision handler_phase.
Proof. solve_decision. Defined.

Record exchange := {
  ex_phase : handler_phase;
  ex_cancelled : bool;       (* the admission's context is done *)
  ex_io : callback;          (* stopIO's function: writes.cancel(), r.Body.Close() *)
  ex_bodyClosed : bool;
  ex_tagged : bool;          (* TagRPC was called *)
  ex_rpcCancelled : bool;    (* its context is done *)
  ex_link : callback;        (* stop's function: cancel rpcCtx *)
  ex_rpc : callback;         (* the function on rpcCtx: stop(), cancelWrite() *)
  ex_writes : responseWriteDeadline;
}.

Definition exchange_started : exchange := {|
  ex_phase := InServe; ex_cancelled := false; ex_io := Waiting; ex_bodyClosed := false; ex_tagged := false;
  ex_rpcCancelled := false; ex_link := Stopped; ex_rpc := Stopped;
  ex_writes := {| w_open := true; w_armed := false; w_deadlines := [] |};
|}.

Inductive exchange_action :=
  | CancelAdmission           (* timer, shutdown or the client *)
  | TagRPC                    (* gRPC tags the request while it is served *)
  | CancelRPC                 (* gRPC's own deadline, or the end of the handler *)
  | StepIO (now : time)
  | StepLink
  | StepRPC (now : time)
  | HandlerStep.              (* ServeHTTP returned; then each deferred call *)

Definition set_exchange (phase : handler_phase) (cancelled : bool) (io : callback) (bodyClosed tagged rpcCancelled : bool)
    (link rpc : callback) (writes : responseWriteDeadline) : exchange := {|
  ex_phase := phase; ex_cancelled := cancelled; ex_io := io; ex_bodyClosed := bodyClosed; ex_tagged := tagged;
  ex_rpcCancelled := rpcCancelled; ex_link := link; ex_rpc := rpc; ex_writes := writes;
|}.

(** [stop] of an [AfterFunc]: a function that has started is not stopped. *)
Definition stop_callback (c : callback) : callback := match c with Waiting => Stopped | _ => c end.

(** [TagRPC] on the context of the request: its own context, cancelled with the
    admission's, and the function on it. *)
Definition tag_rpc (x : exchange) : option exchange :=
  let '(Build_exchange phase cancelled io body tagged rpcCancelled _ _ writes) := x in
  if bool_decide (phase = InServe) && negb tagged
  then Some (set_exchange phase cancelled io body true (rpcCancelled || cancelled) Waiting Waiting writes)
  else None.

(** [context.AfterFunc(state.ctx, cancel)]. *)
Definition link_step (x : exchange) : option exchange :=
  let '(Build_exchange phase cancelled io body tagged _ link rpc writes) := x in
  match link with
  | Waiting => if cancelled then Some (set_exchange phase cancelled io body tagged true (Running 0) rpc writes) else None
  | _ => None
  end.

(** The function on [rpcCtx]: [stop()], then [state.cancelWrite()]. *)
Definition rpc_step (now : time) (x : exchange) : option exchange :=
  let '(Build_exchange phase cancelled io body tagged rpcCancelled link rpc writes) := x in
  match rpc with
  | Waiting => if rpcCancelled then Some (set_exchange phase cancelled io body tagged rpcCancelled link (Running 2) writes) else None
  | Running 2 => Some (set_exchange phase cancelled io body tagged rpcCancelled (stop_callback link) (Running 1) writes)
  | Running 1 => Some (set_exchange phase cancelled io body tagged rpcCancelled link (Running 0) (write_cancel now writes))
  | _ => None
  end.

(** The function of [stopIO]: [writes.cancel()], then [r.Body.Close()]. *)
Definition io_step (now : time) (x : exchange) : option exchange :=
  let '(Build_exchange phase cancelled io body tagged rpcCancelled link rpc writes) := x in
  match io with
  | Waiting => if cancelled then Some (set_exchange phase cancelled (Running 2) body tagged rpcCancelled link rpc writes) else None
  | Running 2 => Some (set_exchange phase cancelled (Running 1) body tagged rpcCancelled link rpc (write_cancel now writes))
  | Running 1 => Some (set_exchange phase cancelled (Running 0) true tagged rpcCancelled link rpc writes)
  | _ => None
  end.

(** [ServeHTTP] returns; the deferred [stopIO()], [writes.close()] and
    [state.finish()], which cancels the admission's context. *)
Definition handler_step (x : exchange) : option exchange :=
  let '(Build_exchange phase cancelled io body tagged rpcCancelled link rpc writes) := x in
  match phase with
  | InServe => Some (set_exchange StoppedIO cancelled (stop_callback io) body tagged rpcCancelled link rpc writes)
  | StoppedIO => Some (set_exchange Fenced cancelled io body tagged rpcCancelled link rpc (write_close writes))
  | Fenced => Some (set_exchange Finished true io body tagged rpcCancelled link rpc writes)
  | Finished => None
  end.

Definition exchange_do (a : exchange_action) (x : exchange) : option exchange :=
  match a with
  | CancelAdmission =>
      Some (set_exchange (ex_phase x) true (ex_io x) (ex_bodyClosed x) (ex_tagged x) (ex_rpcCancelled x) (ex_link x) (ex_rpc x) (ex_writes x))
  | TagRPC => tag_rpc x
  | CancelRPC =>
      if ex_tagged x
      then Some (set_exchange (ex_phase x) (ex_cancelled x) (ex_io x) (ex_bodyClosed x) true true (ex_link x) (ex_rpc x) (ex_writes x))
      else None
  | StepIO now => io_step now x
  | StepLink => link_step x
  | StepRPC now => rpc_step now x
  | HandlerStep => handler_step x
  end.

Definition exchange_run (l : list exchange_action) (x : exchange) : option exchange :=
  foldl (λ x a, x ← x; exchange_do a x) (Some x) l.

(** ** Connections *)

(** A [countedConn], with the timer [connectionLifetime] keeps for it: when it fires. *)
Record connection := {
  conn_closed : bool; (* once is done *)
  conn_timer : option time;
}.

Record connections := {
  conn_active : Z; (* atomic.Int64 *)
  conn_table : gmap positive connection;
}.

Inductive connection_action :=
  | Accepted (id : positive)                   (* countedListener.Accept *)
  | StateNew (id : positive) (now : time)      (* ConnState: http.StateNew *)
  | StateClosed (id : positive)                (* ConnState: http.StateClosed *)
  | CloseConn (id : positive)                  (* countedConn.Close *)
  | LifetimeOver (id : positive) (now : time). (* the timer's function *)

Definition connection_age : duration := 5 * minute + 30 * second.

(** [countedConn.Close]: the first call closes and counts. *)
Definition close_conn (id : positive) (c : connection) (s : connections) : connections :=
  if conn_closed c then s
  else {| conn_active := wrap_s64 (conn_active s - 1);
          conn_table := <[id := {| conn_closed := true; conn_timer := conn_timer c |}]> (conn_table s) |}.

Definition set_timer (id : positive) (c : connection) (t : option time) (s : connections) : connections :=
  {| conn_active := conn_active s; conn_table := <[id := {| conn_closed := conn_closed c; conn_timer := t |}]> (conn_table s) |}.

Definition connection_do (a : connection_action) (s : connections) : option connections :=
  match a with
  | Accepted id =>
      guard (conn_table s !! id = None) ;;
      Some {| conn_active := wrap_s64 (conn_active s + 1);
              conn_table := <[id := {| conn_closed := false; conn_timer := None |}]> (conn_table s) |}
  | StateNew id now => c ← conn_table s !! id; Some (set_timer id c (Some (now + connection_age)) s)
  | StateClosed id => c ← conn_table s !! id; Some (set_timer id c None s)
  | CloseConn id => c ← conn_table s !! id; Some (close_conn id c s)
  | LifetimeOver id now =>
      c ← conn_table s !! id;
      t ← conn_timer c;
      guard (t ≤ now) ;; Some (close_conn id c s)
  end.

Definition no_connections : connections := {| conn_active := 0; conn_table := ∅ |}.

Definition connections_run (l : list connection_action) : option connections :=
  foldl (λ s a, s ← s; connection_do a s) (Some no_connections) l.

(** ** The server *)

Record http_server := {
  srv_unencryptedHTTP2 : bool;
  srv_tls : bool; (* TLSConfig is not nil *)
  srv_MaxConcurrentStreams : Z;
  srv_MaxReceiveBufferPerStream : Z;
  srv_ReadHeaderTimeout : duration;
  srv_MaxHeaderBytes : Z;
  srv_connectionAge : duration;
}.

(** The limit of a request's body: a message and its frame prefix. *)
Definition body_limit : Z := Z.shiftl 64 10 + 5.

Definition discoveryHTTPServer (a : admission) (tls : bool) : http_server := {|
  srv_unencryptedHTTP2 := negb tls; srv_tls := tls;
  srv_MaxConcurrentStreams := MaxConcurrentStreams (adm_limits a);
  srv_MaxReceiveBufferPerStream := Z.shiftl 64 10; srv_ReadHeaderTimeout := 5 * second;
  srv_MaxHeaderBytes := Z.shiftl 16 10 - 320; srv_connectionAge := connection_age;
|}.
