(* ===== verification/HttpProps.v ===== *)
(** * Correctness of the discovery HTTP layer

    A rejection tells the client its status; an admitted request gets at most one
    write deadline, none after its handler returned, and is interrupted when it is
    cancelled; and connections are counted exactly. *)

From Stdlib Require Import Ascii.
From S2P Require Import Prelude Config Grpc Admission Http.

(** ** Rejections *)

Definition unhex (c : ascii) : option N :=
  let n := N_of_ascii c in
  if ((48 <=? n) && (n <=? 57))%N then Some (n - 48)%N
  else if ((65 <=? n) && (n <=? 70))%N then Some (n - 55)%N
  else None.

(** How a client reads [Grpc-Message]: percent-decoding. *)
Fixpoint percent_decode (s : string) : string :=
  match s with
  | EmptyString => EmptyString
  | String "%" (String h (String l s)) =>
      match unhex h, unhex l with
      | Some h, Some l => String (ascii_of_N (16 * h + l)) (percent_decode s)
      | _, _ => String "%" (String h (String l (percent_decode s)))
      end
  | String c s => String c (percent_decode s)
  end.

Lemma hex_roundtrip c :
  unhex (hex_digit (N_of_ascii c / 16)) = Some (N_of_ascii c / 16)%N
  ∧ unhex (hex_digit (N_of_ascii c mod 16)) = Some (N_of_ascii c mod 16)%N.
Proof. destruct c as [[] [] [] [] [] [] [] []]; vm_compute; split; reflexivity. Qed.

Lemma percent_decode_plain c s : c ≠ "%"%char → percent_decode (String c s) = String c (percent_decode s).
Proof. intros Hc. destruct c as [[] [] [] [] [] [] [] []]; (reflexivity || by destruct Hc). Qed.

Lemma percent_decode_escape s : percent_decode (PathEscape s) = s.
Proof.
  induction s as [|c s IH]; [done|]. cbn [PathEscape]. destruct (unescaped c) eqn:Hc.
  - rewrite percent_decode_plain; [by rewrite IH|]. intros ->. discriminate Hc.
  - destruct (hex_roundtrip c) as [Hh Hl]. cbn [percent_decode]. rewrite Hh, Hl, IH, <-N.Div0.div_mod, ascii_N_embedding. done.
Qed.

(** A rejected request is answered with the number of its status code and a
    message that the client decodes to the message of the status; so different
    statuses have different answers. *)
Theorem rejection_roundtrip st :
  reply_status (reject st) = 200
  ∧ reply_headers (reject st) !! "Content-Type" = Some "application/grpc"
  ∧ reply_headers (reject st) !! "Grpc-Status" = Some (pretty (code_number (status_code st)))
  ∧ percent_decode <$> reply_headers (reject st) !! "Grpc-Message" = Some (status_message st)
  ∧ ∀ st', reject st' = reject st → st' = st.
Proof.
  assert (∀ st, percent_decode <$> reply_headers (reject st) !! "Grpc-Message" = Some (status_message st)) as Hmsg.
  { intros x. unfold reject. cbn [reply_headers]. rewrite lookup_insert_eq. cbn. by rewrite percent_decode_escape. }
  assert (∀ st, reply_headers (reject st) !! "Grpc-Status" = Some (pretty (code_number (status_code st)))) as Hcode.
  { intros x. unfold reject. cbn [reply_headers]. rewrite lookup_insert_ne by done. by rewrite lookup_insert_eq. }
  split_and!; [done| |done|done|].
  - unfold reject. cbn [reply_headers]. rewrite !lookup_insert_ne by done. apply lookup_singleton_eq.
  - intros st' Heq. pose proof (Hmsg st') as Hm. rewrite Heq, Hmsg in Hm. pose proof (Hcode st') as Hc. rewrite Heq, Hcode in Hc.
    injection Hm as Hm. injection Hc as Hc%(inj pretty). destruct st as [c m], st' as [c' m']. cbn in *. subst m'. f_equal.
    by destruct c, c'.
Qed.

(** ** Admitted requests *)

Record exchange_inv (x : exchange) : Prop := {
  inv_open : w_open (ex_writes x) = bool_decide (ex_phase x = InServe ∨ ex_phase x = StoppedIO);
  inv_armed : length (w_deadlines (ex_writes x)) = Nat.b2n (w_armed (ex_writes x));
  inv_io : match ex_io x with
           | Waiting => True
           | Stopped => ex_phase x ≠ InServe
           | Running n => (n ≤ 2)%nat
               ∧ ((n ≤ 1)%nat → ex_phase x = InServe → w_armed (ex_writes x) = true)
               ∧ (n = 0%nat → ex_bodyClosed x = true)
           end;
}.

Lemma write_cancel_spec now w :
  length (w_deadlines w) = Nat.b2n (w_armed w) →
  w_open (write_cancel now w) = w_open w
  ∧ length (w_deadlines (write_cancel now w)) = Nat.b2n (w_armed (write_cancel now w))
  ∧ (w_open w = true → w_armed (write_cancel now w) = true)
  ∧ (w_armed w = true → w_armed (write_cancel now w) = true)
  ∧ (w_open w = false → w_deadlines (write_cancel now w) = w_deadlines w).
Proof.
  unfold write_cancel. destruct (w_open w) eqn:Ho, (w_armed w) eqn:Ha; cbn; intros Hl; rewrite ?Ho, ?Ha; split_and!; try done.
  rewrite length_app, Hl. done.
Qed.

Lemma exchange_do_inv a x x' : exchange_inv x → exchange_do a x = Some x' → exchange_inv x'.
Proof.
  destruct x as [phase cancelled io body tagged rpcCancelled link rpc writes]. intros [Ho Ha Hi] Hdo.
  cbn [ex_phase ex_io ex_writes ex_bodyClosed] in Ho, Ha, Hi.
  assert (∀ now, _) as Hw by (intros now; exact (write_cancel_spec now writes Ha)).
  destruct a as [| | |now| |now|]; cbn [exchange_do tag_rpc io_step link_step rpc_step handler_step] in Hdo.
  - injection Hdo as <-. by split.
  - destruct (bool_decide _ && _); [|done]. injection Hdo as <-. by split.
  - destruct tagged; [|done]. injection Hdo as <-. by split.
  - destruct (Hw now) as (Hop & Hl & Hopen & Harm & _).
    destruct io as [|[|[|[|n]]]|]; try done; [destruct cancelled; [|done]| |]; injection Hdo as <-; split; cbn; try done.
    + split_and!; [lia..|done].
    + destruct Hi as (_ & Hi & _). split_and!; [lia|by auto|done].
    + rewrite Hop. exact Ho.
    + split_and!; [lia| |done]. intros _ ->. apply Hopen. rewrite Ho. by apply bool_decide_true; left.
  - destruct link; [|done..]. destruct cancelled; [|done]. injection Hdo as <-. by split.
  - destruct (Hw now) as (Hop & Hl & _ & Harm & _).
    destruct rpc as [|[|[|[|n]]]|]; try done; [destruct rpcCancelled; [|done]| |]; injection Hdo as <-; split; cbn; try done.
    + rewrite Hop. exact Ho.
    + destruct io; try done. naive_solver.
  - destruct phase; try done; injection Hdo as <-; split; cbn; try done.
    all: destruct io as [|n|]; cbn; try done; destruct Hi as (? & _ & ?); by split_and!.
Qed.

Lemma exchange_steps l x x' : exchange_inv x → exchange_run l x = Some x' → exchange_inv x'.
Proof.
  unfold exchange_run. revert x'. induction l as [|a l IH] using rev_ind; intros x' Hx; [by intros [= <-]|].
  rewrite foldl_app. cbn. intros (x1 & Hx1 & Hdo)%bind_Some. exact (exchange_do_inv a x1 x' (IH x1 Hx Hx1) Hdo).
Qed.

Lemma started_exchange : exchange_inv exchange_started.
Proof. by split. Qed.

(** After [close] no action calls the response controller. *)
Lemma fenced_do a x x' :
  exchange_inv x → w_open (ex_writes x) = false → exchange_do a x = Some x' →
  w_open (ex_writes x') = false ∧ w_deadlines (ex_writes x') = w_deadlines (ex_writes x).
Proof.
  destruct x as [phase cancelled io body tagged rpcCancelled link rpc writes]. intros [_ Ha _] Hf Hdo. cbn [ex_writes] in *.
  assert (∀ now, w_open (write_cancel now writes) = false ∧ w_deadlines (write_cancel now writes) = w_deadlines writes) as Hw.
  { intros now. destruct (write_cancel_spec now writes Ha) as (-> & _ & _ & _ & ->); done. }
  destruct a; cbn [exchange_do tag_rpc io_step link_step rpc_step handler_step] in Hdo; repeat case_match; simplify_eq; cbn [ex_writes set_exchange write_close w_open w_deadlines]; auto.
Qed.

Lemma fenced_run l x x' :
  exchange_inv x → w_open (ex_writes x) = false → exchange_run l x = Some x' →
  w_open (ex_writes x') = false ∧ w_deadlines (ex_writes x') = w_deadlines (ex_writes x).
Proof.
  unfold exchange_run. revert x'. induction l as [|a l IH] using rev_ind; intros x' Hx Hf; [by intros [= <-]|].
  rewrite foldl_app. cbn. intros (x1 & Hx1 & Hdo)%bind_Some. pose proof (exchange_steps l x x1 Hx Hx1) as Hinv.
  destruct (IH x1 Hx Hf Hx1) as [Hf1 Hd1]. destruct (fenced_do a x1 x' Hinv Hf1 Hdo). by rewrite <-Hd1.
Qed.

(** C29: in every interleaving of a request's handler with the cancellations and their
    callbacks, its write deadline is set at most once and never after the deferred
    [close]; and while a cancelled request is served, the callback that sets the
    deadline and closes the body can go on, until both are done. *)
Theorem write_deadline_fenced l x :
  exchange_run l exchange_started = Some x →
  (length (w_deadlines (ex_writes x)) ≤ 1)%nat
  ∧ (∀ l' x', ex_phase x = Fenced ∨ ex_phase x = Finished → exchange_run l' x = Some x' →
       w_deadlines (ex_writes x') = w_deadlines (ex_writes x))
  ∧ (ex_phase x = InServe → ex_cancelled x = true →
       (w_armed (ex_writes x) = true ∧ ex_bodyClosed x = true) ∨ ∀ now, is_Some (exchange_do (StepIO now) x)).
Proof.
  intros Hrun. pose proof (exchange_steps l _ x started_exchange Hrun) as Hinv. pose proof Hinv as [Ho Ha Hi]. split_and!.
  - rewrite Ha. destruct (w_armed _); cbn; lia.
  - intros l' x' Hp Hrun'. refine (proj2 (fenced_run l' x x' Hinv _ Hrun')). rewrite Ho. apply bool_decide_false. by destruct Hp as [-> | ->]; intros [|].
  - intros Hp Hc. destruct x as [phase cancelled io body tagged rpcCancelled link rpc writes]. cbn in *. subst phase cancelled.
    destruct io as [|[|[|[|n]]]|]; try (right; intros now; eexists; reflexivity); [| |done].
    + left. destruct Hi as (_ & Harm & Hb). split; [apply Harm; [lia|done]|by apply Hb].
    + destruct Hi as (Hn & _). lia.
Qed.

(** ** Connections *)

Lemma wrap_s64_add_l a b : wrap_s64 (wrap_s64 a + b) = wrap_s64 (a + b).
Proof.
  unfold wrap_s64. f_equal. replace ((a - s64_min) mod u64_modulus + s64_min + b - s64_min) with ((a - s64_min) mod u64_modulus + b) by lia.
  rewrite Z.add_mod_idemp_l by done. f_equal. lia.
Qed.

Definition is_open (c : connection) : bool := negb (conn_closed c).

(** The open connections. *)
Definition open_count (m : gmap positive connection) : Z := Z.of_nat (size (filter (λ x, is_open x.2 = true) m)).

Lemma open_count_insert id c m :
  open_count (<[id := c]> m) = open_count (delete id m) + Z.b2z (is_open c).
Proof.
  unfold open_count. rewrite <-insert_delete_eq. destruct (is_open c) eqn:Hc.
  - rewrite map_filter_insert_True by done. rewrite map_size_insert_None; [cbn; lia|].
    apply map_lookup_filter_None. left. apply lookup_delete_eq.
  - rewrite map_filter_insert_False by (cbn; congruence). rewrite delete_delete_eq. cbn. lia.
Qed.

Lemma open_count_lookup id c m : m !! id = Some c → open_count m = open_count (delete id m) + Z.b2z (is_open c).
Proof. intros Hc. rewrite <-(insert_id m id c Hc) at 1. apply open_count_insert. Qed.

Definition counted (s : connections) : Prop := conn_active s = wrap_s64 (open_count (conn_table s)).

Lemma close_counted id c s :
  conn_table s !! id = Some c → counted s →
  counted (close_conn id c s) ∧ ∃ c', conn_table (close_conn id c s) !! id = Some c' ∧ conn_closed c' = true.
Proof.
  unfold counted, close_conn. intros Hc Hs. destruct (conn_closed c) eqn:Hcl; [by split; [|exists c]|]. cbn. split.
  - rewrite open_count_insert. cbn. rewrite Hs, (open_count_lookup id c) by done. unfold is_open. rewrite Hcl. cbn.
    rewrite <-Z.add_opp_r, wrap_s64_add_l. f_equal. lia.
  - eexists. rewrite lookup_insert_eq. by split.
Qed.

Lemma timer_counted id c t s : conn_table s !! id = Some c → counted s → counted (set_timer id c t s).
Proof.
  unfold counted, set_timer. intros Hc Hs. cbn. rewrite open_count_insert, Hs, (open_count_lookup id c) by done. done.
Qed.

Lemma guard_Some {A} P `{Decision P} (mx : option A) x : (guard P;; mx) = Some x ↔ P ∧ mx = Some x.
Proof. case_guard; naive_solver. Qed.

Lemma connection_do_counted a s s' : counted s → connection_do a s = Some s' → counted s'.
Proof.
  intros Hs. destruct a as [id|id now|id|id|id now]; cbn [connection_do].
  - intros (Hid & [= <-])%guard_Some. unfold counted in *. cbn. rewrite open_count_insert, delete_id by done. cbn.
    by rewrite Hs, wrap_s64_add_l.
  - intros (c & Hc & [= <-])%bind_Some. by apply timer_counted.
  - intros (c & Hc & [= <-])%bind_Some. by apply timer_counted.
  - intros (c & Hc & [= <-])%bind_Some. by apply close_counted.
  - intros (c & Hc & (t & _ & (_ & [= <-])%guard_Some)%bind_Some)%bind_Some. by apply close_counted.
Qed.

Lemma connections_counted_run l s : connections_run l = Some s → counted s.
Proof.
  unfold connections_run. revert s. induction l as [|a l IH] using rev_ind; intros s; [by intros [= <-]|].
  rewrite foldl_app. cbn. intros (s1 & Hs1 & Hdo)%bind_Some. exact (connection_do_counted a s1 s (IH s1 Hs1) Hdo).
Qed.

(** In every order of accepting, closing (also repeatedly) and ageing, the gauge
    of active connections is the number of accepted connections that have not been
    closed; and a connection whose lifetime is over is closed by its timer. *)
Theorem connections_counted l s :
  connections_run l = Some s →
  conn_active s = wrap_s64 (Z.of_nat (size (filter (λ x, conn_closed x.2 = false) (conn_table s))))
  ∧ ∀ id c t now, conn_table s !! id = Some c → conn_timer c = Some t → t ≤ now →
      ∃ s' c', connection_do (LifetimeOver id now) s = Some s' ∧ conn_table s' !! id = Some c' ∧ conn_closed c' = true.
Proof.
  intros Hs%connections_counted_run. split.
  - unfold counted, open_count in Hs. rewrite Hs. do 3 f_equal. apply map_filter_ext. intros i c _. unfold is_open. cbn. by rewrite negb_true_iff.
  - intros id c t now Hc Ht Hn. cbn [connection_do]. rewrite Hc. cbn. rewrite Ht. cbn. rewrite option_guard_True by done. cbn.
    destruct (close_counted id c s Hc Hs) as (_ & c' & ? & ?). by eexists _, c'.
Qed.

(** ** Concrete runs *)

(** The client goes away; gRPC cancels too, and the handler returns. *)
Lemma write_deadline_fenced_witness :
  ∃ x, exchange_run [TagRPC; CancelAdmission; StepIO 5; StepIO 7; CancelRPC; StepRPC 8; HandlerStep; HandlerStep; StepRPC 9]
         exchange_started = Some x
    ∧ (length (w_deadlines (ex_writes x)) ≤ 1)%nat
    ∧ ∀ x', exchange_run [StepRPC 10; StepIO 11; HandlerStep] x = Some x' → w_deadlines (ex_writes x') = w_deadlines (ex_writes x).
Proof.
  eexists. split; [vm_compute; reflexivity|].
  destruct (write_deadline_fenced [TagRPC; CancelAdmission; StepIO 5; StepIO 7; CancelRPC; StepRPC 8; HandlerStep; HandlerStep; StepRPC 9]
    _ eq_refl) as (Hl & Hf & _). split; [exact Hl|]. intros x'. apply Hf. left. reflexivity.
Defined.

Definition example_connections : list connection_action :=
  [Accepted 1; StateNew 1 0; Accepted 2; StateNew 2 second; CloseConn 2; CloseConn 2; StateClosed 2].

Lemma connections_counted_witness :
  ∃ s, connections_run example_connections = Some s ∧ conn_active s = 1
    ∧ ∃ s', connection_do (LifetimeOver 1 (6 * minute)) s = Some s'.
Proof.
  destruct (connections_run example_connections) as [s|] eqn:E; [|vm_compute in E; discriminate E].
  exists s. split; [reflexivity|]. destruct (connections_counted example_connections s E) as (Ha & Hl).
  vm_compute in E. injection E as <-. split; [rewrite Ha; vm_compute; reflexivity|].
  destruct (Hl 1%positive {| conn_closed := false; conn_timer := Some connection_age |} connection_age (6 * minute)) as (s' & _ & Hs & _);
    [reflexivity|reflexivity|vm_compute; discriminate|]. exists s'. exact Hs.
Defined.
