(* ===== verification/Frontend.v ===== *)
(** * Discovery requests from admission to answer (src/internal/server/discovery_http.go, src/internal/discovery/grpc.go)

    The HTTP handler of admission in front of the two gRPC methods, over the store
    and its streams.  A request is admitted or rejected, its method runs while it
    holds its slots, and the slots are given back when the method has returned.
    gRPC itself is a library: between admission and the end of [ServeHTTP] it may
    call the method that the path names, once, with the message it decoded; it may
    also end the request without calling it. *)

From S2P Require Import Prelude Api Config Mailbox Store StoreFacts StoreProps Watchers Grpc Admission Http Delivery.

Definition GetTopology_FullMethodName : string := "/cnpg.connect.v1.TopologyService/GetTopology".

Section frontend.
Context `{TextLibrary, MapRange, ServiceLibrary, RoutingDigest}.

Inductive answer :=
  | Rejected (reply : http_reply)    (* written by the handler itself *)
  | Failed (st : status)             (* the method returned an error *)
  | Topology (m : SnapshotPB).

(** Where a request is: before its method, between the two accesses of
    [GetTopology] to the store, in the loop of [WatchTopology], or answered. *)
Inductive call_phase :=
  | Dispatching
  | Refreshed (key : clusterKey)
  | Streaming
  | Answered (a : answer).

(** [call_values] is the [authorization] metadata. *)
Record call := Call {
  call_method : string;
  call_values : list string;
  call_phase_ : call_phase;
}.

Record frontend := {
  fe_admission : admission;
  fe_delivery : delivery;
  fe_calls : gmap positive call;
}.

(** [Authorize], installed at admission, and the metadata it reads. *)
Definition authorization (header : gmap string (list string)) : list string :=
  default [] (incoming_metadata header !! "authorization").

Definition Authorize (srv : Server) (values : list string) : option status := authorize srv values.

Definition set_call (id : positive) (p : call_phase) (c : call) (m : gmap positive call) : gmap positive call :=
  <[id := Call (call_method c) (call_values c) p]> m.

(** [ServeHTTP] runs for an admitted request. *)
Definition in_service (id : positive) (f : frontend) : bool :=
  match adm_requests (fe_admission f) !! id with
  | Some r => bool_decide (request_phase_ r = Serving)
  | None => false
  end.

(** The handler up to the select on [rpcs]. *)
Definition serve_http (srv : Server) (id : positive) (path : string) (header : gmap string (list string))
    (parent : option status) (f : frontend) : option frontend :=
  let values := authorization header in
  let denied := Authorize srv values in
  a ← admission_do (Arrive id path parent denied) (fe_admission f);
  let p := match (admit_request id path parent denied (fe_admission f)).1 with
           | Some err => Answered (Rejected (reject err))
           | None => Dispatching
           end in
  Some {| fe_admission := a; fe_delivery := fe_delivery f; fe_calls := <[id := Call path values p]> (fe_calls f) |}.

(** The rest of [admit]: a watch without a slot is rejected once its RPC slot is back. *)
Definition admit_rest (id : positive) (c : call) (f : frontend) : option frontend :=
  a ← admission_do (AdmitStep id) (fe_admission f);
  let gone := match adm_requests a !! id with Some r => bool_decide (request_phase_ r = Gone) | None => false end in
  Some {| fe_admission := a; fe_delivery := fe_delivery f;
          fe_calls := if gone
                      then set_call id (Answered (Rejected (reject (Status ResourceExhausted "discovery watch capacity exhausted")))) c
                             (fe_calls f)
                      else fe_calls f |}.

(** The checks of both methods: the error they return. *)
Definition checks (srv : Server) (c : call) (namespace name : string) : option status :=
  match authorize srv (call_values c) with
  | Some err => Some err
  | None => validateReference namespace name
  end.

(** [GetTopology] up to the refresh. *)
Definition get_begin (srv : Server) (id : positive) (c : call) (namespace name : string) (now : time) (f : frontend) :
    option frontend :=
  match checks srv c namespace name with
  | Some err =>
      Some {| fe_admission := fe_admission f; fe_delivery := fe_delivery f;
              fe_calls := set_call id (Answered (Failed err)) c (fe_calls f) |}
  | None =>
      let key := ClusterKey namespace name in
      D ← delivery_do (Elsewhere (ActCall (CallRequestRefresh key now))) (fe_delivery f);
      Some {| fe_admission := fe_admission f; fe_delivery := D; fe_calls := set_call id (Refreshed key) c (fe_calls f) |}
  end.

(** [GetTopology] from [getPublication] on. *)
Definition get_read (id : positive) (c : call) (key : clusterKey) (now : time) (f : frontend) : option frontend :=
  D ← delivery_do (Elsewhere (ActCall (CallRead key now))) (fe_delivery f);
  match (readPublication key now (world_store (dl_world (fe_delivery f)))).1.1 with
  | None =>
      Some {| fe_admission := fe_admission f; fe_delivery := D;
              fe_calls := set_call id (Answered (Failed not_observed)) c (fe_calls f) |}
  | Some p =>
      let '(m, wire) := protobuf p (dl_wire D) in
      Some {| fe_admission := fe_admission f;
              fe_delivery := {| dl_world := dl_world D; dl_streams := dl_streams D; dl_wire := wire |};
              fe_calls := set_call id (Answered (Topology m)) c (fe_calls f) |}
  end.

(** [WatchTopology] up to its loop. *)
Definition watch_begin (srv : Server) (id : positive) (c : call) (namespace name : string) (now1 now2 : time) (f : frontend) :
    option frontend :=
  let key := ClusterKey namespace name in
  let failed err := Some {| fe_admission := fe_admission f; fe_delivery := fe_delivery f;
                            fe_calls := set_call id (Answered (Failed err)) c (fe_calls f) |} in
  match checks srv c namespace name, records (world_store (dl_world (fe_delivery f))) !! key with
  | Some err, _ => failed err
  | None, None => failed not_observed
  | None, Some _ =>
      D ← delivery_do (OpenWatch id key now1 now2) (fe_delivery f);
      Some {| fe_admission := fe_admission f; fe_delivery := D; fe_calls := set_call id Streaming c (fe_calls f) |}
  end.

(** The stream of a delivery action. *)
Definition stream_of (a : delivery_action) : option sid :=
  match a with
  | StreamReceive w _ | StreamDone w _ | StreamLookup w _ | StreamSend w _ | StreamCancel w | StreamClose w => Some w
  | Elsewhere _ | OpenWatch _ _ _ _ => None
  end.

(** The method has returned, its deferred calls included: no method was called, or it
    answered, or its stream was cancelled and closed. *)
Definition method_returned (id : positive) (c : call) (f : frontend) : bool :=
  match call_phase_ c with
  | Dispatching | Answered _ => true
  | Refreshed _ => false
  | Streaming =>
      match world_watchers (dl_world (fe_delivery f)) !! id with
      | Some x => watcher_cancelled x && subscription_closed (watcher_sub x)
      | None => false
      end
  end.

Inductive frontend_action :=
  | ServeHTTP (id : positive) (path : string) (header : gmap string (list string)) (parent : option status)
  | AdmitRest (id : positive)
  | TimerFires (id : positive)
  | BodyRead (id : positive)
  | ProcessStops (err : status)
  | GetBegin (id : positive) (namespace name : string) (now : time)
  | GetRead (id : positive) (now : time)
  | WatchBegin (id : positive) (namespace name : string) (now1 now2 : time)
  | StreamStep (a : delivery_action)
  | StoreStep (c : store_call)      (* the observer, timers *)
  | Delivers (i : nat)
  | Finishes (id : positive).       (* ServeHTTP returned: state.finish() *)

Definition with_admission (a : admission) (f : frontend) : frontend :=
  {| fe_admission := a; fe_delivery := fe_delivery f; fe_calls := fe_calls f |}.

Definition with_delivery (D : delivery) (f : frontend) : frontend :=
  {| fe_admission := fe_admission f; fe_delivery := D; fe_calls := fe_calls f |}.

(** A method runs once, while its request is served. *)
Definition dispatched (id : positive) (method : string) (f : frontend) : option call :=
  c ← fe_calls f !! id;
  if in_service id f && bool_decide (call_method c = method)
     && match call_phase_ c with Dispatching => true | _ => false end
  then Some c else None.

Definition frontend_do (srv : Server) (act : frontend_action) (f : frontend) : option frontend :=
  match act with
  | ServeHTTP id path header parent => guard (fe_calls f !! id = None) ;; serve_http srv id path header parent f
  | AdmitRest id =>
      c ← fe_calls f !! id;
      match call_phase_ c with Dispatching => admit_rest id c f | _ => None end
  | TimerFires id => a ← admission_do (Timeout_ id) (fe_admission f); Some (with_admission a f)
  | BodyRead id => a ← admission_do (BodyEOF id) (fe_admission f); Some (with_admission a f)
  | ProcessStops err => a ← admission_do (Shutdown err) (fe_admission f); Some (with_admission a f)
  | GetBegin id namespace name now => c ← dispatched id GetTopology_FullMethodName f; get_begin srv id c namespace name now f
  | GetRead id now =>
      c ← fe_calls f !! id;
      match call_phase_ c with Refreshed key => get_read id c key now f | _ => None end
  | WatchBegin id namespace name now1 now2 =>
      c ← dispatched id WatchTopology_FullMethodName f; watch_begin srv id c namespace name now1 now2 f
  | StreamStep a =>
      match stream_of a with
      | Some _ => D ← delivery_do a (fe_delivery f); Some (with_delivery D f)
      | None => None
      end
  | StoreStep c => D ← delivery_do (Elsewhere (ActCall c)) (fe_delivery f); Some (with_delivery D f)
  | Delivers i => D ← delivery_do (Elsewhere (ActDeliver i)) (fe_delivery f); Some (with_delivery D f)
  | Finishes id =>
      c ← fe_calls f !! id;
      if method_returned id c f then a ← admission_do (FinishStep id) (fe_admission f); Some (with_admission a f) else None
  end.

Definition NewFrontend (id : string) (a : admission) : frontend :=
  {| fe_admission := a; fe_delivery := NewDelivery id; fe_calls := ∅ |}.

Inductive frontend_reachable (srv : Server) (id : string) (a : admission) : frontend → Prop :=
  | frontend_new : frontend_reachable srv id a (NewFrontend id a)
  | frontend_next act f f' :
      frontend_reachable srv id a f → frontend_do srv act f = Some f' → frontend_reachable srv id a f'.
End frontend.
