(* ===== verification/FrontendProps.v ===== *)
(** * Correctness of the discovery front end

    Every stream and every topology that leaves the process belongs to a request
    that was authorised and holds its slots, so the subscribers of the store are
    bounded by the admission limits. *)

From S2P Require Import Prelude Api Config TopologyProps Mailbox Store StoreFacts StoreProps Watchers WatcherFacts WatcherProps Grpc GrpcProps.
From S2P Require Import Admission AdmissionProps Http Delivery DeliveryFacts DeliveryProps Frontend.

Section props.
Context `{TextLibrary, MapRange, ServiceLibrary, RoutingDigest}.
Context (srv : Server).

(** ** Steps of the parts *)

(** A served watch keeps its slot until it finishes. *)
Lemma admission_keeps act a a' id r :
  admission_do act a = Some a' → act ≠ FinishStep id → adm_requests a !! id = Some r → holds_watch r = true →
  ∃ r', adm_requests a' !! id = Some r' ∧ holds_watch r' = true.
Proof.
  intros Hdo Hne Hr Hh. pose proof Hh as [Hw Hp%bool_decide_eq_true]%andb_true_iff.
  destruct act as [id' method parent denied|id'|id'|id'|err|id']; cbn in Hdo.
  - case_guard as Hg; [|done]. injection Hdo as <-. assert (id' ≠ id) by congruence. exists r. split; [|done].
    unfold admit_request. repeat case_match; cbn; by rewrite lookup_insert_ne.
  - apply bind_Some in Hdo as (q & Hq & Hdo). destruct (decide (id' = id)) as [->|Hid].
    + simplify_eq. unfold admit_step in Hdo. by rewrite Hp in Hdo.
    + exists r. split; [|done]. unfold admit_step in Hdo. repeat case_match; simplify_eq; cbn; by rewrite lookup_insert_ne.
  - apply bind_Some in Hdo as (q & Hq & Hdo). case_guard; [|done]. injection Hdo as <-. cbn.
    destruct (decide (id' = id)) as [->|Hid]; [|rewrite lookup_insert_ne by done; by eauto].
    simplify_eq. eexists. rewrite lookup_insert_eq. split; [done|]. unfold holds_watch. cbn. by rewrite Hw, Hp.
  - apply bind_Some in Hdo as (q & Hq & Hdo). case_guard; [|done]. injection Hdo as <-. cbn.
    destruct (decide (id' = id)) as [->|Hid]; [|rewrite lookup_insert_ne by done; by eauto].
    simplify_eq. eexists. rewrite lookup_insert_eq. split; [done|]. unfold holds_watch. cbn. by rewrite Hw, Hp.
  - injection Hdo as <-. exists (cancel_request r). cbn. by rewrite lookup_fmap, Hr.
  - apply bind_Some in Hdo as (q & Hq & Hdo). assert (id' ≠ id) by congruence. exists r. split; [|done].
    unfold finish_step in Hdo. repeat case_match; simplify_eq; cbn; by rewrite lookup_insert_ne.
Qed.

(** A request that holds a slot got it on arrival, as a watch or not, by its method. *)
Lemma admission_origin act a a' id r' :
  admission_do act a = Some a' → adm_requests a' !! id = Some r' → holds_rpc r' = true →
  (∃ r, adm_requests a !! id = Some r ∧ holds_rpc r = true ∧ request_watch r = request_watch r')
  ∨ ∃ method parent denied, act = Arrive id method parent denied
      ∧ request_watch r' = bool_decide (method = WatchTopology_FullMethodName).
Proof.
  intros Hdo Hr' Hh. assert (request_phase_ r' ≠ Gone) as Hp by (unfold holds_rpc in Hh; by case_bool_decide).
  destruct act as [v method parent denied|v|v|v|err|v]; cbn in Hdo.
  - case_guard; [|done]. injection Hdo as <-. unfold admit_request in Hr'.
    repeat case_match; cbn in Hr'; apply lookup_insert_Some in Hr' as [[<- <-]|[_ Hr]]; try done;
      try (by left; exists r'); right; by eexists _, _, _.
  - apply bind_Some in Hdo as (q & Hq & Hdo). left. destruct q as [qw qp qt qc]. unfold admit_step in Hdo. cbn in Hdo.
    destruct qp, qw; repeat case_match; simplify_eq; cbn in Hr'; apply lookup_insert_Some in Hr' as [[<- <-]|[_ Hr]];
      cbn in Hp; try congruence; by eexists.
  - apply bind_Some in Hdo as (q & Hq & Hdo). left. case_guard; [|done]. injection Hdo as <-. cbn in Hr'.
    apply lookup_insert_Some in Hr' as [[<- <-]|[_ Hr]]; [by exists q|by exists r'].
  - apply bind_Some in Hdo as (q & Hq & Hdo). left. case_guard; [|done]. injection Hdo as <-. cbn in Hr'.
    apply lookup_insert_Some in Hr' as [[<- <-]|[_ Hr]]; [by exists q|by exists r'].
  - injection Hdo as <-. left. cbn in Hr'. rewrite lookup_fmap in Hr'. apply fmap_Some in Hr' as (q & Hq & ->). by exists q.
  - apply bind_Some in Hdo as (q & Hq & Hdo). left. destruct q as [qw qp qt qc]. unfold finish_step in Hdo. cbn in Hdo.
    destruct qp, qw; repeat case_match; simplify_eq; cbn in Hr'; apply lookup_insert_Some in Hr' as [[<- <-]|[_ Hr]];
      cbn in Hp; try congruence; by eexists.
Qed.

(** The watchers that are registered. *)
Definition registered (W : World) : gset sid := dom (filter (λ wx, watcher_cancelled wx.2 = false) (world_watchers W)).

Lemma registered_spec W w :
  w ∈ registered W ↔ ∃ x, world_watchers W !! w = Some x ∧ watcher_cancelled x = false.
Proof.
  unfold registered. rewrite elem_of_dom. split.
  - intros [x [Hx Hc]%map_lookup_filter_Some]. by exists x.
  - intros (x & Hx & Hc). exists x. by apply map_lookup_filter_Some.
Qed.

(** No step but a subscription registers a watcher, and only for itself. *)
Lemma world_do_registered a W W' w :
  world_do a W = Some W' → w ∈ registered W' →
  w ∈ registered W ∨ ∃ k req sh now1 now2, a = ActSubscribe k req sh w now1 now2.
Proof.
  rewrite !registered_spec. intros Hdo (x' & Hx' & Hc'). destruct a as [c|k req sh v now1 now2|i|v|v|v]; cbn in Hdo.
  - apply bind_Some in Hdo as (ns & Hns & Hdo). case_guard; simplify_eq/=. rewrite post_watchers in Hx'. eauto.
  - do 2 (case_guard; simplify_eq/=). destruct (register _ _ _ _ _ _) as [reg s']. case_guard; simplify_eq/=.
    rewrite post_watchers in Hx'. apply lookup_insert_Some in Hx' as [[<- _]|[_ ?]]; eauto 10.
  - apply bind_Some in Hdo as ([p v] & Hi & Hdo). apply bind_Some in Hdo as (y & Hy & [= <-]). cbn in *.
    unfold perform_delivery in Hx'. pose proof (deliver_consumer p y) as Hs. destruct (watcher_deliver p y) as [y' ?]. cbn in *.
    apply lookup_insert_Some in Hx' as [[<- <-]|[_ ?]]; [|by eauto]. rewrite (same_cancelled _ _ Hs) in Hc'. eauto.
  - apply bind_Some in Hdo as (y & Hy & [= <-]). cbn in Hx'. apply lookup_insert_Some in Hx' as [[<- <-]|[_ ?]]; eauto.
  - apply bind_Some in Hdo as (y & Hy & Hdo). case_guard; simplify_eq/=.
    apply lookup_insert_Some in Hx' as [[<- <-]|[_ ?]]; [done|eauto].
  - apply bind_Some in Hdo as (y & Hy & Hdo). case_guard; simplify_eq/=.
    apply lookup_insert_Some in Hx' as [[<- <-]|[_ ?]]; eauto.
Qed.

(** ** Steps of the streams *)

(** The action subscribes [w]. *)
Definition opens (a : delivery_action) (w : sid) : Prop :=
  match a with
  | OpenWatch v _ _ _ => v = w
  | Elsewhere (ActSubscribe _ _ _ v _ _) => v = w
  | _ => False
  end.

(** A step of the streams is at most one step of the world, and adds a stream only
    for a subscription. *)
Lemma delivery_do_parts a D D' :
  delivery_do a D = Some D' →
  (dl_world D' = dl_world D ∨ ∃ b, world_do b (dl_world D) = Some (dl_world D')
     ∧ ∀ w k req sh now1 now2, b = ActSubscribe k req sh w now1 now2 → opens a w)
  ∧ dom (dl_streams D) ⊆ dom (dl_streams D') ∧ (∀ w, w ∈ dom (dl_streams D') → w ∈ dom (dl_streams D) ∨ opens a w).
Proof.
  assert (∀ v (s s' : stream), dl_streams D !! v = Some s → dom (<[v := s']> (dl_streams D)) = dom (dl_streams D)) as Hsame.
  { intros v s s' Hv. apply dom_insert_lookup_L. by eexists. }
  destruct a as [a|v key now1 now2|v now|v err|v now|v err|v|v]; cbn [delivery_do opens]; unfold stream_cancel; intros Hdo;
    [| |apply bind_Some in Hdo as (s & Hs & Hdo); destruct (stream_phase_ s); try done..].
  - destruct (foreign a D); [|done]. apply bind_Some in Hdo as (W & HdoW & [= <-]). split; [right|by split; [|left]].
    exists a. split; [done|]. by intros w ? ? ? ? ? ->.
  - apply bind_Some in Hdo as (_ & _ & Hdo). apply bind_Some in Hdo as (W & HdoW & [= <-]). split.
    + right. eexists. split; [done|]. by intros w ? ? ? ? ? [= <-].
    + cbn. rewrite dom_insert_L. split; [set_solver|]. intros w [->%elem_of_singleton|]%elem_of_union; [by right|by left].
  - unfold stream_receive in Hdo. apply bind_Some in Hdo as (x & Hx & Hdo). destruct (slot x).
    + apply bind_Some in Hdo as (W & HdoW & [= <-]). split; [right; eexists; split; [done|by intros]|cbn; erewrite Hsame by done; split; [done|by left]].
    + case_match; simplify_eq. split; [by left|cbn; erewrite Hsame by done; split; [done|by left]].
  - simplify_eq. split; [by left|cbn; erewrite Hsame by done; split; [done|by left]].
  - unfold stream_lookup in Hdo. apply bind_Some in Hdo as (W & HdoW & [= <-]).
    split; [right; eexists; split; [done|by intros]|cbn; erewrite Hsame by done; split; [done|by left]].
  - injection Hdo as <-. unfold stream_send. case_match; [|destruct (protobuf _ _)]; (split; [by left|cbn; erewrite Hsame by done; split; [done|by left]]).
  - apply bind_Some in Hdo as (W & HdoW & [= <-]). split; [right; eexists; split; [done|by intros]|cbn; erewrite Hsame by done; split; [done|by left]].
  - apply bind_Some in Hdo as (W & HdoW & [= <-]). split; [right; eexists; split; [done|by intros]|cbn; erewrite Hsame by done; split; [done|by left]].
Qed.

Lemma delivery_do_registered a D D' w :
  delivery_do a D = Some D' → w ∈ registered (dl_world D') → w ∈ registered (dl_world D) ∨ opens a w.
Proof.
  intros [[->|(b & Hb & Ho)] _]%delivery_do_parts Hw; [by left|].
  destruct (world_do_registered _ _ _ _ Hb Hw) as [|(? & ? & ? & ? & ? & ->)]; [by left|right; by eapply Ho].
Qed.

Lemma delivery_do_history a D D' :
  delivery_inv D → delivery_do a D = Some D' → world_history (dl_world D) ⊆ world_history (dl_world D').
Proof.
  intros HD [[->|(b & Hb & _)] _]%delivery_do_parts; [done|]. by apply (world_do_inv _ _ _ HD Hb).
Qed.

(** ** The invariant *)

Definition authorised (c : call) : Prop := authorize srv (call_values c) = None.

Definition call_ok (W : World) (c : call) : Prop :=
  match call_phase_ c with
  | Refreshed _ => authorised c ∧ call_method c = GetTopology_FullMethodName
  | Streaming => authorised c ∧ call_method c = WatchTopology_FullMethodName
  | Answered (Topology m) => authorised c ∧ call_method c = GetTopology_FullMethodName
      ∧ ∃ p, world_history W !! publication_order p = Some p ∧ m = toProto (publication_snapshot p)
  | _ => True
  end.

Record frontend_inv (a0 : admission) (f : frontend) : Prop := {
  fi_admission : admission_reachable a0 (fe_admission f);
  fi_delivery : delivery_inv (fe_delivery f);
  fi_registered : ∀ w, w ∈ registered (dl_world (fe_delivery f)) →
    w ∈ dom (dl_streams (fe_delivery f)) ∧ ∃ r, adm_requests (fe_admission f) !! w = Some r ∧ holds_watch r = true;
  fi_streams : ∀ w, w ∈ dom (dl_streams (fe_delivery f)) → ∃ c, fe_calls f !! w = Some c ∧ call_phase_ c = Streaming;
  fi_method : ∀ i c r, fe_calls f !! i = Some c → adm_requests (fe_admission f) !! i = Some r → holds_rpc r = true →
    request_watch r = bool_decide (call_method c = WatchTopology_FullMethodName);
  fi_calls : map_Forall (λ _, call_ok (dl_world (fe_delivery f))) (fe_calls f);
}.

Lemma call_ok_grows W W' c : world_history W ⊆ world_history W' → call_ok W c → call_ok W' c.
Proof.
  intros Hsub. unfold call_ok. destruct (call_phase_ c) as [| | |[]]; try done.
  intros (? & ? & p & ? & ?). split_and!; [done..|]. exists p. split; [by eapply lookup_weaken|done].
Qed.

(** A step of admission that neither brings a request nor ends one whose stream is registered. *)
Lemma inv_admission a0 act a f :
  frontend_inv a0 f → admission_do act (fe_admission f) = Some a → (∀ i m p d, act ≠ Arrive i m p d) →
  (∀ id, act = FinishStep id → id ∉ registered (dl_world (fe_delivery f))) → frontend_inv a0 (with_admission a f).
Proof.
  intros [Ha Hd Hr Hs Hm Hc] Hdo Harr Hfin. split; cbn; try done; [by econstructor|..].
  - intros w Hw. destruct (Hr w Hw) as (? & r & Hwr & Hh). split; [done|].
    eapply admission_keeps; [done| |done..]. intros ->. by apply (Hfin w).
  - intros i c r' Hi Hr' Hh. destruct (admission_origin _ _ _ _ _ Hdo Hr' Hh) as [(r & Hir & ? & <-)|(? & ? & ? & -> & _)];
      [by eapply Hm|by edestruct Harr].
Qed.

(** A step of the streams that subscribes nobody. *)
Lemma inv_delivery a0 a D f :
  frontend_inv a0 f → delivery_do a (fe_delivery f) = Some D → (∀ w, ¬ opens a w) → frontend_inv a0 (with_delivery D f).
Proof.
  intros [Ha Hd Hr Hs Hm Hc] Hdo Hno. destruct (delivery_do_parts _ _ _ Hdo) as (_ & Hkeep & Hst). split; cbn; try done.
  - by eapply delivery_do_inv.
  - intros w Hw. destruct (delivery_do_registered _ _ _ _ Hdo Hw) as [Hw'|Hw']; [|by apply Hno in Hw'].
    destruct (Hr w Hw') as [? ?]. split; [by apply Hkeep|done].
  - intros w Hw. destruct (Hst w Hw) as [?|Hw']; [by apply Hs|by apply Hno in Hw'].
  - eapply map_Forall_impl; [done|]. intros i c. apply call_ok_grows. by eapply delivery_do_history.
Qed.

(** A call that is not streaming moves on. *)
Lemma inv_call a0 f i c p :
  frontend_inv a0 f → fe_calls f !! i = Some c → call_phase_ c ≠ Streaming →
  call_ok (dl_world (fe_delivery f)) (Call (call_method c) (call_values c) p) →
  frontend_inv a0 {| fe_admission := fe_admission f; fe_delivery := fe_delivery f; fe_calls := set_call i p c (fe_calls f) |}.
Proof.
  intros [Ha Hd Hr Hs Hm Hc] Hi Hne Hok. split; cbn; unfold set_call; try done.
  - intros w Hw. destruct (Hs w Hw) as (c' & Hc' & Hst). exists c'. split; [|done].
    rewrite lookup_insert_ne; [done|]. intros ->. congruence.
  - intros j c' r [[<- <-]|[_ Hj]]%lookup_insert_Some Hr' Hh; [by eapply (Hm i c)|by eapply Hm].
  - by apply map_Forall_insert_2.
Qed.

(** ** Steps of the front end *)

Lemma serve_inv a0 f f' i path header parent :
  frontend_inv a0 f → fe_calls f !! i = None → serve_http srv i path header parent f = Some f' → frontend_inv a0 f'.
Proof.
  intros [Ha Hd Hr Hs Hm Hc] Hi. unfold serve_http. intros (a & Hdo & [= <-])%bind_Some. split; cbn; try done; [by econstructor|..].
  - intros w Hw. destruct (Hr w Hw) as (? & r & Hwr & Hh). split; [done|]. by eapply admission_keeps.
  - intros w Hw. destruct (Hs w Hw) as (c & Hc' & ?). exists c. rewrite lookup_insert_ne by congruence. done.
  - intros j c r [[<- <-]|[Hne Hj]]%lookup_insert_Some Hr' Hh;
      (destruct (admission_origin _ _ _ _ _ Hdo Hr' Hh) as [(r0 & Hjr & Hh0 & <-)|(? & ? & ? & Heq & ->)]); simplify_eq; try done; [|by eapply Hm].
    (* the identifier was unused *)
    cbn in Hdo. case_guard; [congruence|done].
  - apply map_Forall_insert_2; [|done]. unfold call_ok. cbn [call_phase_]. by destruct (admit_request _ _ _ _ _).1.
Qed.

Lemma dispatched_spec i m f c :
  dispatched i m f = Some c →
  fe_calls f !! i = Some c ∧ call_phase_ c = Dispatching ∧ call_method c = m
  ∧ ∃ r, adm_requests (fe_admission f) !! i = Some r ∧ request_phase_ r = Serving.
Proof.
  unfold dispatched, in_service. intros (c' & Hc & Hd)%bind_Some. case_match eqn:Hb; [|done]. injection Hd as ->.
  apply andb_true_iff in Hb as [[Hb Hm%bool_decide_eq_true]%andb_true_iff Hph].
  destruct (adm_requests _ !! i) as [r|]; [|done]. apply bool_decide_eq_true in Hb.
  split_and!; [done|by destruct (call_phase_ c)|done|by exists r].
Qed.

Lemma checks_spec c namespace name : checks srv c namespace name = None → authorised c.
Proof. unfold checks, authorised. by destruct (authorize srv (call_values c)). Qed.

Lemma get_begin_inv a0 f f' i c namespace name now :
  frontend_inv a0 f → dispatched i GetTopology_FullMethodName f = Some c → get_begin srv i c namespace name now f = Some f' →
  frontend_inv a0 f'.
Proof.
  intros HF (Hc & Hph & Hm & _)%dispatched_spec. unfold get_begin. destruct (checks _ _ _ _) eqn:Hch.
  - intros [= <-]. apply inv_call; [done..|by rewrite Hph|done].
  - intros (D & Hdo & [= <-])%bind_Some. apply (inv_call a0 (with_delivery D f)); [eapply inv_delivery; [done|done|by intros w []]|done|by rewrite Hph|].
    split; [by eapply checks_spec|done].
Qed.

Lemma get_read_inv a0 f f' i c key now :
  frontend_inv a0 f → fe_calls f !! i = Some c → call_phase_ c = Refreshed key → get_read i c key now f = Some f' →
  frontend_inv a0 f'.
Proof.
  intros HF Hc Hph. pose proof (fi_calls _ _ HF _ _ Hc) as Hok. unfold call_ok in Hok. rewrite Hph in Hok. destruct Hok as [Hau Hme].
  unfold get_read. intros (D & Hdo & Hrest)%bind_Some.
  assert (frontend_inv a0 (with_delivery D f)) as HF' by (eapply inv_delivery; [done|done|by intros w []]).
  destruct (readPublication _ _ _).1.1 as [p|] eqn:Hread.
  - assert (world_history (dl_world D) !! publication_order p = Some p) as Hhist.
    { pose proof (readPublication_current key now (world_store (dl_world (fe_delivery f)))) as Hcur. rewrite Hread in Hcur.
      cbn in Hdo. case_guard; simplify_eq/=. destruct (records _ !! key) as [r|] eqn:Hr; [|done]. injection Hcur as ->.
      pose proof (di_world _ (fi_delivery _ _ HF')) as HW. by destruct (inv_latest_history _ HW _ _ (inv_records _ HW _ _ Hr)). }
    pose proof (protobuf_spec D (new_watcher (pub_key p) true 0) p (fi_delivery _ _ HF') (conj Hhist eq_refl)) as [Hm Hwire].
    destruct (protobuf p (dl_wire D)) as [m wire]. cbn in Hm, Hwire. subst m. injection Hrest as <-.
    apply (inv_call a0 (with_delivery {| dl_world := dl_world D; dl_streams := dl_streams D; dl_wire := wire |} f)); [|done|by rewrite Hph|].
    + destruct HF' as [? [] ? ? ? ?]. by split.
    + cbn. split_and!; [done..|]. by exists p.
  - injection Hrest as <-. by apply (inv_call a0 (with_delivery D f)); [|done|rewrite Hph|].
Qed.

Lemma watch_begin_inv a0 f f' i c namespace name now1 now2 :
  frontend_inv a0 f → dispatched i WatchTopology_FullMethodName f = Some c →
  watch_begin srv i c namespace name now1 now2 f = Some f' → frontend_inv a0 f'.
Proof.
  intros HF (Hc & Hph & Hm & r & Hr & Hserving)%dispatched_spec. unfold watch_begin.
  destruct (checks _ _ _ _) eqn:Hch; [|destruct (records _ !! _); [|]].
  1,3: by intros [= <-]; apply inv_call; [..|rewrite Hph|].
  intros (D & Hdo & [= <-])%bind_Some. pose proof HF as [Ha Hd Hre Hs Hme Hca].
  destruct (delivery_do_parts _ _ _ Hdo) as (_ & Hkeep & Hst). split; cbn; unfold set_call; try done.
  - by eapply delivery_do_inv.
  - intros w Hw. destruct (delivery_do_registered _ _ _ _ Hdo Hw) as [Hw'|Ho]; [|cbn in Ho; subst w].
    + destruct (Hre w Hw') as [? ?]. split; [by apply Hkeep|done].
    + split; [cbn in Hdo; apply bind_Some in Hdo as (_ & _ & (W & _ & [= <-])%bind_Some); cbn; rewrite dom_insert_L; set_solver|].
      exists r. split; [done|]. unfold holds_watch. rewrite (Hme i c r Hc Hr), Hm by (unfold holds_rpc; by rewrite Hserving). by rewrite Hserving.
  - intros w Hw. destruct (decide (i = w)) as [<-|Hne]; [rewrite lookup_insert_eq; by eexists|].
    rewrite lookup_insert_ne by done. destruct (Hst w Hw) as [?|Ho]; [by apply Hs|done].
  - intros j c' r' [[<- <-]|[_ Hj]]%lookup_insert_Some Hr' Hh; [by eapply (Hme i c)|by eapply Hme].
  - apply map_Forall_insert_2; [split; [by eapply checks_spec|done]|].
    eapply map_Forall_impl; [done|]. intros j c'. apply call_ok_grows. by eapply delivery_do_history.
Qed.

Lemma admit_rest_inv a0 f f' i c :
  frontend_inv a0 f → fe_calls f !! i = Some c → call_phase_ c = Dispatching → admit_rest i c f = Some f' → frontend_inv a0 f'.
Proof.
  intros HF Hc Hph. unfold admit_rest. intros (a & Hdo & [= <-])%bind_Some.
  assert (frontend_inv a0 (with_admission a f)) as HF' by by eapply inv_admission.
  case_match; [|by destruct HF']. by apply (inv_call a0 (with_admission a f)); [..|rewrite Hph|].
Qed.

Lemma frontend_do_inv a0 act f f' : frontend_inv a0 f → frontend_do srv act f = Some f' → frontend_inv a0 f'.
Proof.
  intros HF. destruct act as [i path header parent|i|i|i|err|i ns name now|i now|i ns name now1 now2|a|c|n|i]; cbn [frontend_do]; intros Hdo.
  - apply bind_Some in Hdo as (Hi & _ & Hdo). by eapply serve_inv.
  - apply bind_Some in Hdo as (c & Hc & Hdo). destruct (call_phase_ c) eqn:Hph; try done. by eapply admit_rest_inv.
  - apply bind_Some in Hdo as (a & Hdo & [= <-]). by eapply inv_admission.
  - apply bind_Some in Hdo as (a & Hdo & [= <-]). by eapply inv_admission.
  - apply bind_Some in Hdo as (a & Hdo & [= <-]). by eapply inv_admission.
  - apply bind_Some in Hdo as (c & Hc & Hdo). by eapply get_begin_inv.
  - apply bind_Some in Hdo as (c & Hc & Hdo). destruct (call_phase_ c) eqn:Hph; try done. by eapply get_read_inv.
  - apply bind_Some in Hdo as (c & Hc & Hdo). by eapply watch_begin_inv.
  - destruct (stream_of a) eqn:Hs; [|done]. apply bind_Some in Hdo as (D & Hdo & [= <-]).
    eapply inv_delivery; [done|done|]. destruct a; try done; by intros ? [].
  - apply bind_Some in Hdo as (D & Hdo & [= <-]). eapply inv_delivery; [done|done|by intros w []].
  - apply bind_Some in Hdo as (D & Hdo & [= <-]). eapply inv_delivery; [done|done|by intros w []].
  - apply bind_Some in Hdo as (c & Hc & Hdo). destruct (method_returned i c f) eqn:Hret; [|done].
    apply bind_Some in Hdo as (a & Hdo & [= <-]). eapply inv_admission; [done..|]. intros j [= <-] Hj.
    destruct (fi_registered _ _ HF i Hj) as [Hs _]. destruct (fi_streams _ _ HF i Hs) as (c' & Hc' & Hst). simplify_eq.
    apply registered_spec in Hj as (x & Hx & Hcan). unfold method_returned in Hret. by rewrite Hst, Hx, Hcan in Hret.
Qed.

Lemma frontend_reachable_inv id l0 a0 f :
  newAdmission l0 = inr a0 → frontend_reachable srv id a0 f → frontend_inv a0 f.
Proof.
  intros Hnew. induction 1 as [|act f f' _ IH Hdo]; [|by eapply frontend_do_inv]. split; cbn; try done.
  - constructor.
  - apply (delivery_reachable_inv id). constructor.
Qed.

(** The registered watchers hold watch slots. *)
Lemma registered_bounded a0 f : frontend_inv a0 f →
  Z.of_nat (size (registered (dl_world (fe_delivery f)))) ≤ count holds_watch (adm_requests (fe_admission f)).
Proof.
  intros HF. unfold count. rewrite <-(size_dom (filter _ (adm_requests _))). apply inj_le, subseteq_size.
  intros w Hw. destruct (fi_registered _ _ HF w Hw) as (_ & r & Hr & Hh). apply elem_of_dom. exists r. by apply map_lookup_filter_Some.
Qed.

(** ** Theorem *)

(** C33: however requests, cancellations, publications and streams interleave, the
    subscribers of the store never exceed [MaxWatches], in all and for any Cluster;
    every stream belongs to a watch request that was authorised; and every topology
    returned by a unary call went to an authorised request and is the message of a
    publication the store committed. *)
Theorem frontend_guarded l0 a0 id f :
  newAdmission l0 = inr a0 → frontend_reachable srv id a0 f →
  let W := dl_world (fe_delivery f) in
  Z.of_nat (size (registered W)) ≤ MaxWatches (normalized l0).1
  ∧ (∀ k, Z.of_nat (size (watchers_of (world_store W) k)) ≤ MaxWatches (normalized l0).1)
  ∧ (∀ w s, dl_streams (fe_delivery f) !! w = Some s → ∃ c, fe_calls f !! w = Some c
       ∧ authorize srv (call_values c) = None ∧ call_method c = WatchTopology_FullMethodName)
  ∧ (∀ i c m, fe_calls f !! i = Some c → call_phase_ c = Answered (Topology m) →
       authorize srv (call_values c) = None ∧ call_method c = GetTopology_FullMethodName
       ∧ ∃ p, world_history W !! publication_order p = Some p ∧ m = toProto (publication_snapshot p)).
Proof.
  intros Hnew HF. apply (frontend_reachable_inv _ _ _ _ Hnew) in HF. cbv zeta. pose proof (registered_bounded _ _ HF) as Hle.
  destruct (admission_reachable_wf _ _ _ Hnew (fi_admission _ _ HF)) as [_ _ Hw _ Hcap _ _]. split_and!.
  - lia.
  - intros k. enough (size (watchers_of (world_store (dl_world (fe_delivery f))) k) ≤ size (registered (dl_world (fe_delivery f))))%nat by lia.
    apply subseteq_size. intros w (x & Hx & _ & Hc)%(inv_registered _ (di_world _ (fi_delivery _ _ HF))). apply registered_spec. by exists x.
  - intros w s Hs. destruct (fi_streams _ _ HF w) as (c & Hc & Hph); [by apply elem_of_dom|]. exists c.
    pose proof (fi_calls _ _ HF _ _ Hc) as Hok. unfold call_ok in Hok. rewrite Hph in Hok. destruct Hok. done.
  - intros i c m Hc Hph. pose proof (fi_calls _ _ HF _ _ Hc) as Hok. unfold call_ok in Hok. by rewrite Hph in Hok.
Qed.
End props.

(** ** A concrete run

    A server with a token and room for one watch: a request without the token is
    rejected, one watch is opened, a second finds no slot, and a unary call is
    answered. *)

Section example.
#[local] Existing Instances identity_digest plain_text plain_range plain_service.

Definition one_watch : Limits := {|
  MaxConcurrentStreams := 1; MaxConnections := 4; MaxRPCs := 4; MaxWatches := 1; InitialRequestTimeout := second;
|}.

Definition bearer (token : string) : gmap string (list string) := {["authorization" := ["Bearer " +:+ token]]}.

Definition example_frontend_run : list frontend_action :=
  [StoreStep (CallPut (example_snapshot second) second second);
   ServeHTTP 1 WatchTopology_FullMethodName (bearer "wrong") None;
   ServeHTTP 2 WatchTopology_FullMethodName (bearer "secret") None; AdmitRest 2;
   WatchBegin 2 (key_namespace example_key) (key_name example_key) second second;
   ServeHTTP 3 WatchTopology_FullMethodName (bearer "secret") None; AdmitRest 3; AdmitRest 3;
   ServeHTTP 4 GetTopology_FullMethodName (bearer "secret") None; AdmitRest 4;
   GetBegin 4 (key_namespace example_key) (key_name example_key) second; GetRead 4 second; Finishes 4].

Definition frontend_run (a : admission) : option frontend :=
  foldl (λ f act, f ← f; frontend_do (NewServer "secret") act f) (Some (NewFrontend "process" a)) example_frontend_run.

Lemma frontend_run_reachable `{TextLibrary, MapRange, ServiceLibrary, RoutingDigest} srv id a l f :
  foldl (λ f act, f ← f; frontend_do srv act f) (Some (NewFrontend id a)) l = Some f → frontend_reachable srv id a f.
Proof.
  revert f. induction l as [|act l IH] using rev_ind; intros f; [intros [= <-]; constructor|].
  rewrite foldl_snoc. intros (f1 & Hf1 & Hdo)%bind_Some. econstructor; [by apply IH|done].
Qed.

(** What the requests of the run came to. *)
Definition outcomes (f : frontend) : list (option nat) :=
  (λ i, (λ c, match call_phase_ c with Answered (Rejected _) => 0%nat | Streaming => 1%nat | Answered (Topology _) => 2%nat | _ => 3%nat end)
        <$> fe_calls f !! i) <$> [1%positive; 2%positive; 3%positive; 4%positive].

Definition example_admission : admission := match newAdmission one_watch with inr a => a | inl _ => {|
  adm_limits := one_watch; adm_rpcs := 0; adm_watches := 0; adm_rejectedAuth := 0; adm_rejectedCapacity := 0;
  adm_timedout := 0; adm_shutdown := None; adm_requests := ∅ |} end.

Lemma example_outcomes : outcomes <$> frontend_run example_admission = Some [Some 0%nat; Some 1%nat; Some 0%nat; Some 2%nat].
Proof. vm_compute. reflexivity. Qed.

Lemma frontend_guarded_witness :
  ∃ f, frontend_run example_admission = Some f ∧ outcomes f = [Some 0%nat; Some 1%nat; Some 0%nat; Some 2%nat]
    ∧ Z.of_nat (size (registered (dl_world (fe_delivery f)))) ≤ 1.
Proof.
  pose proof example_outcomes as Ho. destruct (frontend_run example_admission) as [f|] eqn:Hf; [|discriminate Ho].
  exists f. split; [reflexivity|]. split; [exact (inj Some _ _ Ho)|].
  apply (frontend_guarded (NewServer "secret") one_watch example_admission "process" f).
  - reflexivity.
  - exact (frontend_run_reachable _ _ _ _ _ Hf).
Defined.
End example.
