(* ===== verification/Runtime.v ===== *)
(** * The server runtime (src/internal/server/run.go)

    [Run] opens the listeners, starts four services and shuts all of them down as
    soon as one stops or its context is done.  The goroutine that called [Run], the
    services' goroutines and the shutdown goroutines are interleaved as actions of
    [runtime_do]; an action that is not enabled gives [None].  What a service or
    the HTTP and gRPC libraries do is when an action happens and with which
    error. *)

From Stdlib Require Import Ascii.
From S2P Require Import Prelude Admission.

(** ** Startup *)

Inductive listener := PluginListener | DiscoveryListener | HealthListener.

Inductive run_failure :=
  | ErrAdmission (err : limits_error)
  | ErrListen (l : listener).

#[export] Instance listener_eq_dec : EqDecision listener.
Proof. solve_decision. Defined.

(** The listeners in the order they are opened. *)
Definition listen_order : list listener := [PluginListener; DiscoveryListener; HealthListener].

(** Open listeners until one fails; the opened ones, latest first as the deferred
    calls close them. *)
Fixpoint open_listeners (listens : listener → bool) (opened todo : list listener) : option listener * list listener :=
  match todo with
  | [] => (None, opened)
  | l :: todo => if listens l then open_listeners listens (l :: opened) todo else (Some l, opened)
  end.

(** [Run] up to the start of the services: the admission and the open listeners, or
    an error and the listeners that were opened and closed again. *)
Definition startup (limits : Limits) (listens : listener → bool) :
    (run_failure * list listener) + (admission * list listener) :=
  match newAdmission limits with
  | inl err => inl (ErrAdmission err, [])
  | inr a =>
      match open_listeners listens [] listen_order with
      | (Some l, opened) => inl (ErrListen l, opened)
      | (None, opened) => inr (a, opened)
      end
  end.

(** ** Services *)

Inductive service := PluginServer | DiscoveryAPI | HealthServer | ObserverService.

#[export] Instance service_eq_dec : EqDecision service.
Proof. solve_decision. Defined.

Definition services : list service := [PluginServer; DiscoveryAPI; HealthServer; ObserverService].

Definition service_name (s : service) : string :=
  match s with
  | PluginServer => "CNPG-I server"
  | DiscoveryAPI => "discovery API"
  | HealthServer => "health server"
  | ObserverService => "observer"
  end.

(** What a service's function returns: [ErrClosed] stands for
    [http.ErrServerClosed] and [grpc.ErrServerStopped]. *)
Inductive exit_error := ErrClosed | ErrStoppedUnexpectedly | ErrService (message : string).

(** What [Run] returns once the services run. *)
Inductive run_error :=
  | ErrNamed (name : string) (err : exit_error)
  | ErrShutdownTimedOut.

#[export] Instance exit_error_eq_dec : EqDecision exit_error.
Proof. solve_decision. Defined.
#[export] Instance run_error_eq_dec : EqDecision run_error.
Proof. solve_decision. Defined.

(** The error a service's goroutine sends; [stopping] is [runCtx.Err() != nil]. *)
Definition reported_error (s : service) (err : option exit_error) (stopping : bool) : option run_error :=
  let err := if bool_decide (err = Some ErrClosed) then None else err in
  let err := if bool_decide (err = None) && negb stopping then Some ErrStoppedUnexpectedly else err in
  ErrNamed (service_name s) <$> err.

(** A service's goroutine: running, before its send, and finished. *)
Inductive worker := Serving | Exited (err : option exit_error) | Reported.

(** The goroutines of [shutdown]. *)
Inductive shutdown_task := StopHealth | StopDiscoveryHTTP | StopPluginGRPC | StopDiscoveryGRPC.

#[export] Instance shutdown_task_eq_dec : EqDecision shutdown_task.
Proof. solve_decision. Defined.

Definition shutdown_tasks : list shutdown_task := [StopHealth; StopDiscoveryHTTP; StopPluginGRPC; StopDiscoveryGRPC].

Definition is_grpc (t : shutdown_task) : bool :=
  match t with StopPluginGRPC | StopDiscoveryGRPC => true | StopHealth | StopDiscoveryHTTP => false end.

(** Where the caller of [Run] is. *)
Inductive run_phase :=
  | Selecting   (* waits for the context or an error *)
  | Stopping    (* shutdown.Wait() *)
  | Awaiting    (* the last select *)
  | Joining     (* workers.Wait() *)
  | Returned.

#[export] Instance run_phase_eq_dec : EqDecision run_phase.
Proof. solve_decision. Defined.

Record runtime := {
  rt_phase : run_phase;
  rt_ctx : bool;                          (* ctx is done *)
  rt_runCtx : bool;                       (* runCtx is done *)
  rt_worker : service → worker;
  rt_errors : list (option run_error);    (* errorsCh *)
  rt_observerDone : bool;
  rt_tasks : list shutdown_task;          (* shutdown goroutines that have not finished *)
  rt_deadline : bool;                     (* shutdownCtx is done *)
  rt_forced : bool;
  rt_result : option run_error;
}.

Definition errors_capacity : nat := 4.

Definition runtime_started : runtime := {|
  rt_phase := Selecting; rt_ctx := false; rt_runCtx := false; rt_worker := λ _, Serving; rt_errors := [];
  rt_observerDone := false; rt_tasks := shutdown_tasks; rt_deadline := false; rt_forced := false; rt_result := None;
|}.

Definition set_worker (s : service) (w : worker) (f : service → worker) : service → worker :=
  λ s', if bool_decide (s' = s) then w else f s'.

Inductive runtime_action :=
  | ContextDone                                    (* ctx is cancelled *)
  | Exit (s : service) (err : option exit_error)   (* the service's function returned *)
  | Report (s : service)                           (* its goroutine sends on errorsCh *)
  | SelectContext                                  (* case <-ctx.Done() *)
  | SelectError                                    (* case result = <-errorsCh *)
  | Deadline                                       (* shutdownCtx expires *)
  | TaskDone (t : shutdown_task) (ok : bool)       (* a shutdown goroutine finishes; ok: gracefully *)
  | ShutdownWaited                                 (* shutdown.Wait() returned; the first select *)
  | ObserverSeen                                   (* the last select: case <-observerDone *)
  | TimedOut                                       (* the last select: case <-shutdownCtx.Done() *)
  | WorkersWaited.                                 (* workers.Wait() returned *)

Definition set_phase (p : run_phase) (result : option run_error) (r : runtime) : runtime := {|
  rt_phase := p; rt_ctx := rt_ctx r; rt_runCtx := rt_runCtx r; rt_worker := rt_worker r; rt_errors := rt_errors r;
  rt_observerDone := rt_observerDone r; rt_tasks := rt_tasks r; rt_deadline := rt_deadline r; rt_forced := rt_forced r;
  rt_result := result;
|}.

(** After the select: [cancel()], and the shutdown goroutines start. *)
Definition begin_shutdown (errors : list (option run_error)) (result : option run_error) (r : runtime) : runtime := {|
  rt_phase := Stopping; rt_ctx := rt_ctx r; rt_runCtx := true; rt_worker := rt_worker r; rt_errors := errors;
  rt_observerDone := rt_observerDone r; rt_tasks := rt_tasks r; rt_deadline := rt_deadline r; rt_forced := rt_forced r;
  rt_result := result;
|}.

(** [if !forced.Load() { workers.Wait() }; return result]. *)
Definition observer_done (r : runtime) : runtime :=
  set_phase (if rt_forced r then Returned else Joining) (rt_result r) r.

Definition exit_service (s : service) (err : option exit_error) (r : runtime) : runtime := {|
  rt_phase := rt_phase r; rt_ctx := rt_ctx r; rt_runCtx := rt_runCtx r;
  rt_worker := set_worker s (Exited err) (rt_worker r); rt_errors := rt_errors r;
  rt_observerDone := rt_observerDone r || bool_decide (s = ObserverService);
  rt_tasks := rt_tasks r; rt_deadline := rt_deadline r; rt_forced := rt_forced r; rt_result := rt_result r;
|}.

Definition report_service (s : service) (err : option exit_error) (r : runtime) : runtime := {|
  rt_phase := rt_phase r; rt_ctx := rt_ctx r; rt_runCtx := rt_runCtx r;
  rt_worker := set_worker s Reported (rt_worker r);
  rt_errors := rt_errors r ++ [reported_error s err (rt_runCtx r)];
  rt_observerDone := rt_observerDone r; rt_tasks := rt_tasks r; rt_deadline := rt_deadline r; rt_forced := rt_forced r;
  rt_result := rt_result r;
|}.

(** [forced] is set by a gRPC server that did not stop in time. *)
Definition finish_task (t : shutdown_task) (ok : bool) (r : runtime) : runtime := {|
  rt_phase := rt_phase r; rt_ctx := rt_ctx r; rt_runCtx := rt_runCtx r; rt_worker := rt_worker r; rt_errors := rt_errors r;
  rt_observerDone := rt_observerDone r; rt_tasks := filter (λ t', t' ≠ t) (rt_tasks r); rt_deadline := rt_deadline r;
  rt_forced := rt_forced r || (is_grpc t && negb ok); rt_result := rt_result r;
|}.

Definition runtime_do (a : runtime_action) (r : runtime) : option runtime :=
  match a with
  | ContextDone =>
      if rt_ctx r then None else Some {|
        rt_phase := rt_phase r; rt_ctx := true; rt_runCtx := true; rt_worker := rt_worker r; rt_errors := rt_errors r;
        rt_observerDone := rt_observerDone r; rt_tasks := rt_tasks r; rt_deadline := rt_deadline r;
        rt_forced := rt_forced r; rt_result := rt_result r |}
  | Exit s err => match rt_worker r s with Serving => Some (exit_service s err r) | _ => None end
  | Report s =>
      match rt_worker r s with
      | Exited err => if (length (rt_errors r) <? errors_capacity)%nat then Some (report_service s err r) else None
      | _ => None
      end
  | SelectContext =>
      if bool_decide (rt_phase r = Selecting) && rt_ctx r then Some (begin_shutdown (rt_errors r) None r) else None
  | SelectError =>
      if bool_decide (rt_phase r = Selecting)
      then match rt_errors r with err :: errors => Some (begin_shutdown errors err r) | [] => None end
      else None
  | Deadline =>
      if bool_decide (rt_phase r = Selecting) || rt_deadline r then None else Some {|
        rt_phase := rt_phase r; rt_ctx := rt_ctx r; rt_runCtx := rt_runCtx r; rt_worker := rt_worker r; rt_errors := rt_errors r;
        rt_observerDone := rt_observerDone r; rt_tasks := rt_tasks r; rt_deadline := true;
        rt_forced := rt_forced r; rt_result := rt_result r |}
  | TaskDone t ok =>
      if bool_decide (rt_phase r = Stopping) && bool_decide (t ∈ rt_tasks r) && (ok || negb (is_grpc t) || rt_deadline r)
      then Some (finish_task t ok r) else None
  | ShutdownWaited =>
      if bool_decide (rt_phase r = Stopping) && bool_decide (rt_tasks r = [])
      then Some (if rt_observerDone r then observer_done r else set_phase Awaiting (rt_result r) r) else None
  | ObserverSeen =>
      if bool_decide (rt_phase r = Awaiting) && rt_observerDone r then Some (observer_done r) else None
  | TimedOut =>
      if bool_decide (rt_phase r = Awaiting) && rt_deadline r
      then Some (set_phase Returned (match rt_result r with None => Some ErrShutdownTimedOut | err => err end) r) else None
  | WorkersWaited =>
      if bool_decide (rt_phase r = Joining) && forallb (λ s, match rt_worker r s with Reported => true | _ => false end) services
      then Some (set_phase Returned (rt_result r) r) else None
  end.

Definition runtime_run (l : list runtime_action) : option runtime :=
  foldl (λ r a, r ← r; runtime_do a r) (Some runtime_started) l.

(** ** Health endpoints *)

Record http_answer := { answer_status : Z; answer_body : string }.

(** [HealthHandler]: a method pattern of [ServeMux] for GET also matches HEAD, another
    method of a known path gives 405. *)
Definition HealthHandler (ready : bool) (metrics : list string) (method path : string) (cancelled : bool) : http_answer :=
  let live := {| answer_status := 200; answer_body := "ok" +:+ String "010"%char "" |} in
  let known := Contains ["/metrics"; "/healthz"; "/livez"; "/readyz"] path in
  if negb known then {| answer_status := 404; answer_body := "404 page not found" +:+ String "010"%char "" |}
  else if negb (Contains ["GET"; "HEAD"] method)
  then {| answer_status := 405; answer_body := "Method Not Allowed" +:+ String "010"%char "" |}
  else if bool_decide (path = "/metrics")
  then if cancelled then {| answer_status := 200; answer_body := "" |}
       else {| answer_status := 200; answer_body := String.concat "" metrics |}
  else if bool_decide (path = "/readyz") && negb ready
  then {| answer_status := 503; answer_body := "initial topology collection pending" +:+ String "010"%char "" |}
  else live.
