(* ===== verification/RuntimeProps.v ===== *)
(** * Correctness of the server runtime

    [Run] starts everything or nothing, returns nil only when it was told to stop,
    and returns within its shutdown deadline whatever services and handlers do. *)

From S2P Require Import Prelude Admission Runtime.

(** ** Invariant *)

Definition worker_cost (w : worker) : nat := match w with Serving => 2 | Exited _ => 1 | Reported => 0 end.

Definition is_unreported (w : worker) : nat := match w with Reported => 0 | _ => 1 end.

(** A measure over the four services. *)
Definition over_services (f : worker → nat) (r : runtime) : nat :=
  (f (rt_worker r PluginServer) + f (rt_worker r DiscoveryAPI) + f (rt_worker r HealthServer)
   + f (rt_worker r ObserverService))%nat.

Lemma over_services_set f s w r r' :
  rt_worker r' = set_worker s w (rt_worker r) →
  (over_services f r' + f (rt_worker r s) = over_services f r + f w)%nat.
Proof. unfold over_services. intros ->. unfold set_worker. destruct s; repeat (case_bool_decide; try congruence); lia. Qed.

Record runtime_inv (r : runtime) : Prop := {
  inv_ctx : rt_ctx r = true → rt_runCtx r = true;
  inv_selecting : rt_phase r = Selecting → rt_runCtx r = rt_ctx r ∧ rt_deadline r = false ∧ rt_forced r = false;
  inv_errors : rt_phase r = Selecting → None ∈ rt_errors r → rt_ctx r = true;
  inv_result : rt_phase r ≠ Selecting → rt_result r = None → rt_ctx r = true;
  inv_named : Some ErrShutdownTimedOut ∉ rt_errors r;
  inv_timeout : rt_result r = Some ErrShutdownTimedOut → rt_phase r = Returned ∧ rt_deadline r = true;
  inv_observer : rt_observerDone r = true ↔ rt_worker r ObserverService ≠ Serving;
  inv_count : (length (rt_errors r) + over_services is_unreported r ≤ errors_capacity)%nat;
  inv_tasks : rt_phase r = Awaiting ∨ rt_phase r = Joining → rt_tasks r = [];
  inv_joining : rt_phase r = Joining → rt_forced r = false ∧ rt_observerDone r = true;
  inv_forced : rt_forced r = true → rt_deadline r = true;
  inv_returned : rt_phase r = Returned → rt_deadline r = true ∨ ∀ s, rt_worker r s = Reported;
}.

Lemma started_inv : runtime_inv runtime_started.
Proof. split; cbn; try done; try (intros; set_solver). Qed.

Ltac guards :=
  repeat match goal with
  | H : _ && _ = true |- _ => apply andb_true_iff in H as [? ?]
  | H : bool_decide _ = true |- _ => apply bool_decide_eq_true in H
  | H : _ || _ = false |- _ => apply orb_false_iff in H as [? ?]
  | H : bool_decide _ = false |- _ => apply bool_decide_eq_false in H
  end.

Lemma reported_error_nil s err stopping : reported_error s err stopping = None → stopping = true.
Proof. destruct stopping; [done|]. destruct err as [[]|]; intros Hr; discriminate Hr. Qed.

(** The cases of the invariant that a step does not touch. *)
Ltac untouched := split; cbn; try assumption; try (by intros; congruence); try (by intros; intuition congruence).

Lemma reported_error_named s err stopping : reported_error s err stopping ≠ Some ErrShutdownTimedOut.
Proof. unfold reported_error. by destruct (if _ && _ then _ else _). Qed.

Lemma set_worker_observer s w f :
  w ≠ Serving → f s ≠ Serving ∨ s ≠ ObserverService → set_worker s w f ObserverService ≠ Serving ↔ f ObserverService ≠ Serving.
Proof. intros Hw Hs. unfold set_worker. case_bool_decide; [subst; naive_solver|done]. Qed.

Lemma exit_inv s err r : runtime_inv r → rt_worker r s = Serving → runtime_inv (exit_service s err r).
Proof.
  intros [] Hw. untouched.
  - unfold set_worker. rewrite orb_true_iff, bool_decide_eq_true. case_bool_decide; naive_solver.
  - pose proof (over_services_set is_unreported s (Exited err) r (exit_service s err r) eq_refl) as Hs. rewrite Hw in Hs. cbn in Hs. lia.
  - intros Hj. rewrite orb_true_iff. tauto.
Qed.

Lemma report_inv s err r : runtime_inv r → rt_worker r s = Exited err → runtime_inv (report_service s err r).
Proof.
  intros [] Hw. untouched.
  - intros Hp [Hin|Hin%list_elem_of_singleton]%elem_of_app; [tauto|]. symmetry in Hin. apply reported_error_nil in Hin. intuition congruence.
  - intros [Hin|Hin%list_elem_of_singleton]%elem_of_app; [tauto|]. by apply (reported_error_named s err (rt_runCtx r)).
  - rewrite set_worker_observer; [done|done|]. left. by rewrite Hw.
  - pose proof (over_services_set is_unreported s Reported r (report_service s err r) eq_refl) as Hs. rewrite Hw in Hs.
    rewrite length_app. cbn in *. lia.
Qed.

Lemma select_inv err errors r :
  runtime_inv r → rt_phase r = Selecting → rt_errors r = err :: errors → runtime_inv (begin_shutdown errors err r).
Proof.
  intros [] Hp He. rewrite He in *. untouched.
  - intros _ ->. apply inv_errors0; [done|by left].
  - by apply not_elem_of_cons in inv_named0 as [_ ?].
  - intros ->. exfalso. apply inv_named0. by left.
  - change (over_services is_unreported (begin_shutdown errors err r)) with (over_services is_unreported r). cbn in *. lia.
Qed.

Lemma all_reported r :
  forallb (λ s, match rt_worker r s with Reported => true | _ => false end) services = true ↔ ∀ s, rt_worker r s = Reported.
Proof.
  cbn. rewrite !andb_true_iff. split.
  - intros Hr s. assert (match rt_worker r s with Reported => true | _ => false end = true) as Hs by (destruct s; tauto).
    by destruct (rt_worker r s).
  - intros Hr. by rewrite !Hr.
Qed.

Lemma runtime_do_inv a r r' : runtime_inv r → runtime_do a r = Some r' → runtime_inv r'.
Proof.
  intros Hinv Hdo. pose proof Hinv as [].
  destruct a as [|s err|s| | | |t ok| | | |]; cbn [runtime_do] in Hdo.
  - destruct (rt_ctx r); [done|]. injection Hdo as <-. untouched.
  - destruct (rt_worker r s) eqn:Hw; [|done..]. injection Hdo as <-. by apply exit_inv.
  - destruct (rt_worker r s) as [|err|] eqn:Hw; [done| |done]. destruct (_ <? _)%nat; [|done]. injection Hdo as <-. by apply report_inv.
  - destruct (bool_decide _ && _) eqn:Hg; [|done]. guards. injection Hdo as <-. untouched.
  - destruct (bool_decide _) eqn:Hg; [|done]. guards. destruct (rt_errors r) as [|err errors] eqn:He; [done|].
    injection Hdo as <-. by apply select_inv.
  - destruct (bool_decide _ || _) eqn:Hg; [done|]. guards. injection Hdo as <-. untouched.
  - destruct (_ && _ && _) eqn:Hg; [|done]. guards. injection Hdo as <-. untouched.
    intros [?|Hf]%orb_true_iff; [tauto|]. destruct (is_grpc t), ok, (rt_deadline r); done.
  - destruct (bool_decide _ && _) eqn:Hg; [|done]. guards. injection Hdo as <-. unfold observer_done.
    destruct (rt_observerDone r) eqn:?; [destruct (rt_forced r) eqn:?|]; untouched.
  - destruct (bool_decide _ && _) eqn:Hg; [|done]. guards. injection Hdo as <-. unfold observer_done.
    destruct (rt_forced r) eqn:?; untouched.
  - destruct (bool_decide _ && _) eqn:Hg; [|done]. guards. injection Hdo as <-. destruct (rt_result r) eqn:?; untouched.
  - destruct (bool_decide _ && _) eqn:Hg; [|done]. guards. injection Hdo as <-. untouched.
    intros _. right. by apply all_reported.
Qed.

Lemma runtime_steps l r : runtime_run l = Some r → runtime_inv r.
Proof.
  unfold runtime_run. revert r. induction l as [|a l IH] using rev_ind; intros r; [intros [= <-]; apply started_inv|].
  rewrite foldl_app. cbn. intros (r1 & Hr1 & Hdo)%bind_Some. exact (runtime_do_inv a r1 r (IH r1 Hr1) Hdo).
Qed.

(** C22: when [Run] returns, a nil result means that its context is done; a timeout is
    reported only after the shutdown deadline; and unless that deadline has passed
    every service has returned and reported. *)
Theorem run_returns_honestly l r :
  runtime_run l = Some r → rt_phase r = Returned →
  (rt_result r = None → rt_ctx r = true)
  ∧ (rt_result r = Some ErrShutdownTimedOut → rt_deadline r = true)
  ∧ (rt_deadline r = false → ∀ s, rt_worker r s = Reported).
Proof.
  intros [] %runtime_steps Hp. split_and!.
  - apply inv_result0. congruence.
  - intros Hr. by apply inv_timeout0.
  - intros Hd. destruct (inv_returned0 Hp); [congruence|done].
Qed.

(** ** Shutdown *)

(** Servers whose listener has been told to stop, and stopped in time. *)
Definition server_stopped (s : service) (r : runtime) : bool :=
  bool_decide (rt_phase r = Joining) && negb (rt_forced r) && negb (bool_decide (s = ObserverService)).

(** The steps that need nobody's cooperation: those of [Run] and of its goroutines, the
    deadline and, after it, the end of the shutdown goroutines; [Serve] returns once
    its server has stopped. *)
Definition unaided (a : runtime_action) (r : runtime) : bool :=
  match a with
  | ContextDone => false
  | Exit s _ => server_stopped s r
  | TaskDone _ _ => rt_deadline r
  | Report _ | SelectContext | SelectError | Deadline | ShutdownWaited | ObserverSeen | TimedOut | WorkersWaited => true
  end.

Definition phase_cost (p : run_phase) : nat :=
  match p with Selecting => 4 | Stopping => 3 | Awaiting => 2 | Joining => 1 | Returned => 0 end.

Definition runtime_cost (r : runtime) : nat :=
  (phase_cost (rt_phase r) + over_services worker_cost r + length (rt_tasks r)
   + Nat.b2n (negb (rt_ctx r)) + Nat.b2n (negb (rt_deadline r)))%nat.

(** A step that changes neither the services nor the pending shutdowns. *)
Lemma cost_steady r r' :
  rt_worker r' = rt_worker r → rt_tasks r' = rt_tasks r →
  (phase_cost (rt_phase r') + Nat.b2n (negb (rt_ctx r')) + Nat.b2n (negb (rt_deadline r'))
   < phase_cost (rt_phase r) + Nat.b2n (negb (rt_ctx r)) + Nat.b2n (negb (rt_deadline r)))%nat →
  (runtime_cost r' < runtime_cost r)%nat.
Proof. unfold runtime_cost, over_services. intros -> ->. lia. Qed.

Lemma filter_shorter (t : shutdown_task) l : t ∈ l → (length (filter (λ t', t' ≠ t) l) < length l)%nat.
Proof.
  intros Hin. induction l as [|t' l IH]; [by apply not_elem_of_nil in Hin|]. rewrite filter_cons.
  pose proof (length_filter (λ t', t' ≠ t) l). destruct (decide (t' ≠ t)) as [Hne|Heq]; cbn; [|lia].
  apply elem_of_cons in Hin as [->|Hin]; [done|]. apply IH in Hin. lia.
Qed.

(** Moving on to a later phase. *)
Ltac later Hp := apply cost_steady; cbn; rewrite ?Hp; cbn; (done || lia).

Lemma runtime_do_cost a r r' : runtime_do a r = Some r' → (runtime_cost r' < runtime_cost r)%nat.
Proof.
  intros Hdo. destruct a as [|s err|s| | | |t ok| | | |]; cbn [runtime_do] in Hdo.
  - destruct (rt_ctx r) eqn:Hc; [done|]. injection Hdo as <-. apply cost_steady; cbn; rewrite ?Hc; cbn; (done || lia).
  - destruct (rt_worker r s) eqn:Hw; [|done..]. injection Hdo as <-. unfold runtime_cost.
    pose proof (over_services_set worker_cost s (Exited err) r (exit_service s err r) eq_refl) as Hs. rewrite Hw in Hs. cbn in *. lia.
  - destruct (rt_worker r s) as [|err|] eqn:Hw; [done| |done]. destruct (_ <? _)%nat; [|done]. injection Hdo as <-. unfold runtime_cost.
    pose proof (over_services_set worker_cost s Reported r (report_service s err r) eq_refl) as Hs. rewrite Hw in Hs. cbn in *. lia.
  - destruct (bool_decide _ && _) eqn:Hg; [|done]. apply andb_true_iff in Hg as [Hp%bool_decide_eq_true _]. injection Hdo as <-. later Hp.
  - destruct (bool_decide _) eqn:Hp; [|done]. apply bool_decide_eq_true in Hp.
    destruct (rt_errors r); [done|]. injection Hdo as <-. later Hp.
  - destruct (bool_decide _ || _) eqn:Hg; [done|]. apply orb_false_iff in Hg as [_ Hd]. injection Hdo as <-. later Hd.
  - destruct (_ && _ && _) eqn:Hg; [|done]. guards. injection Hdo as <-. unfold runtime_cost, over_services. cbn.
    pose proof (filter_shorter t (rt_tasks r) ltac:(done)). lia.
  - destruct (bool_decide _ && _) eqn:Hg; [|done]. apply andb_true_iff in Hg as [Hp%bool_decide_eq_true _]. injection Hdo as <-.
    unfold observer_done. destruct (rt_observerDone r); [destruct (rt_forced r)|]; later Hp.
  - destruct (bool_decide _ && _) eqn:Hg; [|done]. apply andb_true_iff in Hg as [Hp%bool_decide_eq_true _]. injection Hdo as <-.
    unfold observer_done. destruct (rt_forced r); later Hp.
  - destruct (bool_decide _ && _) eqn:Hg; [|done]. apply andb_true_iff in Hg as [Hp%bool_decide_eq_true _]. injection Hdo as <-. later Hp.
  - destruct (bool_decide _ && _) eqn:Hg; [|done]. apply andb_true_iff in Hg as [Hp%bool_decide_eq_true _]. injection Hdo as <-. later Hp.
Qed.

Lemma run_budget l r : runtime_run l = Some r → (length l + runtime_cost r ≤ runtime_cost runtime_started)%nat.
Proof.
  unfold runtime_run. revert r. induction l as [|a l IH] using rev_ind; intros r; [intros [= <-]; done|].
  rewrite foldl_app, length_app. cbn [foldl length]. intros (r1 & Hr1%IH & Hdo%runtime_do_cost)%bind_Some. lia.
Qed.

Definition enabled (a : runtime_action) (r : runtime) : Prop := is_Some (runtime_do a r).

(** The channel has room for every service. *)
Lemma report_enabled s err r : runtime_inv r → rt_worker r s = Exited err → enabled (Report s) r.
Proof.
  intros [] Hw. unfold enabled. cbn [runtime_do]. rewrite Hw.
  assert (is_unreported (rt_worker r s) ≤ over_services is_unreported r)%nat as Hu by (unfold over_services; destruct s; lia).
  rewrite Hw in Hu. cbn in Hu. destruct (Nat.ltb_spec (length (rt_errors r)) errors_capacity); [by eexists|]. lia.
Qed.

Lemma unreported_exists r :
  forallb (λ s, match rt_worker r s with Reported => true | _ => false end) services = false → ∃ s, rt_worker r s ≠ Reported.
Proof.
  cbn. rewrite !andb_false_iff. intros [H|[H|[H|[H|H]]]]; [| | | |done]; eexists; intros Hr; rewrite Hr in H; discriminate H.
Qed.

Lemma worker_progress r :
  runtime_inv r → rt_phase r = Joining → ∃ a, unaided a r = true ∧ enabled a r.
Proof.
  intros Hinv Hp. destruct (Hinv) as [? ? ? ? ? ? Hobs ? ? Hj ? ?]. destruct (Hj Hp) as [Hf Hd].
  destruct (forallb (λ s, match rt_worker r s with Reported => true | _ => false end) services) eqn:Hall.
  { exists WorkersWaited. split; [done|]. unfold enabled. cbn [runtime_do]. rewrite Hp, Hall. by eexists. }
  assert (∃ s, rt_worker r s ≠ Reported) as [s Hs].
  { by apply unreported_exists. }
  destruct (rt_worker r s) as [|err|] eqn:Hw; [|exists (Report s)|done].
  - exists (Exit s None). split; [|unfold enabled; cbn [runtime_do]; rewrite Hw; by eexists].
    unfold unaided, server_stopped. rewrite Hp, Hf. rewrite (bool_decide_false (s = ObserverService)); [done|]. intros ->. by apply Hobs in Hd.
  - split; [done|]. by apply (report_enabled s err).
Qed.

(** C21: once shutdown has begun [Run] returns, whatever the services, the handlers and
    the observer do: some step that depends on none of them is enabled until it
    has returned, and every step of the process uses up some of a budget of
    [runtime_cost], which is 18 at the start. *)
Theorem shutdown_bounded l r :
  runtime_run l = Some r →
  (length l + runtime_cost r ≤ runtime_cost runtime_started)%nat
  ∧ (rt_phase r ≠ Selecting → rt_phase r ≠ Returned → ∃ a, unaided a r = true ∧ enabled a r).
Proof.
  intros Hrun. pose proof (runtime_steps l r Hrun) as Hinv. split; [by apply run_budget|].
  intros Hsel Hret. destruct (rt_phase r) eqn:Hp; [done| | |by apply worker_progress|done].
  - destruct (rt_deadline r) eqn:Hd; [|exists Deadline; split; [done|]; unfold enabled; cbn [runtime_do]; rewrite Hp, Hd; by eexists].
    destruct (rt_tasks r) as [|t tasks] eqn:Ht.
    + exists ShutdownWaited. split; [done|]. unfold enabled. cbn [runtime_do]. rewrite Hp, Ht. by eexists.
    + exists (TaskDone t false). split; [exact Hd|]. unfold enabled. cbn [runtime_do]. rewrite Hp, Ht, Hd, orb_true_r.
      rewrite (bool_decide_true (t ∈ t :: tasks)) by by left. by eexists.
  - destruct (rt_deadline r) eqn:Hd; [|exists Deadline; split; [done|]; unfold enabled; cbn [runtime_do]; rewrite Hp, Hd; by eexists].
    exists TimedOut. split; [done|]. unfold enabled. cbn [runtime_do]. rewrite Hp, Hd. by eexists.
Qed.

(** ** Concrete runs *)

(** A clean shutdown on request. *)
Definition clean_run : list runtime_action :=
  [ContextDone; SelectContext; TaskDone StopHealth true; TaskDone StopDiscoveryHTTP true; TaskDone StopPluginGRPC true;
   Exit ObserverService None; TaskDone StopDiscoveryGRPC true; ShutdownWaited; Exit PluginServer None; Report PluginServer;
   Exit HealthServer (Some ErrClosed); Exit DiscoveryAPI (Some ErrClosed); Report HealthServer; Report DiscoveryAPI;
   Report ObserverService; WorkersWaited].

Definition run_summary (l : list runtime_action) : option (run_phase * option run_error * bool) :=
  (λ r, (rt_phase r, rt_result r, rt_deadline r)) <$> runtime_run l.

Lemma clean_summary : run_summary clean_run = Some (Returned, None, false).
Proof. vm_compute. reflexivity. Qed.

(** A run with that summary. *)
Lemma summary_run l phase result deadline :
  run_summary l = Some (phase, result, deadline) →
  ∃ r, runtime_run l = Some r ∧ rt_phase r = phase ∧ rt_result r = result ∧ rt_deadline r = deadline.
Proof. unfold run_summary. intros (r & E & [= -> -> ->])%fmap_Some. by exists r. Qed.

Lemma run_returns_honestly_witness :
  ∃ r, runtime_run clean_run = Some r ∧ rt_result r = None ∧ rt_ctx r = true ∧ rt_worker r ObserverService = Reported.
Proof.
  destruct (summary_run _ _ _ _ clean_summary) as (r & E & Hp & Hr & Hd).
  destruct (run_returns_honestly clean_run r E Hp) as (Hn & _ & Hw).
  exists r. split; [exact E|]. split; [exact Hr|]. split; [exact (Hn Hr)|exact (Hw Hd ObserverService)].
Defined.

(** The observer ignores cancellation after a failure of the health server. *)
Definition stuck_run : list runtime_action :=
  [Exit HealthServer (Some (ErrService "accept")); Report HealthServer; SelectError; Deadline;
   TaskDone StopHealth false; TaskDone StopDiscoveryHTTP false; TaskDone StopPluginGRPC false; TaskDone StopDiscoveryGRPC true;
   ShutdownWaited].

Lemma stuck_summary :
  run_summary stuck_run = Some (Awaiting, Some (ErrNamed "health server" (ErrService "accept")), true).
Proof. vm_compute. reflexivity. Qed.

Lemma shutdown_bounded_witness :
  ∃ r, runtime_run stuck_run = Some r ∧ rt_phase r = Awaiting ∧ (runtime_cost r ≤ 9)%nat ∧ ∃ a, unaided a r = true ∧ enabled a r.
Proof.
  destruct (summary_run _ _ _ _ stuck_summary) as (r & E & Hp & _ & _).
  destruct (shutdown_bounded stuck_run r E) as [Hb Hu]. exists r. split; [exact E|]. split; [exact Hp|].
  split; [cbn [length stuck_run] in Hb; change (runtime_cost runtime_started) with 18%nat in Hb; lia|]. apply Hu; rewrite Hp; discriminate.
Defined.
