(* ===== verification/Process.v ===== *)
(** * The process (src/cmd/cnpg-connect-plugin/main.go with src/internal/server/run.go)

    [main] runs the command of Command.v; a command that serves goes through the
    start of [server.Run] and then through its goroutines, as Runtime.v
    interleaves them.  A signal is the end of the context, [ContextDone].  The
    process ends with the error that [run] returns. *)

From S2P Require Import Prelude Grpc Admission Settings Credentials Command Runtime.

Section process.
Context `{FlagLibrary, CertLibrary, ServiceLibrary}.

(** The errors that reach [main]. *)
Inductive process_error :=
  | ProcessCommand (err : command_error)
  | ProcessOutput                        (* the version could not be written *)
  | ProcessStart (err : run_failure)
  | ProcessRun (err : run_error).

(** A process that serves, with its open listeners, or has left [run]. *)
Inductive process :=
  | ProcessServing (c : served) (a : admission) (listeners : list listener) (r : runtime)
  | ProcessExited (err : option process_error).

(** The status [main] leaves with: [os.Exit(1)] on an error. *)
Definition exit_code (err : option process_error) : Z :=
  match err with None => 0 | Some _ => 1 end.

(** [server.Run] up to the start of the services. *)
Definition serve (listens : listener → bool) (c : served) : process :=
  match startup (limits (served_settings c)) listens with
  | inl (err, _) => ProcessExited (Some (ProcessStart err))
  | inr (a, listeners) => ProcessServing c a listeners runtime_started
  end.

(** [run] up to there; [stdout] is whether the version can be written. *)
Definition main (files : filesystem) (now1 now2 : time) (kube : string → bool) (stdout : bool) (listens : listener → bool)
    (args : list string) : process :=
  match Command.run files now1 now2 kube args with
  | Helped => ProcessExited None
  | Versioned => ProcessExited (if stdout then None else Some ProcessOutput)
  | Failed err => ProcessExited (Some (ProcessCommand err))
  | Served c => serve listens c
  end.

(** One step of the goroutines of [server.Run]; the process exits when it returns. *)
Definition process_do (act : runtime_action) (p : process) : option process :=
  match p with
  | ProcessExited _ => None
  | ProcessServing c a listeners r =>
      r ← runtime_do act r;
      Some (if bool_decide (rt_phase r = Returned) then ProcessExited (ProcessRun <$> rt_result r)
            else ProcessServing c a listeners r)
  end.

Definition process_run (p : process) (l : list runtime_action) : option process :=
  foldl (λ p act, p ← p; process_do act p) (Some p) l.
End process.
