(* ===== verification/ProcessProps.v ===== *)
(** * Correctness of the process

    When the process exits, with which status, and after how many steps. *)

From S2P Require Import Prelude Grpc GrpcProps Admission AdmissionProps Settings SettingsProps Credentials CredentialsProps.
From S2P Require Import Command CommandProps Runtime RuntimeProps Process.

Section process.
Context `{FlagLibrary, CertLibrary, ServiceLibrary}.

(** Only a signal ends the context. *)
Lemma context_signalled l r : runtime_run l = Some r → rt_ctx r = true → ContextDone ∈ l.
Proof.
  unfold runtime_run. revert r. induction l as [|a l IH] using rev_ind; intros r; [by intros [= <-]|].
  rewrite foldl_app. cbn. intros (r1 & Hr1 & Hdo)%bind_Some Hctx.
  destruct a; [by apply elem_of_app; right; left|..]; apply elem_of_app; left; apply (IH r1 Hr1); revert Hctx;
    cbn [runtime_do] in Hdo; repeat (case_match; simplify_eq/=); done.
Qed.

(** The steps of a process are those of its runtime. *)
Lemma process_runtime c a listeners l p :
  process_run (ProcessServing c a listeners runtime_started) l = Some p →
  ∃ r, runtime_run l = Some r
    ∧ p = if bool_decide (rt_phase r = Returned) then ProcessExited (ProcessRun <$> rt_result r)
          else ProcessServing c a listeners r.
Proof.
  unfold process_run, runtime_run. revert p. induction l as [|act l IH] using rev_ind; intros p; [intros [= <-]; by exists runtime_started|].
  rewrite !foldl_app. cbn [foldl]. intros (p1 & Hp1 & Hdo)%bind_Some. destruct (IH p1 Hp1) as (r1 & -> & ->). cbn.
  case_bool_decide; [done|]. cbn [process_do] in Hdo. apply bind_Some in Hdo as (r & Hr & [= <-]). by exists r.
Qed.

Lemma exited_still err l p : process_run (ProcessExited err) l = Some p → l = [] ∧ p = ProcessExited err.
Proof.
  unfold process_run. revert p. induction l as [|act l IH] using rev_ind; intros p; [by intros [= <-]|].
  rewrite foldl_app. cbn [foldl]. intros (p1 & Hp1 & Hdo)%bind_Some. by destruct (IH p1 Hp1) as [_ ->].
Qed.

(** Settings that [validate] accepts make an admission. *)
Lemma validated_limits s : validate s = None → ∃ a, newAdmission (limits s) = inr a.
Proof.
  unfold validate, Validate, newAdmission. destruct (normalized (limits s)) as [l [err|]] eqn:E; [done|]. intros _. by eexists.
Qed.

(** A command that serves has validated its settings. *)
Lemma served_validated files now1 now2 kube args c :
  Command.run files now1 now2 kube args = Served c → validate (served_settings c) = None.
Proof.
  unfold Command.run. destruct (parseSettings args) as [err|s]; [by destruct err|]. destruct (showVersion s); [done|].
  destruct (validate s) eqn:Hv; [done|]. destruct (load_credentials _ _ _ _) as [|[[? ?] ?]]; [done|].
  destruct (negb _); [done|]. destruct (New_options _); [done|]. by intros [= <-].
Qed.

(** What the start of [server.Run] gives for validated settings. *)
Lemma serve_outcome listens c :
  validate (served_settings c) = None →
  (∃ l, listens l = false ∧ serve listens c = ProcessExited (Some (ProcessStart (ErrListen l))))
  ∨ (∃ a, (∀ l, listens l = true) ∧ newAdmission (limits (served_settings c)) = inr a
       ∧ serve listens c = ProcessServing c a [HealthListener; DiscoveryListener; PluginListener] runtime_started).
Proof.
  intros (a & Ha)%validated_limits. unfold serve, startup. rewrite Ha. cbn.
  destruct (listens PluginListener) eqn:Hp; [|left; by exists PluginListener].
  destruct (listens DiscoveryListener) eqn:Hd; [|left; by exists DiscoveryListener].
  destruct (listens HealthListener) eqn:Hh; [|left; by exists HealthListener].
  right. exists a. split_and!; [|done..]. by intros [].
Qed.

(** Why a process leaves with status 0. *)
Definition clean_exit (outcome : command_outcome) (stdout : bool) (listens : listener → bool) (l : list runtime_action) : Prop :=
  match outcome with
  | Helped => True
  | Versioned => stdout = true
  | Failed _ => False
  | Served _ => (∀ x, listens x = true) ∧ ContextDone ∈ l
  end.

(** C23: the process takes at most 18 steps of its goroutines.  When it has exited, its
    status is 0 only after help or the version was asked for and written, or when
    every listener was opened and a signal ended it; a service that stops first, a
    listener that cannot be opened and a command that fails give 1.  Limits that
    the command accepted are never refused by the server. *)
Theorem process_exits files now1 now2 kube stdout listens args l p :
  process_run (main files now1 now2 kube stdout listens args) l = Some p →
  (length l ≤ 18)%nat
  ∧ match p with
    | ProcessExited err =>
        (exit_code err = 0 → clean_exit (Command.run files now1 now2 kube args) stdout listens l)
        ∧ (∀ limit, err ≠ Some (ProcessStart (ErrAdmission limit)))
    | ProcessServing c _ listeners _ =>
        Command.run files now1 now2 kube args = Served c ∧ ∀ x, x ∈ listeners ∧ listens x = true
    end.
Proof.
  unfold main. destruct (Command.run files now1 now2 kube args) as [| |err|c] eqn:Hrun.
  1-3: intros [-> ->]%exited_still; split; [cbn; lia|]; split; [cbn; by destruct stdout|by destruct stdout].
  destruct (serve_outcome listens c (served_validated _ _ _ _ _ _ Hrun)) as [(x & _ & ->)|(a & Hall & _ & ->)].
  { intros [-> ->]%exited_still. split; [cbn; lia|]. done. }
  intros (r & Hr & ->)%process_runtime. pose proof (run_budget l r Hr) as Hb. change (runtime_cost runtime_started) with 18%nat in Hb.
  split; [lia|]. case_bool_decide as Hret.
  - split; [|by destruct (rt_result r)]. intros Hcode. split; [exact Hall|]. apply (context_signalled l r Hr).
    apply (inv_result r (runtime_steps l r Hr)); [congruence|by destruct (rt_result r)].
  - split; [done|]. intros x. split; [|apply Hall]. destruct x; repeat constructor.
Qed.
End process.

(** ** A concrete process *)

Section example.
#[local] Existing Instances integer_rates plain_certs plain_service plain_flags.

Lemma process_exits_witness :
  ∃ p, process_run (main example_files second second (λ _, true) true (λ _, true) example_args) clean_run = Some p
    ∧ p = ProcessExited None ∧ (length clean_run ≤ 18)%nat
    ∧ clean_exit (Command.run example_files second second (λ _, true) example_args) true (λ _, true) clean_run.
Proof.
  assert (process_run (main example_files second second (λ _, true) true (λ _, true) example_args) clean_run
          = Some (ProcessExited None)) as E by (vm_compute; reflexivity).
  destruct (process_exits _ _ _ _ _ _ _ _ _ E) as (Hlen & Hexit & _).
  exists (ProcessExited None). split; [exact E|]. split; [reflexivity|]. split; [exact Hlen|]. apply Hexit. reflexivity.
Defined.
End example.
