(* ===== verification/Streams.v ===== *)
(** * Streams of the operator interface (src/internal/server/run.go)

    [grpcOptions] gives the CNPG-I server its transport options and a stream
    interceptor, which derives the context of a handler from that of the stream
    and cancels it with the process.  The handler, the client, the process and the
    function registered with [context.AfterFunc] are interleaved as actions. *)

From S2P Require Import Prelude Http.

(** ** Options *)

Record grpc_options := {
  opt_SharedWriteBuffer : bool;
  opt_MaxRecvMsgSize : Z;
  opt_ConnectionTimeout : duration;
  opt_MaxConnectionAge : duration;
  opt_MaxConnectionAgeGrace : duration;
  opt_Creds : bool; (* credentials.NewTLS of the configuration *)
}.

Definition grpcOptions (tls : bool) : grpc_options := {|
  opt_SharedWriteBuffer := true; opt_MaxRecvMsgSize := Z.shiftl 4 20; opt_ConnectionTimeout := 5 * second;
  opt_MaxConnectionAge := 5 * minute; opt_MaxConnectionAgeGrace := 30 * second; opt_Creds := tls;
|}.

(** ** The stream interceptor *)

(** Where the interceptor is: in the handler, then its deferred [cancel()] and [stop()]. *)
Inductive stream_phase := InHandler | HandlerReturned | ContextCancelled | StreamDone.

#[export] Instance stream_phase_eq_dec : EqDecision stream_phase.
Proof. solve_decision. Defined.

Record shutdownStream := {
  st_phase : stream_phase;
  st_client : bool;   (* stream.Context() is done *)
  st_process : bool;  (* runCtx is done *)
  st_ctx : bool;      (* ctx is done *)
  st_stop : callback; (* the function on runCtx: cancel() *)
}.

(** The interceptor up to the call of the handler. *)
Definition intercept (client process : bool) : shutdownStream := {|
  st_phase := InHandler; st_client := client; st_process := process; st_ctx := client; st_stop := Waiting;
|}.

Inductive stream_action :=
  | ClientGone       (* the client cancels, its deadline expires or the transport closes *)
  | ProcessStops     (* runCtx is cancelled *)
  | StopRuns         (* the function registered on runCtx *)
  | InterceptorStep. (* the handler returns; then each deferred call *)

Definition set_stream (phase : stream_phase) (client process ctx : bool) (stop : callback) : shutdownStream := {|
  st_phase := phase; st_client := client; st_process := process; st_ctx := ctx; st_stop := stop;
|}.

Definition stream_do (a : stream_action) (s : shutdownStream) : option shutdownStream :=
  let '(Build_shutdownStream phase client process ctx stop) := s in
  match a with
  | ClientGone => Some (set_stream phase true process true stop)
  | ProcessStops => Some (set_stream phase client true ctx stop)
  | StopRuns =>
      match stop with
      | Waiting => if process then Some (set_stream phase client process true (Running 0)) else None
      | _ => None
      end
  | InterceptorStep =>
      match phase with
      | InHandler => Some (set_stream HandlerReturned client process ctx stop)
      | HandlerReturned => Some (set_stream ContextCancelled client process true stop)
      | ContextCancelled => Some (set_stream StreamDone client process ctx (stop_callback stop))
      | StreamDone => None
      end
  end.

Definition stream_run (l : list stream_action) (s : shutdownStream) : option shutdownStream :=
  foldl (λ s a, s ← s; stream_do a s) (Some s) l.

(** [Context]: what the handler sees of its context. *)
Definition Context_done (s : shutdownStream) : bool := st_ctx s.

(** ** Correctness

    A handler learns of the end of its client and of the process, and of nothing
    else; and a finished stream leaves no function on the context of the process. *)

Record stream_inv (s : shutdownStream) : Prop := {
  inv_ran : st_stop s = Running 0 → st_process s = true ∧ st_ctx s = true;
  inv_client : st_client s = true → st_ctx s = true;
  inv_handler : st_phase s = InHandler ∨ st_phase s = HandlerReturned →
    (st_stop s = Waiting ∧ st_ctx s = st_client s ∨ st_stop s = Running 0);
  inv_cancelled : st_phase s = ContextCancelled ∨ st_phase s = StreamDone → st_ctx s = true;
  inv_done : st_phase s = StreamDone → st_stop s ≠ Waiting;
}.

Lemma intercept_inv client process : stream_inv (intercept client process).
Proof. split; cbn; naive_solver. Qed.

Lemma stream_do_inv a s s' : stream_inv s → stream_do a s = Some s' → stream_inv s'.
Proof.
  destruct s as [phase client process ctx stop]. intros [Hr Hc Hh Hd Hw] Hdo. cbn in Hr, Hc, Hh, Hd, Hw.
  destruct a; [| |destruct stop, process|destruct phase, stop]; cbn in Hdo; simplify_eq; split; cbn; naive_solver.
Qed.

Lemma stream_run_inv l s s' : stream_inv s → stream_run l s = Some s' → stream_inv s'.
Proof.
  intros Hs. unfold stream_run. revert s'. induction l as [|a l IH] using rev_ind; intros s'; [by intros [= <-]|].
  rewrite foldl_snoc. intros (s1 & Hs1 & Hdo)%bind_Some. by eapply stream_do_inv; [apply IH|].
Qed.

(** However client, process, handler and callback interleave: the context of a
    running handler is done only when its client is gone or the process stops;
    it is done at once with the client, and once the process stops the callback
    can always cancel it; when the stream is done its context is cancelled and
    nothing is left waiting on the process. *)
Theorem stream_follows_shutdown client process l s :
  stream_run l (intercept client process) = Some s →
  (st_phase s = InHandler → Context_done s = true → st_client s || st_process s = true)
  ∧ (st_client s = true → Context_done s = true)
  ∧ (st_phase s = InHandler → st_process s = true →
       Context_done s = true ∨ ∃ s', stream_do StopRuns s = Some s' ∧ Context_done s' = true)
  ∧ (st_phase s = StreamDone → Context_done s = true ∧ st_stop s ≠ Waiting).
Proof.
  intros [Hr Hc Hh Hd Hw]%stream_run_inv; [|apply intercept_inv]. unfold Context_done. split_and!.
  - intros Hp Hx. destruct (Hh (or_introl Hp)) as [[_ Heq]|Hran].
    + by rewrite <-Heq, Hx.
    + destruct (Hr Hran) as [-> _]. apply orb_true_r.
  - done.
  - intros Hp Hpr. destruct (Hh (or_introl Hp)) as [[Hst _]|Hran]; [right|left; by apply Hr].
    destruct s as [phase c p ctx stop]. cbn in *. subst. by eexists.
  - auto.
Qed.

(** A process that stops while the handler of a live client runs. *)
Lemma stream_follows_shutdown_witness :
  ∃ s, stream_run [ProcessStops; StopRuns; InterceptorStep; InterceptorStep; InterceptorStep] (intercept false false) = Some s
    ∧ Context_done s = true.
Proof.
  eexists. split; [reflexivity|].
  eapply (stream_follows_shutdown false false [ProcessStops; StopRuns; InterceptorStep; InterceptorStep; InterceptorStep]); reflexivity.
Defined.
