(* ===== verification/Samples.v ===== *)
(** * The metrics endpoint (src/internal/server/metrics.go, src/internal/observer/metrics.go,
    src/internal/discovery/metrics.go)

    What a scrape writes: the metrics each component registers in its set, in the
    order of registration.  A gauge holds the integer the code converts to
    [float64]; the age of the oldest snapshot is in nanoseconds.  The histograms
    are the metrics library's: only their names and bounds are modelled. *)

From Stdlib Require Import Ascii.
From S2P Require Import Prelude Api Mailbox Store Metrics Queue Work Watch Admission Http.

Inductive sample_value :=
  | Gauge (v : Z)
  | GaugeAge (d : duration)
  | Counter (v : Z)
  | Histogram (bounds : list duration).

Definition sample : Type := string * sample_value.

(** [fmt.Sprintf "%q"] of a plain word. *)
Definition quoted (s : string) : string := String "034" (s +:+ String "034" EmptyString).

(** [fmt.Sprintf "name{label=%q}"]. *)
Definition labelled (name label value : string) : string := name +:+ "{" +:+ label +:+ "=" +:+ quoted value +:+ "}".

Definition counter_total (name : string) (v : Z) : sample := ("cnpg_connect_" +:+ name +:+ "_total", Counter v).

(** ** Admission *)

(** The two gauges of one row of the table. *)
Definition in_use_and_limit (kind : string) (used limit : Z) : list sample :=
  [(labelled "cnpg_connect_admission_in_use" "kind" kind, Gauge used);
   (labelled "cnpg_connect_admission_limit" "kind" kind, Gauge limit)].

(** [admission.WriteMetrics]. *)
Definition admission_samples (a : admission) (c : connections) : list sample :=
  in_use_and_limit "rpcs" (adm_rpcs a) (MaxRPCs (adm_limits a))
  ++ in_use_and_limit "watches" (adm_watches a) (MaxWatches (adm_limits a))
  ++ in_use_and_limit "connections" (conn_active c) (MaxConnections (adm_limits a))
  ++ [(labelled "cnpg_connect_admission_rejections_total" "reason" "auth", Counter (adm_rejectedAuth a));
      (labelled "cnpg_connect_admission_rejections_total" "reason" "capacity", Counter (adm_rejectedCapacity a));
      ("cnpg_connect_admission_initial_timeouts_total", Counter (adm_timedout a))].

(** ** The store *)

(** [Store.WriteMetrics] after the lock is released; [coalesced] is read then. *)
Definition store_samples (m : store_metrics) (coalesced : Z) : list sample :=
  [(labelled "cnpg_connect_snapshots" "state" "available", Gauge (count_available m));
   (labelled "cnpg_connect_snapshots" "state" "unavailable", Gauge (count_unavailable m));
   (labelled "cnpg_connect_snapshots" "state" "expired", Gauge (count_expired m));
   ("cnpg_connect_watchers", Gauge (watcher_count m));
   ("cnpg_connect_snapshot_oldest_age_seconds", GaugeAge (oldest_age m));
   counter_total "publications" (publications_total m);
   counter_total "snapshot_expirations" (expirations_total m);
   counter_total "watch_coalesced" coalesced].

(** ** The observer *)

Definition durationBounds : list duration :=
  [millisecond; 10 * millisecond; 50 * millisecond; 100 * millisecond; 500 * millisecond; second; 5 * second;
   10 * second; 30 * second].

(** [initializeMetrics]: what the set of the histograms registers. *)
Definition histogram_samples : list sample :=
  [("cnpg_connect_observation_duration_seconds", Histogram durationBounds);
   ("cnpg_connect_probe_duration_seconds", Histogram durationBounds);
   ("cnpg_connect_probe_queue_seconds", Histogram durationBounds)].

Record ca_counters := {
  caHits : Z; (* uint64 *)
  caMisses : Z; (* uint64 *)
  caFailures : Z; (* uint64 *)
  caReadFailures : Z; (* uint64 *)
}.

(** The counters of watches are shared by the three resources. *)
Definition watch_total (f : watchHealth → Z) (h : health) : Z :=
  wrap_u64 (f (clusterWatch h) + f (podWatch h) + f (secretWatch h)).

Definition watch_up (resource : string) (up : bool) : sample :=
  (labelled "cnpg_connect_metadata_watch_up" "resource" resource, Gauge (if up then 1 else 0)).

(** [Observer.WriteMetrics]. *)
Definition observer_samples (m : store_metrics) (coalesced : Z) (p : probes) (ca : ca_counters) (q : priorityQueue)
    (h : health) : list sample :=
  store_samples m coalesced ++ histogram_samples
  ++ [("cnpg_connect_probes_active", Gauge (probeSlots p));
      counter_total "ca_cache_hits" (caHits ca); counter_total "ca_cache_misses" (caMisses ca);
      counter_total "metadata_watch_starts" (watch_total watchStarts h);
      counter_total "metadata_watch_ends" (watch_total watchEnds h);
      counter_total "metadata_watch_errors" (watch_total watchErrors h);
      counter_total "ca_failures" (caFailures ca); counter_total "ca_read_failures" (caReadFailures ca);
      counter_total "probe_slot_saturation" (probeSaturation p);
      counter_total "probe_slot_cancellations" (probeCancellations p);
      ("cnpg_connect_observation_queue_depth", Gauge (Z.of_nat (Len q)));
      watch_up "clusters" (Load (clusterWatch h)); watch_up "pods" (Load (podWatch h));
      watch_up "secrets" (Load (secretWatch h))].

(** ** The endpoint *)

(** The metrics callback [Run] gives [HealthHandler]. *)
Definition scrape (a : admission) (c : connections) (m : store_metrics) (coalesced : Z) (p : probes) (ca : ca_counters)
    (q : priorityQueue) (h : health) : list sample :=
  admission_samples a c ++ observer_samples m coalesced p ca q h.

(** What a scrape says about a metric. *)
Definition reported (name : string) (l : list sample) : option sample_value :=
  list_find (λ x, x.1 = name) l ≫= λ x, Some x.2.2.
