(* ===== verification/SamplesProps.v ===== *)
(** * Correctness of the metrics endpoint

    A scrape names every metric once, whatever the values, and its gauges of the
    bounded resources and of the watches agree with the state of the process. *)

From S2P Require Import Prelude Api Mailbox Store Metrics Queue Work WorkProps Watch WatchProps Admission AdmissionProps Http HttpProps Samples.

(** The names of a scrape do not depend on what it reports. *)
Definition metric_names : list string :=
  (scrape {| adm_limits := DefaultLimits; adm_rpcs := 0; adm_watches := 0; adm_rejectedAuth := 0; adm_rejectedCapacity := 0;
             adm_timedout := 0; adm_shutdown := None; adm_requests := ∅ |}
     no_connections no_metrics 0 (configureProbeLimits 1) (Build_ca_counters 0 0 0 0) newPriorityQueue
     {| ready := false; clusterWatch := no_watch; podWatch := no_watch; secretWatch := no_watch |}).*1.

Lemma scrape_names a c m coalesced p ca q h : (scrape a c m coalesced p ca q h).*1 = metric_names.
Proof. reflexivity. Qed.

Lemma names_distinct : NoDup metric_names.
Proof. apply (bool_decide_unpack _). vm_compute. exact I. Qed.

(** The gauge of a watch. *)
Lemma watch_gauge w b : Load w = b → health_wf w → (Some (Gauge (if b then 1 else 0)) = Some (Gauge 1) ↔ current_live w).
Proof. intros <- Hwf. rewrite <-Load_exact by done. by destruct (Load w). Qed.

Section claims.
Context (l0 : Limits) (a0 a : admission) (conns : list connection_action) (c : connections) (limit : Z) (p : probes)
  (lc lp ls : list watch_action) (h : health) (m : store_metrics) (coalesced : Z) (ca : ca_counters) (q : priorityQueue).
Hypothesis Hnew : newAdmission l0 = inr a0.
Hypothesis Ha : admission_reachable a0 a.
Hypothesis Hc : connections_run conns = Some c.
Hypothesis Hlimit : 1 ≤ limit.
Hypothesis Hp : probe_reachable limit p.
Hypothesis Hwc : watch_run lc no_watch = Some (clusterWatch h).
Hypothesis Hwp : watch_run lp no_watch = Some (podWatch h).
Hypothesis Hws : watch_run ls no_watch = Some (secretWatch h).

(** C34: a scrape of the metrics endpoint in any reachable state names every metric
    once; the RPCs, watches and probe slots it reports in use are those that are
    held and do not exceed the reported limits, the connections in use are those
    open, and the gauge of a watch is 1 exactly when the latest watch of that
    resource runs without a reported error. *)
Theorem scrape_honest :
  let s := scrape a c m coalesced p ca q h in
  NoDup s.*1
  ∧ (∃ rpcs watches rpc_limit watch_limit,
      reported (labelled "cnpg_connect_admission_in_use" "kind" "rpcs") s = Some (Gauge rpcs)
      ∧ reported (labelled "cnpg_connect_admission_limit" "kind" "rpcs") s = Some (Gauge rpc_limit)
      ∧ reported (labelled "cnpg_connect_admission_in_use" "kind" "watches") s = Some (Gauge watches)
      ∧ reported (labelled "cnpg_connect_admission_limit" "kind" "watches") s = Some (Gauge watch_limit)
      ∧ rpcs = count holds_rpc (adm_requests a) ∧ rpcs ≤ rpc_limit ∧ watches = count holds_watch (adm_requests a)
      ∧ watches ≤ watch_limit)
  ∧ reported (labelled "cnpg_connect_admission_in_use" "kind" "connections") s
      = Some (Gauge (wrap_s64 (open_count (conn_table c))))
  ∧ (∃ active, reported "cnpg_connect_probes_active" s = Some (Gauge active)
      ∧ active = count holds_probe (callers p) ∧ active ≤ limit)
  ∧ Forall (λ '(r, w), reported (labelled "cnpg_connect_metadata_watch_up" "resource" r) s = Some (Gauge 1) ↔ current_live w)
      [("clusters", clusterWatch h); ("pods", podWatch h); ("secrets", secretWatch h)].
Proof.
  intros s. assert (NoDup s.*1) as Hd by (unfold s; rewrite scrape_names; apply names_distinct).
  destruct (admission_reachable_wf _ _ _ Hnew Ha) as [Hl Hr Hw Hrc Hwcap _ _].
  destruct (probe_reachable_wf _ _ Hlimit Hp) as [Hs _ Hsc _ Hcap _ _].
  pose proof (connections_counted_run _ _ Hc) as Hopen. split_and!; [done|..].
  - exists (adm_rpcs a), (adm_watches a), (MaxRPCs (adm_limits a)), (MaxWatches (adm_limits a)).
    split_and!; try reflexivity; try done; by rewrite Hl.
  - by rewrite <-Hopen.
  - exists (probeSlots p). split_and!; [reflexivity|done|lia].
  - repeat constructor; apply watch_gauge; try reflexivity; by eapply watch_run_wf; [apply no_watch_wf|].
Qed.
End claims.

(** ** A concrete scrape *)

Lemma scrape_honest_witness :
  ∃ a0 a c p h, newAdmission one_rpc = inr a0 ∧ admission_run example_requests a0 = Some a
    ∧ connections_run example_connections = Some c
    ∧ probe_run example_actions (configureProbeLimits 2) = Some p ∧ watch_run example_watches no_watch = Some h
    ∧ NoDup (scrape a c no_metrics 0 p (Build_ca_counters 0 0 0 0) newPriorityQueue
               {| ready := true; clusterWatch := h; podWatch := h; secretWatch := h |}).*1.
Proof.
  destruct (newAdmission one_rpc) as [err|a0] eqn:Hnew; [vm_compute in Hnew; discriminate Hnew|].
  destruct (admission_run example_requests a0) as [a|] eqn:Ha.
  2: { vm_compute in Hnew. injection Hnew as <-. vm_compute in Ha. discriminate Ha. }
  destruct (connections_run example_connections) as [c|] eqn:Hc; [|vm_compute in Hc; discriminate Hc].
  destruct (probe_run example_actions (configureProbeLimits 2)) as [p|] eqn:Hp; [|vm_compute in Hp; discriminate Hp].
  destruct (watch_run example_watches no_watch) as [h|] eqn:Hh; [|vm_compute in Hh; discriminate Hh].
  exists a0, a, c, p, h. split_and!; try done.
  apply (scrape_honest one_rpc a0 a example_connections c 2 p example_watches example_watches example_watches
    {| ready := true; clusterWatch := h; podWatch := h; secretWatch := h |} no_metrics 0 (Build_ca_counters 0 0 0 0)
    newPriorityQueue Hnew (admission_run_reachable _ _ _ Ha) Hc ltac:(lia)); [|exact Hh..].
  by eapply probe_run_reachable; [apply probe_init|exact Hp].
Defined.
